(* ===== verification/_CoqProject ===== *)
-Q . S2P
Prelude.v
Bytes.v
Device.v
Str.v
Fat16Name.v
Fat16Entry.v
Fat16Fs.v
Fat16File.v
Fat16Path.v
Rootfs.v
Num.v
StorageTests.v
Size.v
Config.v
Shell.v
Ata.v
AtaDisk.v
Uart.v
Apic.v
X86.v
Logger.v
Frames.v
ElfMap.v
ElfLoad.v
ElfDirect.v
Boot.v
BootDemo.v
Sync.v
Threads.v
ForkJoin.v
Counter.v
MessageQueue.v
Progress.v
Philo.v
Fish.v
ForkApp.v
Resource.v
Vm.v
HeapLife.v
HeapLeak.v
BrkApp.v
Process.v
Regs.v
Manager.v
Listing.v
Processors.v
Syscall.v
Demo.v
Abi.v
Console.v
Fact.v
Interrupts.v
Gdt.v
KernelInit.v
Sched.v
KernelRef.v
KernelEntry.v
KernelView.v
KernelMem.v
KernelHeap.v
StatCall.v
KernelStart.v
KernelMain.v
Fairness.v
KernelProps.v
