(* ===== verification/Prelude.v ===== *)
(** * YatSenOS v2, verified

    A development beside the sources of YatSenOS v2, an x86-64 operating system in Rust: a UEFI boot loader, a kernel with processes,
    virtual memory, semaphores, an ATA disk and a FAT16 file system, a user library and the programs that run on it.  Paths below are
    relative to [src/pkg/].

    ** The program and its parts

    [boot] reads [boot.conf] and the kernel, maps physical memory and the kernel (with [elf]) and jumps to it.  [kernel] sets up the serial
    port, the frame allocator, the interrupt controllers and the interrupt table, mounts the root file system ([storage] on the ATA driver)
    and starts the shell.  From then on everything happens in entries into the kernel: the timer interrupt switches processes, [int 0x80]
    makes a system call, a page fault grows a stack, a key arrives from the serial line.  The programs of [app] use the kernel through
    [lib] and [syscall].

    ** The files

    Shared:
    - this file: outcomes of a Rust computation ([Ret], [Panic], [Timeout]), [Result], the state monads with their notations, the wrap-around of machine
      integers, shared lemmas, tactics and hints;
    - [Bytes], [Str], [Num]: slices and little-endian fields, strings and UTF-8, numbers as text (the standard library that is used).

    Storage ([storage], [kernel/src/drivers/{ata,filesystem.rs}]):
    - [Device]: block devices as a class with laws, [Partition], [MbrTable] ([common/{block,device,error}.rs], [partition/]);
    - [Fat16Name], [Fat16Entry], [Fat16Fs], [Fat16File], [Fat16Path]: names, the boot parameter block and directory entries, the volume, files and mounts,
      and paths over a map of the file system ([fs/fat16/], [common/{io,mount,metadata,filesystem}.rs]); [StorageTests]: the crate's unit tests, run on the model;
    - [Ata], [AtaDisk]: the ATA driver on ports, and what it makes of a device of any speed; [Rootfs]: [filesystem::init].

    Boot:
    - [Config] ([boot/src/config.rs]), [X86] (the crates and the machine, as classes), [ElfMap], [ElfLoad], [ElfDirect] ([elf/src/lib.rs]),
      [Boot] ([boot/src/{main,fs,allocator,lib}.rs]), [BootDemo] (a small computer on which the boot loader is run).

    Kernel ([kernel/src]):
    - [Frames] ([memory/{frames,address,mod}.rs]); [Uart], [Apic], [Interrupts], [Gdt] ([drivers/uart16550.rs], [interrupt/], [memory/gdt.rs]); [Size]
      ([utils/mod.rs]: sizes in units, as single-precision numbers); [Logger] ([utils/logger.rs]);
    - [Sync] ([proc/sync.rs]), [Resource] ([utils/resource.rs], the key buffer), [Vm] ([proc/{paging,vm/}]), [Process]
      ([proc/{process,data,context,pid}.rs]), [Regs] (the assembly of [utils/regs.rs]), [Manager] ([proc/{manager,mod}.rs]), [Listing] (the process list, and
      [ls]), [Processors] ([proc/processor.rs]), [Syscall] ([interrupt/syscall/]);
    - [KernelInit], [KernelMain] ([lib.rs], [main.rs]): [init] of the kernel on its state and the hardware, the start of the shell, and the loop that waits for it;
    - [Sched], [KernelRef], [KernelEntry], [KernelView], [KernelMem], [KernelHeap], [StatCall], [KernelStart], [Fairness], [KernelProps]: what the kernel promises; [Demo]: a concrete kernel.

    Programs ([lib], [syscall], [app]):
    - [Abi] ([syscall/src/macros.rs], [lib/src/syscall.rs]), [Console] ([lib/src/io.rs], [drivers/input.rs]), [HeapLife]
      ([lib/src/allocator/brk.rs], [memory/user.rs]), [HeapLeak] (the heap after a refused request), [BrkApp] ([app/brk]);
    - [Threads], [ForkJoin], [Progress]: programs of several processes, under every schedule; [Counter] ([app/{sem,spin}], [lib/src/sync.rs]),
      [MessageQueue] ([app/mq]), [Philo], [Fish], [ForkApp], and the sequential [Fact] and [Shell] ([app/sh]).

    ** What the theorems show

    - Scheduling: [Sched] is an abstract scheduler (statuses, a ready queue, places to wait).  Every entry into the kernel that returns is a
      transition of it ([kernel_entry_refines]); its invariant holds in every state reachable from boot ([kernel_reachable_inv]); the counts of
      shared page tables are exact ([page_table_counts]), whence the timer interrupt always returns ([clock_returns]); heaps end in their region and
      are shared together with their tables ([heaps_in_region]); no ready process starves ([no_starvation]); the process list shows this state
      ([process_list_shows]).
    - System calls: the registers arrive at the dispatcher and the result at the program ([syscall_abi]); fork copies and shares what it
      should, exit codes reach the waiting processes, and user arguments that panic the kernel are listed ([KernelProps]).
    - Memory: frames are conserved; mapping and unmapping are inverse, and unmapping gives back the frames that were mapped; [brk] and stack growth map
      exactly the pages they should, with the flags that let a user write to them; loading an ELF
      file puts its bytes where the page table says ([load_elf_loads]); a refused [brk] leaves pages behind that block the heap from then on
      ([brk_failure_sticks]); [app/brk] reads back what it wrote and leaves an empty heap ([brk_program]).
    - Boot: the boot loader panics or hands over a machine with the window, the kernel, its stack and the boot information in place; the kernel's
      [init] panics or takes it to a reachable state with memory, interrupts and the root file system set up ([kernel_starts]); its segments are in place ([segments_ready]);
      the wait for the shell ends at the first look after the shell's end, which cannot be missed ([kernel_waits]).
    - Storage: the ATA driver refines a list of blocks, with the answers to writes as reliable as the device is quick ([ata_refines_disk]); partitions are confined; the geometry of a volume is exact; lookup and reading give what
      is on the disk, and the operations on paths answer from a map of paths to entries ([path_operations_refine]); names and configurations survive printing and parsing; the root file system is that of the first active partition.
    - Devices: the serial port prints what it is given; interrupts reach the handlers that are meant; sizes are shown in the right unit below 2^40 - 2^15 bytes,
      and larger ones panic ([humanized_size_units]).
    - Programs: [sem], [spin], [mq], [philo] and [fish] under every schedule: exclusion, no deadlock ([philo]: until a sleep goes over midnight), and the result;
      [fact] and [sh] on every input.

    ** Modelling

    - Integers are in [Z] with the wrap-around written out ([u8] ... [u64]): a release build, where arithmetic wraps and [debug_assert!] is off.
      Panics are a value of every result, so a theorem that says that code returns says that it does not panic.
    - State is passed explicitly.  What Rust shares with [Arc] is a number, looked up in the state, where a count matters with its count.
      Locks are taken with interrupts disabled on the one processor, and are no-ops.  [BTreeSet] is an ascending list.
    - Code outside the repository (the crates [x86_64], [xmas_elf], [uefi], [chrono], [bitflags], [crossbeam], [linked_list_allocator]) and the
      hardware are classes; what is relied on is stated in classes of laws, and each has an instance on which the witnesses run.  Of a page the machine shows the frame and the flags of its entry; where a theorem says that a program's
      access does not fault, the processor checks the flags ([UserMemoryLaws]).  Logging is on or
      off by a class as well, since arguments of [trace!] can panic.
    - Entries into the kernel come from a running process that is not the kernel's, with process numbers not used up ([pid_counter] + 1 < 2^16).
      A key, a timer interrupt or another process may come between any two steps of a program.

    ** Fuel and bounds

    Loops that the code does not bound take fuel, and running out of it is [Timeout], which no theorem takes for an answer.  The ATA and UART
    drivers poll: fuel above the delay of the hardware is enough.  The traversal of a directory takes one unit per cluster, and one is enough for the
    root ([dir_holds] counts them); reading a file into a [Vec] takes one per block.  The line loops take one per poll of the schedule of keys.  A fork tries 2^16 places for
    the stack, more than there are.  [sleep] takes one per reading of the clock.  The kernel's wait takes one batch of entries per [hlt].  The search in [ForkApp] takes one per step, and reports when it
    is not enough.

    ** Not modelled

    The layout of printed text (widths, separators, [Debug] of kernel data) and the panic handlers; the kernel's heap, which is [linked_list_allocator];
    further processors (the boot processor is the only one that runs); interrupts that arrive while [init] still mounts the file system, the
    test of the kernel's stack at its end ([grow_stack] in [kernel/src/lib.rs]), and the call of the firmware that turns the machine off; the programs [hello] and [mytest], which print a text or
    start other programs.  Bounds on stack and code of a process across its life are hypotheses where they are needed ([process_list_shows]). *)

From stdpp Require Import base numbers list gmap.
From Stdlib Require Import Lia.

Declare Scope ysos_scope.
Delimit Scope ysos_scope with ysos.
Global Open Scope Z_scope.
Global Open Scope ysos_scope.

(** ** Outcomes of a computation

    A Rust call can return, panic ([unwrap] on [None], an index out of range,
    an [expect]) or, for a loop modelled with fuel, need more steps than the
    fuel allows.  The last two are kept apart, so that no theorem can confuse
    an exhausted fuel with an answer. *)
Inductive outcome (A : Type) : Type :=
| Ret (a : A)
| Panic
| Timeout.
Arguments Ret {A} a.
Arguments Panic {A}.
Arguments Timeout {A}.

Global Instance outcome_ret : MRet outcome := fun A a => Ret a.
Global Instance outcome_bind : MBind outcome := fun A B f m =>
  match m with Ret a => f a | Panic => Panic | Timeout => Timeout end.
Global Instance outcome_fmap : FMap outcome := fun A B f m =>
  match m with Ret a => Ret (f a) | Panic => Panic | Timeout => Timeout end.

(** Rust's [Result<T, E>]. *)
Inductive result (T E : Type) : Type :=
| Ok (t : T)
| Err (e : E).
Arguments Ok {T E} t.
Arguments Err {T E} e.

(** [m?]: run [m], return early with its error, go on with its value. *)
Definition try_bind {T U E} (m : outcome (result T E))
    (k : T -> outcome (result U E)) : outcome (result U E) :=
  match m with
  | Ret (Ok t) => k t
  | Ret (Err e) => Ret (Err e)
  | Panic => Panic
  | Timeout => Timeout
  end.
Notation "x <-? m ;; k" := (try_bind m (fun x => k))
  (at level 100, m at next level, right associativity) : ysos_scope.

(** [m.unwrap()] on a [Result] and on an [Option]. *)
Definition unwrap_result {T E} (r : result T E) : outcome T :=
  match r with Ok t => Ret t | Err _ => Panic end.
Definition unwrap {T} (o : option T) : outcome T :=
  match o with Some t => Ret t | None => Panic end.

Global Instance result_eq_dec {T E} `{EqDecision T, EqDecision E} :
  EqDecision (result T E).
Proof. solve_decision. Defined.
Global Instance outcome_eq_dec {A} `{EqDecision A} : EqDecision (outcome A).
Proof. solve_decision. Defined.

(** ** State-passing code

    [ST S A]: code that reads and writes a state [S], and may panic. *)
Definition ST (S A : Type) : Type := S -> outcome (A * S).
Global Instance ST_ret {S} : MRet (ST S) := fun A a s => Ret (a, s).
Global Instance ST_bind {S} : MBind (ST S) := fun A B f m s =>
  match m s with
  | Ret (a, s') => f a s'
  | Panic => Panic
  | Timeout => Timeout
  end.
Definition st_get {S} : ST S S := fun s => Ret (s, s).
Definition st_gets {S A} (f : S -> A) : ST S A := fun s => Ret (f s, s).
Definition st_modify {S} (f : S -> S) : ST S unit := fun s => Ret (tt, f s).
Definition st_lift {S A} (m : outcome A) : ST S A := fun s =>
  match m with Ret a => Ret (a, s) | Panic => Panic | Timeout => Timeout end.
Definition st_panic {S A} : ST S A := fun _ => Panic.
(** [m?] in state-passing code. *)
Definition st_try {S T U E} (m : ST S (result T E)) (k : T -> ST S (result U E))
    : ST S (result U E) := fun s =>
  match m s with
  | Ret (Ok t, s') => k t s'
  | Ret (Err e, s') => Ret (Err e, s')
  | Panic => Panic
  | Timeout => Timeout
  end.
Notation "x <-! m ;; k" := (st_try m (fun x => k))
  (at level 100, m at next level, right associativity) : ysos_scope.

(** Running state-passing code, one operation at a time. *)
Lemma st_lift_bind {S A B} (x : A) (k : A -> ST S B) s : (st_lift (Ret x) ≫= k) s = k x s.
Proof. done. Qed.
Lemma st_ret_bind {S A B} (x : A) (k : A -> ST S B) s : (mret x ≫= k) s = k x s.
Proof. done. Qed.
Lemma st_bind_run {S A B} (m : ST S A) (k : A -> ST S B) s x s' :
  m s = Ret (x, s') -> (m ≫= k) s = k x s'.
Proof. intros E. unfold mbind, ST_bind. by rewrite E. Qed.
Lemma st_try_ok {S T U E} (m : ST S (result T E)) (k : T -> ST S (result U E)) s t s' :
  m s = Ret (Ok t, s') -> st_try m k s = k t s'.
Proof. intros H. unfold st_try. by rewrite H. Qed.
Lemma st_try_err {S T U E} (m : ST S (result T E)) (k : T -> ST S (result U E)) s e s' :
  m s = Ret (Err e, s') -> st_try m k s = Ret (Err e, s').
Proof. intros H. unfold st_try. by rewrite H. Qed.

Lemma st_try_ext {S T U E} (m1 m2 : ST S (result T E)) (k1 k2 : T -> ST S (result U E)) s :
  (forall s, m1 s = m2 s) -> (forall t s, k1 t s = k2 t s) -> st_try m1 k1 s = st_try m2 k2 s.
Proof. intros Hm Hk. unfold st_try. rewrite Hm. destruct (m2 s) as [[[t|e] s']| |]; auto. Qed.

(** What a returning run did. *)
Lemma st_bind_inv {S A B} (m : ST S A) (f : A -> ST S B) s y s2 :
  (m ≫= f) s = Ret (y, s2) -> exists x s1, m s = Ret (x, s1) /\ f x s1 = Ret (y, s2).
Proof. unfold mbind, ST_bind. destruct (m s) as [[x s1]| |]; [eauto|done..]. Qed.
Lemma st_try_inv {S T U E} (m : ST S (result T E)) (f : T -> ST S (result U E)) s y s2 :
  st_try m f s = Ret (y, s2) ->
  (exists x s1, m s = Ret (Ok x, s1) /\ f x s1 = Ret (y, s2)) \/
  (exists e, m s = Ret (Err e, s2) /\ y = Err e).
Proof. unfold st_try. destruct (m s) as [[[x|e] s1]| |]; [eauto| |done..]. intros [= <- <-]. eauto. Qed.
Lemma st_lift_inv {S A} (o : outcome A) (s : S) x s1 :
  st_lift o s = Ret (x, s1) -> o = Ret x /\ s1 = s.
Proof. unfold st_lift. destruct o; [|done..]. by intros [= -> ->]. Qed.
Lemma st_unwrap_inv {S A} (o : option A) (s : S) x s1 :
  st_lift (unwrap o) s = Ret (x, s1) -> o = Some x /\ s1 = s.
Proof. intros [E ->]%st_lift_inv. destruct o; [|done]. by injection E as ->. Qed.

Lemma st_lift_bind_inv {S A B} (o : outcome A) (f : A -> ST S B) s r :
  (st_lift o ≫= f) s = Ret r -> exists x, o = Ret x /\ f x s = Ret r.
Proof. unfold mbind, ST_bind, st_lift. destruct o; [eauto|done..]. Qed.

(** Operations that leave part of the state alone: [g] is the same after as before. *)
Definition keeps {S B A} (g : S -> B) (f : ST S A) : Prop :=
  forall s x s1, f s = Ret (x, s1) -> g s1 = g s.
Lemma keeps_ret {S B A} (g : S -> B) (x : A) : keeps g (mret x).
Proof. intros s y s1 [= _ ->]. done. Qed.
Lemma keeps_bind {S B A A'} (g : S -> B) (m : ST S A) (f : A -> ST S A') :
  keeps g m -> (forall x, keeps g (f x)) -> keeps g (m ≫= f).
Proof. intros Hm Hf s y s2 (x & s1 & E1 & E2)%st_bind_inv. rewrite (Hf _ _ _ _ E2). eauto. Qed.
Lemma keeps_try {S B T U E} (g : S -> B) (m : ST S (result T E)) (f : T -> ST S (result U E)) :
  keeps g m -> (forall x, keeps g (f x)) -> keeps g (st_try m f).
Proof.
  intros Hm Hf s y s2 [(x & s1 & E1 & E2)|(e & E1 & _)]%st_try_inv; [|eauto].
  rewrite (Hf _ _ _ _ E2). eauto.
Qed.
Lemma keeps_lift {S B A} (g : S -> B) (o : outcome A) : keeps g (st_lift o).
Proof. intros s x s1 [_ ->]%st_lift_inv. done. Qed.
Lemma keeps_modify {S B} (g : S -> B) (h : S -> S) : (forall s, g (h s) = g s) -> keeps g (st_modify h).
Proof. intros Hg s x s1 [= _ <-]. apply Hg. Qed.
Lemma keeps_gets {S B A} (g : S -> B) (h : S -> A) : keeps g (st_gets h).
Proof. intros s x s1 [= _ <-]. done. Qed.
Lemma keeps_get {S B} (g : S -> B) : keeps g (@st_get S).
Proof. intros s x s1 [= _ <-]. done. Qed.
Lemma keeps_panic {S B A} (g : S -> B) : keeps g (@st_panic S A).
Proof. intros s x s1 [=]. Qed.

Create HintDb keeps.
#[export] Hint Resolve keeps_ret keeps_lift keeps_gets keeps_get keeps_panic : keeps.

(** ** Machine integers

    Unsigned integers are [Z] values; arithmetic wraps at the width, which is
    what the release build (the Makefile's default) does. *)
Definition wrap (w x : Z) : Z := x mod 2 ^ w.
Abbreviation u8 := (wrap 8).
Abbreviation u16 := (wrap 16).
Abbreviation u32 := (wrap 32).
Abbreviation u64 := (wrap 64).
(** [x as isize] and [x as usize] between the two 64-bit types. *)
Definition as_isize (x : Z) : Z := if x <? 2 ^ 63 then x else x - 2 ^ 64.
Definition as_usize (x : Z) : Z := x mod 2 ^ 64.
Definition USIZE_MAX : Z := 2 ^ 64 - 1.

Definition in_width (w x : Z) : Prop := 0 <= x < 2 ^ w.
Global Instance in_width_dec w x : Decision (in_width w x).
Proof. unfold in_width. apply _. Defined.

Lemma wrap_range w x : 0 <= w -> 0 <= wrap w x < 2 ^ w.
Proof. intros. apply Z.mod_pos_bound, Z.pow_pos_nonneg; lia. Qed.
Lemma wrap_small w x : 0 <= x < 2 ^ w -> wrap w x = x.
Proof. apply Z.mod_small. Qed.
Lemma wrap_wrap w x : wrap w (wrap w x) = wrap w x.
Proof. apply Z.mod_mod_divide; exists 1; lia. Qed.
Lemma as_usize_isize x : in_width 64 x -> as_usize (as_isize x) = x.
Proof.
  unfold in_width, as_usize, as_isize. intros H. destruct (Z.ltb_spec x (2 ^ 63)).
  - apply Z.mod_small; lia.
  - symmetry; apply (Z.mod_unique _ _ (-1)); lia.
Qed.
Lemma as_isize_usize z : - 2 ^ 63 <= z < 2 ^ 63 -> as_isize (as_usize z) = z.
Proof.
  unfold as_usize, as_isize. intros H. destruct (decide (0 <= z)).
  - rewrite Z.mod_small by lia. destruct (Z.ltb_spec z (2 ^ 63)); lia.
  - replace (z mod 2 ^ 64) with (z + 2 ^ 64) by (apply (Z.mod_unique _ _ (-1)); lia).
    destruct (Z.ltb_spec (z + 2 ^ 64) (2 ^ 63)); lia.
Qed.

(** [or] of a part above bit [w] and a part below is their sum. *)
Lemma lor_disjoint w a b : 0 <= w -> 0 <= b < 2 ^ w -> a mod 2 ^ w = 0 -> Z.lor b a = a + b.
Proof.
  intros Hw Hb Hm. assert (Hz : Z.land b a = 0).
  { apply Z.bits_inj'. intros i Hi. rewrite Z.land_spec, Z.bits_0. destruct (decide (i < w)).
    - rewrite <- (Z.mod_pow2_bits_low a w i), Hm, Z.bits_0 by lia. apply andb_false_r.
    - rewrite <- (Z.mod_small b (2 ^ w)), Z.mod_pow2_bits_high by lia. done. }
  rewrite <- Z.lxor_lor, <- Z.add_nocarry_lxor by done. lia.
Qed.

(** ** Lists *)

Lemma Forall2_impl_in {A B} (P Q : A -> B -> Prop) l k :
  Forall2 P l k -> (forall x y, x ∈ l -> P x y -> Q x y) -> Forall2 Q l k.
Proof.
  induction 1 as [|x y l k Hxy Hlk IH]; intros HPQ; constructor.
  - apply HPQ; [apply elem_of_cons; auto|done].
  - apply IH. intros u v Hu. apply HPQ, elem_of_cons. auto.
Qed.

(** ** Tactics *)

(** Take a [keeps] goal apart along the code. *)
Ltac keeps_step :=
  match goal with
  | |- keeps _ (mbind _ _) => apply keeps_bind; [|intros ?]
  | |- keeps _ (st_try _ _) => apply keeps_try; [|intros ?]
  | |- keeps _ (st_modify _) => apply keeps_modify; done
  | |- keeps _ (if ?b then _ else _) => destruct b
  | |- keeps _ (match ?x with _ => _ end) => destruct x
  | |- keeps _ (let '(_, _) := ?x in _) => destruct x
  | |- keeps _ _ => solve [eauto with keeps]
  end.
Ltac keeps_solve := repeat (cbv zeta; keeps_step).

(** Take a returning run apart: [H : code s = Ret (x, s')]. *)
Ltac st_inv H :=
  lazymatch type of H with
  | (mbind _ _) _ = Ret _ =>
      let x := fresh "x" in let s1 := fresh "k" in let E := fresh "E" in
      apply st_bind_inv in H as (x & s1 & E & H); st_inv E; cbv beta in H; st_inv H
  | st_lift (unwrap _) _ = Ret _ => apply st_unwrap_inv in H as [? H]; subst
  | st_lift _ _ = Ret _ => apply st_lift_inv in H as [? H]; subst
  | st_modify _ _ = Ret _ => unfold st_modify in H; injection H as ? ?; subst
  | st_gets _ _ = Ret _ => unfold st_gets in H; injection H as ? ?; subst
  | mret _ _ = Ret _ => injection H as ? ?; subst
  | _ => idtac
  end.

(** [lia] with quotients and remainders. *)
Ltac zdiv := Z.to_euclidean_division_equations; lia.
