(* ===== verification/Bytes.v ===== *)
(** * Byte buffers, slices and little-endian fields

    A byte is a [Z] in [0, 256) and a buffer ([[u8; N]], [&[u8]], [Vec<u8>]) is
    a list of them.  The file holds the slicing and indexing operations of the
    language (which panic out of range), [from_le_bytes]/[to_le_bytes], and the
    accessors that the macro [define_field!] of
    [pkg/storage/src/common/macros.rs] generates. *)

From stdpp Require Import base numbers list.
From S2P Require Import Prelude.

Abbreviation bytes := (list Z).
Definition byte_ok (b : Z) : Prop := 0 <= b < 256.
Definition bytes_ok (l : bytes) : Prop := Forall byte_ok l.
Global Instance byte_ok_dec b : Decision (byte_ok b).
Proof. unfold byte_ok. apply _. Defined.
Global Instance bytes_ok_dec l : Decision (bytes_ok l).
Proof. unfold bytes_ok. apply _. Defined.

Definition zlen {A} (l : list A) : Z := Z.of_nat (length l).

(** [&l[a..b]]: panics unless [a <= b <= l.len()]. *)
Definition slice {A} (l : list A) (a b : Z) : outcome (list A) :=
  if decide (0 <= a <= b /\ b <= zlen l)
  then Ret (take (Z.to_nat (b - a)) (drop (Z.to_nat a) l))
  else Panic.

(** [l[i]]: panics out of range. *)
Definition index {A} (l : list A) (i : Z) : outcome A :=
  if decide (0 <= i) then unwrap (l !! Z.to_nat i) else Panic.

(** The [n] bytes at offset [off]; on an array long enough this is the slice. *)
Definition sub_bytes {A} (l : list A) (off n : nat) : list A := take n (drop off l).

(** Little-endian value of a buffer ([uN::from_le_bytes]) and the reverse
    ([to_le_bytes] at [n] bytes). *)
Fixpoint le_num (l : bytes) : Z :=
  match l with [] => 0 | b :: l' => b + 256 * le_num l' end.
Fixpoint le_bytes (n : nat) (x : Z) : bytes :=
  match n with O => [] | S n' => x mod 256 :: le_bytes n' (x / 256) end.

(** The accessors generated by [define_field!]. *)
Definition field_u8 (data : bytes) (off : nat) : Z := default 0 (data !! off).
Definition field_u16 (data : bytes) (off : nat) : Z := le_num (sub_bytes data off 2).
Definition field_u32 (data : bytes) (off : nat) : Z := le_num (sub_bytes data off 4).
Definition field_arr (data : bytes) (off n : nat) : bytes := sub_bytes data off n.

(** ** Lemmas *)

Lemma slice_sub_bytes {A} (l : list A) (a n : nat) :
  (a + n <= length l)%nat ->
  slice l (Z.of_nat a) (Z.of_nat a + Z.of_nat n) = Ret (sub_bytes l a n).
Proof.
  intros H. unfold slice, sub_bytes, zlen. rewrite decide_True by lia.
  do 2 f_equal; [lia|]. f_equal. lia.
Qed.

Lemma slice_Ret_inv {A} (l l' : list A) a b :
  slice l a b = Ret l' ->
  0 <= a <= b /\ b <= zlen l /\ l' = sub_bytes l (Z.to_nat a) (Z.to_nat (b - a)).
Proof. unfold slice, sub_bytes. case_decide; [|done]. intros [= <-]. tauto. Qed.

Lemma length_sub_bytes {A} (l : list A) (a n : nat) :
  (a + n <= length l)%nat -> length (sub_bytes l a n) = n.
Proof. intros. unfold sub_bytes. rewrite length_take, length_drop. lia. Qed.

Lemma bytes_ok_take n l : bytes_ok l -> bytes_ok (take n l).
Proof. apply Forall_take. Qed.
Lemma bytes_ok_drop n l : bytes_ok l -> bytes_ok (drop n l).
Proof. apply Forall_drop. Qed.
Lemma bytes_ok_sub l a n : bytes_ok l -> bytes_ok (sub_bytes l a n).
Proof. intros. by apply bytes_ok_take, bytes_ok_drop. Qed.
Lemma bytes_ok_app l k : bytes_ok (l ++ k) <-> bytes_ok l /\ bytes_ok k.
Proof. apply Forall_app. Qed.
Lemma bytes_ok_replicate n b : byte_ok b -> bytes_ok (replicate n b).
Proof. intros. by apply Forall_replicate. Qed.

Create HintDb bytes.
#[export] Hint Resolve bytes_ok_take bytes_ok_drop bytes_ok_sub
  bytes_ok_replicate : bytes.

Lemma le_num_range l : bytes_ok l -> 0 <= le_num l < 256 ^ zlen l.
Proof.
  unfold zlen. induction 1 as [|b l Hb Hl IH]; simpl length; [simpl; lia|].
  rewrite Nat2Z.inj_succ, Z.pow_succ_r by lia. unfold byte_ok in Hb. cbn [le_num]. lia.
Qed.

Lemma le_num_le_bytes n x : le_num (le_bytes n x) = x mod 256 ^ Z.of_nat n.
Proof.
  revert x. induction n as [|n IH]; intros x; [by rewrite Z.mod_1_r|].
  cbn [le_bytes le_num]. rewrite IH, Nat2Z.inj_succ, Z.pow_succ_r by lia.
  rewrite Z.rem_mul_r by lia. lia.
Qed.

Lemma le_bytes_le_num l : bytes_ok l -> le_bytes (length l) (le_num l) = l.
Proof.
  induction 1 as [|b l Hb Hl IH]; [done|]. unfold byte_ok in Hb.
  cbn [length le_bytes le_num]. f_equal.
  - rewrite Z.mul_comm, Z_mod_plus_full. apply Z.mod_small; lia.
  - rewrite Z.mul_comm, Z_div_plus_full by lia.
    by rewrite (Z.div_small b), Z.add_0_l, IH by lia.
Qed.

Lemma length_le_bytes n x : length (le_bytes n x) = n.
Proof. revert x; induction n; intros; simpl; auto. Qed.

Lemma le_bytes_ok n x : bytes_ok (le_bytes n x).
Proof.
  revert x; induction n as [|n IH]; intros x; simpl; constructor; [|apply IH].
  apply Z.mod_pos_bound; lia.
Qed.
#[export] Hint Resolve le_bytes_ok : bytes.

Lemma field_u8_range data off : bytes_ok data -> 0 <= field_u8 data off < 2 ^ 8.
Proof.
  intros H. unfold field_u8. destruct (data !! off) eqn:E; simpl; [|lia].
  by apply (Forall_lookup_1 _ _ _ _ H E).
Qed.

Lemma le_num_sub_range data off n :
  bytes_ok data -> 0 <= le_num (sub_bytes data off n) < 2 ^ (8 * Z.of_nat n).
Proof.
  intros H. pose proof (le_num_range _ (bytes_ok_sub data off n H)) as Hr.
  assert (zlen (sub_bytes data off n) <= Z.of_nat n).
  { unfold zlen, sub_bytes. rewrite length_take. lia. }
  rewrite Z.pow_mul_r by lia. change (2 ^ 8) with 256.
  assert (256 ^ zlen (sub_bytes data off n) <= 256 ^ Z.of_nat n)
    by (apply Z.pow_le_mono_r; lia). lia.
Qed.

Lemma field_u16_range data off : bytes_ok data -> 0 <= field_u16 data off < 2 ^ 16.
Proof. apply le_num_sub_range. Qed.
Lemma field_u32_range data off : bytes_ok data -> 0 <= field_u32 data off < 2 ^ 32.
Proof. apply le_num_sub_range. Qed.

(** Reading a field at the place where it was written. *)
Lemma sub_bytes_app {A} (p m s : list A) :
  sub_bytes (p ++ m ++ s) (length p) (length m) = m.
Proof.
  unfold sub_bytes. rewrite drop_app_length.
  by rewrite take_app_length.
Qed.

Lemma slice_at {A} (l : list A) a b (n m : nat) :
  a = Z.of_nat n -> b = Z.of_nat (n + m) -> (n + m <= length l)%nat ->
  slice l a b = Ret (sub_bytes l n m).
Proof.
  intros -> -> H. rewrite <- slice_sub_bytes by done. f_equal. lia.
Qed.

Lemma index_at {A} (l : list A) i (n : nat) x :
  i = Z.of_nat n -> l !! n = Some x -> index l i = Ret x.
Proof.
  intros -> H. unfold index. rewrite decide_True by lia. by rewrite Nat2Z.id, H.
Qed.

(** A list of known length ([H : length l = n]) is the list of its elements. *)
Ltac explode_list l H :=
  repeat (destruct l as [|? l]; [discriminate H|]);
  destruct l; [clear H|discriminate H].

(** ** Flags *)

(** The operations that [bitflags!] generates; a flags value is its bits. *)
Class Bitflags : Type := {
  (** [T::from_bits(bits)] for a type whose declared flags have the union
      [known]. *)
  from_bits : Z -> Z -> option Z;
  (** [a.contains(b)] *)
  contains : Z -> Z -> bool;
}.
(** [from_bits] returns [None] exactly when an unknown bit is set, and
    [contains] tests that all bits of the second argument are set. *)
Class BitflagsLaws `{Bitflags} : Prop := {
  from_bits_spec known b :
    from_bits known b = if Z.ldiff b known =? 0 then Some b else None;
  contains_spec a b : contains a b = (Z.land a b =? b);
}.
