(* ===== verification/Device.v ===== *)
(** * Block devices, partitions and the MBR

    Models [pkg/storage/src/common/{error,block,device}.rs] and
    [pkg/storage/src/partition/]: the [BlockDevice] trait as a class with the
    laws its clients rely on, [Partition] as a device over an inner device, and
    [MbrTable], which cuts a disk into partitions. *)

From stdpp Require Import base numbers list.
From S2P Require Import Prelude Bytes.

(** ** Errors ([common/error.rs]) *)
Inductive DeviceError : Type :=
| Busy | UnknownDevice | Unknown | DeviceInvalidOperation | ReadError | WriteError
| WithStatus (status : Z).

Inductive FilenameError : Type :=
| InvalidCharacter | FilenameEmpty | NameTooLong | MisplacedPeriod | Utf8Error
| UnableToParse.

(** A [String] is the list of its characters, as Unicode scalar values. *)
Inductive FsError : Type :=
| FileNotFound | NotInSector | EndOfFile | WriteZero | NotADirectory | NotAFile
| ReadOnly | InvalidOperation | NotSupported | BadCluster | InvalidOffset
| FileNameError (e : FilenameError)
| FsDeviceError (e : DeviceError)
| InvalidPath (path : list Z).

Global Instance DeviceError_eq_dec : EqDecision DeviceError.
Proof. solve_decision. Defined.
Global Instance FilenameError_eq_dec : EqDecision FilenameError.
Proof. solve_decision. Defined.
Global Instance FsError_eq_dec : EqDecision FsError.
Proof. solve_decision. Defined.

(** ** Blocks ([common/block.rs]): [Block<SIZE>] holds [SIZE] bytes. *)
Abbreviation Block := bytes.
Definition Block_default (SIZE : nat) : Block := replicate SIZE 0.
Definition block_ok (SIZE : nat) (b : Block) : Prop := length b = SIZE /\ bytes_ok b.

(** ** The [BlockDevice] trait ([common/device.rs]).  A write gives the device's
    new contents; a successful read fills the whole block. *)
Class BlockDevice (D : Type) : Type := {
  block_count : D -> result Z FsError;
  read_block : D -> Z -> result Block FsError;
  write_block : D -> Z -> Block -> result D FsError;
}.

(** What a client of the trait relies on, for blocks of [SIZE] bytes. *)
Class BlockDeviceLaws (D : Type) (SIZE : nat) `{BlockDevice D} : Prop := {
  read_block_ok d i b : read_block d i = Ok b -> block_ok SIZE b;
  read_write_same d d' i b :
    block_ok SIZE b -> write_block d i b = Ok d' -> read_block d' i = Ok b;
  read_write_other d d' i j b :
    write_block d i b = Ok d' -> i <> j -> read_block d' j = read_block d j;
}.

(** ** Partitions ([partition/mod.rs]) *)
Module Partition.

Record t (D : Type) : Type := mk { inner : D; offset : Z; size : Z }.
Arguments mk {D} _ _ _.
Arguments inner {D} _.
Arguments offset {D} _.
Arguments size {D} _.

Section ops.
Context {D : Type} `{BlockDevice D}.

Definition new (d : D) (offset size : Z) : t D := mk d offset size.

Definition block_count (p : t D) : result Z FsError := Device.block_count (inner p).

Definition read_block (p : t D) (off : Z) : result Block FsError :=
  if size p <=? off then Err InvalidOffset
  else Device.read_block (inner p) (u64 (off + offset p)).

Definition write_block (p : t D) (off : Z) (b : Block) : result (t D) FsError :=
  if size p <=? off then Err InvalidOffset
  else match Device.write_block (inner p) (u64 (off + offset p)) b with
       | Ok d' => Ok (mk d' (offset p) (size p))
       | Err e => Err e
       end.

End ops.
End Partition.

Global Instance Partition_BlockDevice {D} `{BlockDevice D} :
    BlockDevice (Partition.t D) := {
  block_count := Partition.block_count;
  read_block := Partition.read_block;
  write_block := Partition.write_block;
}.

(** ** The master boot record ([partition/mbr/]) *)
Module Mbr.

(** One 16-byte partition entry ([entry.rs]). *)
Record MbrPartition : Type := { data : bytes }.

Definition parse_entry (d : bytes) : MbrPartition := {| data := d |}.

Definition status (p : MbrPartition) : Z := field_u8 (data p) 0x00.
Definition begin_head (p : MbrPartition) : Z := field_u8 (data p) 0x01.
Definition partition_type (p : MbrPartition) : Z := field_u8 (data p) 0x04.
Definition end_head (p : MbrPartition) : Z := field_u8 (data p) 0x05.
Definition begin_lba (p : MbrPartition) : Z := field_u32 (data p) 0x08.
Definition total_lba (p : MbrPartition) : Z := field_u32 (data p) 0x0C.
Definition is_active (p : MbrPartition) : bool := status p =? 0x80.

(** Indexing a [[u8; 16]] at a constant below 16 does not panic. *)
Definition byte_at (p : MbrPartition) (i : nat) : Z := default 0 (data p !! i).
Definition begin_sector (p : MbrPartition) : Z := Z.land (byte_at p 0x02) 0x3F.
Definition begin_cylinder (p : MbrPartition) : Z :=
  Z.lor (u16 (Z.shiftl (Z.land (byte_at p 0x02) 0xC0) 2)) (byte_at p 0x03).
Definition end_sector (p : MbrPartition) : Z := Z.land (byte_at p 0x06) 0x3F.
Definition end_cylinder (p : MbrPartition) : Z :=
  Z.lor (u16 (Z.shiftl (Z.land (byte_at p 0x06) 0xC0) 2)) (byte_at p 0x07).

(** The table ([mod.rs]). *)
Record MbrTable (D : Type) : Type := { t_inner : D; t_partitions : list MbrPartition }.
Arguments t_inner {D} _.
Arguments t_partitions {D} _.

Section ops.
Context {D : Type} `{BlockDevice D}.

(** The loop [for i in 0..4] of [parse]: entry [i] is
    [buffer[0x1BE + i*16 .. 0x1BE + (i+1)*16]]. *)
Definition parse_slot (buffer : Block) (i : Z) : outcome MbrPartition :=
  d ← slice buffer (0x1BE + i * 16) (0x1BE + (i + 1) * 16);
  mret (parse_entry d).

Definition parse (inner : D) : outcome (result (MbrTable D) FsError) :=
  match Device.read_block inner 0 with
  | Err e => Ret (Err e)
  | Ok buffer =>
      p0 ← parse_slot buffer 0; p1 ← parse_slot buffer 1;
      p2 ← parse_slot buffer 2; p3 ← parse_slot buffer 3;
      Ret (Ok {| t_inner := inner; t_partitions := [p0; p1; p2; p3] |})
  end.

(** The loop of [partitions]: active entries only, in table order. *)
Fixpoint push_active (inner : D) (ps : list MbrPartition) : list (Partition.t D) :=
  match ps with
  | [] => []
  | p :: ps' =>
      if is_active p
      then Partition.new inner (begin_lba p) (total_lba p) :: push_active inner ps'
      else push_active inner ps'
  end.

Definition partitions (t : MbrTable D) : result (list (Partition.t D)) FsError :=
  Ok (push_active (t_inner t) (t_partitions t)).

End ops.
End Mbr.

(** ** An in-memory disk: a list of blocks.  A concrete device on which the laws
    hold, for the witnesses. *)
Module MemDisk.

Record t : Type := { blocks : list Block }.

Definition read (d : t) (i : Z) : result Block FsError :=
  if decide (0 <= i) then
    match blocks d !! Z.to_nat i with
    | Some b => if decide (length b = 512%nat /\ bytes_ok b) then Ok b
                else Err (FsDeviceError ReadError)
    | None => Err (FsDeviceError ReadError)
    end
  else Err (FsDeviceError ReadError).

Definition write (d : t) (i : Z) (b : Block) : result t FsError :=
  if decide (0 <= i < zlen (blocks d)) then
    Ok {| blocks := <[Z.to_nat i := b]> (blocks d) |}
  else Err (FsDeviceError WriteError).

End MemDisk.

Global Instance MemDisk_BlockDevice : BlockDevice MemDisk.t := {
  block_count d := Ok (zlen (MemDisk.blocks d));
  read_block := MemDisk.read;
  write_block := MemDisk.write;
}.

Global Instance MemDisk_laws : BlockDeviceLaws MemDisk.t 512.
Proof.
  constructor; simpl; unfold MemDisk.read, MemDisk.write, zlen; intros.
  - repeat case_decide; simplify_eq.
    destruct (MemDisk.blocks d !! Z.to_nat i); [|done]. by case_decide; simplify_eq.
  - case_decide; simplify_eq; simpl. rewrite decide_True by lia.
    rewrite list_lookup_insert_eq by lia. by rewrite decide_True.
  - case_decide; simplify_eq; simpl. case_decide; [|done].
    by rewrite list_lookup_insert_ne by lia.
Qed.

(** ** Properties of partitions *)
Section partition_laws.
Context {D : Type} {SIZE : nat} `{BlockDeviceLaws D SIZE}.

(** A partition whose end does not overflow a [usize]. *)
Definition part_ok (p : Partition.t D) : Prop :=
  0 <= Partition.offset p /\ Partition.offset p + Partition.size p < 2 ^ 64.

Lemma partition_addr (p : Partition.t D) off :
  part_ok p -> 0 <= off < Partition.size p ->
  u64 (off + Partition.offset p) = off + Partition.offset p.
Proof. intros [??] ?. apply wrap_small; lia. Qed.

Lemma partition_read_in (p : Partition.t D) off :
  part_ok p -> 0 <= off < Partition.size p ->
  Partition.read_block p off = read_block (Partition.inner p) (off + Partition.offset p).
Proof.
  intros Hp Ho. unfold Partition.read_block.
  destruct (Z.leb_spec (Partition.size p) off); [lia|]. by rewrite partition_addr.
Qed.

Lemma partition_write_inv (p p' : Partition.t D) off b :
  part_ok p -> 0 <= off -> Partition.write_block p off b = Ok p' ->
  off < Partition.size p /\ Partition.offset p' = Partition.offset p /\
  Partition.size p' = Partition.size p /\
  write_block (Partition.inner p) (off + Partition.offset p) b = Ok (Partition.inner p').
Proof.
  intros Hp Ho. unfold Partition.write_block.
  destruct (Z.leb_spec (Partition.size p) off); [done|].
  rewrite partition_addr by (auto; lia).
  destruct (Device.write_block _ _ b) eqn:E; [|done]. intros [= <-]. simpl. auto.
Qed.

End partition_laws.

(** C30: a partition is confined to its range and is itself a lawful device.
    After a successful write at [off], the inner device is unchanged at every
    block outside the partition, the block just written reads back, and every
    other block of the partition is unchanged; an access at or past the size
    fails with [InvalidOffset]. *)
Theorem partition_confined {D} {SIZE} `{BlockDeviceLaws D SIZE}
    (p : Partition.t D) off b :
  part_ok p -> 0 <= off -> block_ok SIZE b ->
  (Partition.size p <= off -> Partition.write_block p off b = Err InvalidOffset /\
                              Partition.read_block p off = Err InvalidOffset) /\
  (forall p', Partition.write_block p off b = Ok p' ->
    off < Partition.size p /\ part_ok p' /\
    (forall j, j < Partition.offset p \/ Partition.offset p + Partition.size p <= j ->
       read_block (Partition.inner p') j = read_block (Partition.inner p) j) /\
    Partition.read_block p' off = Ok b /\
    (forall j, 0 <= j -> j <> off ->
       Partition.read_block p' j = Partition.read_block p j)).
Proof.
  intros Hp Ho Hb. split.
  - intros Hs. unfold Partition.write_block, Partition.read_block.
    by rewrite (proj2 (Z.leb_le _ _) Hs).
  - intros p' (Hlt & Eo & Es & Hw)%partition_write_inv; [|done..].
    assert (Hp' : part_ok p') by (unfold part_ok in *; rewrite Eo, Es; lia).
    split_and!; [done..| | |].
    + intros j Hj. by apply (read_write_other _ _ _ _ _ Hw); lia.
    + rewrite partition_read_in by (auto; lia). rewrite Eo.
      by apply (read_write_same _ _ _ _ Hb Hw).
    + intros j Hj Hne. destruct (decide (j < Partition.size p)).
      * rewrite !partition_read_in by (auto; lia). rewrite Eo.
        by apply (read_write_other _ _ _ _ _ Hw); lia.
      * unfold Partition.read_block. rewrite Es.
        by rewrite (proj2 (Z.leb_le _ _)) by lia.
Qed.

Definition demo_disk : MemDisk.t :=
  {| MemDisk.blocks := replicate 8 (replicate 512 0) |}.
Definition demo_part : Partition.t MemDisk.t := Partition.new demo_disk 2 4.

Lemma partition_confined_witness :
  part_ok demo_part /\
  exists p', Partition.write_block demo_part 3 (replicate 512 7) = Ok p' /\
    Partition.read_block p' 3 = Ok (replicate 512 7) /\
    read_block (Partition.inner p') 1 = read_block demo_disk 1.
Proof.
  assert (Hp : part_ok demo_part) by (unfold part_ok, demo_part; simpl; lia).
  assert (Hb : block_ok 512 (replicate 512 7)).
  { split; [done|]. apply bytes_ok_replicate. unfold byte_ok; lia. }
  split; [exact Hp|]. eexists. split; [reflexivity|].
  destruct (partition_confined (SIZE := 512) demo_part 3 (replicate 512 7) Hp
              ltac:(lia) Hb) as [_ Hw].
  destruct (Hw _ eq_refl) as (_ & _ & Hout & Hin & _).
  split; [exact Hin|]. apply Hout. simpl. lia.
Defined.

(** ** Properties of the MBR *)

Lemma parse_slot_ok (b : Block) (i : nat) z :
  block_ok 512 b -> (i < 4)%nat -> z = Z.of_nat i ->
  Mbr.parse_slot b z = Ret (Mbr.parse_entry (sub_bytes b (446 + 16 * i) 16)).
Proof.
  intros [Hl _] Hi ->. unfold Mbr.parse_slot.
  replace (0x1BE + Z.of_nat i * 16) with (Z.of_nat (446 + 16 * i)) by lia.
  replace (0x1BE + (Z.of_nat i + 1) * 16) with (Z.of_nat (446 + 16 * i) + Z.of_nat 16) by lia.
  by rewrite slice_sub_bytes by lia.
Qed.

Lemma sub_sub_bytes {A} (b : list A) o n o' n' :
  (o' + n' <= n)%nat -> sub_bytes (sub_bytes b o n) o' n' = sub_bytes b (o + o') n'.
Proof.
  intros. unfold sub_bytes. rewrite skipn_firstn_comm, take_take, drop_drop.
  f_equal. lia.
Qed.

(** The slot [i] of a boot sector as a partition, when its status byte says so. *)
Definition mbr_slot_spec {D} (d : D) (b : Block) (i : nat) : option (Partition.t D) :=
  if le_num (sub_bytes b (446 + 16 * i) 1) =? 0x80
  then Some (Partition.mk d (le_num (sub_bytes b (446 + 16 * i + 8) 4))
                            (le_num (sub_bytes b (446 + 16 * i + 12) 4)))
  else None.

Lemma mbr_slot_entry {D} (d : D) `{BlockDevice D} b i ps :
  block_ok 512 b -> (i < 4)%nat ->
  Mbr.push_active d (Mbr.parse_entry (sub_bytes b (446 + 16 * i) 16) :: ps) =
  option_list (mbr_slot_spec d b i) ++ Mbr.push_active d ps.
Proof.
  intros [Hl _] Hi. unfold mbr_slot_spec. cbn [Mbr.push_active].
  unfold Mbr.is_active, Mbr.status, field_u8, Mbr.begin_lba, Mbr.total_lba, field_u32.
  cbn [Mbr.data Mbr.parse_entry].
  rewrite !(sub_sub_bytes b) by lia.
  assert (Hs : default 0 (sub_bytes b (446 + 16 * i) 16 !! 0%nat) =
               le_num (sub_bytes b (446 + 16 * i) 1)).
  { unfold sub_bytes. destruct (drop (446 + 16 * i) b) as [|x l] eqn:E.
    - apply (f_equal length) in E. rewrite length_drop in E. simpl in E. lia.
    - simpl. lia. }
  rewrite Hs. by destruct (_ =? 0x80).
Qed.

(** parsing a readable boot sector never panics, and the partitions are
    exactly the slots whose status byte is [0x80], in table order, with the
    little-endian start and length of the slot; none of them can overflow a
    [usize], so each is confined as [partition_confined] says. *)
Theorem mbr_partitions_spec {D} `{BlockDeviceLaws D 512} (d : D) b :
  read_block d 0 = Ok b ->
  exists t, Mbr.parse d = Ret (Ok t) /\
    Mbr.partitions t = Ok (omap (mbr_slot_spec d b) [0; 1; 2; 3]%nat) /\
    Forall part_ok (omap (mbr_slot_spec d b) [0; 1; 2; 3]%nat).
Proof.
  intros Hr. pose proof (read_block_ok _ _ _ Hr) as Hb.
  unfold Mbr.parse. rewrite Hr.
  rewrite (parse_slot_ok b 0 0), (parse_slot_ok b 1 1), (parse_slot_ok b 2 2),
    (parse_slot_ok b 3 3) by (auto; lia).
  eexists. split; [reflexivity|]. split.
  - unfold Mbr.partitions. cbn [Mbr.t_inner Mbr.t_partitions].
    rewrite !mbr_slot_entry by (auto; lia). f_equal. cbn.
    destruct (mbr_slot_spec d b 0), (mbr_slot_spec d b 1), (mbr_slot_spec d b 2),
      (mbr_slot_spec d b 3); done.
  - apply Forall_forall. intros p (i & _ & Hi)%list_elem_of_omap.
    unfold mbr_slot_spec in Hi. case_match; simplify_eq.
    destruct Hb as [_ Hb]. unfold part_ok.
    cbn [Partition.offset Partition.size].
    pose proof (field_u32_range b (446 + 16 * i + 8) Hb).
    pose proof (field_u32_range b (446 + 16 * i + 12) Hb). unfold field_u32 in *. lia.
Qed.

Definition demo_mbr : Block :=
  replicate 446 0 ++
  [0x80; 1; 1; 0; 0x0b; 0xfe; 0xbf; 0xfc; 0x3f; 0; 0; 0; 0x7e; 0x86; 0xbb; 0] ++
  replicate 48 0 ++ [0x55; 0xAA].
Definition demo_mbr_disk : MemDisk.t := {| MemDisk.blocks := [demo_mbr] |}.

Lemma mbr_partitions_spec_witness :
  exists t, Mbr.parse demo_mbr_disk = Ret (Ok t) /\
    Mbr.partitions t = Ok [Partition.mk demo_mbr_disk 63 12289662].
Proof.
  destruct (mbr_partitions_spec demo_mbr_disk demo_mbr) as (t & Hp & Hq & _);
    [vm_compute; reflexivity|].
  exists t. split; [exact Hp|]. rewrite Hq. vm_compute. reflexivity.
Defined.

(** The cylinder/sector pair packed in bytes 2 and 3 of an entry: six bits of
    sector, ten of cylinder, the two high ones above the sector. *)
Definition chs_bytes (cylinder sector : Z) : bytes :=
  [Z.lor (Z.shiftl (Z.shiftr cylinder 8) 6) sector; Z.land cylinder 0xFF].

Definition chs_roundtrip_at (c s : Z) : bool :=
  let e := Mbr.parse_entry ([0; 0] ++ chs_bytes c s ++ [0; 0] ++ chs_bytes c s ++
                            replicate 8 0) in
  (Mbr.begin_cylinder e =? c) && (Mbr.begin_sector e =? s) &&
  (Mbr.end_cylinder e =? c) && (Mbr.end_sector e =? s).

Lemma chs_roundtrip_all :
  forallb (fun c => forallb (chs_roundtrip_at c) (seqZ 0 64)) (seqZ 0 1024) = true.
Proof. vm_compute. reflexivity. Qed.

(** the CHS accessors invert the packing of the cylinder and sector for
    every 10-bit cylinder and 6-bit sector, for the begin and the end fields. *)
Theorem mbr_chs_roundtrip c s :
  0 <= c < 1024 -> 0 <= s < 64 ->
  let e := Mbr.parse_entry ([0; 0] ++ chs_bytes c s ++ [0; 0] ++ chs_bytes c s ++
                            replicate 8 0) in
  Mbr.begin_cylinder e = c /\ Mbr.begin_sector e = s /\
  Mbr.end_cylinder e = c /\ Mbr.end_sector e = s.
Proof.
  intros Hc Hs e. pose proof chs_roundtrip_all as H.
  rewrite forallb_forall in H. specialize (H c). rewrite forallb_forall in H.
  assert (Hb : chs_roundtrip_at c s = true).
  { apply H; apply list_elem_of_In, elem_of_seqZ; lia. }
  unfold chs_roundtrip_at in Hb. fold e in Hb.
  rewrite !andb_true_iff, !Z.eqb_eq in Hb. tauto.
Qed.

Lemma mbr_chs_roundtrip_witness :
  Mbr.end_cylinder (Mbr.parse_entry ([0; 0] ++ chs_bytes 764 63 ++ [0; 0] ++
    chs_bytes 764 63 ++ replicate 8 0)) = 764.
Proof. apply (mbr_chs_roundtrip 764 63); lia. Defined.
