(* ===== verification/Str.v ===== *)
(** * Strings

    The [str] operations of the standard library that the storage code uses.
    A [&str] is the list of its characters (Unicode scalar values); [len] is
    its length in UTF-8 bytes, and [as_bytes]/[from_utf8] convert.  The case
    mapping of ASCII characters is written out; the table of the standard
    library for the other characters is a parameter ([upper_nonascii]). *)

From stdpp Require Import base numbers list.
From S2P Require Import Prelude Bytes.

Abbreviation str := (list Z).

Class UnicodeTable : Type := { upper_nonascii : Z -> str }.

Definition ascii_char (c : Z) : Prop := 0 <= c < 128.
Definition ascii (s : str) : Prop := Forall ascii_char s.
Global Instance ascii_char_dec c : Decision (ascii_char c).
Proof. unfold ascii_char. apply _. Defined.
Global Instance ascii_dec s : Decision (ascii s).
Proof. unfold ascii. apply _. Defined.

(** ** UTF-8 *)
Definition len_utf8 (c : Z) : Z :=
  if c <? 0x80 then 1 else if c <? 0x800 then 2 else if c <? 0x10000 then 3 else 4.

Definition encode_utf8 (c : Z) : bytes :=
  if c <? 0x80 then [c]
  else if c <? 0x800 then
    [Z.lor 0xC0 (Z.shiftr c 6); Z.lor 0x80 (Z.land c 0x3F)]
  else if c <? 0x10000 then
    [Z.lor 0xE0 (Z.shiftr c 12); Z.lor 0x80 (Z.land (Z.shiftr c 6) 0x3F);
     Z.lor 0x80 (Z.land c 0x3F)]
  else
    [Z.lor 0xF0 (Z.shiftr c 18); Z.lor 0x80 (Z.land (Z.shiftr c 12) 0x3F);
     Z.lor 0x80 (Z.land (Z.shiftr c 6) 0x3F); Z.lor 0x80 (Z.land c 0x3F)].

Definition as_bytes (s : str) : bytes := s ≫= encode_utf8.

(** [s.len()] *)
Definition str_len (s : str) : Z := zlen (as_bytes s).

Definition is_cont (b : Z) : bool := (0x80 <=? b) && (b <=? 0xBF).

(** [core::str::from_utf8]: [None] on a sequence that is not valid UTF-8
    (stray or missing continuation bytes, overlong forms, surrogates, values
    above [0x10FFFF]). *)
Fixpoint from_utf8 (l : bytes) : option str :=
  match l with
  | [] => Some []
  | b0 :: l0 =>
      if b0 <? 0x80 then s ← from_utf8 l0; Some (b0 :: s)
      else match l0 with
      | b1 :: l1 =>
        if (0xC2 <=? b0) && (b0 <=? 0xDF) && is_cont b1 then
          s ← from_utf8 l1;
          Some (Z.lor (Z.shiftl (Z.land b0 0x1F) 6) (Z.land b1 0x3F) :: s)
        else match l1 with
        | b2 :: l2 =>
          let c := Z.lor (Z.shiftl (Z.land b0 0x0F) 12)
                     (Z.lor (Z.shiftl (Z.land b1 0x3F) 6) (Z.land b2 0x3F)) in
          if (0xE0 <=? b0) && (b0 <=? 0xEF) && is_cont b1 && is_cont b2 &&
             (0x800 <=? c) && negb ((0xD800 <=? c) && (c <=? 0xDFFF)) then
            s ← from_utf8 l2; Some (c :: s)
          else match l2 with
          | b3 :: l3 =>
            let c := Z.lor (Z.shiftl (Z.land b0 0x07) 18)
                       (Z.lor (Z.shiftl (Z.land b1 0x3F) 12)
                          (Z.lor (Z.shiftl (Z.land b2 0x3F) 6) (Z.land b3 0x3F))) in
            if (0xF0 <=? b0) && (b0 <=? 0xF4) && is_cont b1 && is_cont b2 &&
               is_cont b3 && (0x10000 <=? c) && (c <=? 0x10FFFF) then
              s ← from_utf8 l3; Some (c :: s)
            else None
          | [] => None
          end
        | [] => None
        end
      | [] => None
      end
  end.

(** [String::from_utf8_lossy]: every maximal prefix of a sequence that cannot be
    continued becomes U+FFFD.  [utf8_step] gives the character at the front, or
    [None], and the number of further bytes it takes. *)
Definition second_ok (b0 b1 : Z) : bool :=
  if b0 =? 0xE0 then (0xA0 <=? b1) && (b1 <=? 0xBF)
  else if b0 =? 0xED then (0x80 <=? b1) && (b1 <=? 0x9F)
  else if b0 =? 0xF0 then (0x90 <=? b1) && (b1 <=? 0xBF)
  else if b0 =? 0xF4 then (0x80 <=? b1) && (b1 <=? 0x8F)
  else is_cont b1.
Definition utf8_step (b0 : Z) (l : bytes) : option Z * nat :=
  if b0 <? 0x80 then (Some b0, 0%nat)
  else if (0xC2 <=? b0) && (b0 <=? 0xF4) then
    match l with
    | b1 :: l1 =>
        if negb (second_ok b0 b1) then (None, 0%nat)
        else if b0 <=? 0xDF then (Some (Z.lor (Z.shiftl (Z.land b0 0x1F) 6) (Z.land b1 0x3F)), 1%nat)
        else match l1 with
        | b2 :: l2 =>
            if negb (is_cont b2) then (None, 1%nat)
            else if b0 <=? 0xEF then
              (Some (Z.lor (Z.shiftl (Z.land b0 0x0F) 12) (Z.lor (Z.shiftl (Z.land b1 0x3F) 6) (Z.land b2 0x3F))), 2%nat)
            else match l2 with
            | b3 :: _ =>
                if negb (is_cont b3) then (None, 2%nat)
                else (Some (Z.lor (Z.shiftl (Z.land b0 0x07) 18) (Z.lor (Z.shiftl (Z.land b1 0x3F) 12)
                             (Z.lor (Z.shiftl (Z.land b2 0x3F) 6) (Z.land b3 0x3F)))), 3%nat)
            | [] => (None, 2%nat)
            end
        | [] => (None, 1%nat)
        end
    | [] => (None, 0%nat)
    end
  else (None, 0%nat).
Fixpoint lossy (skip : nat) (l : bytes) : str :=
  match l with
  | [] => []
  | b :: l =>
      match skip with
      | S skip => lossy skip l
      | O => let '(c, n) := utf8_step b l in default 0xFFFD c :: lossy n l
      end
  end.
Definition from_utf8_lossy (l : bytes) : str := lossy 0 l.

(** ** Case, searching, trimming, padding *)
Definition upper_char `{UnicodeTable} (c : Z) : str :=
  if c <? 0x80 then (if (97 <=? c) && (c <=? 122) then [c - 32] else [c])
  else upper_nonascii c.
Definition to_uppercase `{UnicodeTable} (s : str) : str := s ≫= upper_char.

(** [s.contains(c)] *)
Definition str_contains (s : str) (c : Z) : bool := existsb (Z.eqb c) s.

(** [s.rfind(c)], as a character position. *)
Fixpoint rfind (c : Z) (s : str) : option nat :=
  match s with
  | [] => None
  | x :: s' =>
      match rfind c s' with
      | Some i => Some (S i)
      | None => if x =? c then Some 0%nat else None
      end
  end.

(** [s.trim_start_matches(c)] *)
Fixpoint trim_start_char (c : Z) (s : str) : str :=
  match s with [] => [] | x :: s' => if x =? c then trim_start_char c s' else s end.

(** [char::is_whitespace]: the characters with the property [White_Space]. *)
Definition is_whitespace (c : Z) : bool :=
  ((9 <=? c) && (c <=? 13)) || (c =? 32) || (c =? 0x85) || (c =? 0xA0) ||
  (c =? 0x1680) || ((0x2000 <=? c) && (c <=? 0x200A)) || (c =? 0x2028) ||
  (c =? 0x2029) || (c =? 0x202F) || (c =? 0x205F) || (c =? 0x3000).

(** [s.trim_end()] *)
Fixpoint trim_end (s : str) : str :=
  match s with
  | [] => []
  | x :: s' =>
      match trim_end s' with
      | [] => if is_whitespace x then [] else [x]
      | t => x :: t
      end
  end.

(** [s.trim()] *)
Fixpoint trim_start (s : str) : str :=
  match s with [] => [] | c :: s' => if is_whitespace c then trim_start s' else s end.
Definition trim (s : str) : str := trim_end (trim_start s).

(** [format!("{:w}", s)]: left-aligned, padded with spaces to [w] characters. *)
Definition pad (w : nat) (s : str) : str := s ++ replicate (w - length s) 32.

(** [s.split(c)]: the pieces between the separators, empty ones included. *)
Fixpoint split_on (c : Z) (s : str) : list str :=
  match s with
  | [] => [[]]
  | x :: s' =>
      if x =? c then [] :: split_on c s'
      else match split_on c s' with
           | p :: ps => (x :: p) :: ps
           | [] => [[x]]
           end
  end.

(** [s.trim_start_matches(pat)] for a string pattern: removes every leading
    occurrence.  The fuel is the length of [s]: each removal of a non-empty
    pattern shortens it. *)
Fixpoint strip_prefix (pat s : str) : option str :=
  match pat, s with
  | [], _ => Some s
  | p :: pat', x :: s' => if x =? p then strip_prefix pat' s' else None
  | _ :: _, [] => None
  end.
Fixpoint trim_start_str_fuel (fuel : nat) (pat s : str) : str :=
  match fuel with
  | O => s
  | S n => match strip_prefix pat s with
           | Some s' => trim_start_str_fuel n pat s'
           | None => s
           end
  end.
Definition trim_start_str (pat s : str) : str := trim_start_str_fuel (length s) pat s.

(** ** Lemmas *)

Lemma encode_utf8_length c : zlen (encode_utf8 c) = len_utf8 c.
Proof. unfold encode_utf8, len_utf8, zlen. repeat case_match; done. Qed.

Lemma len_utf8_pos c : 1 <= len_utf8 c.
Proof. unfold len_utf8. repeat case_match; lia. Qed.

Lemma as_bytes_app s t : as_bytes (s ++ t) = as_bytes s ++ as_bytes t.
Proof. apply bind_app. Qed.
Lemma str_len_app s t : str_len (s ++ t) = str_len s + str_len t.
Proof. unfold str_len, zlen. rewrite as_bytes_app, length_app. lia. Qed.
Lemma str_len_cons c s : str_len (c :: s) = len_utf8 c + str_len s.
Proof.
  unfold str_len, as_bytes. rewrite bind_cons. unfold zlen. rewrite length_app.
  pose proof (encode_utf8_length c). unfold zlen in *. lia.
Qed.

Lemma str_len_ge_chars s : zlen s <= str_len s.
Proof.
  induction s as [|c s IH]; [done|]. rewrite str_len_cons.
  pose proof (len_utf8_pos c). unfold zlen in *. simpl length. lia.
Qed.

Lemma str_len_gt_chars s : Exists (fun c => 128 <= c) s -> zlen s < str_len s.
Proof.
  induction 1 as [c s Hc|c s Hc IH]; rewrite str_len_cons; unfold zlen in *; simpl length.
  - pose proof (str_len_ge_chars s). unfold zlen in *.
    assert (2 <= len_utf8 c); [|lia]. unfold len_utf8.
    destruct (Z.ltb_spec c 0x80); [lia|]. repeat case_match; lia.
  - pose proof (len_utf8_pos c). lia.
Qed.

Lemma as_bytes_ascii s : ascii s -> as_bytes s = s.
Proof.
  induction 1 as [|c s Hc Hs IH]; [done|]. unfold as_bytes in *. rewrite bind_cons, IH.
  unfold encode_utf8. unfold ascii_char in Hc. by destruct (Z.ltb_spec c 0x80); [|lia].
Qed.
Lemma str_len_ascii s : ascii s -> str_len s = zlen s.
Proof. intros H. unfold str_len. by rewrite as_bytes_ascii. Qed.

Lemma from_utf8_ascii s : ascii s -> from_utf8 s = Some s.
Proof.
  induction 1 as [|c s Hc Hs IH]; [done|]. unfold ascii_char in Hc. cbn [from_utf8].
  destruct (Z.ltb_spec c 0x80); [|lia]. by rewrite IH.
Qed.

Lemma ascii_app s t : ascii (s ++ t) <-> ascii s /\ ascii t.
Proof. apply Forall_app. Qed.
Lemma ascii_replicate n : ascii (replicate n 32).
Proof. apply Forall_replicate. unfold ascii_char; lia. Qed.
Lemma ascii_pad w s : ascii s -> ascii (pad w s).
Proof. intros. unfold pad. apply ascii_app. split; [done|apply ascii_replicate]. Qed.
Lemma ascii_take n s : ascii s -> ascii (take n s).
Proof. apply Forall_take. Qed.
Lemma ascii_drop n s : ascii s -> ascii (drop n s).
Proof. apply Forall_drop. Qed.
#[export] Hint Resolve ascii_take ascii_drop ascii_pad ascii_replicate : bytes.

Lemma str_len_pad w s : str_len (pad w s) = str_len s + Z.of_nat (w - length s).
Proof.
  unfold pad. rewrite str_len_app, (str_len_ascii (replicate _ _)) by apply ascii_replicate.
  unfold zlen. by rewrite length_replicate.
Qed.

Lemma upper_char_ascii `{UnicodeTable} c :
  ascii_char c -> exists c', upper_char c = [c'] /\ ascii_char c' /\
    (c' =? 46) = (c =? 46) /\ (c' =? 32) = (c =? 32) /\ (32 < c -> 32 < c').
Proof.
  unfold ascii_char, upper_char. intros Hc. destruct (Z.ltb_spec c 0x80); [|lia].
  destruct ((97 <=? c) && (c <=? 122)) eqn:E.
  - apply andb_true_iff in E as [E1%Z.leb_le E2%Z.leb_le].
    exists (c - 32). split_and!; [done|lia|lia| | |lia].
    + destruct (Z.eqb_spec (c - 32) 46), (Z.eqb_spec c 46); lia.
    + destruct (Z.eqb_spec (c - 32) 32), (Z.eqb_spec c 32); lia.
  - exists c. split_and!; [done|lia|lia|done|done|lia].
Qed.

Lemma to_uppercase_cons `{UnicodeTable} c s :
  to_uppercase (c :: s) = upper_char c ++ to_uppercase s.
Proof. done. Qed.

Lemma to_uppercase_ascii `{UnicodeTable} s : ascii s -> ascii (to_uppercase s).
Proof.
  induction 1 as [|c s Hc Hs IH]; [constructor|]. rewrite to_uppercase_cons.
  destruct (upper_char_ascii c Hc) as (c' & -> & Hc' & _). by constructor.
Qed.

Lemma to_uppercase_gt32 `{UnicodeTable} s :
  ascii s -> Forall (fun c => 32 < c) s -> Forall (fun c => 32 < c) (to_uppercase s).
Proof.
  induction 1 as [|c s Hc Hs IH]; [constructor|]. intros [H1 H2]%Forall_cons.
  rewrite to_uppercase_cons.
  destruct (upper_char_ascii c Hc) as (c' & -> & _ & _ & _ & Hgt). constructor; auto.
Qed.

Lemma last_to_uppercase `{UnicodeTable} s :
  ascii s -> last (to_uppercase s) = Some 46 -> last s = Some 46.
Proof.
  induction 1 as [|c s Hc Hs IH]; [done|]. rewrite to_uppercase_cons.
  destruct (upper_char_ascii c Hc) as (c' & -> & _ & Hdot & _ & _). simpl app.
  destruct Hs as [|d s Hd Hs].
  - simpl. intros [= ->]. f_equal. change (46 =? 46) with true in Hdot.
    symmetry in Hdot. apply Z.eqb_eq in Hdot. done.
  - intros Hl. change (last (c :: d :: s)) with (last (d :: s)). apply IH.
    rewrite <- Hl. rewrite to_uppercase_cons.
    destruct (upper_char_ascii d Hd) as (d' & -> & _). done.
Qed.

Lemma rfind_Some c s i :
  rfind c s = Some i ->
  exists p q, s = p ++ c :: q /\ length p = i /\ c ∉ q.
Proof.
  revert i. induction s as [|x s IH]; intros i; [done|]. cbn [rfind].
  destruct (rfind c s) as [j|] eqn:E.
  - intros [= <-]. destruct (IH j eq_refl) as (p & q & -> & <- & Hq).
    by exists (x :: p), q.
  - destruct (Z.eqb_spec x c) as [->|]; [|done]. intros [= <-].
    exists [], s. split_and!; [done..|]. intros Hin. clear IH.
    induction s as [|y s IHs]; [by apply not_elem_of_nil in Hin|].
    cbn [rfind] in E. destruct (rfind c s) eqn:E'; [done|].
    destruct (Z.eqb_spec y c); [done|].
    apply elem_of_cons in Hin as [->|Hin]; [done|]. auto.
Qed.

Lemma trim_start_char_not c x s : x <> c -> trim_start_char c (x :: s) = x :: s.
Proof. intros. cbn. by rewrite (proj2 (Z.eqb_neq x c)). Qed.

Lemma trim_start_char_none c s : c ∉ s -> trim_start_char c s = s.
Proof.
  destruct s as [|x s]; [done|]. intros [??]%not_elem_of_cons.
  by apply trim_start_char_not.
Qed.

Lemma trim_end_spaces n : trim_end (replicate n 32) = [].
Proof. induction n as [|n IH]; [done|]. cbn. by rewrite IH. Qed.

Lemma trim_end_pad s n :
  Forall (fun c => is_whitespace c = false) s -> trim_end (s ++ replicate n 32) = s.
Proof.
  induction 1 as [|x s Hx Hs IH]; [apply trim_end_spaces|].
  cbn [app trim_end]. rewrite IH, Hx. by destruct s.
Qed.

Lemma gt32_not_whitespace c : ascii_char c -> 32 < c -> is_whitespace c = false.
Proof.
  unfold ascii_char, is_whitespace. intros.
  rewrite !orb_false_iff, !andb_false_iff, !Z.eqb_neq, !Z.leb_gt. lia.
Qed.

Lemma gt32_not_whitespace_list s :
  ascii s -> Forall (fun c => 32 < c) s -> Forall (fun c => is_whitespace c = false) s.
Proof.
  unfold ascii. rewrite !Forall_forall. intros Ha Hg c Hc. apply gt32_not_whitespace; auto.
Qed.

Lemma str_contains_spec s c : str_contains s c = true <-> c ∈ s.
Proof.
  unfold str_contains. rewrite existsb_exists. split.
  - intros (x & Hx & ->%Z.eqb_eq). by apply list_elem_of_In.
  - intros Hc. exists c. split; [by apply list_elem_of_In|apply Z.eqb_refl].
Qed.
