(* ===== verification/Fat16Name.v ===== *)
(** * FAT16 short file names

    Models [ShortFileName] of [pkg/storage/src/fs/fat16/direntry.rs]: parsing a
    path component into an 8.3 name, and printing it back. *)

From stdpp Require Import base numbers list sets.
From S2P Require Import Prelude Bytes Device Str.

Record ShortFileName : Type := { sfn_name : bytes; sfn_ext : bytes }.

Global Instance ShortFileName_eq_dec : EqDecision ShortFileName.
Proof. solve_decision. Defined.

Module Sfn.

(** [ShortFileName::new(buf)]: the first eleven bytes. *)
Definition new (buf : bytes) : outcome ShortFileName :=
  n ← slice buf 0 8; e ← slice buf 8 11;
  mret {| sfn_name := n; sfn_ext := e |}.

(** [name[0]] and [ext[0]]: arrays of 8 and 3 bytes, so never out of range. *)
Definition name0 (f : ShortFileName) : Z := default 0 (sfn_name f !! 0%nat).
Definition ext0 (f : ShortFileName) : Z := default 0 (sfn_ext f !! 0%nat).

Definition basename (f : ShortFileName) : outcome str := unwrap (from_utf8 (sfn_name f)).
Definition extension (f : ShortFileName) : outcome str := unwrap (from_utf8 (sfn_ext f)).
Definition is_eod (f : ShortFileName) : bool := (name0 f =? 0x00) && (ext0 f =? 0x00).
Definition is_unused (f : ShortFileName) : bool := name0 f =? 0xE5.
Definition matches (f g : ShortFileName) : bool :=
  bool_decide (sfn_name f = sfn_name g) && bool_decide (sfn_ext f = sfn_ext g).

Definition forbidden_chars : str :=
  [0x00; 0x01; 0x02; 0x03; 0x04; 0x05; 0x06; 0x07; 0x08; 0x09; 0x0A; 0x0B; 0x0C; 0x0D;
   0x0E; 0x0F; 0x10; 0x11; 0x12; 0x13; 0x14; 0x15; 0x16; 0x17; 0x18; 0x19; 0x1A; 0x1B;
   0x1C; 0x1D; 0x1E; 0x1F; 0x22; 0x2A; 0x2B; 0x2C; 0x2F; 0x3A; 0x3B; 0x3C; 0x3D; 0x3E;
   0x3F; 0x5B; 0x5C; 0x5D; 0x7C].

(** [s.as_bytes().try_into().unwrap()] into an array of [n] bytes. *)
Definition to_array (n : nat) (s : str) : outcome bytes :=
  if decide (length (as_bytes s) = n) then Ret (as_bytes s) else Panic.

(** [name.split_at(name.rfind('.').unwrap_or(name.len()))], the second half
    without its leading dots. *)
Definition split_name (name : str) : str * str :=
  let i := default (length name) (rfind 46 name) in
  (take i name, trim_start_char 46 (drop i name)).

Definition parse `{UnicodeTable} (name : str) : outcome (result ShortFileName FsError) :=
  if decide (name = []) then Ret (Err (FileNameError FilenameEmpty))
  else if str_contains name 0x20 then Ret (Err (FileNameError MisplacedPeriod))
  else
    let '(name, ext) := split_name (to_uppercase name) in
    if (8 <? str_len name) || (3 <? str_len ext) then
      Ret (Err (FileNameError NameTooLong))
    else if existsb (str_contains forbidden_chars) name then
      Ret (Err (FileNameError InvalidCharacter))
    else
      n ← to_array 8 (pad 8 name);
      e ← to_array 3 (pad 3 ext);
      Ret (Ok {| sfn_name := n; sfn_ext := e |}).

(** [Display for ShortFileName]. *)
Definition fmt (f : ShortFileName) : outcome str :=
  if ext0 f =? 0x20 then
    b ← basename f; mret (trim_end b)
  else
    b ← basename f; e ← extension f;
    mret (trim_end b ++ [46] ++ trim_end e).

Definition wf (f : ShortFileName) : Prop :=
  length (sfn_name f) = 8%nat /\ length (sfn_ext f) = 3%nat /\
  bytes_ok (sfn_name f) /\ bytes_ok (sfn_ext f).

End Sfn.

(** ** Lemmas *)

Lemma split_name_ascii s : ascii s -> ascii (Sfn.split_name s).1 /\ ascii (Sfn.split_name s).2.
Proof.
  intros H. unfold Sfn.split_name. simpl. split; [auto with bytes|].
  assert (Ha : ascii (drop (default (length s) (rfind 46 s)) s)) by auto with bytes.
  induction Ha as [|c t Hc Ht IH]; [constructor|]. cbn. case_match; [done|].
  by constructor.
Qed.

(** How a name splits at its last dot. *)
Lemma split_name_dot p q : 46 ∉ q -> Sfn.split_name (p ++ 46 :: q) = (p, q).
Proof.
  intros Hq. unfold Sfn.split_name.
  assert (E : rfind 46 (p ++ 46 :: q) = Some (length p)).
  { induction p as [|x p IH]; cbn [app rfind length]; [|by rewrite IH].
    assert (Hn : rfind 46 q = None).
    { destruct (rfind 46 q) eqn:E'; [|done].
      apply rfind_Some in E' as (a & b & -> & _). set_solver. }
    by rewrite Hn. }
  rewrite E. simpl. rewrite take_app_length, drop_app_length.
  cbn [trim_start_char Z.eqb Pos.eqb]. by rewrite trim_start_char_none.
Qed.

Lemma split_name_nodot s : 46 ∉ s -> Sfn.split_name s = (s, []).
Proof.
  intros Hs. unfold Sfn.split_name. destruct (rfind 46 s) as [i|] eqn:E.
  - apply rfind_Some in E as (a & b & -> & _). set_solver.
  - simpl. by rewrite firstn_all, drop_all.
Qed.

Lemma to_array_ascii n s :
  ascii s -> (length s <= n)%nat -> Sfn.to_array n (pad n s) = Ret (pad n s).
Proof.
  intros Ha Hl. unfold Sfn.to_array. rewrite as_bytes_ascii by auto with bytes.
  rewrite decide_True; [done|]. unfold pad. rewrite length_app, length_replicate. lia.
Qed.

Lemma to_array_nonascii n s :
  Exists (fun c => 128 <= c) s -> str_len s <= Z.of_nat n -> Sfn.to_array n (pad n s) = Panic.
Proof.
  intros He Hl. unfold Sfn.to_array. rewrite decide_False; [done|].
  pose proof (str_len_gt_chars s He) as Hgt. pose proof (str_len_pad n s) as Hp.
  unfold str_len, zlen in *. lia.
Qed.

Lemma existsb_false_Forall {A} (f : A -> bool) l :
  existsb f l = false <-> Forall (fun x => f x = false) l.
Proof.
  induction l as [|x l IH]; simpl; [by split; constructor|].
  rewrite orb_false_iff, IH, Forall_cons. done.
Qed.

(** ** Properties *)

(** The names [parse] accepts, for an ASCII component. *)
Definition sfn_of `{UnicodeTable} (s : str) (f : ShortFileName) : Prop :=
  Sfn.wf f /\ ascii (sfn_name f) /\ ascii (sfn_ext f) /\ (32 ∉ s) /\
  sfn_name f = pad 8 (Sfn.split_name (to_uppercase s)).1 /\
  sfn_ext f = pad 3 (Sfn.split_name (to_uppercase s)).2.

Lemma ascii_bytes_ok t : ascii t -> bytes_ok t.
Proof. intros H. eapply Forall_impl; [exact H|]. unfold ascii_char, byte_ok. lia. Qed.

Lemma sfn_of_pad `{UnicodeTable} s n e :
  ascii s -> 32 ∉ s -> Sfn.split_name (to_uppercase s) = (n, e) ->
  str_len n <= 8 -> str_len e <= 3 ->
  Sfn.to_array 8 (pad 8 n) = Ret (pad 8 n) /\ Sfn.to_array 3 (pad 3 e) = Ret (pad 3 e) /\
  sfn_of s {| sfn_name := pad 8 n; sfn_ext := pad 3 e |}.
Proof.
  intros Hs Hsp E Hn He.
  pose proof (split_name_ascii _ (to_uppercase_ascii s Hs)) as [Ha Hb].
  rewrite E in Ha, Hb. simpl in Ha, Hb.
  rewrite str_len_ascii in Hn, He by done. unfold zlen in *.
  split; [apply to_array_ascii; [done|lia]|]. split; [apply to_array_ascii; [done|lia]|].
  unfold sfn_of, Sfn.wf. rewrite E. simpl.
  split_and!; auto using ascii_bytes_ok, ascii_pad;
    unfold pad; rewrite length_app, length_replicate; lia.
Qed.

Lemma sfn_parse_Ok `{UnicodeTable} s f :
  ascii s -> Sfn.parse s = Ret (Ok f) -> sfn_of s f.
Proof.
  intros Hs. unfold Sfn.parse. case_decide; [done|].
  destruct (str_contains s 32) eqn:Hsp; [done|].
  destruct (Sfn.split_name (to_uppercase s)) as [n e] eqn:E.
  destruct ((8 <? str_len n) || (3 <? str_len e)) eqn:Hlen; [done|].
  destruct (existsb _ n); [done|]. rewrite orb_false_iff, !Z.ltb_ge in Hlen.
  destruct (sfn_of_pad s n e) as (-> & -> & Hof); [done|..|done|lia|lia|].
  { rewrite <- str_contains_spec. congruence. }
  by intros [= <-].
Qed.

(** on an ASCII path component [ShortFileName::parse] never panics: it
    returns one of its four errors or a name of exactly 8 and 3 ASCII bytes,
    which are the upper-cased component cut at its last dot and padded with
    spaces. *)
Theorem sfn_parse_ascii_total `{UnicodeTable} s :
  ascii s ->
  exists r, Sfn.parse s = Ret r /\
    match r with
    | Err e => e = FileNameError FilenameEmpty \/ e = FileNameError MisplacedPeriod \/
               e = FileNameError NameTooLong \/ e = FileNameError InvalidCharacter
    | Ok f => sfn_of s f
    end.
Proof.
  intros Hs. unfold Sfn.parse. case_decide; [by eexists; split; [done|simpl; auto]|].
  destruct (str_contains s 32) eqn:Hsp; [by eexists; split; [done|simpl; auto]|].
  destruct (Sfn.split_name (to_uppercase s)) as [n e] eqn:E.
  destruct ((8 <? str_len n) || (3 <? str_len e)) eqn:Hlen;
    [by eexists; split; [done|simpl; auto]|].
  destruct (existsb _ n); [by eexists; split; [done|simpl; auto]|].
  rewrite orb_false_iff, !Z.ltb_ge in Hlen.
  destruct (sfn_of_pad s n e) as (-> & -> & Hof); [done|..|done|lia|lia|].
  { rewrite <- str_contains_spec. congruence. }
  by eexists.
Qed.

Definition demo_unicode : UnicodeTable := {| upper_nonascii c := [c] |}.

(** ["kernel.elf"] *)
Definition demo_name : str := [107; 101; 114; 110; 101; 108; 46; 101; 108; 102].

Lemma sfn_parse_ascii_total_witness :
  ascii demo_name /\
  exists f, @Sfn.parse demo_unicode demo_name = Ret (Ok f) /\ Sfn.wf f /\
    sfn_name f = [75; 69; 82; 78; 69; 76; 32; 32] /\ sfn_ext f = [69; 76; 70].
Proof.
  assert (Ha : ascii demo_name) by (apply (bool_decide_unpack _); vm_compute; exact I).
  split; [exact Ha|].
  destruct (@sfn_parse_ascii_total demo_unicode demo_name Ha) as (r & Hr & Hm).
  vm_compute in Hr. injection Hr as <-. eexists. split; [vm_compute; reflexivity|].
  split; [apply Hm|]. split; reflexivity.
Defined.

(** Parsing, then printing. *)
Lemma sfn_parse_fmt `{UnicodeTable} s f :
  ascii s -> Forall (fun c => 32 < c) s -> last s <> Some 46 ->
  Sfn.parse s = Ret (Ok f) -> Sfn.fmt f = Ret (to_uppercase s).
Proof.
  intros Hs Hg Hl Hp.
  destruct (sfn_parse_Ok s f Hs Hp) as (_ & Han & Hae & _ & En & Ee).
  pose proof (to_uppercase_ascii s Hs) as Hu.
  pose proof (to_uppercase_gt32 s Hs Hg) as Hug.
  assert (Hul : last (to_uppercase s) <> Some 46)
    by (intros ?; by apply Hl, last_to_uppercase).
  clear Hp Hl Hg Hs. revert Hu Hug Hul En Ee. generalize (to_uppercase s). intros u.
  intros Hu Hug Hul En Ee. unfold Sfn.fmt, Sfn.basename, Sfn.extension, Sfn.ext0.
  rewrite !from_utf8_ascii by done. rewrite En, Ee. unfold pad.
  destruct (rfind 46 u) as [i|] eqn:Ei.
  - apply rfind_Some in Ei as (p & q & -> & _ & Hq). rewrite split_name_dot by done.
    rewrite ascii_app in Hu. destruct Hu as [Hp [_ Hqa]%Forall_cons].
    rewrite Forall_app in Hug. destruct Hug as [Hpg [_ Hqg]%Forall_cons].
    destruct q as [|y q]; [by rewrite last_snoc in Hul|].
    pose proof (Forall_inv Hqg) as Hy. simpl in Hy. cbn [fst snd].
    replace (default 0 _ =? 32) with false by (symmetry; apply Z.eqb_neq; simpl; lia).
    cbn [unwrap mbind outcome_bind mret outcome_ret].
    rewrite !trim_end_pad by (by apply gt32_not_whitespace_list). done.
  - assert (Hd : 46 ∉ u).
    { clear -Ei. induction u as [|x u IH]; [apply not_elem_of_nil|].
      cbn [rfind] in Ei. destruct (rfind 46 u) eqn:E; [done|].
      destruct (Z.eqb_spec x 46); [done|]. apply not_elem_of_cons. auto. }
    rewrite split_name_nodot by done. simpl.
    rewrite trim_end_pad by (by apply gt32_not_whitespace_list). done.
Qed.

(** A character of a short name as it is on disk: visible, and no lower-case letter. *)
Definition sfn_char (c : Z) : Prop := 32 < c < 128 /\ ~ (97 <= c <= 122).
(** Base name [n] and extension [e] of a valid short name: the base name is not empty and
    has none of the characters that [parse] forbids, and dots do not make the division
    ambiguous. *)
Definition sfn_text (n e : str) : Prop :=
  n <> [] /\ (length n <= 8)%nat /\ (length e <= 3)%nat /\ Forall sfn_char n /\ Forall sfn_char e /\
  Forall (fun c => c ∉ Sfn.forbidden_chars) n /\ (46 ∉ e) /\ (e = [] -> 46 ∉ n).
Definition sfn_pad (n e : str) : ShortFileName := {| sfn_name := pad 8 n; sfn_ext := pad 3 e |}.
Definition sfn_print (n e : str) : str := if e is [] then n else n ++ 46 :: e.

Lemma sfn_chars_ascii t : Forall sfn_char t -> ascii t /\ Forall (fun c => 32 < c) t.
Proof. intros Ht. split; (eapply Forall_impl; [exact Ht|]); intros c [Hc _]; [unfold ascii_char|]; lia. Qed.
Lemma sfn_chars_upper `{UnicodeTable} t : Forall sfn_char t -> to_uppercase t = t.
Proof.
  induction 1 as [|c t [Hc Hl] _ IH]; [done|]. rewrite to_uppercase_cons, IH. unfold upper_char.
  destruct (Z.ltb_spec c 0x80); [|lia]. destruct (Z.leb_spec 97 c), (Z.leb_spec c 122); done || lia.
Qed.
Lemma sfn_print_chars n e : sfn_text n e -> Forall sfn_char (sfn_print n e).
Proof.
  intros (_ & _ & _ & Hn & He & _). unfold sfn_print. destruct e as [|c e]; [done|].
  apply Forall_app. split; [done|]. apply Forall_cons. split; [unfold sfn_char; lia|done].
Qed.
Lemma sfn_print_split n e : sfn_text n e -> Sfn.split_name (sfn_print n e) = (n, e).
Proof.
  intros (_ & _ & _ & _ & _ & _ & He & Hn). unfold sfn_print. destruct e as [|c e]; [|by apply split_name_dot].
  by apply split_name_nodot, Hn.
Qed.
(** Printing, then parsing. *)
Lemma sfn_fmt_print n e : sfn_text n e -> Sfn.fmt (sfn_pad n e) = Ret (sfn_print n e).
Proof.
  intros (_ & _ & _ & Hn & He & _). destruct (sfn_chars_ascii n Hn) as [Han Hgn]. destruct (sfn_chars_ascii e He) as [Hae Hge].
  unfold Sfn.fmt, Sfn.basename, Sfn.extension, sfn_pad, Sfn.ext0. cbn [sfn_name sfn_ext].
  rewrite !from_utf8_ascii by (by apply ascii_pad). unfold pad, sfn_print. cbn [unwrap mbind outcome_bind mret outcome_ret].
  destruct e as [|c e].
  - cbn [length Nat.sub app replicate lookup list_lookup default]. change (_ =? 32) with true. cbv iota.
    by rewrite trim_end_pad by by apply gt32_not_whitespace_list.
  - replace (default 0 _ =? 32) with false by (symmetry; apply Z.eqb_neq; pose proof (Forall_inv Hge); simpl in *; lia).
    by rewrite !trim_end_pad by by apply gt32_not_whitespace_list.
Qed.
Lemma sfn_parse_print `{UnicodeTable} n e : sfn_text n e -> Sfn.parse (sfn_print n e) = Ret (Ok (sfn_pad n e)).
Proof.
  intros Ht. pose proof (sfn_print_chars n e Ht) as Hp. pose proof (sfn_print_split n e Ht) as Hs.
  destruct Ht as (Hne & Hln & Hle & Hn & He & Hf & _). destruct (sfn_chars_ascii _ Hp) as [_ Hg].
  destruct (sfn_chars_ascii n Hn) as [Han _]. destruct (sfn_chars_ascii e He) as [Hae _]. unfold Sfn.parse.
  rewrite decide_False by (intros E; apply Hne; destruct n; [done|]; unfold sfn_print in E; by destruct e).
  destruct (str_contains (sfn_print n e) 0x20) eqn:E.
  { apply str_contains_spec in E. rewrite Forall_forall in Hg. specialize (Hg _ E). lia. }
  rewrite (sfn_chars_upper _ Hp), Hs. rewrite (str_len_ascii n Han), (str_len_ascii e Hae). unfold zlen.
  rewrite (proj2 (Z.ltb_ge 8 _)), (proj2 (Z.ltb_ge 3 _)) by lia. cbn [orb].
  rewrite (proj2 (existsb_false_Forall _ _)).
  - by rewrite !to_array_ascii.
  - eapply Forall_impl; [exact Hf|]. intros c Hc. apply not_true_iff_false. by rewrite str_contains_spec.
Qed.

(** C34: Short names and their text.  Printing a valid short name as it is on disk (a base
    name of 1 to 8 and an extension of at most 3 visible ASCII characters, in upper
    case, without forbidden characters in the base name and without a dot in the
    extension, or at all if there is no extension) gives its base name, followed by a dot
    and the extension if there is one, and parsing that text gives the same name back.
    In the other direction, printing the name that an ASCII component was parsed into gives
    the component in upper case, for every component without blanks and control characters
    that does not end in a dot. *)
Theorem sfn_fmt_parse_roundtrip `{UnicodeTable} :
  (forall n e, sfn_text n e ->
     Sfn.fmt (sfn_pad n e) = Ret (sfn_print n e) /\ Sfn.parse (sfn_print n e) = Ret (Ok (sfn_pad n e))) /\
  (forall s f, ascii s -> Forall (fun c => 32 < c) s -> last s <> Some 46 ->
     Sfn.parse s = Ret (Ok f) -> Sfn.fmt f = Ret (to_uppercase s)).
Proof. split; [|exact sfn_parse_fmt]. intros n e Ht. split; [by apply sfn_fmt_print|by apply sfn_parse_print]. Qed.

Lemma sfn_fmt_parse_roundtrip_witness :
  Sfn.fmt (sfn_pad [75; 69; 82; 78; 69; 76] [69; 76; 70]) = Ret [75; 69; 82; 78; 69; 76; 46; 69; 76; 70] /\
  exists f, @Sfn.parse demo_unicode demo_name = Ret (Ok f) /\
    Sfn.fmt f = Ret [75; 69; 82; 78; 69; 76; 46; 69; 76; 70].
Proof.
  destruct (@sfn_fmt_parse_roundtrip demo_unicode) as [H1 H2]. split.
  - apply H1. unfold sfn_text, sfn_char. split; [discriminate|]. apply (bool_decide_unpack _). vm_compute; exact I.
  - eexists. split; [vm_compute; reflexivity|]. apply (H2 demo_name).
    + apply (bool_decide_unpack _); vm_compute; exact I.
    + apply (bool_decide_unpack _); vm_compute; exact I.
    + vm_compute. discriminate.
    + vm_compute. reflexivity.
Defined.

(** a component that passes every check but has a character outside ASCII
    panics the kernel: the padding counts characters and the array conversion
    counts bytes, so the padded name has more than 8 (or 3) bytes. *)
Theorem sfn_parse_nonascii_panics `{UnicodeTable} s n e :
  s <> [] -> 32 ∉ s -> Sfn.split_name (to_uppercase s) = (n, e) ->
  str_len n <= 8 -> str_len e <= 3 ->
  Forall (fun c => c ∉ Sfn.forbidden_chars) n ->
  Exists (fun c => 128 <= c) (n ++ e) ->
  Sfn.parse s = Panic.
Proof.
  intros Hne Hsp E Hn He Hf Hx. unfold Sfn.parse. rewrite decide_False by done.
  destruct (str_contains s 32) eqn:Hc; [by apply str_contains_spec in Hc|].
  rewrite E. rewrite (proj2 (Z.ltb_ge 8 _) Hn), (proj2 (Z.ltb_ge 3 _) He).
  assert (Hb : existsb (str_contains Sfn.forbidden_chars) n = false).
  { apply existsb_false_Forall. eapply Forall_impl; [exact Hf|]. intros c Hc'.
    apply not_true_iff_false. by rewrite str_contains_spec. }
  simpl orb. rewrite Hb. apply Exists_app in Hx as [Hx|Hx].
  - by rewrite (to_array_nonascii 8 n Hx Hn).
  - rewrite (to_array_nonascii 3 e Hx He).
    by destruct (Sfn.to_array 8 (pad 8 n)) as [?| |] eqn:Ea; [| |
      exfalso; unfold Sfn.to_array in Ea; case_decide].
Qed.

Lemma sfn_parse_nonascii_panics_witness :
  @Sfn.parse demo_unicode [0xC9] = Panic.
Proof.
  apply (@sfn_parse_nonascii_panics demo_unicode [0xC9] [0xC9] []).
  - discriminate.
  - apply (bool_decide_unpack _); vm_compute; exact I.
  - vm_compute. reflexivity.
  - vm_compute. discriminate.
  - vm_compute. discriminate.
  - apply (bool_decide_unpack _); vm_compute; exact I.
  - left. lia.
Defined.
