(* ===== verification/Fat16Entry.v ===== *)
(** * FAT16 on-disk structures

    Models [pkg/storage/src/fs/fat16/bpb.rs] (the boot parameter block),
    [direntry.rs] (directory entries, clusters, time stamps), [directory.rs]
    and [pkg/storage/src/common/metadata.rs].

    Two crates are parameters: [chrono], which turns calendar fields into a
    time stamp, and [bitflags], which generates the operations of [Attributes]
    over the bits declared in [direntry.rs]. *)

From stdpp Require Import base numbers list.
From S2P Require Import Prelude Bytes Device Str Fat16Name.

(** ** Third-party operations *)
Class Chrono : Type := {
  FsTime : Type;
  (** [Utc.with_ymd_and_hms(y, mo, d, h, mi, s)]: [Some t] for [Single(t)]. *)
  with_ymd_and_hms : Z -> Z -> Z -> Z -> Z -> Z -> option FsTime;
  (** [DateTime::from_timestamp_millis(ms)] *)
  from_timestamp_millis : Z -> option FsTime;
}.
(** The epoch is a valid time stamp. *)
Class ChronoLaws `{Chrono} : Prop := {
  timestamp_zero : is_Some (from_timestamp_millis 0);
}.

(** ** The boot parameter block ([bpb.rs]) *)
Module Bpb.

Record t : Type := mk { data : bytes }.

Definition oem_name (b : t) : bytes := field_arr (data b) 0x03 8.
Definition bytes_per_sector (b : t) : Z := field_u16 (data b) 0x0B.
Definition sectors_per_cluster (b : t) : Z := field_u8 (data b) 0x0D.
Definition reserved_sector_count (b : t) : Z := field_u16 (data b) 0x0E.
Definition fat_count (b : t) : Z := field_u8 (data b) 0x10.
Definition root_entries_count (b : t) : Z := field_u16 (data b) 0x11.
Definition total_sectors_16 (b : t) : Z := field_u16 (data b) 0x13.
Definition media_descriptor (b : t) : Z := field_u8 (data b) 0x15.
Definition sectors_per_fat (b : t) : Z := field_u16 (data b) 0x16.
Definition sectors_per_track (b : t) : Z := field_u16 (data b) 0x18.
Definition track_count (b : t) : Z := field_u16 (data b) 0x1A.
Definition hidden_sectors (b : t) : Z := field_u32 (data b) 0x1C.
Definition total_sectors_32 (b : t) : Z := field_u32 (data b) 0x20.
Definition drive_number (b : t) : Z := field_u8 (data b) 0x24.
Definition reserved_flags (b : t) : Z := field_u8 (data b) 0x25.
Definition boot_signature (b : t) : Z := field_u8 (data b) 0x26.
Definition volume_id (b : t) : Z := field_u32 (data b) 0x27.
Definition volume_label (b : t) : bytes := field_arr (data b) 0x2B 11.
Definition system_identifier (b : t) : bytes := field_arr (data b) 0x36 8.
Definition trail (b : t) : Z := field_u16 (data b) 0x1FE.

Definition total_sectors (b : t) : Z :=
  if total_sectors_16 b =? 0 then total_sectors_32 b else total_sectors_16 b.

(** [Fat16Bpb::new]: [try_into().unwrap()] into [[u8; 512]], then the trailer. *)
Definition new (d : bytes) : outcome (result t unit) :=
  if decide (length d = 512%nat) then
    let bpb := mk d in
    if negb (trail bpb =? 0xAA55) then Ret (Err tt) else Ret (Ok bpb)
  else Panic.

End Bpb.

(** ** Clusters *)
Module Cluster.
Definition INVALID : Z := 0xFFFFFFF6.
Definition BAD : Z := 0xFFFFFFF7.
Definition EMPTY : Z := 0x00000000.
Definition ROOT_DIR : Z := 0xFFFFFFFC.
Definition END_OF_FILE : Z := 0xFFFFFFFF.
End Cluster.

(** ** Attributes: the bits declared by [bitflags!] *)
Module Attr.
Definition READ_ONLY : Z := 0x01.
Definition HIDDEN : Z := 0x02.
Definition SYSTEM : Z := 0x04.
Definition VOLUME_ID : Z := 0x08.
Definition DIRECTORY : Z := 0x10.
Definition ARCHIVE : Z := 0x20.
Definition LFN : Z := 0x0f.
Definition known : Z :=
  foldr Z.lor 0 [READ_ONLY; HIDDEN; SYSTEM; VOLUME_ID; DIRECTORY; ARCHIVE; LFN].
End Attr.

(** ** Metadata ([common/metadata.rs]) *)
Inductive FileType : Type := File | Directory.
Global Instance FileType_eq_dec : EqDecision FileType.
Proof. solve_decision. Defined.

Record Metadata `{Chrono} : Type := {
  m_name : str; m_type : FileType; m_len : Z;
  m_created : option FsTime; m_modified : option FsTime; m_accessed : option FsTime;
}.

Definition meta_is_file `{Chrono} (m : Metadata) : bool := bool_decide (m_type m = File).
Definition meta_is_dir `{Chrono} (m : Metadata) : bool := bool_decide (m_type m = Directory).

(** ** Directory entries ([direntry.rs]) *)
Module DirEntry.

Record t `{Chrono} : Type := mk {
  filename : ShortFileName;
  modified_time : FsTime;
  created_time : FsTime;
  accessed_time : FsTime;
  cluster : Z;
  attributes : Z;
  size : Z;
}.

Definition LEN : Z := 0x20.

Section ops.
Context `{Chrono, Bitflags}.

Definition prase_datetime (time : Z) : outcome FsTime :=
  let year := Z.land (Z.shiftr time 25) 0x7F + 1980 in
  let month := Z.land (Z.shiftr time 21) 0x0F in
  let day := Z.land (Z.shiftr time 16) 0x1F in
  let hour := Z.land (Z.shiftr time 11) 0x1F in
  let min := Z.land (Z.shiftr time 5) 0x3F in
  let sec := Z.land time 0x1F * 2 in
  match with_ymd_and_hms year month day hour min sec with
  | Some t => Ret t
  | None => unwrap (from_timestamp_millis 0)
  end.

Definition is_valid (e : t) : bool :=
  negb (Sfn.is_unused (filename e)) && negb (Sfn.is_eod (filename e)).
Definition is_long_name (e : t) : bool := contains (attributes e) Attr.LFN.
Definition is_directory (e : t) : bool := contains (attributes e) Attr.DIRECTORY.
Definition is_displayable (e : t) : bool :=
  negb (contains (attributes e) Attr.HIDDEN) && is_valid e && negb (is_long_name e).

(** ["unknown"] *)
Definition unknown : str := [117; 110; 107; 110; 111; 119; 110].
Definition file_name (e : t) : outcome str :=
  if is_valid e && negb (is_long_name e) then Sfn.fmt (filename e) else Ret unknown.

Definition parse (data : bytes) : outcome (result t FsError) :=
  head ← slice data 0 11;
  fname ← Sfn.new head;
  c ← slice data 14 18; created ← prase_datetime (le_num c);
  a0 ← index data 18; a1 ← index data 19;
  accessed ← prase_datetime (le_num [0; 0; a0; a1]);
  mt ← slice data 22 26; modified ← prase_datetime (le_num mt);
  at_ ← index data 11;
  let attrs := default 0 (from_bits Attr.known at_) in
  k0 ← index data 26; k1 ← index data 27; k2 ← index data 20; k3 ← index data 21;
  sz ← slice data 28 32;
  Ret (Ok (mk _ fname modified created accessed (le_num [k0; k1; k2; k3]) attrs
             (le_num sz))).

(** [From<&DirEntry> for Metadata] and [as_meta]. *)
Definition as_meta (e : t) : outcome Metadata :=
  name ← file_name e;
  Ret {| m_type := if is_directory e then Directory else File;
         m_name := name; m_len := size e;
         m_created := Some (created_time e); m_accessed := Some (accessed_time e);
         m_modified := Some (modified_time e) |}.

End ops.
End DirEntry.

(** ** Directories ([directory.rs]) *)
Module Dir.
Record t `{Chrono} : Type := mk { cluster : Z; entry : option DirEntry.t }.
Section ops.
Context `{Chrono}.
Definition new (c : Z) : t := mk _ c None.
Definition root : t := mk _ Cluster.ROOT_DIR None.
Definition from_entry (e : DirEntry.t) : t := mk _ (DirEntry.cluster e) (Some e).
End ops.
End Dir.

(** ** Concrete instances, for the witnesses: a time stamp is its six fields. *)
Definition demo_chrono : Chrono := {|
  FsTime := (Z * Z * Z * Z * Z * Z);
  with_ymd_and_hms y mo d h mi s :=
    if (1 <=? mo) && (mo <=? 12) && (1 <=? d) && (d <=? 31) && (h <? 24) &&
       (mi <? 60) && (s <? 60) then Some (y, mo, d, h, mi, s) else None;
  from_timestamp_millis ms := if ms =? 0 then Some (1970, 1, 1, 0, 0, 0) else None;
|}.
Definition demo_bitflags : Bitflags := {|
  from_bits known b := if Z.ldiff b known =? 0 then Some b else None;
  contains a b := Z.land a b =? b;
|}.
Lemma demo_chrono_laws : @ChronoLaws demo_chrono.
Proof. constructor. by eexists. Qed.
Lemma demo_bitflags_laws : @BitflagsLaws demo_bitflags.
Proof. constructor; done. Qed.

(** ** Lemmas *)

(** A bit field is a quotient modulo a power of two. *)
Lemma bit_field x sh w m :
  0 <= sh -> 0 <= w -> m = Z.ones w ->
  Z.land (Z.shiftr x sh) m = (x / 2 ^ sh) mod 2 ^ w.
Proof. intros ? ? ->. by rewrite Z.land_ones, Z.shiftr_div_pow2 by lia. Qed.

(** The DOS date and time word. *)
Definition dos_time (y mo d h mi s : Z) : Z :=
  y * 2 ^ 25 + mo * 2 ^ 21 + d * 2 ^ 16 + h * 2 ^ 11 + mi * 2 ^ 5 + s.

Lemma prase_datetime_pack `{Chrono} y mo d h mi s :
  0 <= y < 128 -> 0 <= mo < 16 -> 0 <= d < 32 -> 0 <= h < 32 -> 0 <= mi < 64 ->
  0 <= s < 32 ->
  DirEntry.prase_datetime (dos_time y mo d h mi s) =
  match with_ymd_and_hms (1980 + y) mo d h mi (2 * s) with
  | Some t => Ret t
  | None => unwrap (from_timestamp_millis 0)
  end.
Proof.
  intros. unfold DirEntry.prase_datetime, dos_time.
  rewrite (bit_field _ 25 7), (bit_field _ 21 4), (bit_field _ 16 5), (bit_field _ 11 5),
    (bit_field _ 5 6) by (lia || reflexivity).
  change 0x1F with (Z.ones 5). rewrite Z.land_ones by lia.
  remember (_ + s) as x eqn:E in |- *.
  replace ((x / 2 ^ 25) mod 2 ^ 7 + 1980) with (1980 + y) by zdiv.
  replace ((x / 2 ^ 21) mod 2 ^ 4) with mo by zdiv.
  replace ((x / 2 ^ 16) mod 2 ^ 5) with d by zdiv.
  replace ((x / 2 ^ 11) mod 2 ^ 5) with h by zdiv.
  replace ((x / 2 ^ 5) mod 2 ^ 6) with mi by zdiv.
  by replace (x mod 2 ^ 5 * 2) with (2 * s) by zdiv.
Qed.

Lemma prase_datetime_total `{ChronoLaws} x :
  exists t, DirEntry.prase_datetime x = Ret t.
Proof.
  unfold DirEntry.prase_datetime. destruct (with_ymd_and_hms _ _ _ _ _ _); [eauto|].
  destruct timestamp_zero as [t ->]. by exists t.
Qed.

(** The 32 bytes of a directory entry, field by field, as FAT16 lays them out. *)
Definition entry_layout (name ext : bytes) (attr nt tenth ctime adate mtime cl size : Z)
    : bytes :=
  name ++ ext ++ [attr; nt; tenth] ++ le_bytes 4 ctime ++ le_bytes 2 adate ++
  le_bytes 2 (cl / 65536) ++ le_bytes 4 mtime ++ le_bytes 2 cl ++ le_bytes 4 size.

Lemma le_num_4 x : 0 <= x < 2 ^ 32 -> le_num (le_bytes 4 x) = x.
Proof. intros. rewrite le_num_le_bytes. apply Z.mod_small. lia. Qed.

(** Parsing 32 bytes: every slice and index is in range, so the fields are read
    at their offsets. *)
Lemma parse_layout `{ChronoLaws, Bitflags} name ext attr nt tenth ctime adate mtime cl size
    tc ta tm :
  length name = 8%nat -> length ext = 3%nat ->
  in_width 32 ctime -> in_width 16 adate -> in_width 32 mtime -> in_width 32 cl ->
  in_width 32 size ->
  DirEntry.prase_datetime ctime = Ret tc ->
  DirEntry.prase_datetime (adate * 65536) = Ret ta ->
  DirEntry.prase_datetime mtime = Ret tm ->
  DirEntry.parse (entry_layout name ext attr nt tenth ctime adate mtime cl size) =
  Ret (Ok (DirEntry.mk _ {| sfn_name := name; sfn_ext := ext |} tm tc ta cl
             (default 0 (from_bits Attr.known attr)) size)).
Proof.
  unfold in_width. intros Hn He Hct Had Hmt Hcl Hsz Ec Ea Em.
  pose proof (le_num_4 ctime Hct) as Lc. pose proof (le_num_4 mtime Hmt) as Lm.
  pose proof (le_num_4 size Hsz) as Ls.
  explode_list name Hn. explode_list ext He. unfold entry_layout. cbn [app].
  cbn [le_bytes] in *. cbn [app].
  unfold DirEntry.parse.
  rewrite (slice_at _ 0 11 0 11), (slice_at _ 14 18 14 4), (slice_at _ 22 26 22 4),
    (slice_at _ 28 32 28 4) by (simpl; lia).
  erewrite (index_at _ 18 18), (index_at _ 19 19), (index_at _ 11 11), (index_at _ 26 26),
    (index_at _ 27 27), (index_at _ 20 20), (index_at _ 21 21) by (done || lia).
  cbn [mbind outcome_bind sub_bytes take drop]. unfold Sfn.new.
  rewrite (slice_at _ 0 8 0 8), (slice_at _ 8 11 8 3) by (simpl; lia).
  cbn [mbind outcome_bind mret outcome_ret sub_bytes take drop].
  rewrite Lc, Lm, Ls, Ec, Em. cbn [mbind outcome_bind].
  assert (La : le_num [0; 0; adate mod 256; adate / 256 mod 256] = adate * 65536)
    by (cbn [le_num]; zdiv).
  rewrite La, Ea. cbn [mbind outcome_bind]. do 3 f_equal. cbn [le_num]. zdiv.
Qed.

(** parsing the 32 bytes of a FAT16 directory entry gives back its fields:
    name and extension, both halves of the cluster number, size, the attribute
    byte (or none when it has an undeclared bit), and the three time stamps
    decoded from their DOS words (the access stamp has a date only). *)
Theorem dir_entry_parse_layout `{ChronoLaws, BitflagsLaws}
    name ext attr nt tenth ctime adate mtime cl size :
  length name = 8%nat -> length ext = 3%nat -> in_width 8 attr ->
  in_width 32 ctime -> in_width 16 adate -> in_width 32 mtime -> in_width 32 cl ->
  in_width 32 size ->
  exists e, DirEntry.parse (entry_layout name ext attr nt tenth ctime adate mtime cl size)
              = Ret (Ok e) /\
    DirEntry.filename e = {| sfn_name := name; sfn_ext := ext |} /\
    DirEntry.cluster e = cl /\ DirEntry.size e = size /\
    DirEntry.attributes e = (if attr <? 64 then attr else 0) /\
    DirEntry.prase_datetime ctime = Ret (DirEntry.created_time e) /\
    DirEntry.prase_datetime (adate * 65536) = Ret (DirEntry.accessed_time e) /\
    DirEntry.prase_datetime mtime = Ret (DirEntry.modified_time e).
Proof.
  intros Hn He Hat Hct Had Hmt Hcl Hsz.
  destruct (prase_datetime_total ctime) as [tc Ec].
  destruct (prase_datetime_total (adate * 65536)) as [ta Ea].
  destruct (prase_datetime_total mtime) as [tm Em].
  eexists. split; [by eapply parse_layout; eauto|]. simpl. split_and!; try done.
  rewrite from_bits_spec. change Attr.known with (Z.ones 6). unfold in_width in Hat.
  rewrite Z.ldiff_ones_r, Z.shiftl_mul_pow2, Z.shiftr_div_pow2 by lia.
  destruct (Z.ltb_spec attr 64), (Z.eqb_spec (attr / 2 ^ 6 * 2 ^ 6) 0); simpl; zdiv.
Qed.

Lemma dir_entry_parse_layout_witness :
  exists e : @DirEntry.t demo_chrono,
    @DirEntry.parse demo_chrono demo_bitflags
      (entry_layout [75; 69; 82; 78; 69; 76; 32; 32] [69; 76; 70] 0x20 0 0
         0x50D0BE0F 0x50D0 0x50D0BE0F 2 0xEE4F0) = Ret (Ok e) /\
    DirEntry.cluster e = 2 /\ DirEntry.size e = 0xEE4F0 /\
    DirEntry.attributes e = Attr.ARCHIVE.
Proof.
  destruct (@dir_entry_parse_layout demo_chrono demo_chrono_laws demo_bitflags
    demo_bitflags_laws [75; 69; 82; 78; 69; 76; 32; 32] [69; 76; 70] 0x20 0 0 0x50D0BE0F
    0x50D0 0x50D0BE0F 2 0xEE4F0) as (e & He & _ & Hc & Hs & Ha & _);
    [reflexivity|reflexivity|unfold in_width; lia..|].
  exists e. split; [exact He|]. split; [exact Hc|]. split; [exact Hs|exact Ha].
Defined.

(** the DOS word of a date and time decodes to that date and time, for every
    value the bit fields can hold; a combination the calendar refuses decodes to
    the Unix epoch. *)
Theorem dos_time_decode `{ChronoLaws} y mo d h mi s :
  0 <= y < 128 -> 0 <= mo < 16 -> 0 <= d < 32 -> 0 <= h < 32 -> 0 <= mi < 64 ->
  0 <= s < 32 ->
  match with_ymd_and_hms (1980 + y) mo d h mi (2 * s) with
  | Some t => DirEntry.prase_datetime (dos_time y mo d h mi s) = Ret t
  | None => exists t0, from_timestamp_millis 0 = Some t0 /\
              DirEntry.prase_datetime (dos_time y mo d h mi s) = Ret t0
  end.
Proof.
  intros. rewrite prase_datetime_pack by done.
  destruct (with_ymd_and_hms _ _ _ _ _ _); [done|].
  destruct timestamp_zero as [t ->]. by exists t.
Qed.

Lemma dos_time_decode_witness :
  @DirEntry.prase_datetime demo_chrono (dos_time 40 6 16 23 48 15) =
    Ret (2020, 6, 16, 23, 48, 30).
Proof.
  apply (@dos_time_decode demo_chrono demo_chrono_laws 40 6 16 23 48 15); lia.
Defined.

(** The test of [direntry.rs]. *)
Example test_dir_entry :
  @DirEntry.parse demo_chrono demo_bitflags
    [0x4b; 0x45; 0x52; 0x4e; 0x45; 0x4c; 0x20; 0x20; 0x45; 0x4c; 0x46; 0x20; 0x00; 0x00;
     0x0f; 0xbe; 0xd0; 0x50; 0xd0; 0x50; 0x00; 0x00; 0x0f; 0xbe; 0xd0; 0x50; 0x02; 0x00;
     0xf0; 0xe4; 0x0e; 0x00]
  = Ret (Ok (DirEntry.mk demo_chrono
      {| sfn_name := [75; 69; 82; 78; 69; 76; 32; 32]; sfn_ext := [69; 76; 70] |}
      (2020, 6, 16, 23, 48, 30) (2020, 6, 16, 23, 48, 30) (2020, 6, 16, 0, 0, 0)
      2 Attr.ARCHIVE 0xee4f0)).
Proof. vm_compute. reflexivity. Qed.

(** Any 32 bytes parse. *)
Lemma parse_total `{ChronoLaws, Bitflags} b :
  length b = 32%nat -> exists e, DirEntry.parse b = Ret (Ok e).
Proof.
  intros Hl. unfold DirEntry.parse.
  rewrite (slice_at _ 0 11 0 11), (slice_at _ 14 18 14 4), (slice_at _ 22 26 22 4),
    (slice_at _ 28 32 28 4) by lia.
  assert (Hi : forall i, (i < 32)%nat -> exists x, b !! i = Some x)
    by (intros i ?; apply lookup_lt_is_Some; lia).
  destruct (Hi 18%nat) as [x18 H18]; [lia|]. destruct (Hi 19%nat) as [x19 H19]; [lia|].
  destruct (Hi 11%nat) as [x11 H11]; [lia|]. destruct (Hi 26%nat) as [x26 H26]; [lia|].
  destruct (Hi 27%nat) as [x27 H27]; [lia|]. destruct (Hi 20%nat) as [x20 H20]; [lia|].
  destruct (Hi 21%nat) as [x21 H21]; [lia|].
  rewrite (index_at _ 18 18 _ eq_refl H18), (index_at _ 19 19 _ eq_refl H19),
    (index_at _ 11 11 _ eq_refl H11), (index_at _ 26 26 _ eq_refl H26),
    (index_at _ 27 27 _ eq_refl H27), (index_at _ 20 20 _ eq_refl H20),
    (index_at _ 21 21 _ eq_refl H21).
  cbn [mbind outcome_bind]. unfold Sfn.new.
  rewrite (slice_at _ 0 8 0 8), (slice_at _ 8 11 8 3) by (rewrite ?length_sub_bytes by lia; lia).
  cbn [mbind outcome_bind mret outcome_ret].
  destruct (prase_datetime_total (le_num (sub_bytes b 14 4))) as [? ->].
  cbn [mbind outcome_bind].
  destruct (prase_datetime_total (le_num [0; 0; x18; x19])) as [? ->].
  cbn [mbind outcome_bind].
  destruct (prase_datetime_total (le_num (sub_bytes b 22 4))) as [? ->].
  cbn [mbind outcome_bind]. eauto.
Qed.
