(* ===== verification/Fat16Fs.v ===== *)
(** * The FAT16 file system

    Models [Fat16Impl] and [FileSystem for Fat16] of
    [pkg/storage/src/fs/fat16/{mod,impls}.rs]: the geometry computed from the
    boot parameter block, the FAT, the directory traversal, path lookup.

    A directory whose FAT chain loops makes [traverse_dir_entries] run for
    ever, so the outer loop takes fuel, one unit per cluster visited; the root
    directory needs one unit ([traverse_root]). *)

From stdpp Require Import base numbers list.
From S2P Require Import Prelude Bytes Device Str Fat16Name Fat16Entry.

Definition BLOCK_SIZE : Z := 512.

Record Fat16Impl (D : Type) : Type := {
  inner : D;
  bpb : Bpb.t;
  fat_start : Z;
  first_data_sector : Z;
  first_root_dir_sector : Z;
}.
Arguments inner {D} _.
Arguments bpb {D} _.
Arguments fat_start {D} _.
Arguments first_data_sector {D} _.
Arguments first_root_dir_sector {D} _.

Module Fat.
Section ops.
Context {D : Type} `{BlockDevice D} `{Chrono} `{Bitflags} `{UnicodeTable}.

(** The sums are of 16-bit and 8-bit fields, so no [usize] overflow. *)
Definition new (d : D) : outcome (Fat16Impl D) :=
  block ← unwrap_result (read_block d 0);
  r ← Bpb.new block;
  bpb ← unwrap_result r;
  let fat_start := Bpb.reserved_sector_count bpb in
  let root_dir_sector_num := Bpb.root_entries_count bpb * 32 / BLOCK_SIZE in
  let first_root_dir_sector :=
    fat_start + Bpb.fat_count bpb * Bpb.sectors_per_fat bpb in
  let first_data_sector := first_root_dir_sector + root_dir_sector_num in
  Ret {| inner := d; bpb := bpb; fat_start := fat_start;
         first_data_sector := first_data_sector;
         first_root_dir_sector := first_root_dir_sector |}.

(** 32-bit wrapping arithmetic, as in the source. *)
Definition cluster_to_first_sector (f : Fat16Impl D) (cluster : Z) : Z :=
  if cluster =? Cluster.ROOT_DIR then first_root_dir_sector f
  else u32 (u32 (u32 (cluster - 2) * Bpb.sectors_per_cluster (bpb f)) +
            u32 (first_data_sector f)).

Definition get_next_cluster (f : Fat16Impl D) (cluster : Z) : outcome (result Z FsError) :=
  if cluster =? Cluster.ROOT_DIR then Ret (Ok Cluster.END_OF_FILE)
  else
    block ← unwrap_result (read_block (inner f) (fat_start f));
    let tem := u32 (cluster * 2) in
    b ← slice block tem (tem + 2);
    let next := le_num b in
    if next =? Cluster.EMPTY then Ret (Ok Cluster.EMPTY)
    else if next =? Cluster.BAD then Ret (Err BadCluster)
    else if (0x00000002 <=? next) && (next <? 0x0000FFF6) then Ret (Ok next)
    else if 0xFFFFFFF8 <=? next then Ret (Ok Cluster.END_OF_FILE)
    else Ret (Ok Cluster.INVALID).

(** ** Directory traversal

    The closure [process_entry] of the source updates a variable it captures
    and returns a [Result]: here a function from that variable's value. *)
Section traverse.
Context {S : Type} (process_entry : S -> DirEntry.t -> result S FsError).

(** [for _ in 0..n]: the pair says whether the function returned early. *)
Fixpoint for_entries (n : nat) (block : Block) (offset : Z) (s : S)
    : outcome (result (bool * S) FsError) :=
  match n with
  | O => Ret (Ok (false, s))
  | Datatypes.S n' =>
      b ← slice block offset (offset + DirEntry.LEN);
      r ← DirEntry.parse b;
      entry ← unwrap_result r;
      if DirEntry.is_valid entry then
        s' <-? Ret (process_entry s entry) ;;
        for_entries n' block (offset + DirEntry.LEN) s'
      else Ret (Ok (true, s))
  end.

(** [while entry_num > 0]: at most [entry_num] rounds, which is the fuel. *)
Fixpoint while_entries (fuel : nat) (f : Fat16Impl D) (entry_num now_sector : Z) (s : S)
    : outcome (result (bool * S) FsError) :=
  if entry_num <=? 0 then Ret (Ok (false, s))
  else
    match fuel with
    | O => Timeout
    | Datatypes.S fuel' =>
        block ← unwrap_result (read_block (inner f) now_sector);
        let n := Z.min entry_num (BLOCK_SIZE / DirEntry.LEN) in
        r <-? for_entries (Z.to_nat n) block 0 s ;;
        let '(stop, s') := r in
        if (stop : bool) then Ret (Ok (true, s'))
        else while_entries fuel' f (entry_num - n) (now_sector + 1) s'
    end.

Definition entry_count (f : Fat16Impl D) (cluster : Z) : Z :=
  if cluster =? Cluster.ROOT_DIR then Bpb.root_entries_count (bpb f)
  else BLOCK_SIZE / DirEntry.LEN * Bpb.sectors_per_cluster (bpb f).

(** [loop]: one round per cluster of the directory. *)
Fixpoint loop_clusters (fuel : nat) (f : Fat16Impl D) (cluster : Z) (s : S)
    : outcome (result S FsError) :=
  match fuel with
  | O => Timeout
  | Datatypes.S fuel' =>
      r <-? while_entries (Z.to_nat (entry_count f cluster)) f (entry_count f cluster)
              (cluster_to_first_sector f cluster) s ;;
      let '(stop, s') := r in
      if (stop : bool) then Ret (Ok s')
      else
        cluster' <-? get_next_cluster f cluster ;;
        if cluster' =? Cluster.END_OF_FILE then Ret (Ok s')
        else loop_clusters fuel' f cluster' s'
  end.

Definition traverse_dir_entries (fuel : nat) (f : Fat16Impl D) (dir : Dir.t) (s : S)
    : outcome (result S FsError) :=
  loop_clusters fuel f (Dir.cluster dir) s.

End traverse.

Definition get_dir_entry_by_name (fuel : nat) (f : Fat16Impl D) (dir : Dir.t) (name : str)
    : outcome (result DirEntry.t FsError) :=
  parse_name <-? Sfn.parse name ;;
  found <-? traverse_dir_entries
      (fun result entry =>
         Ok (if Sfn.matches (DirEntry.filename entry) parse_name then Some entry
             else result))
      fuel f dir None ;;
  match (found : option DirEntry.t) with
  | Some entry => Ret (Ok entry)
  | None => Ret (Err FileNotFound)
  end.

(** The entries of the iterator that the source returns; each is turned into a
    [Metadata] ([DirEntry.as_meta]) when the iterator is advanced. *)
Definition get_all_file_under_dir (fuel : nat) (f : Fat16Impl D) (dir : Dir.t)
    : outcome (result (list DirEntry.t) FsError) :=
  traverse_dir_entries
    (fun entries entry =>
       Ok (if DirEntry.is_displayable entry then entries ++ [entry] else entries))
    fuel f dir [].

Definition parse_path (path : str) : list str :=
  List.filter (fun s => negb (bool_decide (s = []))) (split_on 47 path).

Definition open_root_dir : Dir.t := Dir.mk _ Cluster.ROOT_DIR None.

(** ** [FileSystem for Fat16] *)

Fixpoint walk_dirs (fuel : nat) (f : Fat16Impl D) (parts : list str) (dir : Dir.t)
    : outcome (result Dir.t FsError) :=
  match parts with
  | [] => Ret (Ok dir)
  | part :: parts' =>
      entry <-? get_dir_entry_by_name fuel f dir part ;;
      if DirEntry.is_directory entry then walk_dirs fuel f parts' (Dir.from_entry entry)
      else Ret (Err NotADirectory)
  end.

Definition read_dir (fuel : nat) (f : Fat16Impl D) (path : str)
    : outcome (result (list DirEntry.t) FsError) :=
  dir <-? walk_dirs fuel f (parse_path path) open_root_dir ;;
  get_all_file_under_dir fuel f dir.

(** The loops [for i in 0..parts.len()] of [open_file], [metadata] and [exists], one
    each as in the source: look the component up, and on the last one
    ([i == parts.len() - 1], nothing is left) return, otherwise descend.

    The opened file is its metadata and the entry that [File::new] starts from. *)
Fixpoint open_file_loop (fuel : nat) (f : Fat16Impl D) (parts : list str) (dir : Dir.t)
    : outcome (result (Metadata * DirEntry.t) FsError) :=
  match parts with
  | [] => Ret (Err FileNotFound)
  | part :: parts' =>
      entry <-? get_dir_entry_by_name fuel f dir part ;;
      match parts' with
      | [] =>
          if DirEntry.is_directory entry then Ret (Err NotAFile)
          else m ← DirEntry.as_meta entry; Ret (Ok (m, entry))
      | _ :: _ => open_file_loop fuel f parts' (Dir.from_entry entry)
      end
  end.
Definition open_file (fuel : nat) (f : Fat16Impl D) (path : str)
    : outcome (result (Metadata * DirEntry.t) FsError) :=
  open_file_loop fuel f (parse_path path) open_root_dir.

Fixpoint metadata_loop (fuel : nat) (f : Fat16Impl D) (parts : list str) (dir : Dir.t)
    : outcome (result Metadata FsError) :=
  match parts with
  | [] => Ret (Err FileNotFound)
  | part :: parts' =>
      entry <-? get_dir_entry_by_name fuel f dir part ;;
      match parts' with
      | [] => m ← DirEntry.as_meta entry; Ret (Ok m)
      | _ :: _ => metadata_loop fuel f parts' (Dir.from_entry entry)
      end
  end.
Definition metadata (fuel : nat) (f : Fat16Impl D) (path : str)
    : outcome (result Metadata FsError) :=
  metadata_loop fuel f (parse_path path) open_root_dir.

Fixpoint exists_loop (fuel : nat) (f : Fat16Impl D) (parts : list str) (dir : Dir.t)
    : outcome (result bool FsError) :=
  match parts with
  | [] => Ret (Err FileNotFound)
  | part :: parts' =>
      entry <-? get_dir_entry_by_name fuel f dir part ;;
      match parts' with
      | [] => Ret (Ok true)
      | _ :: _ => exists_loop fuel f parts' (Dir.from_entry entry)
      end
  end.
Definition exists_ (fuel : nat) (f : Fat16Impl D) (path : str)
    : outcome (result bool FsError) :=
  exists_loop fuel f (parse_path path) open_root_dir.

End ops.
End Fat.

(** ** The directory area as a list of entries *)

(** The 32-byte records of a list of sectors. *)
Definition records (bs : list Block) : list bytes :=
  bs ≫= (fun b => (fun i => sub_bytes b (32 * i) 32) <$> seq 0 16).

Section spec.
Context {D : Type} `{BlockDevice D} `{Chrono} `{Bitflags} `{UnicodeTable}.

(** The entries a traversal reads: the records parsed, in order. *)
Definition parsed (rs : list bytes) (es : list DirEntry.t) : Prop :=
  Forall2 (fun r e => DirEntry.parse r = Ret (Ok e)) rs es.

(** The entries before the first one that is not valid. *)
Fixpoint valid_prefix (es : list DirEntry.t) : list DirEntry.t :=
  match es with
  | [] => []
  | e :: es' => if DirEntry.is_valid e then e :: valid_prefix es' else []
  end.

(** [sectors f start bs]: the device holds [bs] from sector [start] on. *)
Definition sectors (d : D) (start : Z) (bs : list Block) : Prop :=
  forall (i : nat) b, bs !! i = Some b -> read_block d (start + Z.of_nat i) = Ok b.

(** The traversal over parsed entries, with its early return. *)
Fixpoint scan {S} (f : S -> DirEntry.t -> result S FsError) (es : list DirEntry.t) (s : S)
    : result (bool * S) FsError :=
  match es with
  | [] => Ok (false, s)
  | e :: es' =>
      if DirEntry.is_valid e then
        match f s e with Ok s' => scan f es' s' | Err x => Err x end
      else Ok (true, s)
  end.

Lemma scan_app {S} (f : S -> DirEntry.t -> result S FsError) es1 es2 s :
  scan f (es1 ++ es2) s =
  match scan f es1 s with
  | Ok (false, s') => scan f es2 s'
  | r => r
  end.
Proof.
  revert s. induction es1 as [|e es1 IH]; intros s; [done|]. cbn [app scan].
  destruct (DirEntry.is_valid e); [|done]. by destruct (f s e).
Qed.

(** A closure that never fails folds over the valid prefix. *)
Lemma scan_fold {S} (g : S -> DirEntry.t -> S) es s :
  exists stop, scan (fun s e => Ok (g s e)) es s =
    Ok (stop, fold_left g (valid_prefix es) s).
Proof.
  revert s. induction es as [|e es IH]; intros s; cbn [scan valid_prefix fold_left]; [eauto|].
  destruct (DirEntry.is_valid e); [|eauto]. cbn [fold_left]. apply IH.
Qed.

Lemma for_entries_scan {S} (f : S -> DirEntry.t -> result S FsError) b k n es s :
  length b = 512%nat -> (k + n <= 16)%nat ->
  parsed ((fun i => sub_bytes b (32 * i) 32) <$> seq k n) es ->
  Fat.for_entries f n b (32 * Z.of_nat k) s = Ret (scan f es s).
Proof.
  intros Hl. revert k es s. induction n as [|n IH]; intros k es s Hk Hp; cbn [seq] in Hp.
  - by apply Forall2_nil_inv_l in Hp as ->.
  - rewrite fmap_cons in Hp. apply Forall2_cons_inv_l in Hp as (e & es' & He & Hes & ->).
    cbn [Fat.for_entries scan]. unfold DirEntry.LEN.
    rewrite (slice_at _ _ _ (32 * k) 32) by lia. cbn [mbind outcome_bind].
    rewrite He. cbn [mbind outcome_bind unwrap_result].
    destruct (DirEntry.is_valid e); [|done]. unfold try_bind.
    destruct (f s e) as [s'|]; [|done].
    replace (32 * Z.of_nat k + 0x20) with (32 * Z.of_nat (Datatypes.S k)) by lia.
    apply IH; [lia|done].
Qed.

Lemma records_cons b bs :
  records (b :: bs) = ((fun i => sub_bytes b (32 * i) 32) <$> seq 0 16) ++ records bs.
Proof. done. Qed.

Context `{!BlockDeviceLaws D 512}.

Lemma while_entries_scan {S} (f : S -> DirEntry.t -> result S FsError) h fuel n start bs es s :
  (n <= fuel)%nat -> (n <= 16 * length bs)%nat -> sectors (inner h) start bs ->
  parsed (take n (records bs)) es ->
  Fat.while_entries f fuel h (Z.of_nat n) start s = Ret (scan f es s).
Proof.
  revert n start bs es s.
  induction fuel as [|fuel IH]; intros n start bs es s Hf Hn Hs Hp.
  - assert (n = 0%nat) as -> by lia. cbn in *. by apply Forall2_nil_inv_l in Hp as ->.
  - cbn [Fat.while_entries]. destruct (Z.leb_spec (Z.of_nat n) 0) as [Hz|Hz].
    { assert (n = 0%nat) as -> by lia. rewrite take_0 in Hp.
      by apply Forall2_nil_inv_l in Hp as ->. }
    destruct bs as [|b bs]; [simpl in Hn; lia|].
    pose proof (Hs 0%nat b eq_refl) as Hr. rewrite Z.add_0_r in Hr.
    pose proof (read_block_ok _ _ _ Hr) as [Hb _]. rewrite Hr.
    cbn [unwrap_result mbind outcome_bind]. rewrite records_cons in Hp.
    change (BLOCK_SIZE / DirEntry.LEN) with 16.
    assert (Hlen : length ((fun i => sub_bytes b (32 * i) 32) <$> seq 0 16) = 16%nat)
      by by rewrite length_fmap, length_seq.
    rewrite take_app, Hlen in Hp. unfold parsed in Hp.
    apply Forall2_app_inv_l in Hp as (es1 & es2 & Hp1 & Hp2 & ->). rewrite scan_app.
    rewrite <- fmap_take, take_seq in Hp1.
    replace (Z.to_nat (Z.min (Z.of_nat n) 16)) with (n `min` 16)%nat by lia.
    change 0 with (32 * Z.of_nat 0) at 1.
    rewrite (for_entries_scan f b 0 (n `min` 16) es1) by (done || lia).
    unfold try_bind. destruct (scan f es1 s) as [[[] s']|]; [done| |done].
    replace (Z.of_nat n - Z.min (Z.of_nat n) 16) with (Z.of_nat (n - 16)) by lia.
    apply (IH _ _ bs); [lia|simpl in Hn; lia| |done].
    intros i b' Hi. replace (start + 1 + Z.of_nat i) with (start + Z.of_nat (Datatypes.S i)) by lia.
    by apply Hs.
Qed.

(** The root directory: its sectors are [bs] and its entries parse to [es]. *)
Definition root_dir (f : Fat16Impl D) (bs : list Block) (es : list DirEntry.t) : Prop :=
  sectors (inner f) (first_root_dir_sector f) bs /\
  0 <= Bpb.root_entries_count (bpb f) <= 16 * zlen bs /\
  parsed (take (Z.to_nat (Bpb.root_entries_count (bpb f))) (records bs)) es.

(** The root needs one round of the outer loop. *)
Lemma traverse_root {S} (g : S -> DirEntry.t -> S) f bs es fuel s :
  root_dir f bs es ->
  Fat.traverse_dir_entries (fun s e => Ok (g s e)) (Datatypes.S fuel) f Fat.open_root_dir s =
  Ret (Ok (fold_left g (valid_prefix es) s)).
Proof.
  intros (Hs & Hn & Hp). unfold Fat.traverse_dir_entries, zlen in *.
  cbn [Fat.loop_clusters Fat.open_root_dir Dir.cluster].
  unfold Fat.entry_count, Fat.cluster_to_first_sector, Fat.get_next_cluster.
  rewrite Z.eqb_refl.
  set (n := Z.to_nat (Bpb.root_entries_count (bpb f))) in *.
  replace (Bpb.root_entries_count (bpb f)) with (Z.of_nat n) by lia.
  rewrite (while_entries_scan _ f n n _ bs es) by (done || lia).
  destruct (scan_fold g es s) as [stop ->]. cbn [try_bind].
  destruct stop; [done|]. by rewrite Z.eqb_refl.
Qed.

Lemma fold_last_match (p : DirEntry.t -> bool) es acc :
  fold_left (fun r e => if p e then Some e else r) es acc =
  match last (List.filter p es) with Some e => Some e | None => acc end.
Proof.
  revert acc. induction es as [|e es IH]; intros acc; [done|]. cbn [fold_left List.filter].
  rewrite IH. destruct (p e); [|done]. destruct (List.filter p es) as [|x l]; [done|].
  by destruct (last (x :: l)) eqn:E; [rewrite last_cons, E|apply last_None in E].
Qed.

Lemma fold_push (p : DirEntry.t -> bool) es acc :
  fold_left (fun r e => if p e then r ++ [e] else r) es acc = acc ++ List.filter p es.
Proof.
  revert acc. induction es as [|e es IH]; intros acc; cbn [fold_left List.filter].
  - by rewrite app_nil_r.
  - rewrite IH. destruct (p e); [|done]. by rewrite <- app_assoc.
Qed.

Lemma root_lookup f bs es fuel name n :
  root_dir f bs es -> Sfn.parse name = Ret (Ok n) ->
  Fat.get_dir_entry_by_name (Datatypes.S fuel) f Fat.open_root_dir name =
  Ret (match last (List.filter (fun e => Sfn.matches (DirEntry.filename e) n)
                     (valid_prefix es)) with
       | Some e => Ok e
       | None => Err FileNotFound
       end).
Proof.
  intros Hd Hn. unfold Fat.get_dir_entry_by_name. rewrite Hn. cbn [try_bind].
  rewrite (traverse_root (fun r e => if Sfn.matches (DirEntry.filename e) n then Some e else r)
             f bs es) by done.
  cbn [try_bind]. rewrite fold_last_match. by destruct (last _).
Qed.

Lemma valid_prefix_app es1 es2 :
  valid_prefix (es1 ++ es2) =
  if decide (Forall (fun e => DirEntry.is_valid e = true) es1)
  then es1 ++ valid_prefix es2 else valid_prefix es1.
Proof.
  induction es1 as [|e es1 IH]; [done|]. cbn [app valid_prefix]. rewrite IH.
  destruct (DirEntry.is_valid e) eqn:E.
  - destruct (decide (Forall _ es1)) as [Hf|Hf].
    + by rewrite decide_True by by constructor.
    + rewrite decide_False; [done|]. by intros [_ ?]%Forall_cons.
  - rewrite decide_False; [done|]. intros [? _]%Forall_cons. congruence.
Qed.

End spec.

(** ** A small volume, for the witnesses: one sector per cluster, one FAT sector,
    one sector of root directory, four data clusters. *)
Definition demo_bpb : Block :=
  replicate 11 0 ++ [0; 2; 1; 1; 0; 1; 16; 0; 9; 0; 0xF8; 1; 0] ++ replicate 486 0 ++
  [0x55; 0xAA].
Definition demo_fat : Block :=
  [0xF8; 0xFF; 0xFF; 0xFF; 4; 0; 0xFF; 0xFF; 5; 0; 0xFF; 0xFF; 0; 0] ++ replicate 498 0.
(** [A.TXT], cluster 2; a deleted entry; [B.TXT], cluster 3. *)
Definition demo_entry (first cl size : Z) : bytes :=
  entry_layout (first :: replicate 7 32) [84; 88; 84] 0x20 0 0 0 0 0 cl size.
Definition demo_root : Block :=
  demo_entry 65 2 1200 ++ demo_entry 0xE5 0 0 ++ demo_entry 66 3 10 ++ replicate 416 0.
Definition demo_volume : MemDisk.t := {| MemDisk.blocks :=
  [demo_bpb; demo_fat; demo_root; replicate 512 1; replicate 512 2; replicate 512 3;
   replicate 512 4; replicate 512 5; replicate 512 6] |}.
Definition demo_fs : Fat16Impl MemDisk.t := {|
  inner := demo_volume; bpb := Bpb.mk demo_bpb; fat_start := 1;
  first_data_sector := 3; first_root_dir_sector := 2 |}.

Example demo_fs_new : Fat.new demo_volume = Ret demo_fs.
Proof. vm_compute. reflexivity. Qed.

(** ** Properties *)

(** Field ranges of a sector's boot parameter block. *)
Lemma bpb_ranges b :
  bytes_ok b ->
  0 <= Bpb.reserved_sector_count (Bpb.mk b) < 2 ^ 16 /\
  0 <= Bpb.root_entries_count (Bpb.mk b) < 2 ^ 16 /\
  0 <= Bpb.fat_count (Bpb.mk b) < 2 ^ 8 /\
  0 <= Bpb.sectors_per_fat (Bpb.mk b) < 2 ^ 16 /\
  0 <= Bpb.sectors_per_cluster (Bpb.mk b) < 2 ^ 8.
Proof.
  intros. unfold Bpb.reserved_sector_count, Bpb.root_entries_count, Bpb.fat_count,
    Bpb.sectors_per_fat, Bpb.sectors_per_cluster. simpl Bpb.data.
  split_and!; apply field_u16_range || apply field_u8_range; done.
Qed.

(** The range of sectors of a cluster. *)
Definition in_cluster {D} (f : Fat16Impl D) (c s : Z) : Prop :=
  Fat.cluster_to_first_sector f c <= s <
  Fat.cluster_to_first_sector f c + Bpb.sectors_per_cluster (bpb f).

(** C29: the geometry of a mounted volume.  [Fat16Impl::new] panics when the boot
    sector has no [0xAA55] trailer; otherwise it places the FAT, the root
    directory and the data area one after the other, and for every data cluster
    number (2 to [0xFFF5]) the 32-bit sector arithmetic is exact, so clusters lie
    in the data area and two of them share no sector. *)
Theorem fat16_geometry {D} `{BlockDeviceLaws D 512} (d : D) b :
  read_block d 0 = Ok b ->
  (Bpb.trail (Bpb.mk b) <> 0xAA55 -> Fat.new d = Panic) /\
  (Bpb.trail (Bpb.mk b) = 0xAA55 -> exists f, Fat.new d = Ret f /\
     inner f = d /\ bpb f = Bpb.mk b /\
     fat_start f = Bpb.reserved_sector_count (bpb f) /\
     first_root_dir_sector f =
       fat_start f + Bpb.fat_count (bpb f) * Bpb.sectors_per_fat (bpb f) /\
     first_data_sector f =
       first_root_dir_sector f + Bpb.root_entries_count (bpb f) * 32 / 512 /\
     (forall c, 2 <= c < 0xFFF6 ->
        Fat.cluster_to_first_sector f c =
        first_data_sector f + (c - 2) * Bpb.sectors_per_cluster (bpb f)) /\
     (forall c c' s, 2 <= c < 0xFFF6 -> 2 <= c' < 0xFFF6 ->
        in_cluster f c s -> in_cluster f c' s -> first_data_sector f <= s /\ c = c')).
Proof.
  intros Hr. pose proof (read_block_ok _ _ _ Hr) as [Hl Hb].
  unfold Fat.new, Bpb.new. rewrite Hr. cbn [unwrap_result mbind outcome_bind].
  rewrite decide_True by done. split; intros Ht.
  - by rewrite (proj2 (Z.eqb_neq _ _) Ht).
  - rewrite (proj2 (Z.eqb_eq _ _) Ht). cbn [negb unwrap_result mbind outcome_bind].
    eexists. split; [done|].
    cbn [inner bpb fat_start first_root_dir_sector first_data_sector].
    do 5 (split; [done|]).
    destruct (bpb_ranges b Hb) as (H1 & H2 & H3 & H4 & H5).
    set (f := {| inner := d |}).
    assert (Hc : forall c, 2 <= c < 0xFFF6 -> Fat.cluster_to_first_sector f c =
        first_data_sector f + (c - 2) * Bpb.sectors_per_cluster (bpb f)).
    { intros c Hc. unfold Fat.cluster_to_first_sector.
      rewrite (proj2 (Z.eqb_neq _ _)) by (unfold Cluster.ROOT_DIR; lia).
      assert (0 <= first_data_sector f < 2 ^ 25).
      { subst f. cbn [first_data_sector]. unfold BLOCK_SIZE. split; [zdiv|].
        assert (Bpb.fat_count (Bpb.mk b) * Bpb.sectors_per_fat (Bpb.mk b) <= 2 ^ 8 * 2 ^ 16) by nia.
        zdiv. }
      change (bpb f) with (Bpb.mk b).
      assert (0 <= (c - 2) * Bpb.sectors_per_cluster (Bpb.mk b) < 2 ^ 24) by nia.
      rewrite (wrap_small 32 (c - 2)), (wrap_small 32 (first_data_sector f)) by lia.
      rewrite (wrap_small 32 ((c - 2) * _)) by lia. rewrite wrap_small by lia. lia. }
    split; [exact Hc|].
    intros c c' s Hr1 Hr2. unfold in_cluster. rewrite !Hc by done.
    change (bpb f) with (Bpb.mk b). intros Hs Hs'. change (first_data_sector f <= s /\ c = c').
    generalize dependent (Bpb.sectors_per_cluster (Bpb.mk b)).
    generalize (first_data_sector f). intros fd spc H5 Hs Hs'.
    split; [nia|].
    destruct (Z.lt_trichotomy c c') as [Hlt|[Heq|Hlt]]; [|exact Heq|]; exfalso.
    + assert (c - 2 + 1 <= c' - 2) by lia. nia.
    + assert (c' - 2 + 1 <= c - 2) by lia. nia.
Qed.

Lemma fat16_geometry_witness :
  exists f, Fat.new demo_volume = Ret f /\ Fat.cluster_to_first_sector f 4 = 5.
Proof.
  destruct (fat16_geometry demo_volume demo_bpb) as [_ Hok]; [vm_compute; reflexivity|].
  destruct (Hok ltac:(vm_compute; reflexivity)) as (f & Hf & _ & Hb & _ & Hr & Hd & Hc & _).
  exists f. split; [exact Hf|]. rewrite Hc by lia.
  rewrite demo_fs_new in Hf. injection Hf as <-. reflexivity.
Defined.

(** what [get_next_cluster] makes of a FAT entry.  For a cluster below 256 it
    reads the entry of the first FAT sector: a free entry and a link come back as
    they are, but the end-of-chain marks ([0xFFF8] and up) and the bad-cluster
    mark ([0xFFF7]) all come back as [INVALID]; so a data cluster never gives
    [END_OF_FILE] or the error [BadCluster].  For a cluster of 256 and up the
    slice is out of the sector and the kernel panics. *)
Theorem get_next_cluster_classification {D} `{BlockDeviceLaws D 512}
    (f : Fat16Impl D) c fat :
  0 <= c < 2 ^ 31 -> read_block (inner f) (fat_start f) = Ok fat ->
  (c < 256 ->
   Fat.get_next_cluster f c = Ret (Ok (
     let v := field_u16 fat (Z.to_nat (2 * c)) in
     if v =? 0 then Cluster.EMPTY
     else if (2 <=? v) && (v <? 0xFFF6) then v else Cluster.INVALID)) /\
   Fat.get_next_cluster f c <> Ret (Ok Cluster.END_OF_FILE)) /\
  (256 <= c -> Fat.get_next_cluster f c = Panic).
Proof.
  intros Hc Hr. pose proof (read_block_ok _ _ _ Hr) as [Hl Hb].
  unfold Fat.get_next_cluster.
  rewrite (proj2 (Z.eqb_neq _ _)) by (unfold Cluster.ROOT_DIR; lia).
  rewrite Hr. cbn [unwrap_result mbind outcome_bind].
  rewrite (wrap_small 32) by lia. split; intros Hlt.
  - rewrite (slice_at _ _ _ (Z.to_nat (2 * c)) 2) by lia. cbn [mbind outcome_bind].
    change (le_num (sub_bytes fat (Z.to_nat (2 * c)) 2))
      with (field_u16 fat (Z.to_nat (2 * c))).
    pose proof (field_u16_range fat (Z.to_nat (2 * c)) Hb) as Hv.
    set (v := field_u16 fat (Z.to_nat (2 * c))) in *. cbv zeta.
    unfold Cluster.EMPTY, Cluster.BAD, Cluster.INVALID, Cluster.END_OF_FILE.
    destruct (Z.eqb_spec v 0); [done|]. destruct (Z.eqb_spec v 0xFFFFFFF7); [lia|].
    destruct ((2 <=? v) && (v <? 0xFFF6)) eqn:E.
    + split; [done|]. intros [=]. lia.
    + destruct (Z.leb_spec 0xFFFFFFF8 v); [lia|done].
  - unfold slice, zlen. rewrite decide_False; [done|]. lia.
Qed.

Lemma get_next_cluster_classification_witness :
  Fat.get_next_cluster demo_fs 2 = Ret (Ok 4) /\
  Fat.get_next_cluster demo_fs 3 = Ret (Ok Cluster.INVALID) /\
  Fat.get_next_cluster demo_fs 256 = Panic.
Proof.
  split; [|split].
  - apply (get_next_cluster_classification demo_fs 2 demo_fat);
      [lia|vm_compute; reflexivity|lia].
  - apply (get_next_cluster_classification demo_fs 3 demo_fat);
      [lia|vm_compute; reflexivity|lia].
  - apply (get_next_cluster_classification demo_fs 256 demo_fat);
      [lia|vm_compute; reflexivity|lia].
Defined.

(** C28: the root directory as its clients see it.  With the root sectors readable,
    looking up a name gives the last entry of that name among those before the
    first invalid entry, or [FileNotFound]; listing the root path gives, in disk
    order, the entries of that prefix that are neither hidden nor parts of a long
    name. *)
Theorem root_directory_ops {D} `{BlockDevice D, !BlockDeviceLaws D 512, Chrono, Bitflags, UnicodeTable}
    (f : Fat16Impl D) bs es fuel :
  root_dir f bs es ->
  (forall name n, Sfn.parse name = Ret (Ok n) ->
     Fat.get_dir_entry_by_name (S fuel) f Fat.open_root_dir name =
     Ret (match last (List.filter (fun e => Sfn.matches (DirEntry.filename e) n)
                        (valid_prefix es)) with
          | Some e => Ok e
          | None => Err FileNotFound
          end)) /\
  (forall path, Fat.parse_path path = [] ->
     Fat.read_dir (S fuel) f path =
     Ret (Ok (List.filter DirEntry.is_displayable (valid_prefix es)))).
Proof.
  intros Hd. split; [intros; by eapply root_lookup|].
  intros path Hp. unfold Fat.read_dir. rewrite Hp. cbn [Fat.walk_dirs try_bind].
  unfold Fat.get_all_file_under_dir.
  rewrite (traverse_root (fun r e => if DirEntry.is_displayable e then r ++ [e] else r)
             f bs es) by done.
  by rewrite fold_push.
Qed.

Definition demo_entry_of (first cl size : Z) : @DirEntry.t demo_chrono :=
  DirEntry.mk demo_chrono {| sfn_name := first :: replicate 7 32; sfn_ext := [84; 88; 84] |}
    (1970, 1, 1, 0, 0, 0) (1970, 1, 1, 0, 0, 0) (1970, 1, 1, 0, 0, 0) cl 0x20 size.
Definition demo_entry_none : @DirEntry.t demo_chrono :=
  DirEntry.mk demo_chrono {| sfn_name := replicate 8 0; sfn_ext := replicate 3 0 |}
    (1970, 1, 1, 0, 0, 0) (1970, 1, 1, 0, 0, 0) (1970, 1, 1, 0, 0, 0) 0 0 0.
Definition demo_entries : list (@DirEntry.t demo_chrono) :=
  [demo_entry_of 65 2 1200; demo_entry_of 0xE5 0 0; demo_entry_of 66 3 10] ++
  replicate 13 demo_entry_none.

Lemma demo_root_dir : @root_dir _ _ demo_chrono demo_bitflags demo_fs [demo_root] demo_entries.
Proof.
  split; [|split].
  - intros [|i] b; [|done]. intros [= <-]. vm_compute. reflexivity.
  - split; vm_compute; discriminate.
  - vm_compute. repeat constructor.
Qed.

(** ["a.txt"] and ["b.txt"] *)
Definition demo_a : str := [97; 46; 116; 120; 116].
Definition demo_b : str := [98; 46; 116; 120; 116].

Lemma root_directory_ops_witness :
  @Fat.get_dir_entry_by_name _ _ demo_chrono demo_bitflags demo_unicode 1 demo_fs
    Fat.open_root_dir demo_a = Ret (Ok (demo_entry_of 65 2 1200)) /\
  @Fat.read_dir _ _ demo_chrono demo_bitflags demo_unicode 1 demo_fs [47] =
    Ret (Ok [demo_entry_of 65 2 1200]).
Proof.
  destruct (@root_directory_ops _ _ MemDisk_laws demo_chrono demo_bitflags demo_unicode
              demo_fs [demo_root] demo_entries 0 demo_root_dir) as [Hl Hr].
  split.
  - erewrite Hl by (vm_compute; reflexivity). vm_compute. reflexivity.
  - rewrite Hr by (vm_compute; reflexivity). vm_compute. reflexivity.
Defined.

(** a deleted entry ends the directory.  Whatever follows a deleted entry of
    the root directory is invisible: a name that no earlier entry carries is not
    found, though an entry after the deleted one may carry it. *)
Theorem deleted_entry_hides_rest
    {D} `{BlockDevice D, !BlockDeviceLaws D 512, Chrono, Bitflags, UnicodeTable}
    (f : Fat16Impl D) bs pre e post fuel name n :
  root_dir f bs (pre ++ e :: post) ->
  Sfn.is_unused (DirEntry.filename e) = true ->
  Sfn.parse name = Ret (Ok n) ->
  Forall (fun e' => Sfn.matches (DirEntry.filename e') n = false) pre ->
  Fat.get_dir_entry_by_name (S fuel) f Fat.open_root_dir name = Ret (Err FileNotFound).
Proof.
  intros Hd He Hn Hpre. erewrite root_lookup by done.
  assert (Hv : Forall (fun e' => Sfn.matches (DirEntry.filename e') n = false)
                 (valid_prefix (pre ++ e :: post))).
  { clear Hd. induction Hpre as [|x pre Hx Hp IH]; cbn [app valid_prefix].
    - unfold DirEntry.is_valid. rewrite He. constructor.
    - destruct (DirEntry.is_valid x); [by constructor|constructor]. }
  induction Hv as [|x l Hx Hl IH]; [done|]. cbn [List.filter]. by rewrite Hx.
Qed.

Lemma deleted_entry_hides_rest_witness :
  @Fat.get_dir_entry_by_name _ _ demo_chrono demo_bitflags demo_unicode 1 demo_fs
    Fat.open_root_dir demo_b = Ret (Err FileNotFound).
Proof.
  eapply (@deleted_entry_hides_rest _ _ MemDisk_laws demo_chrono demo_bitflags demo_unicode
            demo_fs [demo_root] [demo_entry_of 65 2 1200] (demo_entry_of 0xE5 0 0)
            (demo_entry_of 66 3 10 :: replicate 13 demo_entry_none) 0 demo_b).
  - exact demo_root_dir.
  - vm_compute. reflexivity.
  - vm_compute. reflexivity.
  - constructor; [vm_compute; reflexivity|constructor].
Defined.
