(* ===== verification/Fat16File.v ===== *)
(** * FAT16 files

    Models [pkg/storage/src/fs/fat16/file.rs], the provided method [read_all]
    of the [Read] trait ([pkg/storage/src/common/io.rs]) and the path handling
    of [Mount] ([pkg/storage/src/common/mount.rs]). *)

From stdpp Require Import base numbers list.
From S2P Require Import Prelude Bytes Device Str Fat16Name Fat16Entry Fat16Fs.

Module FatFile.

Record t (D : Type) `{Chrono} : Type := mk {
  offset : Z;
  current_cluster : Z;
  entry : DirEntry.t;
  handle : Fat16Impl D;
}.
Arguments mk {D _} _ _ _ _.
Arguments offset {D _} _.
Arguments current_cluster {D _} _.
Arguments entry {D _} _.
Arguments handle {D _} _.

Section ops.
Context {D : Type} `{BlockDevice D} `{Chrono} `{Bitflags}.

Definition new (h : Fat16Impl D) (e : DirEntry.t) : t D := mk 0 (DirEntry.cluster e) e h.

Definition length (f : t D) : Z := DirEntry.size (entry f).

(** [buf[a..a + src.len()].copy_from_slice(src)] *)
Definition copy_into (buf : bytes) (a : Z) (src : bytes) : outcome bytes :=
  _ ← slice buf a (a + zlen src);
  Ret (take (Z.to_nat a) buf ++ src ++ drop (Z.to_nat (a + zlen src)) buf).

(** The [loop] of [File::read].  An early return ([?]) leaves the file and the
    buffer as they are at that point. *)
Fixpoint read_loop (fuel : nat) (f : t D) (buf : bytes)
    (read_bytes sector_offset byte_offset : Z)
    : outcome (result Z FsError * t D * bytes) :=
  match fuel with
  | O => Timeout
  | S fuel' =>
      let bps := Bpb.bytes_per_sector (bpb (handle f)) in
      let spc := Bpb.sectors_per_cluster (bpb (handle f)) in
      match read_block (inner (handle f))
              (Fat.cluster_to_first_sector (handle f) (current_cluster f) + sector_offset) with
      | Err e => Ret (Err e, f, buf)
      | Ok block =>
          let bytes_to_read :=
            Z.min (Z.min (zlen buf - read_bytes) (bps - byte_offset))
                  (u64 (DirEntry.size (entry f) - offset f)) in
          src ← slice block byte_offset (byte_offset + bytes_to_read);
          buf' ← copy_into buf read_bytes src;
          let read_bytes' := read_bytes + bytes_to_read in
          let f' := mk (offset f + bytes_to_read) (current_cluster f) (entry f) (handle f) in
          if (read_bytes' =? zlen buf) || (offset f' =? DirEntry.size (entry f)) then
            Ret (Ok read_bytes', f', buf')
          else
            let sector_offset' := sector_offset + 1 in
            if sector_offset' =? spc then
              r ← Fat.get_next_cluster (handle f) (current_cluster f);
              match r with
              | Err e => Ret (Err e, f', buf')
              | Ok c => read_loop fuel' (mk (offset f') c (entry f) (handle f)) buf'
                          read_bytes' 0 0
              end
            else read_loop fuel' f' buf' read_bytes' sector_offset' 0
      end
  end.

(** [File::read]: [self.offset / bps] divides by zero on a volume whose sector
    size is 0.  Each round but the last consumes a byte of [buf], so the length
    of [buf] plus one is enough fuel ([read_terminates]). *)
Definition read (f : t D) (buf : bytes) : outcome (result Z FsError * t D * bytes) :=
  let bps := Bpb.bytes_per_sector (bpb (handle f)) in
  if bps =? 0 then Panic
  else read_loop (S (List.length buf)) f buf 0 (offset f / bps) (offset f mod bps).

(** [Read::read_all]: 1024 bytes at a time; the whole unit buffer is appended
    after every read, and any error becomes [FileNotFound]. *)
Fixpoint read_all (fuel : nat) (f : t D) (buf : bytes) (read_bytes : Z)
    : outcome (result Z FsError * t D * bytes) :=
  match fuel with
  | O => Timeout
  | S fuel' =>
      r ← read f (replicate 1024 0);
      let '(res, f', unit_buf) := r in
      match res with
      | Ok len =>
          let read_bytes' := read_bytes + len in
          let buf' := buf ++ unit_buf in
          if len =? 0 then Ret (Ok read_bytes', f', buf')
          else read_all fuel' f' buf' read_bytes'
      | Err _ => Ret (Err FileNotFound, f', buf)
      end
  end.

End ops.
End FatFile.

(** ** Mount points ([common/mount.rs]) *)
Module Mount.
Record t (F : Type) : Type := mk { fs : F; mount_point : str }.
Arguments mk {F} _ _.
Arguments fs {F} _.
Arguments mount_point {F} _.

Section ops.
Context {F : Type}.
Definition trim_mount_point (m : t F) (path : str) : str :=
  trim_start_str (mount_point m) path.

Context {D : Type} `{BlockDevice D} `{Chrono} `{Bitflags} `{UnicodeTable}.
Definition read_dir (fuel : nat) (m : t (Fat16Impl D)) (path : str) :=
  Fat.read_dir fuel (fs m) (trim_start_str (mount_point m) path).
Definition open_file (fuel : nat) (m : t (Fat16Impl D)) (path : str) :=
  Fat.open_file fuel (fs m) (trim_start_str (mount_point m) path).
Definition metadata (fuel : nat) (m : t (Fat16Impl D)) (path : str) :=
  Fat.metadata fuel (fs m) (trim_start_str (mount_point m) path).
Definition exists_ (fuel : nat) (m : t (Fat16Impl D)) (path : str) :=
  Fat.exists_ fuel (fs m) (trim_start_str (mount_point m) path).
End ops.
End Mount.

(** ** Lemmas on the contents of a chain of sectors *)

Lemma sub_bytes_split {A} (l : list A) o m1 m2 :
  sub_bytes l o (m1 + m2) = sub_bytes l o m1 ++ sub_bytes l (o + m1) m2.
Proof.
  unfold sub_bytes. rewrite <- drop_drop. generalize (drop o l). intros k.
  revert k. induction m1 as [|m1 IH]; intros [|x k]; [done..|by rewrite drop_nil, !take_nil|].
  cbn [Nat.add take drop app]. f_equal. apply IH.
Qed.

Lemma length_concat_blocks (bs : list Block) :
  Forall (fun b => length b = 512%nat) bs -> length (concat bs) = (512 * length bs)%nat.
Proof.
  induction 1 as [|b bs Hb Hbs IH]; [done|]. cbn [concat length].
  rewrite length_app, IH, Hb. lia.
Qed.

Lemma sub_concat_block (bs : list Block) k b o m :
  Forall (fun b => length b = 512%nat) bs -> bs !! k = Some b -> (o + m <= 512)%nat ->
  sub_bytes (concat bs) (512 * k + o) m = sub_bytes b o m.
Proof.
  intros Hbs Hk Hm. pose proof (take_drop_middle _ _ _ Hk) as E.
  pose proof (Forall_lookup_1 _ _ _ _ Hbs Hk) as Hb.
  assert (Hp : length (concat (take k bs)) = (512 * k)%nat).
  { rewrite length_concat_blocks by by apply Forall_take.
    rewrite length_take. apply lookup_lt_Some in Hk. lia. }
  rewrite <- E, concat_app. cbn [concat]. unfold sub_bytes.
  rewrite drop_app, Hp, (drop_ge (concat _)) by lia. cbn [app].
  replace (512 * k + o - 512 * k)%nat with o by lia.
  rewrite drop_app, take_app. rewrite length_drop, Hb.
  replace (m - (512 - o))%nat with 0%nat by lia. by rewrite take_0, app_nil_r.
Qed.

Lemma sub_concat_take (bs : list Block) k o m :
  Forall (fun b => length b = 512%nat) bs -> (o + m <= 512 * k)%nat ->
  sub_bytes (concat (take k bs)) o m = sub_bytes (concat bs) o m.
Proof.
  intros Hbs Hk. destruct (decide (length bs <= k)%nat); [by rewrite take_ge|].
  rewrite <- (take_drop k bs) at 2. rewrite concat_app. unfold sub_bytes.
  assert (length (concat (take k bs)) = (512 * k)%nat) as Hl.
  { rewrite length_concat_blocks by by apply Forall_take. rewrite length_take. lia. }
  rewrite drop_app, take_app, length_drop, Hl.
  replace (m - (512 * k - o))%nat with 0%nat by lia. by rewrite take_0, app_nil_r.
Qed.

Lemma copy_into_at buf (a : nat) src :
  (a + length src <= length buf)%nat ->
  FatFile.copy_into buf (Z.of_nat a) src =
  Ret (take a buf ++ src ++ drop (a + length src) buf).
Proof.
  intros Ha. unfold FatFile.copy_into, zlen.
  rewrite (slice_at _ _ _ a (length src)) by lia. cbn [mbind outcome_bind].
  by rewrite Nat2Z.id, <- Nat2Z.inj_add, Nat2Z.id.
Qed.

Lemma copy_into_Ret buf a src buf' :
  FatFile.copy_into buf a src = Ret buf' -> length buf' = length buf.
Proof.
  unfold FatFile.copy_into. destruct (slice buf a (a + zlen src)) eqn:E; [|done..].
  apply slice_Ret_inv in E as (Ha & Hb & _). cbn [mbind outcome_bind]. intros [= <-].
  unfold zlen in *. rewrite !length_app, length_take, length_drop. lia.
Qed.

Lemma slice_not_Timeout {A} (l : list A) a b : slice l a b <> Timeout.
Proof. unfold slice. by case_decide. Qed.

(** Filling a buffer at [a], then behind what was filled. *)
Lemma buf_step (buf s1 s2 : bytes) a m n :
  (a + m <= length buf)%nat -> (m <= n)%nat -> length s1 = m ->
  let buf' := take a buf ++ s1 ++ drop (a + m) buf in
  take (a + m) buf' ++ s2 ++ drop (a + n) buf' = take a buf ++ (s1 ++ s2) ++ drop (a + n) buf.
Proof.
  intros Ha Hn <- buf'. subst buf'.
  assert (Hp : length (take a buf ++ s1) = (a + length s1)%nat)
    by (rewrite length_app, length_take; lia).
  rewrite (app_assoc (take a buf)). rewrite take_app_length' by lia.
  rewrite drop_app, Hp, (drop_ge (_ ++ s1)) by lia. rewrite drop_drop, <- !app_assoc.
  do 3 f_equal. cbn [app]. f_equal. lia.
Qed.

Section file.
Context {D : Type} `{BlockDevice D, Chrono, Bitflags}.

Lemma get_next_cluster_not_Timeout (h : Fat16Impl D) c : Fat.get_next_cluster h c <> Timeout.
Proof.
  unfold Fat.get_next_cluster. destruct (_ =? _); [done|].
  destruct (read_block _ _) as [b|]; [|done]. cbn [unwrap_result mbind outcome_bind].
  destruct (slice _ _ _) eqn:E; [|done|by apply slice_not_Timeout in E].
  cbn [mbind outcome_bind]. by repeat case_match.
Qed.

(** A round that does not return has copied the rest of its sector. *)
Lemma read_loop_terminates fuel (f : FatFile.t D) buf rb so bo :
  0 <= rb <= zlen buf ->
  0 <= FatFile.offset f <= DirEntry.size (FatFile.entry f) ->
  DirEntry.size (FatFile.entry f) < 2 ^ 64 ->
  0 <= bo < Bpb.bytes_per_sector (bpb (FatFile.handle f)) ->
  zlen buf - rb < Z.of_nat fuel ->
  FatFile.read_loop fuel f buf rb so bo <> Timeout.
Proof.
  revert f buf rb so bo. induction fuel as [|fuel IH]; intros f buf rb so bo Hrb Ho Hs Hbo Hf; [lia|].
  cbn [FatFile.read_loop]. rewrite (wrap_small 64) by lia.
  destruct (read_block _ _) as [block|]; [|done].
  set (n := Z.min _ _).
  destruct (slice block _ _) as [src| |] eqn:Es;
    [|done|by apply slice_not_Timeout in Es]. cbn [mbind outcome_bind].
  destruct (FatFile.copy_into buf rb src) as [buf'| |] eqn:Ec; cbn [mbind outcome_bind];
    [|done|unfold FatFile.copy_into in Ec].
  2:{ destruct (slice buf _ _) eqn:E; [done..|by apply slice_not_Timeout in E]. }
  apply copy_into_Ret in Ec. cbn [FatFile.offset FatFile.entry FatFile.handle].
  destruct ((_ =? _) || (_ =? _)) eqn:Estop; [done|].
  apply orb_false_iff in Estop as [E1%Z.eqb_neq E2%Z.eqb_neq].
  assert (Hl : zlen buf' = zlen buf) by (unfold zlen; lia).
  assert (Hn : 0 < n <= DirEntry.size (FatFile.entry f) - FatFile.offset f /\
               n <= zlen buf - rb) by lia.
  destruct (_ =? _); [|apply IH; cbn [FatFile.offset FatFile.entry FatFile.handle]; lia].
  destruct (Fat.get_next_cluster _ _) as [[c|]| |] eqn:E; cbn [mbind outcome_bind];
    [|done..|by apply get_next_cluster_not_Timeout in E].
  apply IH; cbn [FatFile.offset FatFile.entry FatFile.handle]; lia.
Qed.

(** A cursor relates a sector number [k] of the file to a cluster and a sector
    of that cluster.  [cursor_ok] says that the block there is the file's and
    that the step of the loop leads to the next sector. *)
Record cursor_ok (h : Fat16Impl D) (bs : list Block) (cur : nat -> Z -> Z -> Prop) : Prop := {
  cursor_read k cl so b : cur k cl so -> bs !! k = Some b ->
    read_block (inner h) (Fat.cluster_to_first_sector h cl + so) = Ok b;
  cursor_step k cl so : cur k cl so -> (S k < length bs)%nat ->
    if so + 1 =? Bpb.sectors_per_cluster (bpb h)
    then exists cl', Fat.get_next_cluster h cl = Ret (Ok cl') /\ cur (S k) cl' 0
    else cur (S k) cl (so + 1);
}.

Definition move (f : FatFile.t D) (o c : Z) : FatFile.t D :=
  FatFile.mk o c (FatFile.entry f) (FatFile.handle f).

Lemma read_loop_cursor h bs cur :
  cursor_ok h bs cur -> Bpb.bytes_per_sector (bpb h) = 512 ->
  Forall (fun b => length b = 512%nat) bs ->
  forall fuel (f : FatFile.t D) buf (rb k bo n : nat) so,
  FatFile.handle f = h -> cur k (FatFile.current_cluster f) so ->
  (bo < 512)%nat -> (k < length bs)%nat -> (rb <= length buf)%nat ->
  (length buf - rb < fuel)%nat ->
  FatFile.offset f = Z.of_nat (512 * k + bo) ->
  FatFile.offset f <= DirEntry.size (FatFile.entry f) < 2 ^ 64 ->
  Z.of_nat n = Z.min (zlen buf - Z.of_nat rb) (DirEntry.size (FatFile.entry f) - FatFile.offset f) ->
  (512 * k + bo + n <= 512 * length bs)%nat ->
  exists c k' so', cur k' c so' /\ FatFile.read_loop fuel f buf (Z.of_nat rb) so (Z.of_nat bo) =
    Ret (Ok (Z.of_nat (rb + n)), move f (FatFile.offset f + Z.of_nat n) c,
         take rb buf ++ sub_bytes (concat bs) (512 * k + bo) n ++ drop (rb + n) buf).
Proof.
  intros Hcur Hbps Hbs.
  induction fuel as [|fuel IH]; intros f buf rb k bo n so Hh Hk Hbo Hkl Hrb Hf Ho Hsz Hn Hn'; [lia|].
  cbn [FatFile.read_loop]. rewrite Hh, Hbps.
  destruct (lookup_lt_is_Some_2 _ _ Hkl) as [b Hb].
  rewrite (cursor_read _ _ _ Hcur _ _ _ _ Hk Hb).
  pose proof (Forall_lookup_1 _ _ _ _ Hbs Hb) as Hlb. unfold zlen in *.
  rewrite (wrap_small 64) by lia.
  set (m := (n `min` (512 - bo))%nat).
  replace (Z.min _ _) with (Z.of_nat m) by lia.
  rewrite (slice_at _ _ _ bo m) by lia. cbn [mbind outcome_bind].
  assert (Hlm : length (sub_bytes b bo m) = m) by (apply length_sub_bytes; lia).
  rewrite copy_into_at by lia. rewrite Hlm. cbn [mbind outcome_bind FatFile.offset FatFile.entry].
  rewrite <- (sub_concat_block bs k) in Hlm |- * by (done || lia).
  assert (Hend : ((Z.of_nat rb + Z.of_nat m =? Z.of_nat (length buf)) ||
    (FatFile.offset f + Z.of_nat m =? DirEntry.size (FatFile.entry f))) = bool_decide (m = n)).
  { case_bool_decide; destruct (Z.eqb_spec (Z.of_nat rb + Z.of_nat m) (Z.of_nat (length buf)));
      destruct (Z.eqb_spec (FatFile.offset f + Z.of_nat m) (DirEntry.size (FatFile.entry f)));
      cbn; lia || done. }
  rewrite Hend. case_bool_decide as Hm.
  { exists (FatFile.current_cluster f), k, so. split; [done|].
    by rewrite Hm, <- Nat2Z.inj_add, <- Hh. }
  assert (m = 512 - bo)%nat as Em by lia. set (buf' := _ ++ _).
  assert (Hl' : length buf' = length buf).
  { subst buf'. rewrite !length_app, length_take, length_drop, length_sub_bytes;
      rewrite ?length_concat_blocks by done; lia. }
  assert (Hgo : forall cl so', cur (S k) cl so' -> exists c k' so'', cur k' c so'' /\
    FatFile.read_loop fuel (move f (FatFile.offset f + Z.of_nat m) cl) buf'
      (Z.of_nat (rb + m)) so' (Z.of_nat 0) =
    Ret (Ok (Z.of_nat (rb + n)), move f (FatFile.offset f + Z.of_nat n) c,
         take rb buf ++ sub_bytes (concat bs) (512 * k + bo) n ++ drop (rb + n) buf)).
  { intros cl so' Hc.
    destruct (IH (move f (FatFile.offset f + Z.of_nat m) cl) buf' (rb + m)%nat (S k) 0%nat
                (n - m)%nat so') as (c & k' & so'' & Hc' & E);
      cbn [move FatFile.handle FatFile.current_cluster FatFile.offset FatFile.entry];
      rewrite ?Hl'; try lia; try done.
    exists c, k', so''. split; [done|]. rewrite E. f_equal.
    cbn [move FatFile.handle FatFile.current_cluster FatFile.offset FatFile.entry].
    replace (rb + m + (n - m))%nat with (rb + n)%nat by lia.
    replace (FatFile.offset f + _ + _) with (FatFile.offset f + Z.of_nat n) by lia.
    f_equal. subst buf'. rewrite buf_step by (done || lia).
    replace (512 * S k + 0)%nat with (512 * k + bo + m)%nat by lia.
    rewrite <- sub_bytes_split. by replace (m + (n - m))%nat with n by lia. }
  rewrite <- Nat2Z.inj_add.
  pose proof (cursor_step _ _ _ Hcur _ _ _ Hk ltac:(lia)) as Hstep.
  revert Hstep. case_match; intros Hstep.
  - destruct Hstep as (cl & -> & Hc). cbn [mbind outcome_bind].
    destruct (Hgo cl 0 Hc) as (c & k' & so' & ? & E). exists c, k', so'. split; [done|].
    unfold move in E at 1. by rewrite Hh in E.
  - destruct (Hgo _ _ Hstep) as (c & k' & so' & ? & E). exists c, k', so'. split; [done|].
    unfold move in E at 1. by rewrite Hh in E.
Qed.

(** ** The file on the disk *)

Definition spc_of (h : Fat16Impl D) : nat := Z.to_nat (Bpb.sectors_per_cluster (bpb h)).

(** [cs] is linked by the FAT, and its clusters hold the sectors [bs]. *)
Definition chain (h : Fat16Impl D) (cs : list Z) : Prop :=
  forall q c c', cs !! q = Some c -> cs !! S q = Some c' ->
  Fat.get_next_cluster h c = Ret (Ok c').
Definition holds (h : Fat16Impl D) (cs : list Z) (bs : list Block) : Prop :=
  length bs = (length cs * spc_of h)%nat /\
  forall q c, cs !! q = Some c ->
  sectors (inner h) (Fat.cluster_to_first_sector h c) (take (spc_of h) (drop (q * spc_of h) bs)).

Definition chain_cursor (h : Fat16Impl D) (cs : list Z) (k : nat) (cl so : Z) : Prop :=
  exists q r, cs !! q = Some cl /\ so = Z.of_nat r /\ (r < spc_of h)%nat /\
              k = (q * spc_of h + r)%nat.

Lemma chain_cursor_ok h cs bs : chain h cs -> holds h cs bs -> cursor_ok h bs (chain_cursor h cs).
Proof.
  intros Hc [Hl Hb]. split.
  - intros k cl so b (q & r & Hq & -> & Hr & ->) Hk. apply (Hb q cl Hq r b).
    rewrite lookup_take_lt by done. by rewrite lookup_drop.
  - intros k cl so (q & r & Hq & -> & Hr & ->) Hk. unfold spc_of in *.
    destruct (Z.eqb_spec (Z.of_nat r + 1) (Bpb.sectors_per_cluster (bpb h))) as [E|E].
    + destruct (lookup_lt_is_Some_2 cs (S q)) as [cl' Hq']; [nia|].
      exists cl'. split; [by eapply Hc|].
      exists (S q), 0%nat. unfold spc_of. split_and!; [done|lia|lia|lia].
    + exists q, (S r). unfold spc_of. split_and!; [done|lia|lia|lia].
Qed.

(** A file whose sectors follow each other on the disk, seen from its first
    cluster [c], while two sectors from an even one are read. *)
Definition flat_cursor (c : Z) (k0 k : nat) (cl so : Z) : Prop :=
  cl = c /\ so = Z.of_nat k /\ (k0 <= k < k0 + 2)%nat.

Lemma flat_cursor_ok h c bs k0 :
  sectors (inner h) (Fat.cluster_to_first_sector h c) bs ->
  Nat.even k0 = true -> Z.even (Bpb.sectors_per_cluster (bpb h)) = true ->
  cursor_ok h (take (k0 + 2) bs) (flat_cursor c k0).
Proof.
  intros Hs Hk0 Hspc. split.
  - intros k cl so b (-> & -> & Hk) Hb. apply Hs. rewrite lookup_take_lt in Hb by lia. done.
  - intros k cl so (-> & -> & Hk) Hl. rewrite length_take in Hl.
    assert (k = k0) as -> by lia.
    destruct (Z.eqb_spec (Z.of_nat k0 + 1) (Bpb.sectors_per_cluster (bpb h))) as [E|E].
    + apply Nat.even_spec in Hk0 as [j ->]. apply Z.even_spec in Hspc as [j' Hj]. lia.
    + unfold flat_cursor. split_and!; lia.
Qed.

Context `{!BlockDeviceLaws D 512}.

Lemma sectors_length (d : D) start bs : sectors d start bs -> Forall (fun b => length b = 512%nat) bs.
Proof.
  intros Hs. apply Forall_lookup_2. intros i b Hi.
  by destruct (read_block_ok _ _ _ (Hs i b Hi)).
Qed.

Lemma holds_length h cs bs : (0 < spc_of h)%nat -> holds h cs bs ->
  Forall (fun b => length b = 512%nat) bs.
Proof.
  intros Hpos [Hl Hb]. apply Forall_lookup_2. intros i b Hi.
  pose proof (lookup_lt_Some _ _ _ Hi) as Hlt.
  assert (Hq : (i / spc_of h < length cs)%nat) by (apply Nat.Div0.div_lt_upper_bound; lia).
  destruct (lookup_lt_is_Some_2 _ _ Hq) as [c Hc].
  eapply (Forall_lookup_1 (fun b => length b = 512%nat) _ (i mod spc_of h) b); [eapply sectors_length, (Hb _ _ Hc)|].
  rewrite lookup_take_lt by (apply Nat.mod_upper_bound; lia). rewrite lookup_drop.
  rewrite <- Hi. f_equal. rewrite Nat.mul_comm. symmetry. apply Nat.div_mod_eq.
Qed.

(** Reading 1024 bytes at a time from a file that is not fragmented. *)
Lemma read_flat h e c bs (k0 : nat) :
  DirEntry.cluster e = c -> Bpb.bytes_per_sector (bpb h) = 512 ->
  Z.even (Bpb.sectors_per_cluster (bpb h)) = true ->
  sectors (inner h) (Fat.cluster_to_first_sector h c) bs ->
  0 <= DirEntry.size e < 512 * zlen bs -> DirEntry.size e < 2 ^ 64 ->
  let o := Z.min (1024 * Z.of_nat k0) (DirEntry.size e) in
  let n := Z.to_nat (Z.min 1024 (DirEntry.size e - o)) in
  FatFile.read (FatFile.mk o c e h) (replicate 1024 0) =
  Ret (Ok (Z.of_nat n),
       FatFile.mk (Z.min (1024 * Z.of_nat (S k0)) (DirEntry.size e)) c e h,
       sub_bytes (concat bs) (Z.to_nat o) n ++ replicate (1024 - n) 0).
Proof.
  intros Hc Hbps Hspc Hs Hsz Hsz' o n. unfold FatFile.read.
  cbn [FatFile.handle FatFile.offset]. rewrite Hbps. cbn [Z.eqb].
  pose proof (sectors_length _ _ _ Hs) as Hbs. unfold zlen in *.
  set (buf := replicate 1024 0).
  assert (Hbl : length buf = 1024%nat) by apply length_replicate.
  set (k1 := Z.to_nat (o / 512)). set (bo := Z.to_nat (o mod 512)).
  set (ke := (2 * (k1 / 2))%nat).
  assert (Hke : (ke <= k1 < ke + 2)%nat).
  { subst ke. pose proof (Nat.div_mod_eq k1 2). pose proof (Nat.mod_upper_bound k1 2). lia. }
  assert (Ho : 0 <= o <= DirEntry.size e) by lia.
  assert (Hdm : o = 512 * (o / 512) + o mod 512) by (apply Z.div_mod; lia).
  assert (Hmod : 0 <= o mod 512 < 512) by (apply Z.mod_pos_bound; lia).
  assert (Hn' : Z.of_nat n = 0 \/ k1 = ke /\ bo = 0%nat).
  { destruct (decide (Z.of_nat n = 0)) as [|Hne]; [by left|right].
    assert (o = 512 * Z.of_nat (2 * k0)) as E by lia.
    assert (k1 = (2 * k0)%nat) as E1.
    { subst k1. rewrite E. rewrite Z.mul_comm, Z.div_mul by lia. lia. }
    split; [|subst bo; lia]. subst ke. rewrite E1. rewrite (Nat.mul_comm 2 k0), Nat.div_mul; lia. }
  assert (Hl : length (take (ke + 2) bs) = ((ke + 2) `min` length bs)%nat) by apply length_take.
  destruct (read_loop_cursor h (take (ke + 2) bs) (flat_cursor c ke)
    (flat_cursor_ok h c bs ke Hs ltac:(subst ke; by rewrite Nat.even_even) Hspc) Hbps
    (Forall_take _ _ _ Hbs) (S (length buf)) (FatFile.mk o c e h)
    buf 0 k1 bo n (Z.of_nat k1)) as (c' & k' & so' & (-> & _) & E);
    cbn [FatFile.handle FatFile.offset FatFile.entry FatFile.current_cluster];
    rewrite ?Hl; unfold zlen; try done; try lia.
  replace (o / 512) with (Z.of_nat k1) by lia. replace (o mod 512) with (Z.of_nat bo) by lia.
  change 0 with (Z.of_nat 0) at 1. rewrite E.
  cbn [move FatFile.handle FatFile.offset FatFile.entry FatFile.current_cluster Nat.add].
  rewrite take_0, sub_concat_take by (done || lia). cbn [app].
  replace (512 * k1 + bo)%nat with (Z.to_nat o) by lia.
  unfold move. cbn [FatFile.entry FatFile.handle].
  replace (o + Z.of_nat n) with (Z.min (1024 * Z.of_nat (S k0)) (DirEntry.size e)) by lia.
  subst buf. by rewrite drop_replicate.
Qed.

(** [read_all] from the [k]-th unit on: the rest of the file, padded. *)
Lemma read_all_flat h e c bs (k j fuel : nat) buf rb :
  DirEntry.cluster e = c -> Bpb.bytes_per_sector (bpb h) = 512 ->
  Z.even (Bpb.sectors_per_cluster (bpb h)) = true ->
  sectors (inner h) (Fat.cluster_to_first_sector h c) bs ->
  0 <= DirEntry.size e < 512 * zlen bs -> DirEntry.size e < 2 ^ 64 ->
  1024 * (Z.of_nat (k + j) - 1) < DirEntry.size e <= 1024 * Z.of_nat (k + j) -> (j < fuel)%nat ->
  let o := Z.min (1024 * Z.of_nat k) (DirEntry.size e) in
  let m := Z.to_nat (DirEntry.size e - o) in
  FatFile.read_all fuel (FatFile.mk o c e h) buf rb =
  Ret (Ok (rb + Z.of_nat m), FatFile.mk (DirEntry.size e) c e h,
       buf ++ sub_bytes (concat bs) (Z.to_nat o) m ++ replicate (1024 * S j - m) 0).
Proof.
  intros Hc Hbps Hspc Hs Hsz Hsz'. revert k fuel buf rb.
  induction j as [|j IH]; intros k fuel buf rb Hk Hf; (destruct fuel as [|fuel]; [lia|]).
  - cbn [FatFile.read_all].
    rewrite read_flat with (bs := bs) by done. cbn [mbind outcome_bind].
    replace (Z.min (1024 * Z.of_nat k) (DirEntry.size e)) with (DirEntry.size e) by lia.
    rewrite Z.sub_diag. cbn [Z.min Z.compare Z.to_nat Z.of_nat].
    replace (Z.min (1024 * Z.of_nat (S k)) (DirEntry.size e)) with (DirEntry.size e) by lia.
    cbn [Z.eqb]. done.
  - cbn [FatFile.read_all].
    rewrite read_flat with (bs := bs) by done. cbn [mbind outcome_bind].
    set (o := Z.min (1024 * Z.of_nat k) _). set (n := Z.to_nat (Z.min 1024 _)).
    destruct (Z.eqb_spec (Z.of_nat n) 0); [lia|].
    rewrite IH by lia. set (o' := Z.min (1024 * Z.of_nat (S k)) _).
    replace (rb + Z.of_nat n + _) with (rb + Z.of_nat (Z.to_nat (DirEntry.size e - o))) by lia.
    do 2 f_equal. rewrite <- !app_assoc. f_equal.
    destruct (decide (o' = DirEntry.size e)) as [E|E].
    + replace (Z.to_nat (DirEntry.size e - o')) with 0%nat by lia.
      replace (Z.to_nat (DirEntry.size e - o)) with n by lia.
      assert (j = 0)%nat as -> by lia. f_equal.
      change (sub_bytes (concat bs) (Z.to_nat o') 0) with (@nil Z). cbn [app].
      rewrite <- replicate_add. f_equal. lia.
    + replace (1024 - n)%nat with 0%nat by lia. cbn [replicate app]. rewrite app_assoc.
      f_equal; [|f_equal; lia].
      replace (Z.to_nat (DirEntry.size e - o)) with (n + Z.to_nat (DirEntry.size e - o'))%nat by lia.
      rewrite sub_bytes_split. do 3 f_equal; lia.
Qed.
End file.

(** ** Properties *)

(** C16: reading a freshly opened file.  When the FAT links the file's clusters
    and the device holds their sectors, the first [read] into a buffer of any
    length, even across several cluster boundaries, ends, returns the smaller of
    the buffer's length and the file's, fills the buffer with the first bytes of
    the file, leaves the rest of the buffer as it was and moves the file's offset
    past what was read. *)
Theorem file_read_content {D} `{BlockDevice D, !BlockDeviceLaws D 512, Chrono, Bitflags}
    (h : Fat16Impl D) e cs bs buf :
  Bpb.bytes_per_sector (bpb h) = 512 -> 0 < Bpb.sectors_per_cluster (bpb h) ->
  chain h cs -> holds h cs bs -> cs !! 0%nat = Some (DirEntry.cluster e) ->
  0 <= DirEntry.size e <= 512 * zlen bs -> DirEntry.size e < 2 ^ 32 ->
  let n := Z.to_nat (Z.min (zlen buf) (DirEntry.size e)) in
  exists c, c ∈ cs /\
    FatFile.read (FatFile.new h e) buf =
    Ret (Ok (Z.of_nat n), FatFile.mk (Z.of_nat n) c e h,
         sub_bytes (concat bs) 0 n ++ drop n buf).
Proof.
  intros Hbps Hspc Hc Hh Hcs Hsz Hsz' n. unfold FatFile.read, FatFile.new, zlen in *.
  cbn [FatFile.handle FatFile.offset]. rewrite Hbps. cbn [Z.eqb].
  assert (Hp : (0 < spc_of h)%nat) by (unfold spc_of; lia).
  pose proof (holds_length h cs bs Hp Hh) as Hbs.
  assert (Hlen : (0 < length bs)%nat).
  { destruct Hh as [-> _]. apply lookup_lt_Some in Hcs. nia. }
  destruct (read_loop_cursor h bs (chain_cursor h cs) (chain_cursor_ok h cs bs Hc Hh) Hbps Hbs
    (S (length buf)) (FatFile.new h e) buf 0 0 0 n 0) as (c & k & so & (q & r & Hq & _) & E);
    cbn [FatFile.new FatFile.handle FatFile.offset FatFile.entry FatFile.current_cluster];
    unfold zlen; try done; try lia.
  { exists 0%nat, 0%nat. done. }
  exists c. split; [by eapply list_elem_of_lookup_2|].
  change (0 / 512) with 0. change (0 mod 512) with (Z.of_nat 0).
  change 0 with (Z.of_nat 0) at 2. unfold FatFile.new in E. rewrite E. done.
Qed.

(** [A.TXT] of the small volume: the chain 2, 4, 5 and its sectors. *)
Definition demo_chain : list Z := [2; 4; 5].
Definition demo_sectors : list Block := [replicate 512 1; replicate 512 3; replicate 512 4].
Definition demo_file_a : @DirEntry.t demo_chrono := demo_entry_of 65 2 1200.

Lemma demo_chain_linked : chain demo_fs demo_chain.
Proof.
  intros [|[|[|q]]] c c' Hc Hc'; try discriminate Hc; try discriminate Hc';
    injection Hc as <-; injection Hc' as <-; vm_compute; reflexivity.
Qed.

Lemma demo_chain_holds : holds demo_fs demo_chain demo_sectors.
Proof.
  split; [reflexivity|]. intros [|[|[|q]]] c Hc; try discriminate Hc; injection Hc as <-;
    intros [|i] b Hi; try discriminate Hi; injection Hi as <-; vm_compute; reflexivity.
Qed.

Lemma file_read_content_witness :
  exists c, c ∈ demo_chain /\
    @FatFile.read _ _ demo_chrono (FatFile.new demo_fs demo_file_a) (replicate 1100 9) =
    Ret (Ok 1100, FatFile.mk 1100 c demo_file_a demo_fs,
         replicate 512 1 ++ replicate 512 3 ++ replicate 76 4).
Proof.
  pose proof (@file_read_content _ _ MemDisk_laws demo_chrono demo_bitflags demo_fs demo_file_a
    demo_chain demo_sectors (replicate 1100 9) eq_refl eq_refl demo_chain_linked demo_chain_holds
    eq_refl) as Hr.
  destruct Hr as (c & Hc & E); [split; vm_compute; discriminate|vm_compute; reflexivity|].
  exists c. split; [exact Hc|]. rewrite E. vm_compute. reflexivity.
Defined.

(** reading a file ends.  Whatever the device, the FAT (looping chains
    included) and the file's position, one [read] goes through its loop at most
    once more than the buffer has bytes: it returns, with a count or an error, or
    panics, but does not run on. *)
Theorem file_read_terminates {D} `{BlockDevice D, Chrono, Bitflags} (f : FatFile.t D) buf :
  0 <= FatFile.offset f <= DirEntry.size (FatFile.entry f) ->
  DirEntry.size (FatFile.entry f) < 2 ^ 32 ->
  0 <= Bpb.bytes_per_sector (bpb (FatFile.handle f)) ->
  FatFile.read f buf <> Timeout.
Proof.
  intros Ho Hs Hb. unfold FatFile.read. destruct (Z.eqb_spec (Bpb.bytes_per_sector (bpb (FatFile.handle f))) 0); [done|].
  apply read_loop_terminates; unfold zlen; try lia. apply Z.mod_pos_bound. lia.
Qed.

Lemma file_read_terminates_witness :
  @FatFile.read _ _ demo_chrono (FatFile.mk 1024 4 demo_file_a demo_fs) (replicate 700 0) <> Timeout.
Proof.
  apply (@file_read_terminates _ _ demo_chrono demo_bitflags); cbn; lia || (vm_compute; discriminate).
Defined.

(** reading a whole file.  On a volume with an even number of sectors per
    cluster, for a file whose sectors follow each other on the disk (up to and
    with the sector its end falls in), [read_all] ends after one unit per started
    KiB and one more, returns the file's size, and appends to the buffer the
    file's bytes followed by zeroes up to the end of the last unit. *)
Theorem read_all_contiguous {D} `{BlockDevice D, !BlockDeviceLaws D 512, Chrono, Bitflags}
    (h : Fat16Impl D) e bs buf fuel :
  Bpb.bytes_per_sector (bpb h) = 512 ->
  Z.even (Bpb.sectors_per_cluster (bpb h)) = true ->
  sectors (inner h) (Fat.cluster_to_first_sector h (DirEntry.cluster e)) bs ->
  0 <= DirEntry.size e < 512 * zlen bs -> DirEntry.size e < 2 ^ 32 ->
  let units := Z.to_nat ((DirEntry.size e + 1023) / 1024) in
  (units < fuel)%nat ->
  exists f', FatFile.offset f' = DirEntry.size e /\
    FatFile.read_all fuel (FatFile.new h e) buf 0 =
    Ret (Ok (DirEntry.size e), f',
         buf ++ sub_bytes (concat bs) 0 (Z.to_nat (DirEntry.size e)) ++
         replicate (1024 * S units - Z.to_nat (DirEntry.size e)) 0).
Proof.
  intros Hbps Hspc Hs Hsz Hsz' units Hf.
  pose proof (read_all_flat h e _ bs 0 units fuel buf 0 eq_refl Hbps Hspc Hs Hsz) as E.
  cbv zeta in E. replace (Z.min _ _) with 0 in E by lia. rewrite Z.sub_0_r, Z.add_0_l in E.
  change (Z.to_nat 0) with 0%nat in E.
  rewrite Z2Nat.id in E by lia.
  eexists. split; [|apply E]; [done|lia| |done].
  subst units. cbn [Nat.add]. zdiv.
Qed.

(** A volume with two sectors per cluster; its file is cluster 2 and 3. *)
Definition demo2_bpb : Block :=
  replicate 11 0 ++ [0; 2; 2; 1; 0; 1; 16; 0; 9; 0; 0xF8; 1; 0] ++ replicate 486 0 ++ [0x55; 0xAA].
Definition demo2_fs : Fat16Impl MemDisk.t := {|
  inner := demo_volume; bpb := Bpb.mk demo2_bpb; fat_start := 1;
  first_data_sector := 3; first_root_dir_sector := 2 |}.
Definition demo2_sectors : list Block :=
  [replicate 512 1; replicate 512 2; replicate 512 3].

Lemma read_all_contiguous_witness :
  exists f', FatFile.offset f' = 1200 /\
    @FatFile.read_all _ _ demo_chrono 3 (FatFile.new demo2_fs demo_file_a) [7] 0 =
    Ret (Ok 1200, f', [7] ++ (replicate 512 1 ++ replicate 512 2 ++ replicate 176 3) ++
         replicate 1872 0).
Proof.
  pose proof (@read_all_contiguous _ _ MemDisk_laws demo_chrono demo_bitflags demo2_fs demo_file_a
    demo2_sectors [7] 3 eq_refl eq_refl) as Hr.
  destruct Hr as (f' & Ho & E);
    [|split; [vm_compute; discriminate|vm_compute; reflexivity]|vm_compute; reflexivity|vm_compute; repeat constructor|].
  - intros [|[|[|i]]] b Hi; try discriminate Hi; injection Hi as <-; vm_compute; reflexivity.
  - exists f'. split; [exact Ho|]. rewrite E. vm_compute. reflexivity.
Defined.

(** a second [read] of a fragmented file returns bytes of another cluster.
    [A.TXT] of the small volume has the clusters 2, 4, 5, filled with the bytes
    1, 3, 4.  The first 1024 bytes are read as they should; the next [read] adds
    the sector number within the file, 2, to the first sector of the cluster
    reached, 4, and returns 176 bytes 5 of cluster 6, which is not the file's,
    instead of 176 bytes 4. *)
Theorem fragmented_second_read_wrong :
  let f1 := FatFile.mk 1024 4 demo_file_a demo_fs in
  @FatFile.read _ _ demo_chrono (FatFile.new demo_fs demo_file_a) (replicate 1024 0) =
    Ret (Ok 1024, f1, replicate 512 1 ++ replicate 512 3) /\
  (exists f2, @FatFile.read _ _ demo_chrono f1 (replicate 1024 0) =
    Ret (Ok 176, f2, replicate 176 5 ++ replicate 848 0)) /\
  sub_bytes (concat demo_sectors) 1024 176 = replicate 176 4.
Proof.
  split; [vm_compute; reflexivity|]. split; [|vm_compute; reflexivity].
  eexists. vm_compute. reflexivity.
Qed.

(** ** Paths *)

Lemma split_on_ne c s : split_on c s <> [].
Proof. destruct s as [|x s]; cbn; [done|]. destruct (x =? c); [done|]. by destruct (split_on c s). Qed.

Lemma split_on_app c a b : split_on c (a ++ c :: b) = split_on c a ++ split_on c b.
Proof.
  induction a as [|x a IH]; cbn [app split_on]; [by rewrite Z.eqb_refl|].
  rewrite IH. destruct (x =? c); [done|].
  by destruct (split_on c a) eqn:E; [apply split_on_ne in E|].
Qed.

Lemma split_on_single c s : c ∉ s -> split_on c s = [s].
Proof.
  induction s as [|x s IH]; [done|]. intros [Hx Hs]%not_elem_of_cons. cbn.
  rewrite (proj2 (Z.eqb_neq x c)) by done. by rewrite IH.
Qed.

Lemma split_on_no_sep c s : Forall (fun p => c ∉ p) (split_on c s).
Proof.
  induction s as [|x s IH]; cbn; [constructor; [apply not_elem_of_nil|constructor]|].
  destruct (Z.eqb_spec x c) as [->|Hx].
  - constructor; [apply not_elem_of_nil|done].
  - destruct (split_on c s) as [|p ps]; [by constructor; [apply not_elem_of_cons; split; [done|apply not_elem_of_nil]|]|].
    apply Forall_cons in IH as [Hp Hps]. constructor; [|done].
    by apply not_elem_of_cons.
Qed.

(** paths as lists of components.  Every component that [parse_path] gives is
    non-empty and has no separator; a name without a separator is its own only
    component; and joining two paths with [/] joins their components, so leading,
    trailing and doubled separators change nothing. *)
Theorem parse_path_components :
  (forall path, Forall (fun p => p <> [] /\ 47 ∉ p) (Fat.parse_path path)) /\
  (forall p, p <> [] -> 47 ∉ p -> Fat.parse_path p = [p]) /\
  (forall a b, Fat.parse_path (a ++ 47 :: b) = Fat.parse_path a ++ Fat.parse_path b).
Proof.
  unfold Fat.parse_path. split; [|split].
  - intros path. apply Forall_forall. intros p Hp%list_elem_of_In.
    apply filter_In in Hp as [Hp Hne]. apply list_elem_of_In in Hp.
    apply negb_true_iff, bool_decide_eq_false in Hne. split; [done|].
    exact (proj1 (Forall_forall _ _) (split_on_no_sep 47 path) p Hp).
  - intros p Hne Hp. rewrite split_on_single by done. cbn [List.filter].
    by rewrite bool_decide_eq_false_2.
  - intros a b. by rewrite split_on_app, List.filter_app.
Qed.
