(* ===== verification/Fat16Path.v ===== *)
(** * Paths on a FAT16 volume

    What the operations of [FileSystem for Fat16] ([pkg/storage/src/fs/fat16/impls.rs])
    that take a path mean: a file system is a map from paths, as lists of short names, to
    directory entries; on a volume whose directories hold the entries of such a map,
    [exists], [metadata], [open_file] and [read_dir] answer from the map. *)

From stdpp Require Import base numbers list.
From S2P Require Import Prelude Bytes Device Str Fat16Name Fat16Entry Fat16Fs.

Section spec.
Context {D : Type} `{BlockDevice D, !BlockDeviceLaws D 512, Chrono, Bitflags, UnicodeTable}.
Implicit Types (f : Fat16Impl D) (es : list DirEntry.t).

(** ** The entries of a directory *)

(** The records of one cluster of a directory parse to [es]. *)
Definition cluster_entries f (c : Z) es : Prop :=
  exists bs, sectors (inner f) (Fat.cluster_to_first_sector f c) bs /\
    0 <= Fat.entry_count f c <= 16 * zlen bs /\
    parsed (take (Z.to_nat (Fat.entry_count f c)) (records bs)) es.

(** [dir_holds f n c es]: the directory that starts at cluster [c] has the entries [es] and
    ends in its [n]-th cluster, before an entry that is not valid or with the end of the
    root directory. *)
Inductive dir_holds f : nat -> Z -> list DirEntry.t -> Prop :=
| dir_ends n c es : cluster_entries f c es -> Exists (fun e => DirEntry.is_valid e = false) es ->
    dir_holds f (S n) c (valid_prefix es)
| dir_full n c es : cluster_entries f c es -> Forall (fun e => DirEntry.is_valid e = true) es ->
    Fat.get_next_cluster f c = Ret (Ok Cluster.END_OF_FILE) -> dir_holds f (S n) c es
| dir_continues n c es c' es' : cluster_entries f c es -> Forall (fun e => DirEntry.is_valid e = true) es ->
    Fat.get_next_cluster f c = Ret (Ok c') -> c' <> Cluster.END_OF_FILE -> dir_holds f n c' es' ->
    dir_holds f (S n) c (es ++ es').

Lemma scan_ends {S} (g : S -> DirEntry.t -> S) es s : Exists (fun e => DirEntry.is_valid e = false) es ->
  scan (fun s e => Ok (g s e)) es s = Ok (true, fold_left g (valid_prefix es) s).
Proof.
  intros Hx. revert s. induction es as [|e es IH]; intros s; [by apply Exists_nil in Hx|]. cbn [scan valid_prefix].
  destruct (DirEntry.is_valid e) eqn:E; [|done]. cbn [fold_left]. apply IH. apply Exists_cons in Hx as [Hc|]; [congruence|done].
Qed.
Lemma scan_full {S} (g : S -> DirEntry.t -> S) es s : Forall (fun e => DirEntry.is_valid e = true) es ->
  scan (fun s e => Ok (g s e)) es s = Ok (false, fold_left g es s).
Proof. intros Hv. revert s. induction Hv as [|e es He _ IH]; intros s; [done|]. cbn [scan fold_left]. rewrite He. apply IH. Qed.

Lemma cluster_scan {S} (g : S -> DirEntry.t -> S) f c es s : cluster_entries f c es ->
  Fat.while_entries (fun s e => Ok (g s e)) (Z.to_nat (Fat.entry_count f c)) f (Fat.entry_count f c)
    (Fat.cluster_to_first_sector f c) s = Ret (scan (fun s e => Ok (g s e)) es s).
Proof.
  intros (bs & Hs & Hn & Hp). rewrite <- (Z2Nat.id (Fat.entry_count f c)) at 2 by lia.
  apply (while_entries_scan _ f _ _ _ bs); [done|unfold zlen in *; lia|done|done].
Qed.
Lemma traverse_dir {S} (g : S -> DirEntry.t -> S) f n c es : dir_holds f n c es ->
  forall fuel s, (n <= fuel)%nat -> Fat.loop_clusters (fun s e => Ok (g s e)) fuel f c s = Ret (Ok (fold_left g es s)).
Proof.
  induction 1 as [n c es Hc Hx|n c es Hc Hv Hn|n c es c' es' Hc Hv Hn Hne Hd IH]; intros fuel s Hf;
    (destruct fuel as [|fuel]; [lia|]); cbn [Fat.loop_clusters]; rewrite (cluster_scan g f c _ s Hc).
  - rewrite scan_ends by done. done.
  - rewrite scan_full by done. cbn [try_bind]. by rewrite Hn.
  - rewrite scan_full by done. cbn [try_bind]. rewrite Hn. cbn [try_bind].
    rewrite (proj2 (Z.eqb_neq _ _) Hne), IH by lia. by rewrite fold_left_app.
Qed.

(** The entry of a name: the last one that carries it. *)
Definition named (x : ShortFileName) es : option DirEntry.t :=
  last (List.filter (fun e => Sfn.matches (DirEntry.filename e) x) es).
Lemma dir_lookup f n fuel dir es name x : dir_holds f n (Dir.cluster dir) es -> (n <= fuel)%nat -> Sfn.parse name = Ret (Ok x) ->
  Fat.get_dir_entry_by_name fuel f dir name = Ret (match named x es with Some e => Ok e | None => Err FileNotFound end).
Proof.
  intros Hd Hf Hx. unfold Fat.get_dir_entry_by_name, Fat.traverse_dir_entries. rewrite Hx. cbn [try_bind].
  rewrite (traverse_dir (fun r e => if Sfn.matches (DirEntry.filename e) x then Some e else r) f n _ es Hd fuel None Hf).
  cbn [try_bind]. rewrite fold_last_match. fold (named x es). by destruct (named x es).
Qed.
Lemma dir_listing f n fuel dir es : dir_holds f n (Dir.cluster dir) es -> (n <= fuel)%nat ->
  Fat.get_all_file_under_dir fuel f dir = Ret (Ok (List.filter DirEntry.is_displayable es)).
Proof.
  intros Hd Hf. unfold Fat.get_all_file_under_dir, Fat.traverse_dir_entries.
  rewrite (traverse_dir (fun r e => if DirEntry.is_displayable e then r ++ [e] else r) f n _ es Hd fuel [] Hf).
  by rewrite fold_push.
Qed.

(** ** The file system as a map *)
Definition Files : Type := list ShortFileName -> option DirEntry.t.

(** The cluster of the directory at a path. *)
Definition dir_at (files : Files) (p : list ShortFileName) (c : Z) : Prop :=
  (p = [] /\ c = Cluster.ROOT_DIR) \/
  exists e, files p = Some e /\ DirEntry.is_directory e = true /\ c = DirEntry.cluster e.
(** What is below a path that leads nowhere leads nowhere. *)
Definition closed (files : Files) : Prop := forall p x, p <> [] -> files p = None -> files (p ++ [x]) = None.
(** If there is a directory at [p], its sectors hold what the map has below [p]. *)
Definition holds_at (fuel : nat) f (files : Files) (p : list ShortFileName) : Prop :=
  forall c, dir_at files p c ->
    exists n es, (n <= fuel)%nat /\ dir_holds f n c es /\ forall x, files (p ++ [x]) = named x es.
(** So do all directories on the way to [p]. *)
Definition holds_along (fuel : nat) f (files : Files) (p : list ShortFileName) : Prop :=
  forall q r, p = q ++ r -> r <> [] -> holds_at fuel f files q.
(** The path does not lead through a file. *)
Definition no_file_on (files : Files) (p : list ShortFileName) : Prop :=
  forall q r e, p = q ++ r -> r <> [] -> files q = Some e -> DirEntry.is_directory e = true.
(** The short names of the components of a path. *)
Definition names (path : str) (p : list ShortFileName) : Prop :=
  Forall2 (fun s x => Sfn.parse s = Ret (Ok x)) (Fat.parse_path path) p.

Lemma closed_app files p r : closed files -> p <> [] -> files p = None -> files (p ++ r) = None.
Proof.
  intros Hc Hp Hn. induction r as [|x r IH] using rev_ind; [by rewrite app_nil_r|].
  rewrite app_assoc. apply Hc; [|done]. by destruct p.
Qed.

Section walk.
Context (fuel : nat) (f : Fat16Impl D) (files : Files) (Hclosed : closed files).

(** One component of a path. *)
Lemma walk_step q c dir part x : dir_at files q c -> Dir.cluster dir = c -> holds_at fuel f files q -> Sfn.parse part = Ret (Ok x) ->
  Fat.get_dir_entry_by_name fuel f dir part = Ret (match files (q ++ [x]) with Some e => Ok e | None => Err FileNotFound end).
Proof.
  intros Hd Hc Hh Hx. destruct (Hh c Hd) as (n & es & Hn & Hes & ->). rewrite <- Hc in Hes. by eapply dir_lookup.
Qed.
(** A loop over the components that ends with [k]. *)
Lemma walk_loop {A} (k : DirEntry.t -> outcome (result A FsError)) (loop : list str -> Dir.t -> outcome (result A FsError)) :
  (forall part parts dir, loop (part :: parts) dir =
     (entry <-? Fat.get_dir_entry_by_name fuel f dir part ;;
      match parts with [] => k entry | _ :: _ => loop parts (Dir.from_entry entry) end)) ->
  forall parts r q dir, Forall2 (fun s x => Sfn.parse s = Ret (Ok x)) parts r -> parts <> [] ->
  dir_at files q (Dir.cluster dir) -> holds_along fuel f files (q ++ r) -> no_file_on files (q ++ r) ->
  loop parts dir = match files (q ++ r) with Some e => k e | None => Ret (Err FileNotFound) end.
Proof.
  intros Hloop parts r q dir Hp. revert q dir. induction Hp as [|part x parts r Hx Hp IH]; intros q dir Hne Hd Hh Hf; [done|].
  rewrite Hloop, (walk_step q _ dir part x Hd eq_refl); [|by apply (Hh q (x :: r))|done].
  destruct (files (q ++ [x])) as [e|] eqn:E; cbn [try_bind].
  - destruct parts as [|part' parts]; [apply Forall2_nil_inv_l in Hp as ->; by rewrite E|].
    replace (q ++ x :: r) with ((q ++ [x]) ++ r) in * by by rewrite <- app_assoc.
    apply IH; [done| |done|done]. right. exists e. split; [done|]. split; [|done].
    apply (Hf (q ++ [x]) r e); [done| |done]. intros ->. by apply Forall2_nil_inv_r in Hp.
  - replace (q ++ x :: r) with ((q ++ [x]) ++ r) by by rewrite <- app_assoc. rewrite closed_app; [done..|by destruct q|done].
Qed.
(** The walk of [read_dir], to the directory at the path. *)
Lemma walk_dirs_run parts r : Forall2 (fun s x => Sfn.parse s = Ret (Ok x)) parts r ->
  forall q dir, parts <> [] -> dir_at files q (Dir.cluster dir) -> holds_along fuel f files (q ++ r) -> no_file_on files (q ++ r) ->
  Fat.walk_dirs fuel f parts dir =
    Ret (match files (q ++ r) with
         | Some e => if DirEntry.is_directory e then Ok (Dir.from_entry e) else Err NotADirectory
         | None => Err FileNotFound
         end).
Proof.
  induction 1 as [|part x parts r Hx Hp IH]; intros q dir Hne Hd Hh Hf; [done|]. cbn [Fat.walk_dirs].
  rewrite (walk_step q _ dir part x Hd eq_refl); [|by apply (Hh q (x :: r))|done].
  destruct (files (q ++ [x])) as [e|] eqn:E; cbn [try_bind].
  - destruct parts as [|part' parts]; [apply Forall2_nil_inv_l in Hp as ->; rewrite E; by destruct (DirEntry.is_directory e)|].
    replace (q ++ x :: r) with ((q ++ [x]) ++ r) in * by by rewrite <- app_assoc.
    assert (He : DirEntry.is_directory e = true).
    { apply (Hf (q ++ [x]) r e); [done| |done]. intros ->. by apply Forall2_nil_inv_r in Hp. }
    rewrite He. apply IH; [done| |done|done]. right. by exists e.
  - replace (q ++ x :: r) with ((q ++ [x]) ++ r) by by rewrite <- app_assoc. rewrite closed_app; [done..|by destruct q|done].
Qed.
End walk.

(** C35: Path operations answer from the file system's map.  Let the directories on the way
    to a path, which lie on the volume over any number of linked clusters, hold what a map
    from paths to entries says, and let the path not lead through a file.  Then [exists]
    answers true exactly where the map has an entry, [metadata] gives that entry's
    metadata, [open_file] opens it unless it is a directory, and [read_dir] lists the
    visible entries of the directory there, in their order, or says that it is a file; where the map
    has none all four return [FileNotFound], so that [exists] never answers false.  For
    the root itself [read_dir] lists the root directory, and the other three return
    [FileNotFound]. *)
Theorem path_operations_refine f fuel files path p :
  closed files -> names path p -> holds_along fuel f files p -> no_file_on files p ->
  match p with
  | [] =>
      Fat.exists_ fuel f path = Ret (Err FileNotFound) /\ Fat.metadata fuel f path = Ret (Err FileNotFound) /\
      Fat.open_file fuel f path = Ret (Err FileNotFound) /\
      forall n es, (n <= fuel)%nat -> dir_holds f n Cluster.ROOT_DIR es ->
        Fat.read_dir fuel f path = Ret (Ok (List.filter DirEntry.is_displayable es))
  | _ :: _ =>
      match files p with
      | None =>
          Fat.exists_ fuel f path = Ret (Err FileNotFound) /\ Fat.metadata fuel f path = Ret (Err FileNotFound) /\
          Fat.open_file fuel f path = Ret (Err FileNotFound) /\ Fat.read_dir fuel f path = Ret (Err FileNotFound)
      | Some e =>
          Fat.exists_ fuel f path = Ret (Ok true) /\
          Fat.metadata fuel f path = (m ← DirEntry.as_meta e; Ret (Ok m)) /\
          Fat.open_file fuel f path =
            (if DirEntry.is_directory e then Ret (Err NotAFile) else m ← DirEntry.as_meta e; Ret (Ok (m, e))) /\
          if DirEntry.is_directory e
          then forall n es, (n <= fuel)%nat -> dir_holds f n (DirEntry.cluster e) es ->
                 Fat.read_dir fuel f path = Ret (Ok (List.filter DirEntry.is_displayable es))
          else Fat.read_dir fuel f path = Ret (Err NotADirectory)
      end
  end.
Proof.
  intros Hc Hp Hh Hf. unfold names in Hp. unfold Fat.exists_, Fat.metadata, Fat.open_file, Fat.read_dir.
  destruct p as [|x p].
  - apply Forall2_nil_inv_r in Hp as ->. split; [done|]. split; [done|]. split; [done|]. intros n es Hn Hd. cbn [Fat.walk_dirs try_bind].
    by eapply dir_listing.
  - assert (Hne : Fat.parse_path path <> []) by (intros E; rewrite E in Hp; by apply Forall2_nil_inv_l in Hp).
    assert (Hr : dir_at files [] (Dir.cluster Fat.open_root_dir)) by (by left).
    pose proof (fun A k loop Hl => @walk_loop fuel f files Hc A k loop Hl _ _ [] _ Hp Hne Hr Hh Hf) as Hw.
    rewrite (Hw _ _ (Fat.exists_loop fuel f) (fun _ _ _ => eq_refl)), (Hw _ _ (Fat.metadata_loop fuel f) (fun _ _ _ => eq_refl)),
      (Hw _ _ (Fat.open_file_loop fuel f) (fun _ _ _ => eq_refl)).
    rewrite (walk_dirs_run fuel f files Hc _ _ Hp [] _ Hne Hr Hh Hf). cbn [app].
    destruct (files (x :: p)) as [e|]; [|done]. split; [done|]. split; [done|]. split; [done|].
    destruct (DirEntry.is_directory e); [|done]. intros n es Hn Hd. cbn [try_bind]. by eapply dir_listing.
Qed.
End spec.

(** ** A volume with a directory [D] that has a file [B.TXT], and a file [A.TXT] whose
    contents look like a directory with the same entry *)
Definition demo_dir_entry : bytes := entry_layout (68 :: replicate 7 32) (replicate 3 32) 0x10 0 0 0 0 0 2 0.
Definition demo_tree_root : Block := demo_dir_entry ++ demo_entry 65 3 32 ++ replicate 448 0.
Definition demo_tree_sub : Block := demo_entry 66 5 10 ++ replicate 480 0.
Definition demo_tree_fs : Fat16Impl MemDisk.t := {|
  inner := {| MemDisk.blocks := [demo_bpb; demo_fat; demo_tree_root; demo_tree_sub; demo_tree_sub; replicate 512 3; replicate 512 4; replicate 512 5] |};
  bpb := Bpb.mk demo_bpb; fat_start := 1; first_data_sector := 3; first_root_dir_sector := 2 |}.

Definition demo_d : @DirEntry.t demo_chrono :=
  DirEntry.mk demo_chrono {| sfn_name := 68 :: replicate 7 32; sfn_ext := replicate 3 32 |}
    (1970, 1, 1, 0, 0, 0) (1970, 1, 1, 0, 0, 0) (1970, 1, 1, 0, 0, 0) 2 0x10 0.
Definition demo_name_of (c : Z) (ext : bytes) : ShortFileName := {| sfn_name := c :: replicate 7 32; sfn_ext := ext |}.
Definition name_d : ShortFileName := demo_name_of 68 (replicate 3 32).
Definition name_a : ShortFileName := demo_name_of 65 [84; 88; 84].
Definition name_b : ShortFileName := demo_name_of 66 [84; 88; 84].
Definition demo_files (p : list ShortFileName) : option (@DirEntry.t demo_chrono) :=
  if decide (p = [name_d]) then Some demo_d
  else if decide (p = [name_a]) then Some (demo_entry_of 65 3 32)
  else if decide (p = [name_d; name_b]) then Some (demo_entry_of 66 5 10)
  else None.

Definition demo_holds := @dir_holds MemDisk.t _ demo_chrono demo_bitflags demo_tree_fs.
(** A directory of one sector that ends before its last record. *)
Lemma demo_one_sector c b es : Fat.entry_count demo_tree_fs c = 16 ->
  read_block (inner demo_tree_fs) (Fat.cluster_to_first_sector demo_tree_fs c) = Ok b ->
  @parsed demo_chrono demo_bitflags (records [b]) es -> existsb (fun e => negb (@DirEntry.is_valid demo_chrono e)) es = true ->
  demo_holds 1 c (valid_prefix es).
Proof.
  intros Hn Hr Hp Hx. apply (@dir_ends _ _ demo_chrono demo_bitflags).
  - exists [b]. split; [|rewrite Hn; split; [split; done|]].
    + intros [|i] b' Hb; [|done]. injection Hb as <-. by rewrite Z.add_0_r.
    + rewrite take_ge; [done|]. unfold records. rewrite bind_cons, length_app, length_fmap, length_seq. done.
  - apply existsb_exists in Hx as (e & He & Hv). apply Exists_exists. exists e. split; [by apply list_elem_of_In|].
    by apply negb_true_iff.
Qed.
Definition demo_root_entries : list (@DirEntry.t demo_chrono) := [demo_d; demo_entry_of 65 3 32] ++ replicate 14 demo_entry_none.
Definition demo_sub_entries : list (@DirEntry.t demo_chrono) := [demo_entry_of 66 5 10] ++ replicate 15 demo_entry_none.
Lemma parsed_fmap `{Chrono, Bitflags} rs : forall es, DirEntry.parse <$> rs = (fun e => Ret (Ok e)) <$> es -> parsed rs es.
Proof. induction rs as [|r rs IH]; intros [|e es] E; try done; [constructor|]. rewrite !fmap_cons in E. injection E as E1 E2. constructor; [done|by apply IH]. Qed.
Lemma demo_holds_root : demo_holds 1 Cluster.ROOT_DIR (valid_prefix demo_root_entries).
Proof.
  apply (demo_one_sector _ demo_tree_root); [vm_compute; reflexivity..| |vm_compute; reflexivity].
  apply parsed_fmap. vm_compute. reflexivity.
Qed.
Lemma demo_holds_sub : demo_holds 1 2 (valid_prefix demo_sub_entries).
Proof.
  apply (demo_one_sector _ demo_tree_sub); [vm_compute; reflexivity..| |vm_compute; reflexivity].
  apply parsed_fmap. vm_compute. reflexivity.
Qed.
Lemma named_cons x (e : @DirEntry.t demo_chrono) es : named x es = None ->
  named x (e :: es) = if decide (DirEntry.filename e = x) then Some e else None.
Proof.
  unfold named. intros Hn. cbn [List.filter].
  assert (Em : Sfn.matches (DirEntry.filename e) x = bool_decide (DirEntry.filename e = x)).
  { unfold Sfn.matches. destruct (DirEntry.filename e) as [n1 e1], x as [n2 e2]. cbn.
    repeat case_bool_decide; naive_solver. }
  apply last_None in Hn. rewrite Em, Hn. case_bool_decide; [by rewrite decide_True|by rewrite decide_False].
Qed.
Lemma demo_closed : @closed demo_chrono demo_files.
Proof.
  intros p x Hp Hn. destruct p as [|y p]; [done|]. unfold demo_files in *. cbn [app].
  destruct (decide (y :: p ++ [x] = [name_d])) as [E|_]; [injection E as _ E; by apply app_nil in E as [_ ?]|].
  destruct (decide (y :: p ++ [x] = [name_a])) as [E|_]; [injection E as _ E; by apply app_nil in E as [_ ?]|].
  destruct (decide (y :: p ++ [x] = [name_d; name_b])) as [E|_]; [|done].
  injection E as -> E. destruct p as [|z p]; [|injection E as _ E; by apply app_nil in E as [_ ?]].
  by rewrite decide_True in Hn.
Qed.
Lemma demo_below_root x : demo_files [x] = named x (valid_prefix demo_root_entries).
Proof.
  change (valid_prefix demo_root_entries) with [demo_d; demo_entry_of 65 3 32]. unfold demo_files.
  destruct (decide ([x] = [name_d; name_b])) as [E|_]; [done|].
  destruct (decide (x = name_a)) as [->|Ha]; [vm_compute; reflexivity|].
  rewrite named_cons.
  - rewrite (decide_False (P := [x] = [name_a])) by congruence. change (DirEntry.filename demo_d) with name_d.
    destruct (decide (x = name_d)) as [->|]; [by rewrite !decide_True by done|by rewrite !decide_False by congruence].
  - rewrite named_cons by done. rewrite decide_False; [done|]. change (name_a <> x). congruence.
Qed.
Lemma demo_below_d x : demo_files [name_d; x] = named x (valid_prefix demo_sub_entries).
Proof.
  change (valid_prefix demo_sub_entries) with [demo_entry_of 66 5 10]. unfold demo_files.
  rewrite named_cons by done. change (DirEntry.filename (demo_entry_of 66 5 10)) with name_b.
  do 2 (rewrite decide_False by done).
  destruct (decide (name_b = x)) as [<-|]; [by rewrite decide_True|by rewrite decide_False by congruence].
Qed.
Lemma demo_holds_along : @holds_along _ _ demo_chrono demo_bitflags 1 demo_tree_fs demo_files [name_d; name_b].
Proof.
  intros q r E Hr c Hd. destruct q as [|y [|z q]].
  - destruct Hd as [[_ ->]|(e & He & _)]; [|done]. exists 1%nat, (valid_prefix demo_root_entries).
    split; [done|]. split; [exact demo_holds_root|exact demo_below_root].
  - injection E as <- _. destruct Hd as [[? _]|(e & He & _ & ->)]; [done|]. unfold demo_files in He. rewrite decide_True in He by done. injection He as <-.
    exists 1%nat, (valid_prefix demo_sub_entries). split; [done|]. split; [exact demo_holds_sub|exact demo_below_d].
  - injection E as _ _ E. symmetry in E. by apply app_nil in E as [_ ->].
Qed.

(** The path [d/b.txt]. *)
Definition demo_path : str := [100; 47; 98; 46; 116; 120; 116].
Lemma path_operations_refine_witness :
  @Fat.exists_ _ _ demo_chrono demo_bitflags demo_unicode 1 demo_tree_fs demo_path = Ret (Ok true) /\
  exists m, @Fat.open_file _ _ demo_chrono demo_bitflags demo_unicode 1 demo_tree_fs demo_path = Ret (Ok (m, demo_entry_of 66 5 10)).
Proof.
  destruct (@path_operations_refine _ _ MemDisk_laws demo_chrono demo_bitflags demo_unicode demo_tree_fs 1 demo_files demo_path [name_d; name_b])
    as (E1 & _ & E3 & _).
  - exact demo_closed.
  - repeat constructor; vm_compute; reflexivity.
  - exact demo_holds_along.
  - intros q r e E Hr He. destruct q as [|y [|z q]]; [discriminate He| |].
    + injection E as <- _. vm_compute in He. injection He as <-. reflexivity.
    + injection E as _ _ E. symmetry in E. apply app_nil in E as [_ E]. contradiction.
  - split; [exact E1|]. eexists. rewrite E3. vm_compute. reflexivity.
Defined.

(** A file in the middle of a path is taken for a directory.  [exists], [metadata] and
    [open_file] do not look at the kind of the entry that they descend into: the
    contents of [A.TXT], bytes of the user's, are read as a directory, so that the path
    [a.txt/b.txt] exists and can be opened, while [read_dir] says that it is no directory. *)
Theorem file_taken_for_directory :
  let path := [97; 46; 116; 120; 116; 47; 98; 46; 116; 120; 116] in
  @DirEntry.is_directory demo_chrono demo_bitflags (demo_entry_of 65 3 32) = false /\
  @Fat.get_dir_entry_by_name _ _ demo_chrono demo_bitflags demo_unicode 1 demo_tree_fs Fat.open_root_dir (take 5 path) =
    Ret (Ok (demo_entry_of 65 3 32)) /\
  @Fat.exists_ _ _ demo_chrono demo_bitflags demo_unicode 1 demo_tree_fs path = Ret (Ok true) /\
  (exists m, @Fat.open_file _ _ demo_chrono demo_bitflags demo_unicode 1 demo_tree_fs path = Ret (Ok (m, demo_entry_of 66 5 10))) /\
  @Fat.read_dir _ _ demo_chrono demo_bitflags demo_unicode 1 demo_tree_fs path = Ret (Err NotADirectory).
Proof.
  split; [vm_compute; reflexivity|]. split; [vm_compute; reflexivity|]. split; [vm_compute; reflexivity|].
  split; [|vm_compute; reflexivity]. eexists. vm_compute. reflexivity.
Qed.
