(* ===== verification/Rootfs.v ===== *)
(** * The root file system

    Models [init] of [pkg/kernel/src/drivers/filesystem.rs]: the disk, its partition table, the first partition in it and the file system
    there, mounted at the root. *)

From stdpp Require Import base numbers list.
From S2P Require Import Prelude Bytes Device Str Fat16Name Fat16Entry Fat16Fs Fat16File.

(** [init], with what [AtaDrive::open(0, 0)] returns; [remove(0)] panics on an empty vector. *)
Definition filesystem_init {D} `{BlockDevice D} (opened : option D) : outcome (Mount.t (Fat16Impl (Partition.t D))) :=
  drive ← unwrap opened;
  table ← Mbr.parse drive;
  table ← unwrap_result table;
  parts ← unwrap_result (Mbr.partitions table);
  match parts with
  | [] => Panic
  | part :: _ => fs ← Fat.new part; Ret (Mount.mk fs [47])
  end.

(** C31: The root file system.  With a readable boot sector, [init] mounts at [/] the FAT16 file system of the first active slot of the partition table,
    and panics when there is none or its boot sector is not one; the sectors of the file system are those of the partition, and no access through it
    reaches the rest of the disk. *)
Theorem root_filesystem {D} `{BlockDeviceLaws D 512} (d : D) b : read_block d 0 = Ok b ->
  match head (omap (mbr_slot_spec d b) [0; 1; 2; 3]%nat) with
  | None => filesystem_init (Some d) = Panic
  | Some part =>
      filesystem_init (Some d) = (fs ← Fat.new part; Ret (Mount.mk fs [47])) /\
      Partition.inner part = d /\ part_ok part /\
      forall mount k, filesystem_init (Some d) = Ret mount -> 0 <= k ->
        read_block (inner (Mount.fs mount)) k = if k <? Partition.size part then read_block d (k + Partition.offset part) else Err InvalidOffset
  end.
Proof.
  intros Hr. destruct (mbr_partitions_spec d b Hr) as (t & Hp & Hq & Hok). unfold filesystem_init. cbn [unwrap mbind outcome_bind]. rewrite Hp.
  cbn [mbind outcome_bind unwrap_result]. rewrite Hq. cbn [mbind outcome_bind unwrap_result].
  destruct (omap (mbr_slot_spec d b) [0; 1; 2; 3]%nat) as [|part parts] eqn:E; [done|]. cbn [head]. apply Forall_cons in Hok as [Hok _].
  assert (Hd : Partition.inner part = d).
  { assert (Hin : part ∈ omap (mbr_slot_spec d b) [0; 1; 2; 3]%nat) by (rewrite E; left). apply list_elem_of_omap in Hin as (i & _ & Hi).
    unfold mbr_slot_spec in Hi. case_match; by simplify_eq. }
  split; [done|]. split; [done|]. split; [done|]. intros mount k Hm Hk.
  assert (Hi : inner (Mount.fs mount) = part).
  { destruct (Fat.new part) as [fs| |] eqn:Ef; [|done..]. injection Hm as <-. cbn. unfold Fat.new in Ef.
    destruct (read_block part 0); [|done]. cbn in Ef. destruct (Bpb.new t0) as [[bpb|]| |]; [|done..]. cbn in Ef. by injection Ef as <-. }
  rewrite Hi. change (read_block part k) with (Partition.read_block part k). destruct (Z.ltb_spec k (Partition.size part)).
  - rewrite partition_read_in by (done || lia). by rewrite Hd.
  - unfold Partition.read_block. by rewrite (proj2 (Z.leb_le _ _)).
Qed.

(** A disk whose first partition, three sectors from 1 on, is a volume. *)
Definition demo_root_disk : MemDisk.t := {| MemDisk.blocks :=
  (replicate 446 0 ++ [0x80; 0; 0; 0; 6; 0; 0; 0; 1; 0; 0; 0; 8; 0; 0; 0] ++ replicate 48 0 ++ [0x55; 0xAA]) :: MemDisk.blocks demo_volume |}.
Lemma root_filesystem_witness : exists mount, filesystem_init (Some demo_root_disk) = Ret mount /\ Mount.mount_point mount = [47] /\
  read_block (inner (Mount.fs mount)) 0 = Ok demo_bpb /\ read_block (inner (Mount.fs mount)) 8 = Err InvalidOffset.
Proof.
  destruct (filesystem_init (Some demo_root_disk)) as [mount| |] eqn:E; [|vm_compute in E; discriminate..].
  pose proof (root_filesystem demo_root_disk _ eq_refl) as Hs.
  match type of Hs with match head ?l with _ => _ end => let v := eval vm_compute in (head l) in change (head l) with v in Hs end.
  cbv iota beta in Hs. destruct Hs as (_ & _ & _ & Hs). exists mount. split; [done|].
  split; [vm_compute in E; injection E as <-; reflexivity|]. split.
  - rewrite (Hs mount 0 E ltac:(lia)). vm_compute. reflexivity.
  - rewrite (Hs mount 8 E ltac:(lia)). vm_compute. reflexivity.
Defined.
