(* ===== verification/Num.v ===== *)
(** * Numbers as text

    What the programs use of the standard library to read numbers ([char::to_digit],
    [u64::from_str] and [from_str_radix]) and to print them ([{}] and [{:x}]). *)

From Stdlib Require Import Ascii String.
From stdpp Require Import base numbers list.
From S2P Require Import Prelude Bytes Str.

(** A literal of the source as a list of characters. *)
Fixpoint chars (s : string) : str :=
  match s with EmptyString => [] | String a s => Z.of_nat (nat_of_ascii a) :: chars s end.
Arguments chars _%_string.

(** [char::to_digit], and [u64::from_str_radix]: an optional plus sign, then digits,
    with a check for overflow at each; [u64::from_str] is radix 10. *)
Definition to_digit (radix c : Z) : option Z :=
  let d := if (48 <=? c) && (c <=? 57) then c - 48
           else if (97 <=? c) && (c <=? 122) then c - 97 + 10
           else if (65 <=? c) && (c <=? 90) then c - 65 + 10 else radix in
  if d <? radix then Some d else None.
Fixpoint digits_from (radix acc : Z) (s : str) : option Z :=
  match s with
  | [] => Some acc
  | c :: s =>
      d ← to_digit radix c;
      let acc' := acc * radix + d in
      if acc' <? 2 ^ 64 then digits_from radix acc' s else None
  end.
Definition from_str_radix (radix : Z) (s : str) : option Z :=
  match s with
  | [] => None
  | [c] => if (c =? 43) || (c =? 45) then None else digits_from radix 0 s
  | c :: t => if c =? 43 then digits_from radix 0 t else digits_from radix 0 s
  end.

(** A number in print. *)
Fixpoint digits (fuel : nat) (radix n : Z) (acc : str) : str :=
  match fuel with
  | O => acc
  | S fuel =>
      let d := n mod radix in
      let acc := (if d <? 10 then d + 48 else d + 87) :: acc in
      if n / radix =? 0 then acc else digits fuel radix (n / radix) acc
  end.
Definition decimal (n : Z) : str := digits 64 10 n [].

(** ** Numbers *)
Lemma to_digit_char radix d : radix = 10 \/ radix = 16 -> 0 <= d < radix ->
  to_digit radix (if d <? 10 then d + 48 else d + 87) = Some d.
Proof.
  intros Hr Hd. unfold to_digit. destruct (Z.ltb_spec d 10).
  - rewrite (proj2 (Z.leb_le 48 _)), (proj2 (Z.leb_le _ 57)) by lia. cbn [andb].
    replace (d + 48 - 48) with d by lia. by rewrite (proj2 (Z.ltb_lt d radix)) by lia.
  - rewrite (proj2 (Z.leb_gt _ 57)), andb_false_r, (proj2 (Z.leb_le 97 _)), (proj2 (Z.leb_le _ 122)) by lia. cbn [andb].
    replace (d + 87 - 97 + 10) with d by lia. by rewrite (proj2 (Z.ltb_lt d radix)) by lia.
Qed.
Lemma digits_read radix : radix = 10 \/ radix = 16 -> forall fuel n acc, 0 <= n < radix ^ Z.of_nat fuel -> n < 2 ^ 64 ->
  digits_from radix 0 (digits fuel radix n acc) = digits_from radix n acc.
Proof.
  intros Hr. induction fuel as [|fuel IH]; intros n acc Hn H64.
  - cbn in Hn. by replace n with 0 by lia.
  - pose proof (Z.div_mod n radix ltac:(lia)) as Ed. pose proof (Z.mod_pos_bound n radix ltac:(lia)) as Hm.
    rewrite Nat2Z.inj_succ, Z.pow_succ_r in Hn by lia.
    assert (Hq : 0 <= n / radix < radix ^ Z.of_nat fuel) by (split; [apply Z.div_pos|apply Z.div_lt_upper_bound]; lia).
    assert (Hs : digits_from radix (n / radix) ((if n mod radix <? 10 then n mod radix + 48 else n mod radix + 87) :: acc) =
      digits_from radix n acc).
    { cbn [digits_from]. rewrite to_digit_char by lia. cbn [mbind option_bind].
      replace (n / radix * radix + n mod radix) with n by lia. by rewrite (proj2 (Z.ltb_lt n _) H64). }
    cbn [digits]. destruct (Z.eqb_spec (n / radix) 0) as [E|E].
    + rewrite E in Hs. exact Hs.
    + rewrite IH by (destruct Hr; subst; nia || lia). exact Hs.
Qed.
(** The characters of a number. *)
Definition digit_char (c : Z) : Prop := 48 <= c <= 57 \/ 97 <= c <= 102.
Lemma digits_chars radix fuel : radix = 10 \/ radix = 16 -> forall n acc,
  Forall digit_char acc -> Forall digit_char (digits fuel radix n acc).
Proof.
  intros Hr. induction fuel as [|fuel IH]; intros n acc Ha; [done|]. cbn [digits].
  assert (Forall digit_char ((if n mod radix <? 10 then n mod radix + 48 else n mod radix + 87) :: acc)) as Hc.
  { constructor; [|done]. pose proof (Z.mod_pos_bound n radix ltac:(lia)). unfold digit_char.
    destruct (Z.ltb_spec (n mod radix) 10); lia. }
  destruct (n / radix =? 0); auto.
Qed.
Lemma digits_nonempty fuel radix n acc : digits (S fuel) radix n acc <> [].
Proof.
  cbn [digits]. generalize (if n mod radix <? 10 then n mod radix + 48 else n mod radix + 87) as x. intros x.
  destruct (n / radix =? 0); [done|]. generalize (n / radix) as m. revert x acc.
  induction fuel as [|fuel IH]; intros x acc m; [done|]. cbn [digits]. destruct (m / radix =? 0); [done|]. apply IH.
Qed.
Lemma radix_read radix n : radix = 10 \/ radix = 16 -> 0 <= n < 2 ^ 64 -> from_str_radix radix (digits 64 radix n []) = Some n.
Proof.
  intros Hr Hn. assert (Hb : 2 ^ 64 <= radix ^ Z.of_nat 64) by (apply Z.pow_le_mono_l; lia).
  pose proof (digits_read radix Hr 64 n [] ltac:(lia) ltac:(lia)) as E.
  pose proof (digits_chars radix 64 Hr n [] (Forall_nil_2 _)) as Hc.
  pose proof (digits_nonempty 63 radix n []) as Hne. revert E Hc Hne. generalize (digits 64 radix n []) as s.
  intros [|c s] E Hc Hne; [done|]. inversion Hc as [|? ? Hd _]; subst. unfold digit_char in Hd.
  assert (Ep : (c =? 43) = false) by (apply Z.eqb_neq; lia). assert (Em : (c =? 45) = false) by (apply Z.eqb_neq; lia).
  unfold from_str_radix. rewrite Ep, Em. by destruct s.
Qed.
Lemma digits_length fuel radix : forall n acc, (List.length (digits fuel radix n acc) <= fuel + List.length acc)%nat.
Proof.
  induction fuel as [|fuel IH]; intros n acc; cbn [digits]; [lia|]. destruct (n / radix =? 0); cbn [List.length]; [lia|].
  etransitivity; [apply IH|]. cbn [List.length]. lia.
Qed.
Lemma ascii_decimal n : ascii (decimal n).
Proof.
  eapply Forall_impl; [apply (digits_chars 10 64); [by left|constructor]|]. unfold digit_char, ascii_char. cbn. lia.
Qed.
