(* ===== verification/StorageTests.v ===== *)
(** * The unit tests of the storage crate

    The tests of [pkg/storage/src/fs/fat16/{bpb,direntry}.rs] and [partition/mbr/entry.rs], run on the model: the same data, the same
    expected values. *)

From Stdlib Require Import Ascii String.
From stdpp Require Import base numbers list.
From S2P Require Import Prelude Bytes Device Str Num Fat16Name Fat16Entry.

(** [hex_literal::hex!]: pairs of hexadecimal digits, blanks ignored. *)
Fixpoint hex_from (high : option Z) (s : str) : bytes :=
  match s with
  | [] => []
  | x :: s =>
      match to_digit 16 x, high with
      | None, _ => hex_from high s
      | Some d, None => hex_from (Some d) s
      | Some d, Some h => (16 * h + d) :: hex_from None s
      end
  end.
Definition hex (s : string) : bytes := hex_from None (chars s).
Definition byte_string (s : string) : bytes := chars s.
(** The [.._str] accessors of [define_field!] *)
Definition field_str (l : bytes) : str := default [] (from_utf8 l).

(** A boot sector from the card of a Raspberry Pi. *)
Definition test_fat16_bpb_1 : outcome bool :=
  let DATA := hex "EB 3C 90 6D 6B 66 73 2E 66 61 74 00 02 10 01 00
        02 00 02 00 00 F8 20 00 3F 00 FF 00 00 00 00 00
        00 E0 01 00 80 01 29 BB B0 71 77 62 6F 6F 74 20
        20 20 20 20 20 20 46 41 54 31 36 20 20 20 0E 1F
        BE 5B 7C AC 22 C0 74 0B 56 B4 0E BB 07 00 CD 10
        5E EB F0 32 E4 CD 16 CD 19 EB FE 54 68 69 73 20
        69 73 20 6E 6F 74 20 61 20 62 6F 6F 74 61 62 6C
        65 20 64 69 73 6B 2E 20 20 50 6C 65 61 73 65 20
        69 6E 73 65 72 74 20 61 20 62 6F 6F 74 61 62 6C
        65 20 66 6C 6F 70 70 79 20 61 6E 64 0D 0A 70 72
        65 73 73 20 61 6E 79 20 6B 65 79 20 74 6F 20 74
        72 79 20 61 67 61 69 6E 20 2E 2E 2E 20 0D 0A 00" in
  let PADDING := replicate 318 0 ++ [0x55; 0xAA] in
  r ← Bpb.new (DATA ++ PADDING);
  bpb ← unwrap_result r;
  Ret (bool_decide (Bpb.oem_name bpb = byte_string "mkfs.fat") && (Bpb.bytes_per_sector bpb =? 512) && (Bpb.sectors_per_cluster bpb =? 16) &&
    (Bpb.reserved_sector_count bpb =? 1) && (Bpb.fat_count bpb =? 2) && (Bpb.root_entries_count bpb =? 512) && (Bpb.total_sectors_16 bpb =? 0) &&
    (Bpb.media_descriptor bpb =? 0xf8) && (Bpb.sectors_per_fat bpb =? 32) && (Bpb.sectors_per_track bpb =? 63) && (Bpb.track_count bpb =? 255) &&
    (Bpb.hidden_sectors bpb =? 0) && (Bpb.total_sectors_32 bpb =? 0x1e000) && (Bpb.drive_number bpb =? 128) && (Bpb.reserved_flags bpb =? 1) &&
    (Bpb.boot_signature bpb =? 0x29) && (Bpb.volume_id bpb =? 0x7771b0bb) && bool_decide (Bpb.volume_label bpb = byte_string "boot       ") &&
    bool_decide (Bpb.system_identifier bpb = byte_string "FAT16   ") && (Bpb.total_sectors bpb =? 0x1e000)).
(** The boot sector that QEMU makes. *)
Definition test_fat16_bpb_2 : outcome bool :=
  let DATA := hex "EB 3E 90 4D 53 57 49 4E 34 2E 31 00 02 10 01 00
        02 00 02 00 00 F8 FC 00 3F 00 10 00 3F 00 00 00
        C1 BF 0F 00 80 00 29 FD 1A BE FA 51 45 4D 55 20
        56 56 46 41 54 20 46 41 54 31 36 20 20 20 00 00" in
  let PADDING := replicate 446 0 ++ [0x55; 0xAA] in
  r ← Bpb.new (DATA ++ PADDING);
  bpb ← unwrap_result r;
  Ret (bool_decide (Bpb.oem_name bpb = byte_string "MSWIN4.1") && bool_decide (field_str (Bpb.oem_name bpb) = chars "MSWIN4.1") && (Bpb.bytes_per_sector bpb =? 512) && (Bpb.sectors_per_cluster bpb =? 16) &&
    (Bpb.reserved_sector_count bpb =? 1) && (Bpb.fat_count bpb =? 2) && (Bpb.root_entries_count bpb =? 512) && (Bpb.total_sectors_16 bpb =? 0) &&
    (Bpb.media_descriptor bpb =? 0xf8) && (Bpb.sectors_per_fat bpb =? 0xfc) && (Bpb.sectors_per_track bpb =? 63) && (Bpb.track_count bpb =? 16) &&
    (Bpb.hidden_sectors bpb =? 63) && (Bpb.total_sectors_32 bpb =? 0xfbfc1) && (Bpb.drive_number bpb =? 128) && (Bpb.reserved_flags bpb =? 0) &&
    (Bpb.boot_signature bpb =? 0x29) && (Bpb.volume_id bpb =? 0xfabe1afd) && bool_decide (Bpb.volume_label bpb = byte_string "QEMU VVFAT ") &&
    bool_decide (field_str (Bpb.volume_label bpb) = chars "QEMU VVFAT ") && bool_decide (field_str (Bpb.system_identifier bpb) = chars "FAT16   ") &&
    bool_decide (Bpb.system_identifier bpb = byte_string "FAT16   ") && (Bpb.total_sectors bpb =? 0xfbfc1)).
(** An entry of a partition table. *)
Definition partition_test : bool :=
  let meta := Mbr.parse_entry (hex "80 01 01 00 0b fe bf fc 3f 00 00 00 7e 86 bb 00") in
  Mbr.is_active meta && (Mbr.begin_head meta =? 1) && (Mbr.begin_sector meta =? 1) && (Mbr.begin_cylinder meta =? 0) && (Mbr.partition_type meta =? 0x0b) &&
  (Mbr.end_head meta =? 254) && (Mbr.end_sector meta =? 63) && (Mbr.end_cylinder meta =? 764) && (Mbr.begin_lba meta =? 63) && (Mbr.total_lba meta =? 12289662).
(** A directory entry; the time stamps are what [chrono] makes of the calendar fields. *)
Definition test_dir_entry `{Chrono} (created accessed : FsTime) (e : DirEntry.t) : Prop :=
  sfn_name (DirEntry.filename e) = byte_string "KERNEL  " /\ sfn_ext (DirEntry.filename e) = byte_string "ELF" /\
  DirEntry.attributes e = Attr.ARCHIVE /\ DirEntry.cluster e = 2 /\ DirEntry.size e = 0xee4f0 /\
  DirEntry.created_time e = created /\ DirEntry.modified_time e = created /\ DirEntry.accessed_time e = accessed.

Lemma storage_unit_tests : test_fat16_bpb_1 = Ret true /\ test_fat16_bpb_2 = Ret true /\ partition_test = true.
Proof. split_and!; vm_compute; reflexivity. Qed.
Lemma dir_entry_unit_test `{Chrono} `{BitflagsLaws} created accessed :
  with_ymd_and_hms 2020 6 16 23 48 30 = Some created -> with_ymd_and_hms 2020 6 16 0 0 0 = Some accessed ->
  exists e, DirEntry.parse (hex "4b 45 52 4e 45 4c 20 20 45 4c 46 20 00 00 0f be
             d0 50 d0 50 00 00 0f be d0 50 02 00 f0 e4 0e 00") = Ret (Ok e) /\ test_dir_entry created accessed e.
Proof.
  intros Hc Ha. pose proof (from_bits_spec Attr.known 0x20) as Hb. destruct H as [T f g], H0 as [fb ct]. cbn in f, g, Hc, Ha, Hb.
  vm_compute in Hb. vm_compute. rewrite Hc, Ha, Hb. eexists. split; [reflexivity|]. by vm_compute.
Qed.
