(* ===== verification/Size.v ===== *)
(** * Sizes for the reader

    Models [humanized_size] of [pkg/kernel/src/utils/mod.rs], which the kernel calls for every size that it prints.  Numbers of type [f32] are those of the
    Standard Library's model of IEEE 754, with 24 bits of precision and exponents up to 128. *)

From stdpp Require Import base numbers list.
From Stdlib Require Import SpecFloat.
From S2P Require Import Prelude Bytes Str.

Definition f32 : Type := spec_float.
(** [n as f32], for an unsigned [n] *)
Definition f32_from (n : Z) : f32 := binary_normalize 24 128 n 0 false.
Definition f32_div : f32 -> f32 -> f32 := SFdiv 24 128.
Definition f32_mul : f32 -> f32 -> f32 := SFmul 24 128.
Definition f1024 : f32 := f32_from 1024.

Definition SHORT_UNITS : list str := [[66]; [75]; [77]; [71]].
Definition UNITS : list str := [[66]; [75; 105; 66]; [77; 105; 66]; [71; 105; 66]].
(** The loop, with [units.len() - unit] as its measure. *)
Fixpoint humanize (more : nat) (bytes : f32) (unit : nat) : f32 * nat :=
  match more with
  | O => (bytes, unit)
  | S more => if SFleb f1024 bytes then humanize more (f32_div bytes f1024) (S unit) else (bytes, unit)
  end.
Definition humanized_size_impl (size : Z) (short : bool) : outcome (f32 * str) :=
  let bytes := f32_from size in
  let units := if short then SHORT_UNITS else UNITS in
  let '(bytes, unit) := humanize (length units) bytes 0 in
  name ← unwrap (units !! unit);
  Ret (bytes, name).
Definition humanized_size (size : Z) : outcome (f32 * str) := humanized_size_impl size false.
Definition humanized_size_short (size : Z) : outcome (f32 * str) := humanized_size_impl size true.

(** ** Rounding *)
Lemma digits_log2 p : Z.pos (digits2_pos p) = Z.log2 (Z.pos p) + 1.
Proof.
  induction p as [p IH|p IH|]; cbn [digits2_pos]; [| |done].
  - rewrite Pos2Z.inj_succ, IH, Pos2Z.inj_xI, Z.log2_succ_double by lia. lia.
  - rewrite Pos2Z.inj_succ, IH, Pos2Z.inj_xO, Z.log2_double by lia. lia.
Qed.
Lemma iter_pos_nat {A} (f : A -> A) n : forall x, iter_pos f n x = Nat.iter (Pos.to_nat n) f x.
Proof.
  induction n as [n IH|n IH|]; intros x; cbn [iter_pos]; [| |done].
  - rewrite !IH, Pos2Nat.inj_xI. rewrite Nat.iter_succ_r, <- Nat.iter_add. f_equal. lia.
  - rewrite !IH, Pos2Nat.inj_xO, <- Nat.iter_add. f_equal. lia.
Qed.
Lemma shr_1_run m r s : 0 <= m -> shr_1 {| shr_m := m; shr_r := r; shr_s := s |} = {| shr_m := m / 2; shr_r := Z.odd m; shr_s := r || s |}.
Proof. intros Hm. rewrite <- Z.div2_div. destruct m as [|[p|p|]|p]; try reflexivity. lia. Qed.
(** What the two bits of a record say of the remainder [R] of a division by [d]: nothing left, less than half, half, or more than half. *)
Definition remainder_bits (r s : bool) (R d : Z) : Prop :=
  match r, s with
  | false, false => R = 0
  | false, true => 0 < 2 * R < d
  | true, false => 2 * R = d
  | true, true => d < 2 * R < 2 * d
  end.
(** Shifting right by [n] bits: the quotient, and the bits of the remainder. *)
Lemma shr_iter n : forall m, 0 <= m -> exists r s, Nat.iter n shr_1 {| shr_m := m; shr_r := false; shr_s := false |} = {| shr_m := m / 2 ^ Z.of_nat n; shr_r := r; shr_s := s |} /\
  remainder_bits r s (m mod 2 ^ Z.of_nat n) (2 ^ Z.of_nat n).
Proof.
  induction n as [|n IH]; intros m Hm.
  - exists false, false. change (2 ^ Z.of_nat 0) with 1. rewrite Z.div_1_r. split; [done|apply Z.mod_1_r].
  - destruct (IH m Hm) as (r & s & E & Hx). change (Nat.iter (S n) ?f ?x) with (f (Nat.iter n f x)). rewrite E.
    assert (0 < 2 ^ Z.of_nat n) by lia. assert (0 <= m / 2 ^ Z.of_nat n) by (apply Z.div_pos; lia). rewrite shr_1_run by done.
    exists (Z.odd (m / 2 ^ Z.of_nat n)), (r || s). rewrite Nat2Z.inj_succ, Z.pow_succ_r, (Z.mul_comm 2) by lia. rewrite Z.div_div by lia. split; [done|].
    rewrite Z.rem_mul_r by lia. pose proof (Z.mod_pos_bound m (2 ^ Z.of_nat n) ltac:(lia)).
    rewrite Zmod_odd. destruct (Z.odd (m / 2 ^ Z.of_nat n)), r, s; cbn in *; lia.
Qed.
(** A 24-bit mantissa. *)
Definition normal (m : Z) : Prop := 2 ^ 23 <= m < 2 ^ 24.
Lemma log2_normal m : normal m -> Z.log2 m = 23.
Proof. intros [H1 H2]. apply Z.log2_unique; [lia|]. change (2 ^ Z.succ 23) with (2 ^ 24). lia. Qed.
Lemma zdigits_log2 m : 0 < m -> Zdigits2 m = Z.log2 m + 1.
Proof. destruct m as [|p|p]; [lia|intros _; apply digits_log2|lia]. Qed.
Lemma fexp_normal e : -125 <= e -> fexp 24 128 e = e - 24.
Proof. unfold fexp, emin. lia. Qed.
(** Rounding a number with at least 24 digits to 24 of them: the quotient, or one more; exactly the quotient when the division is exact. *)
Lemma shr_fexp_run m e : 0 < m -> 23 <= Z.log2 m -> -125 <= Z.log2 m + 1 + e ->
  let n := Z.log2 m - 23 in exists r s, shr_fexp 24 128 m e loc_Exact = ({| shr_m := m / 2 ^ n; shr_r := r; shr_s := s |}, e + n) /\
  remainder_bits r s (m mod 2 ^ n) (2 ^ n).
Proof.
  intros Hm Hl He n. unfold shr_fexp. rewrite zdigits_log2, fexp_normal by lia. replace (Z.log2 m + 1 + e - 24 - e) with n by lia.
  cbn [shr_record_of_loc]. destruct n as [|p|p] eqn:En; [|cbn [shr]|lia].
  - exists false, false. cbn [shr]. rewrite Z.pow_0_r, Z.div_1_r, Z.add_0_r. split; [done|apply Z.mod_1_r].
  - rewrite iter_pos_nat. destruct (shr_iter (Pos.to_nat p) m ltac:(lia)) as (r & s & E & Hx). rewrite positive_nat_Z in *. exists r, s. by rewrite E.
Qed.
Lemma round_quotient q r s R d : 0 <= R < d -> remainder_bits r s R d ->
  let q' := round_nearest_even q (loc_of_shr_record {| shr_m := q; shr_r := r; shr_s := s |}) in
  (q' = q \/ q' = q + 1) /\ (R = 0 -> q' = q) /\ 2 * Z.abs (q' * d - (q * d + R)) <= d.
Proof. intros HR Hb. destruct r, s; cbn in *; try destruct (Z.even q); (split; [auto|]); (split; lia). Qed.
Lemma quotient_normal m : 0 < m -> 23 <= Z.log2 m -> normal (m / 2 ^ (Z.log2 m - 23)).
Proof.
  intros Hm Hl. pose proof (Z.log2_spec m Hm) as [H1 H2]. set (n := Z.log2 m - 23) in *. assert (0 < 2 ^ n) by lia.
  replace (Z.log2 m) with (23 + n) in H1 by lia. replace (Z.succ (Z.log2 m)) with (24 + n) in H2 by lia. rewrite Z.pow_add_r in H1, H2 by lia.
  split; [apply Z.div_le_lower_bound|apply Z.div_lt_upper_bound]; lia.
Qed.
Lemma normal_again m e : normal m -> -149 <= e -> shr_fexp 24 128 m e loc_Exact = ({| shr_m := m; shr_r := false; shr_s := false |}, e).
Proof.
  intros Hn He. pose proof (log2_normal m Hn) as Hl. destruct (shr_fexp_run m e) as (r & s & E & Hx); [destruct Hn; lia|lia|lia|]. rewrite E.
  rewrite Hl in *. change (23 - 23) with 0 in *. rewrite Z.pow_0_r, Z.div_1_r, Z.add_0_r. rewrite Z.mod_1_r in Hx. destruct r, s; cbn in Hx; done || lia.
Qed.
(** Rounding to the nearest number with 24 digits. *)
Lemma round_run m e : 0 < m -> 23 <= Z.log2 m -> let n := Z.log2 m - 23 in -149 <= e + n <= 103 ->
  exists p e', binary_round_aux 24 128 false m e loc_Exact = S754_finite false p e' /\ normal (Z.pos p) /\ (e' = e + n \/ e' = e + n + 1) /\
    (m mod 2 ^ n = 0 -> Z.pos p = m / 2 ^ n /\ e' = e + n) /\ 2 * Z.abs (Z.pos p * 2 ^ (e' - e) - m) <= 2 ^ n.
Proof.
  intros Hm Hl n He. destruct (shr_fexp_run m e Hm Hl ltac:(lia)) as (r & s & E & Hx). fold n in E, Hx. unfold binary_round_aux. rewrite E. cbn [shr_m].
  assert (H2n : 0 < 2 ^ n) by lia. pose proof (Z.mod_pos_bound m (2 ^ n) H2n) as HR. pose proof (Z.div_mod m (2 ^ n) ltac:(lia)) as Edm.
  destruct (round_quotient (m / 2 ^ n) r s _ _ HR Hx) as (Hq & Hq0 & Hacc). set (q' := round_nearest_even _ _) in *. clearbody q'.
  rewrite (Z.mul_comm (m / 2 ^ n)), <- Edm in Hacc.
  pose proof (quotient_normal m Hm Hl) as Hn. fold n in Hn. unfold normal in Hn.
  destruct (decide (q' = 2 ^ 24)) as [->|Hne].
  - destruct (shr_fexp_run (2 ^ 24) (e + n)) as (r' & s' & E' & _); [lia|done|change (Z.log2 (2 ^ 24)) with 24; lia|].
    rewrite E'. change (2 ^ 24 / 2 ^ (Z.log2 (2 ^ 24) - 23)) with 8388608. change (Z.log2 (2 ^ 24) - 23) with 1. cbn [shr_m].
    rewrite (proj2 (Z.leb_le _ _)) by lia. exists 8388608%positive, (e + n + 1). split; [done|]. split; [by split|]. split; [auto|].
    split; [intros H0; specialize (Hq0 H0); lia|]. replace (e + n + 1 - e) with (n + 1) by lia. rewrite Z.pow_add_r by lia. lia.
  - assert (Hn' : normal q') by (unfold normal; lia). rewrite normal_again by (done || lia). cbn [shr_m]. unfold normal in Hn'.
    destruct q' as [|p|p]; [lia| |lia]. rewrite (proj2 (Z.leb_le _ _)) by lia. exists p, (e + n). split; [done|]. split; [done|]. split; [auto|].
    split; [intros H0; split; [by apply Hq0|done]|]. by replace (e + n - e) with n by lia.
Qed.
(** ** The operations of the loop *)
Lemma iter_xO m d : Z.pos (Pos.iter xO m d) = Z.pos m * 2 ^ Z.pos d.
Proof.
  assert (Hn : forall n, Z.pos (Nat.iter n xO m) = Z.pos m * 2 ^ Z.of_nat n).
  { induction n as [|n IH]; [cbn; lia|]. change (Z.pos (Nat.iter (S n) xO m)) with (2 * Z.pos (Nat.iter n xO m)). rewrite IH, Nat2Z.inj_succ, Z.pow_succ_r by lia. lia. }
  rewrite <- (positive_nat_Z d), <- Hn. by rewrite Pos2Nat.inj_iter.
Qed.
(** Converting a number of 64 bits: a mantissa of 24 bits, exact for a number of 24 bits. *)
Lemma f32_from_run n : 0 < n < 2 ^ 64 -> exists p e, f32_from n = S754_finite false p e /\ normal (Z.pos p) /\ Z.log2 n - 23 <= e <= Z.log2 n - 22 /\
  (n < 2 ^ 24 -> e <= 0 /\ Z.pos p = n * 2 ^ (- e)) /\ (2 ^ 24 <= n -> 2 * Z.abs (Z.pos p * 2 ^ e - n) <= 2 ^ (Z.log2 n - 23)).
Proof.
  intros Hn. destruct n as [|m|m]; [lia| |lia]. assert (Hlog : 0 <= Z.log2 (Z.pos m) < 64).
  { split; [apply Z.log2_nonneg|]. apply Z.log2_lt_pow2; lia. }
  unfold f32_from. cbn [binary_normalize]. unfold binary_round, shl_align. rewrite digits_log2, fexp_normal by lia. rewrite Z.sub_0_r.
  set (l := Z.log2 (Z.pos m)) in *. replace (l + 1 + 0 - 24) with (l - 23) by lia. destruct (decide (l < 23)) as [Hlt|Hge].
  - destruct (l - 23) as [|d|d] eqn:Ed; [lia..|]. set (m' := Z.pos (Pos.iter xO m d)). assert (Em : m' = Z.pos m * 2 ^ Z.pos d) by apply iter_xO.
    assert (Hl' : Z.log2 m' = 23) by (rewrite Em, Z.log2_mul_pow2 by lia; fold l; lia). assert (Hpos : 0 < m') by done.
    destruct (round_run m' (Z.neg d) Hpos) as (p & e & E & Hp & _ & Hx & _); [lia|lia|]. rewrite Hl' in Hx. change (23 - 23) with 0 in Hx.
    destruct Hx as [Hp' ->]; [apply Z.mod_1_r|]. rewrite Z.pow_0_r, Z.div_1_r in Hp'. exists p, (Z.neg d + 0). rewrite E. split; [done|]. split; [done|]. split; [lia|].
    split; [intros _; split; [lia|]; by rewrite Hp', Em|]. intros Hbig. assert (24 <= l) by (apply Z.log2_le_pow2; lia). lia.
  - assert (E0 : match l - 23 with Z.neg d => (PosDef.Pos.iter xO m d, l - 23) | _ => (m, 0) end = (m, 0)) by (destruct (l - 23) as [|d|d] eqn:Ed; [done..|lia]).
    rewrite E0. destruct (round_run (Z.pos m) 0) as (p & e & E & Hp & He & Hx & Hacc); [lia|fold l; lia|fold l; lia|]. fold l in He, Hx, Hacc. rewrite E.
    exists p, e. split; [done|]. split; [done|]. split; [lia|]. rewrite Z.sub_0_r in Hacc. split; [|done]. intros Hs. assert (l = 23) as Hl23.
    { assert (l < 24) by (apply Z.log2_lt_pow2; lia). lia. }
    rewrite Hl23 in Hx. change (23 - 23) with 0 in Hx. destruct Hx as [Hp' ->]; [apply Z.mod_1_r|]. split; [lia|].
    rewrite Hp', Z.pow_0_r, Z.div_1_r. change (2 ^ (- (0 + 0))) with 1. lia.
Qed.
Lemma f1024_value : f1024 = S754_finite false 8388608 (-13).
Proof. reflexivity. Qed.
(** Dividing by 1024 only lowers the exponent. *)
Lemma f32_div_run p e : normal (Z.pos p) -> -100 <= e <= 100 -> f32_div (S754_finite false p e) f1024 = S754_finite false p (e - 10).
Proof.
  intros Hp He. pose proof (log2_normal _ Hp) as Hl. rewrite f1024_value. unfold f32_div, SFdiv, SFdiv_core_binary.
  rewrite !zdigits_log2, Hl by lia. change (Z.log2 8388608) with 23. rewrite fexp_normal by lia.
  replace (Z.min _ _) with (e - 11) by lia. replace (e - -13 - (e - 11)) with 24 by lia. rewrite Z.shiftl_mul_pow2 by lia.
  replace (Z.pos p * 2 ^ 24) with (8388608 * (2 * Z.pos p) + 0) by lia. pose proof (Z_div_mod_eq_full (8388608 * (2 * Z.pos p) + 0) 8388608) as Hd.
  unfold Z.div, Z.modulo in Hd. assert (Hdiv : (8388608 * (2 * Z.pos p) + 0) / 8388608 = 2 * Z.pos p) by (rewrite Z.add_0_r, Z.mul_comm; by apply Z.div_mul).
  assert (Hmod : (8388608 * (2 * Z.pos p) + 0) mod 8388608 = 0) by (rewrite Z.add_0_r, Z.mul_comm; by apply Z.mod_mul).
  unfold Z.div in Hdiv. unfold Z.modulo in Hmod. destruct (Z.div_eucl _ _) as [q r]. subst q r. cbn [new_location Z.even new_location_even Z.eqb xorb].
  assert (Hl2 : Z.log2 (2 * Z.pos p) = 24) by (rewrite Z.log2_double by lia; lia).
  destruct (round_run (2 * Z.pos p) (e - 11)) as (p' & e' & E & _ & _ & Hx & _); [lia|lia|lia|]. rewrite Hl2 in Hx. change (24 - 23) with 1 in Hx.
  destruct Hx as [Hp' ->]; [rewrite Z.pow_1_r, Z.mul_comm; by apply Z.mod_mul|]. rewrite Z.pow_1_r, Z.mul_comm, Z.div_mul in Hp' by lia. injection Hp' as ->.
  change (new_location 8388608 0) with loc_Exact. rewrite E. f_equal. lia.
Qed.
Lemma compare_normal p : normal (Z.pos p) -> match Pos.compare_cont Eq 8388608 p with Gt => false | _ => true end = true.
Proof.
  intros [Hp _]. change (2 ^ 23) with 8388608 in Hp. generalize dependent 8388608%positive. intros b Hp.
  change (Pos.compare_cont Eq b p) with (b ?= p)%positive. destruct (b ?= p)%positive eqn:Ec; [reflexivity..|]. apply Pos.compare_gt_iff in Ec. lia.
Qed.
Lemma at_least_1024 p e : normal (Z.pos p) -> SFleb f1024 (S754_finite false p e) = (-13 <=? e).
Proof.
  intros Hp. rewrite f1024_value. unfold SFleb, SFcompare. destruct (Z.compare_spec (-13) e) as [<-|Hlt|Hgt].
  - pose proof (compare_normal p Hp) as Hc. by destruct (Pos.compare_cont Eq _ p).
  - symmetry. apply Z.leb_le. lia.
  - symmetry. apply Z.leb_gt. lia.
Qed.
Lemma humanize_run p more : normal (Z.pos p) -> forall e u, -60 <= e <= 100 -> exists k : nat, (k <= more)%nat /\
  humanize more (S754_finite false p e) u = (S754_finite false p (e - 10 * Z.of_nat k), (u + k)%nat) /\
  ((k < more)%nat -> e - 10 * Z.of_nat k < -13) /\ ((0 < k)%nat -> -23 <= e - 10 * Z.of_nat k).
Proof.
  intros Hp. induction more as [|more IH]; intros e u He; cbn [humanize].
  { exists 0%nat. split; [lia|]. split; [f_equal; [f_equal; lia|lia]|lia]. }
  rewrite at_least_1024 by done. destruct (Z.leb_spec (-13) e) as [Hge|Hlt].
  - rewrite f32_div_run by (done || lia). destruct (IH (e - 10) (S u) ltac:(lia)) as (k & Hk & E & H1 & H2). exists (S k). split; [lia|]. rewrite E.
    split; [f_equal; [f_equal; lia|lia]|]. split; [intros ?; specialize (H1 ltac:(lia)); lia|]. intros _. destruct k as [|k]; [lia|]. specialize (H2 ltac:(lia)). lia.
  - exists 0%nat. split; [lia|]. split; [f_equal; [f_equal; lia|lia]|lia].
Qed.
Lemma humanized_size_returns size : humanized_size size = Panic \/ exists r, humanized_size size = Ret r.
Proof. unfold humanized_size, humanized_size_impl. destruct (humanize _ _ _) as [b u]. cbn. destruct (UNITS !! u); [right; by eexists|by left]. Qed.
(** The first size that single precision rounds to one tebibyte. *)
Definition TOO_LARGE : Z := 2 ^ 40 - 2 ^ 15.
(** Exponents of sizes around a tebibyte: only the sizes from [TOO_LARGE] on are rounded up to it. *)
Lemma f32_from_tebibyte size p e : 0 < size < 2 ^ 64 -> f32_from size = S754_finite false p e -> normal (Z.pos p) -> Z.log2 size - 23 <= e <= Z.log2 size - 22 ->
  (2 ^ 24 <= size -> 2 * Z.abs (Z.pos p * 2 ^ e - size) <= 2 ^ (Z.log2 size - 23)) -> (e < 17 <-> size < TOO_LARGE).
Proof.
  intros Hs Ef Hp He Hacc. unfold TOO_LARGE in *. destruct (decide (size < 2 ^ 39)) as [H39|H39].
  { assert (Z.log2 size < 39) by (apply Z.log2_lt_pow2; lia). lia. }
  destruct (decide (2 ^ 40 <= size)) as [H40|H40].
  { assert (40 <= Z.log2 size) by (apply Z.log2_le_pow2; lia). lia. }
  assert (El : Z.log2 size = 39) by (apply Z.log2_unique; [lia|change (2 ^ Z.succ 39) with (2 ^ 40); lia]). rewrite El in *. specialize (Hacc ltac:(lia)).
  destruct (decide (size = 2 ^ 40 - 2 ^ 15)) as [->|Hne].
  { assert (Ec : f32_from (2 ^ 40 - 2 ^ 15) = S754_finite false 8388608 17) by (vm_compute; reflexivity). rewrite Ec in Ef. injection Ef as _ <-. lia. }
  unfold normal in Hp. change (2 ^ (39 - 23)) with (2 ^ 16) in Hacc. assert (e = 16 \/ e = 17) as [-> | ->] by lia; lia.
Qed.
Lemma humanized_size_run size short : 0 < size < 2 ^ 64 ->
  (TOO_LARGE <= size -> humanized_size_impl size short = Panic) /\
  (size < TOO_LARGE -> exists p e (u : nat) name, f32_from size = S754_finite false p e /\ (if short then SHORT_UNITS else UNITS) !! u = Some name /\
     humanized_size_impl size short = Ret (S754_finite false p (e - 10 * Z.of_nat u), name) /\
     normal (Z.pos p) /\ e - 10 * Z.of_nat u < -13 /\ ((0 < u)%nat -> -23 <= e - 10 * Z.of_nat u) /\
     (size < 2 ^ 24 -> e <= 0 /\ Z.pos p = size * 2 ^ (- e)) /\ (2 ^ 24 <= size -> 2 * Z.abs (Z.pos p * 2 ^ e - size) <= 2 ^ (Z.log2 size - 23))).
Proof.
  intros Hs. destruct (f32_from_run size Hs) as (p & e & E & Hp & He & Hx & Hacc). set (units := if short then SHORT_UNITS else UNITS).
  assert (Hu : length units = 4%nat) by by destruct short. assert (Hlog : 0 <= Z.log2 size < 64) by (split; [apply Z.log2_nonneg|apply Z.log2_lt_pow2; lia]).
  pose proof (f32_from_tebibyte size p e Hs E Hp He Hacc) as Ht.
  destruct (humanize_run p 4 Hp e 0%nat ltac:(lia)) as (k & Hk & Er & H1 & H2).
  unfold humanized_size_impl. fold units. rewrite E, Hu, Er. cbn [Nat.add]. split; intros Hsize.
  - assert (k = 4%nat) as -> by (destruct (decide (k < 4)%nat) as [Hlt|]; [specialize (H1 Hlt); lia|lia]).
    by rewrite (lookup_ge_None_2 units) by lia.
  - assert (k < 4)%nat by (destruct (decide (k < 4)%nat); [done|]; specialize (H2 ltac:(lia)); lia).
    destruct (lookup_lt_is_Some_2 units k) as [name Hn]; [lia|]. exists p, e, k, name. rewrite Hn. cbn [unwrap mbind outcome_bind]. split_and!; auto.
Qed.
Lemma humanized_size_small size : 0 <= size < 2 ^ 39 -> exists r, humanized_size size = Ret r.
Proof.
  intros Hs. destruct (decide (size = 0)) as [->|]; [by eexists; vm_compute|]. destruct (humanized_size_run size false ltac:(lia)) as [_ H].
  destruct (H ltac:(unfold TOO_LARGE; lia)) as (p & e & u & name & _ & _ & E & _). by eexists.
Qed.
(** C40: Sizes in units, for every size of 64 bits.  Zero is shown as zero bytes.  A size below 2^40 - 2^15 is shown in the largest unit that leaves at least one: it is first
    rounded to the nearest number of 24 bits (no rounding below 2^24), and the result has the same mantissa and an exponent lower by ten for each unit, and is between 1 (unless
    the unit is bytes) and 1024.  From 2^40 - 2^15 on, a little less than one tebibyte, the size is rounded to a tebibyte or more: there is no unit left, and the function panics. *)
Theorem humanized_size_units size short : 0 <= size < 2 ^ 64 ->
  (size = 0 -> humanized_size_impl size short = Ret (S754_zero false, [66])) /\
  (TOO_LARGE <= size -> humanized_size_impl size short = Panic) /\
  (0 < size < TOO_LARGE -> exists p e (u : nat) name, f32_from size = S754_finite false p e /\ (if short then SHORT_UNITS else UNITS) !! u = Some name /\
     humanized_size_impl size short = Ret (S754_finite false p (e - 10 * Z.of_nat u), name) /\
     normal (Z.pos p) /\ e - 10 * Z.of_nat u < -13 /\ ((0 < u)%nat -> -23 <= e - 10 * Z.of_nat u) /\
     (size < 2 ^ 24 -> e <= 0 /\ Z.pos p = size * 2 ^ (- e)) /\ (2 ^ 24 <= size -> 2 * Z.abs (Z.pos p * 2 ^ e - size) <= 2 ^ (Z.log2 size - 23))).
Proof.
  intros Hs. split; [intros ->; by destruct short|]. split.
  - intros Hl. apply humanized_size_run; [|done]. unfold TOO_LARGE in Hl. lia.
  - intros Hl. apply humanized_size_run; lia.
Qed.
(** [memory::init] prints the size of all memory: a machine with a terabyte does not start. *)
Example one_tebibyte_panics : humanized_size (2 ^ 40) = Panic.
Proof. vm_compute. reflexivity. Qed.
Lemma humanized_size_units_witness :
  (exists p e, humanized_size (3 * 2 ^ 20) = Ret (S754_finite false p (e - 20), [77; 105; 66]) /\ Z.pos p = 3 * 2 ^ 20 * 2 ^ (- e)) /\
  humanized_size (2 ^ 40 - 2 ^ 15) = Panic.
Proof.
  split.
  - destruct (humanized_size_units (3 * 2 ^ 20) false) as (_ & _ & Hs); [lia|].
    destruct Hs as (p & e & u & name & Ef & Hn & E & _ & _ & _ & Hx & _); [unfold TOO_LARGE; lia|].
    destruct (Hx ltac:(lia)) as [_ Hp]. assert (Ec : f32_from (3 * 2 ^ 20) = S754_finite false 12582912 (-2)) by (vm_compute; reflexivity).
    rewrite Ec in Ef. injection Ef as <- <-. exists 12582912%positive, (-2). split; [vm_compute; reflexivity|exact Hp].
  - apply (humanized_size_units (2 ^ 40 - 2 ^ 15) false); [lia|]. unfold TOO_LARGE. lia.
Defined.
