(* ===== verification/Config.v ===== *)
(** * The boot configuration

    Models [pkg/boot/src/config.rs]: the lines [key=value] of [boot.conf] update a
    default configuration.  The file also has what the parser uses of the standard
    library's functions on lines and slices. *)

From Stdlib Require Import Ascii String.
From stdpp Require Import base numbers list.
From S2P Require Import Prelude Bytes Str Num.

(** ** Strings *)

(** [s.lines()]: a line ends with a line feed, before which one carriage return is
    dropped; a last line without an end is kept as it is, unless it is empty. *)
Definition strip_cr (s : str) : str :=
  match last s with Some 13 => take (pred (List.length s)) s | _ => s end.
Fixpoint lines_of (ps : list str) : list str :=
  match ps with
  | [] => []
  | [p] => match p with [] => [] | _ => [p] end
  | p :: ps => strip_cr p :: lines_of ps
  end.
Definition lines (s : str) : list str := lines_of (split_on 10 s).

(** [s.split_once(c)] *)
Fixpoint split_once (c : Z) (s : str) : option (str * str) :=
  match s with
  | [] => None
  | x :: s => if x =? c then Some ([], s) else '(k, v) ← split_once c s; Some (x :: k, v)
  end.

(** [&s[2..]]: panics when byte 2 is inside a character. *)
Definition from_byte2 (s : str) : outcome str :=
  match s with
  | c :: s1 =>
      if len_utf8 c =? 2 then Ret s1
      else match s1 with
           | c2 :: s2 => if (len_utf8 c =? 1) && (len_utf8 c2 =? 1) then Ret s2 else Panic
           | [] => Panic
           end
  | [] => Panic
  end.

(** ** The configuration *)
Record Config : Type := mkConfig {
  kernel_stack_address : Z;
  kernel_stack_auto_grow : Z;
  kernel_stack_size : Z;
  physical_memory_offset : Z;
  kernel_path : str;
  cmdline : str;
  load_apps : bool;
  log_level : str;
}.
Definition DEFAULT_CONFIG : Config := {|
  kernel_stack_address := 0xFFFFFF0100000000;
  kernel_stack_auto_grow := 0;
  kernel_stack_size := 512;
  physical_memory_offset := 0xFFFF800000000000;
  kernel_path := chars "\KERNEL.ELF";
  cmdline := chars "";
  load_apps := false;
  log_level := chars "Info";
|}.

(** The [match] on the key. *)
Definition assign (key value : str) (r10 r16 : Z) (c : Config) : Config :=
  let '(mkConfig a g s p k l b o) := c in
  if decide (key = chars "kernel_stack_address") then mkConfig r16 g s p k l b o
  else if decide (key = chars "kernel_stack_size") then mkConfig a g r16 p k l b o
  else if decide (key = chars "physical_memory_offset") then mkConfig a g s r16 k l b o
  else if decide (key = chars "kernel_path") then mkConfig a g s p value l b o
  else if decide (key = chars "kernel_stack_auto_grow") then mkConfig a r10 s p k l b o
  else if decide (key = chars "cmdline") then mkConfig a g s p k value b o
  else if decide (key = chars "load_apps") then mkConfig a g s p k l (negb (r10 =? 0)) o
  else if decide (key = chars "log_level") then mkConfig a g s p k l b value
  else c.
Definition process (key value : str) (c : Config) : outcome Config :=
  let r10 := default 0 (from_str_radix 10 value) in
  r16 ← (if 2 <? str_len value then
           v ← from_byte2 value; Ret (default 0 (from_str_radix 16 v))
         else Ret 0);
  Ret (assign key value r10 r16 c).

Definition parse_line (line : str) (c : Config) : outcome Config :=
  let line := trim line in
  match line with
  | [] => Ret c
  | x :: _ =>
      if x =? 35 then Ret c
      else match split_once 61 line with
           | Some (key, value) => process key value c
           | None => Ret c
           end
  end.
Fixpoint parse_lines (ls : list str) (c : Config) : outcome Config :=
  match ls with
  | [] => Ret c
  | l :: ls => c ← parse_line l c; parse_lines ls c
  end.
Definition parse (content : bytes) : outcome Config :=
  s ← unwrap (from_utf8 content);
  parse_lines (lines s) DEFAULT_CONFIG.

(** ** Writing a configuration *)
Definition hex (n : Z) : str := chars "0x" ++ digits 64 16 n [].
Definition entry (key : str) (value : str) : str := key ++ 61 :: value.
(** A file that holds [c], one key per line. *)
Definition render (c : Config) : list str :=
  [entry (chars "kernel_stack_address") (hex (kernel_stack_address c));
   entry (chars "kernel_stack_auto_grow") (decimal (kernel_stack_auto_grow c));
   entry (chars "kernel_stack_size") (hex (kernel_stack_size c));
   entry (chars "physical_memory_offset") (hex (physical_memory_offset c));
   entry (chars "kernel_path") (kernel_path c);
   entry (chars "cmdline") (cmdline c);
   entry (chars "load_apps") (decimal (if load_apps c then 1 else 0));
   entry (chars "log_level") (log_level c)].
Definition to_file (ls : list str) : str := ls ≫= (fun l => l ++ [10]).

(** ** Lines *)
(** What can stand in a value: ASCII, on one line, and without white space at the end. *)
Definition solid (s : str) : Prop := forall c, last s = Some c -> is_whitespace c = false.
Definition clean (s : str) : Prop := ascii s /\ (10 ∉ s) /\ solid s.

Lemma trim_end_solid s : solid s -> trim_end s = s.
Proof.
  intros Hs. destruct s as [|c s _] using rev_ind; [done|]. specialize (Hs c (last_snoc _ _)).
  assert (E : trim_end [c] = [c]) by (cbn; by rewrite Hs).
  clear Hs. induction s as [|x s IH]; [done|]. cbn [app trim_end] in *. rewrite IH. by destruct s.
Qed.
Lemma trim_line x s : is_whitespace x = false -> solid (x :: s) -> trim (x :: s) = x :: s.
Proof. intros Hx Hs. unfold trim. cbn [trim_start]. rewrite Hx. by apply trim_end_solid. Qed.
Lemma split_once_entry key v : 61 ∉ key -> split_once 61 (entry key v) = Some (key, v).
Proof.
  unfold entry. induction key as [|x key IH]; intros Hk; [done|]. apply not_elem_of_cons in Hk as [Hx Hk].
  cbn [app split_once]. rewrite (proj2 (Z.eqb_neq x 61)) by done. by rewrite IH.
Qed.
Lemma split_on_line l s : 10 ∉ l -> split_on 10 (l ++ 10 :: s) = l :: split_on 10 s.
Proof.
  induction l as [|x l IH]; intros Hl; [done|]. apply not_elem_of_cons in Hl as [Hx Hl].
  cbn [app split_on]. rewrite (proj2 (Z.eqb_neq x 10)) by done. by rewrite IH.
Qed.
Lemma lines_file ls : Forall (fun l => (10 ∉ l) /\ solid l) ls -> lines (to_file ls) = ls.
Proof.
  unfold lines, to_file. induction 1 as [|l ls [Hl Hs] _ IH]; [done|]. rewrite bind_cons, <- app_assoc. cbn [app].
  rewrite split_on_line by done. assert (Ec : strip_cr l = l).
  { unfold strip_cr. destruct (last l) as [c|] eqn:E; [|done]. specialize (Hs c E).
    destruct c as [|p|p]; try done. do 4 (destruct p as [p|p|]; try done). }
  destruct (split_on 10 (ls ≫= (fun l => l ++ [10]))) as [|p ps] eqn:Ep.
  - exfalso. by destruct (ls ≫= (fun l => l ++ [10])) as [|y z]; cbn in Ep; [|destruct (y =? 10); [|destruct (split_on 10 z)]].
  - cbn [lines_of] in IH |- *. rewrite Ec. f_equal. exact IH.
Qed.

(** ** Entries *)
Definition r16_of (v : str) : Z := if 2 <? zlen v then default 0 (from_str_radix 16 (drop 2 v)) else 0.
Lemma process_ascii key v c : ascii v ->
  process key v c = Ret (assign key v (default 0 (from_str_radix 10 v)) (r16_of v) c).
Proof.
  intros Hv. unfold process, r16_of. rewrite str_len_ascii by done. destruct (Z.ltb_spec 2 (zlen v)) as [Hl|Hl]; [|done].
  destruct v as [|x [|y v]]; try (cbv in Hl; discriminate). inversion Hv as [|? ? Hx Hv']; subst. inversion Hv' as [|? ? Hy _]; subst.
  unfold ascii_char in *. unfold from_byte2, len_utf8.
  by rewrite (proj2 (Z.ltb_lt x 128)), (proj2 (Z.ltb_lt y 128)) by lia.
Qed.
(** A key of the configuration: what the lines of [render] begin with. *)
Definition is_key (key : str) : bool :=
  match key with
  | [] => false
  | x :: _ => forallb (fun c => (97 <=? c) && (c <=? 122) || (c =? 95) || (48 <=? c) && (c <=? 57)) key && negb (x =? 35)
  end.
Lemma is_key_chars key : is_key key = true ->
  exists x k, key = x :: k /\ (x <> 35) /\ Forall (fun c => 48 <= c <= 122 /\ c <> 61) key.
Proof.
  destruct key as [|x k]; [done|]. intros [Ha Hx]%andb_true_iff. exists x, k. split; [done|]. split; [by intros ->|].
  apply Forall_forall. intros c Hc. rewrite forallb_forall in Ha. apply list_elem_of_In in Hc.
  specialize (Ha c Hc). rewrite !orb_true_iff, !andb_true_iff, !Z.leb_le, Z.eqb_eq in Ha. lia.
Qed.
Lemma entry_ascii key v : is_key key = true -> ascii v -> ascii (entry key v).
Proof.
  intros (x & k & -> & _ & Hk)%is_key_chars Hv. apply ascii_app. split.
  - eapply Forall_impl; [exact Hk|]. cbn. unfold ascii_char. lia.
  - constructor; [done|exact Hv].
Qed.
Lemma entry_solid key v : clean v -> solid (entry key v).
Proof.
  intros (_ & _ & Hs) c Hc. destruct v as [|y v _] using rev_ind.
  - unfold entry in Hc. rewrite last_snoc in Hc. by simplify_eq.
  - unfold entry in Hc. rewrite app_comm_cons, app_assoc, last_snoc in Hc. apply Hs. by rewrite last_snoc.
Qed.
Lemma entry_line key v : is_key key = true -> clean v -> (10 ∉ entry key v) /\ solid (entry key v).
Proof.
  intros (x & k & -> & _ & Hk)%is_key_chars Hv. split; [|by apply entry_solid]. destruct Hv as (_ & Hv & _).
  unfold entry. rewrite elem_of_app, (elem_of_cons v). intros [H|[H|H]]; [|lia|exact (Hv H)].
  rewrite Forall_forall in Hk. specialize (Hk _ H). lia.
Qed.
Lemma parse_entry key v c : is_key key = true -> clean v ->
  parse_line (entry key v) c = Ret (assign key v (default 0 (from_str_radix 10 v)) (r16_of v) c).
Proof.
  intros Hk Hv. rewrite <- process_ascii by apply Hv. pose proof (entry_solid key v Hv) as Hs.
  destruct (is_key_chars key Hk) as (x & k & -> & Hx & Hc). unfold parse_line.
  rewrite Forall_cons in Hc. destruct Hc as [Hx' Hc].
  assert (Et : trim (entry (x :: k) v) = entry (x :: k) v).
  { apply trim_line; [|exact Hs]. apply gt32_not_whitespace; [unfold ascii_char|]; lia. }
  rewrite Et, split_once_entry.
  - unfold entry at 1. cbn [app]. by rewrite (proj2 (Z.eqb_neq x 35)) by done.
  - rewrite elem_of_cons. intros [E|H]; [lia|]. rewrite Forall_forall in Hc. specialize (Hc _ H). lia.
Qed.
Lemma digits_clean pre radix n : ascii pre -> 10 ∉ pre -> radix = 10 \/ radix = 16 -> clean (pre ++ digits 64 radix n []).
Proof.
  intros Hp Hl Hr. pose proof (digits_chars radix 64 Hr n [] (Forall_nil_2 _)) as Hc.
  pose proof (digits_nonempty 63 radix n []) as Hne. revert Hc Hne. generalize (digits 64 radix n []) as s.
  intros s Hc Hne. repeat split.
  - apply ascii_app. split; [done|]. eapply Forall_impl; [exact Hc|]. unfold digit_char, ascii_char. cbn. lia.
  - rewrite elem_of_app. intros [H|H]; [done|]. rewrite Forall_forall in Hc. specialize (Hc _ H). unfold digit_char in Hc. lia.
  - intros c E. destruct s as [|y s _] using rev_ind; [done|]. rewrite app_assoc, last_snoc in E. injection E as <-.
    rewrite Forall_app, Forall_singleton in Hc. destruct Hc as [_ Hy]. unfold digit_char in Hy.
    apply gt32_not_whitespace; [unfold ascii_char|]; lia.
Qed.
Lemma decimal_clean n : clean (decimal n).
Proof. apply (digits_clean [] 10); [constructor|apply not_elem_of_nil|by left]. Qed.
Lemma hex_clean n : clean (hex n).
Proof.
  apply (digits_clean (chars "0x") 16); [by repeat constructor| |by right]. change (chars "0x") with [48; 120].
  rewrite !elem_of_cons, elem_of_nil. intros [?|[?|?]]; [lia|lia|done].
Qed.
Lemma hex_r16 n : 0 <= n < 2 ^ 64 -> r16_of (hex n) = n.
Proof.
  intros Hn. unfold r16_of, hex. pose proof (digits_nonempty 63 16 n []) as Hne.
  pose proof (radix_read 16 n ltac:(lia) Hn) as E. revert E Hne. generalize (digits 64 16 n []) as s. intros s E Hne.
  change (drop 2 (chars "0x" ++ s)) with (drop 0 s). rewrite drop_0, E. cbn [default].
  rewrite (proj2 (Z.ltb_lt 2 _)); [done|]. unfold zlen. destruct s as [|y s]; [done|]. cbn [List.length app chars]. lia.
Qed.
Lemma decimal_r10 n : 0 <= n < 2 ^ 64 -> default 0 (from_str_radix 10 (decimal n)) = n.
Proof. intros Hn. unfold decimal. by rewrite radix_read by lia. Qed.

(** ** Round trip *)
(** What can be written down: numbers of 64 bits and clean texts. *)
Definition writable (c : Config) : Prop :=
  Forall (fun n => 0 <= n < 2 ^ 64) [kernel_stack_address c; kernel_stack_auto_grow c; kernel_stack_size c; physical_memory_offset c] /\
  Forall clean [kernel_path c; cmdline c; log_level c].

Lemma render_lines c : writable c ->
  exists kvs, render c = map (fun kv => entry kv.1 kv.2) kvs /\ Forall (fun kv => is_key kv.1 = true /\ clean kv.2) kvs /\
  forall c0, foldl (fun d kv => assign kv.1 kv.2 (default 0 (from_str_radix 10 kv.2)) (r16_of kv.2) d) c0 kvs = c.
Proof.
  destruct c as [a g s p k l b o]. unfold writable. cbn. rewrite !Forall_cons. intros [(Ha & Hg & Hs & Hp & _) (Hk & Hl & Ho & _)].
  exists [(chars "kernel_stack_address", hex a); (chars "kernel_stack_auto_grow", decimal g); (chars "kernel_stack_size", hex s);
          (chars "physical_memory_offset", hex p); (chars "kernel_path", k); (chars "cmdline", l);
          (chars "load_apps", decimal (if b then 1 else 0)); (chars "log_level", o)].
  split; [done|]. split.
  { repeat (constructor; [split; [done|first [apply hex_clean | apply decimal_clean | done]]|]). constructor. }
  intros [? ? ? ? ? ? ? ?]. cbn [foldl fst snd]. rewrite !hex_r16, !decimal_r10 by (done || by destruct b).
  by destruct b.
Qed.
Lemma parse_entries kvs : Forall (fun kv => is_key kv.1 = true /\ clean kv.2) kvs -> forall c0,
  parse_lines (map (fun kv => entry kv.1 kv.2) kvs) c0 =
  Ret (foldl (fun d kv => assign kv.1 kv.2 (default 0 (from_str_radix 10 kv.2)) (r16_of kv.2) d) c0 kvs).
Proof.
  induction 1 as [|[key v] kvs [Hk Hv] _ IH]; intros c0; [done|]. cbn [map parse_lines fst snd foldl].
  rewrite parse_entry by done. apply IH.
Qed.

(** C36: A configuration whose numbers fit in 64 bits and whose texts are ASCII, on one line and
    without white space at the end is read back by [parse] from the file that holds its
    keys one per line, the addresses and the stack size in hexadecimal. *)
Theorem config_roundtrip (c : Config) : writable c -> parse (to_file (render c)) = Ret c.
Proof.
  intros Hc. destruct (render_lines c Hc) as (kvs & -> & Hk & Hf). unfold parse.
  rewrite from_utf8_ascii.
  - cbn [unwrap mbind outcome_bind]. rewrite lines_file; [by rewrite parse_entries, Hf|].
    apply Forall_map. eapply Forall_impl; [exact Hk|]. intros [key v] [H1 H2]. by apply entry_line.
  - unfold to_file. clear Hf. induction Hk as [|[key v] kvs [H1 H2] _ IH]; [constructor|]. cbn [map]. rewrite bind_cons.
    apply ascii_app. split; [|exact IH]. apply ascii_app. split; [apply entry_ascii; [done|apply H2]|by repeat constructor].
Qed.
Lemma config_roundtrip_witness : parse (to_file (render DEFAULT_CONFIG)) = Ret DEFAULT_CONFIG.
Proof.
  apply config_roundtrip. split; [by repeat constructor|].
  repeat constructor; try (intros c Hc; vm_compute in Hc; by simplify_eq); try (apply (bool_decide_unpack _); by vm_compute).
Defined.

(** What a file says about the other keys: without the prefix [0x], the first two digits of
    an address or of the stack size are dropped, and a text whose second byte is inside a
    character stops the boot loader. *)
Example decimal_size_misread :
  kernel_stack_size <$> parse (chars "kernel_stack_size=512") = Ret 2.
Proof. by vm_compute. Qed.
Example text_value_panics : parse (as_bytes (chars "cmdline=a" ++ [233; 98])) = Panic.
Proof. by vm_compute. Qed.
