(* ===== verification/Shell.v ===== *)
(** * The shell [app/sh]

    Models [pkg/app/sh/src/main.rs].  The shell only talks to the system, so a run of it is
    the list of its system calls with their answers, and the system is whatever gives the
    next answer from the calls made so far. *)

From Stdlib Require Import Ascii String.
From stdpp Require Import base numbers list.
From S2P Require Import Prelude Bytes Str Num.

(** The calls, each with its answer. *)
Inductive Call : Type :=
| Print (text : str) | ReadLine (line : str) | ListApp | ListDir (path : str) | OpenFile (path : str) (fd : Z)
| ReadFile (fd : Z) (buf : bytes) | CloseFile (fd : Z) | SpawnApp (path : str) (pid : Z) | Stat
| WaitPid (pid code : Z) | GetPid (pid : Z) | PrintInfo (pid : Z).
(** The answers; [line_typed] gives [None] when no line comes any more. *)
Record System : Type := {
  line_typed : list Call -> option str;
  opened : list Call -> str -> Z;
  contents : list Call -> Z -> bytes;
  spawned : list Call -> str -> Z;
  exit_code_of : list Call -> Z -> Z;
  own_pid : list Call -> Z;
}.

Section shell.
Context (sys : System).
Abbreviation Sh := (ST (list Call)).
Definition call (c : Call) : Sh unit := st_modify (fun tr => tr ++ [c]).
Definition print (text : str) : Sh unit := call (Print text).
Definition println (text : str) : Sh unit := call (Print (text ++ [10])).
Definition read_line : Sh str :=
  tr ← st_get;
  match line_typed sys tr with Some l => call (ReadLine l);; mret l | None => st_lift Timeout end.
Definition sys_open_file (path : str) : Sh Z := tr ← st_get; let fd := opened sys tr path in call (OpenFile path fd);; mret fd.
Definition sys_read (fd : Z) : Sh bytes := tr ← st_get; let b := contents sys tr fd in call (ReadFile fd b);; mret b.
Definition sys_spawn (path : str) : Sh Z := tr ← st_get; let pid := spawned sys tr path in call (SpawnApp path pid);; mret pid.
Definition sys_wait_pid (pid : Z) : Sh Z := tr ← st_get; let c := exit_code_of sys tr pid in call (WaitPid pid c);; mret c.
Definition sys_get_pid : Sh Z := tr ← st_get; let p := own_pid sys tr in call (GetPid p);; mret p.

(** A text between quotation marks. *)
Definition quoted (s : str) : str := 34 :: s ++ [34].
(** An [isize] in print. *)
Definition show_isize (n : Z) : str := if n <? 0 then 45 :: decimal (- n) else decimal n.
(** [path.rsplit('/')] begins with what follows the last slash. *)
Definition app_name (path : str) : str := default [] (last (split_on 47 path)).

(** The [match] on the first word, with the second where there is one; [true] when the loop breaks. *)
Definition run_command (op : str) (arg : option str) : Sh bool :=
  if decide (op = chars "help") then
    println (quoted (chars "la") ++ chars " to list all the apps");;
    println (quoted (chars "ls /path/to/your/dir ") ++ chars " to list all the files in directory");;
    println (quoted (chars "cat /path/to/your/dir ") ++ chars " to check the content of the file");;
    println (quoted (chars "run /path/to/your/app ") ++ chars " to run the app");;
    println (quoted (chars "ps") ++ chars " to list all the processes");;
    println (quoted (chars "info") ++ chars " to print current process info");;
    println (quoted (chars "exit") ++ chars " to exit the shell");;
    mret false
  else if decide (op = chars "la") then call ListApp;; mret false
  else if decide (op = chars "ls") then call (ListDir (default (chars "/") arg));; mret false
  else if decide (op = chars "cat") then
    fd ← sys_open_file (default [] arg);
    buf ← sys_read fd;
    println (default (chars "Failed to read file") (from_utf8 buf));;
    call (CloseFile fd);; mret false
  else if decide (op = chars "run") then
    path ← st_lift (unwrap arg);
    pid ← sys_spawn path;
    if pid =? 0 then println (chars "Failed to run app: " ++ app_name path);; mret false
    else
      call Stat;;
      code ← sys_wait_pid pid;
      println (app_name path ++ chars " exited with " ++ show_isize code);; mret false
  else if decide (op = chars "ps") then call Stat;; mret false
  else if decide (op = chars "exit") then println (chars "Goodbye!");; mret true
  else if decide (op = chars "info") then pid ← sys_get_pid; call (PrintInfo pid);; mret false
  else println (chars "Unknown command: " ++ op);; mret false.
Definition shell_round : Sh bool :=
  print (chars "[>] ");;
  binding ← read_line;
  let command := split_on 32 (trim binding) in
  op ← st_lift (unwrap (head command));
  run_command op (head (tail command)).
Fixpoint shell_loop (fuel : nat) : Sh Z :=
  match fuel with
  | O => st_lift Timeout
  | S fuel => stop ← shell_round; if (stop : bool) then mret 0 else shell_loop fuel
  end.
Definition main (fuel : nat) : Sh Z :=
  println (chars "Welcome to Smallorange's shell!");;
  println (chars "Enter " ++ quoted (chars "help") ++ chars " to check more information.");;
  shell_loop fuel.
End shell.

(** ** Sessions *)
(** What a session leaves behind: every file that was opened is read and closed at once, and
    every program that was started is waited for. *)
Definition plain (c : Call) : bool :=
  match c with OpenFile _ _ | ReadFile _ _ | CloseFile _ | SpawnApp _ _ | WaitPid _ _ => false | _ => true end.
Inductive tidy : list Call -> Prop :=
| tidy_nil : tidy []
| tidy_plain c tr : plain c = true -> tidy tr -> tidy (c :: tr)
| tidy_cat path fd buf text tr : tidy tr -> tidy (OpenFile path fd :: ReadFile fd buf :: Print text :: CloseFile fd :: tr)
| tidy_run path pid code tr : pid <> 0 -> tidy tr -> tidy (SpawnApp path pid :: Stat :: WaitPid pid code :: tr)
| tidy_failed path tr : tidy tr -> tidy (SpawnApp path 0 :: tr).
Lemma tidy_app a b : tidy a -> tidy b -> tidy (a ++ b).
Proof. induction 1; intros Hb; cbn [app]; [done|eauto using tidy_plain, tidy_cat, tidy_run, tidy_failed..]. Qed.
Definition lines_read (tr : list Call) : list str := omap (fun c => match c with ReadLine l => Some l | _ => None end) tr.
Lemma lines_read_app a b : lines_read (a ++ b) = lines_read a ++ lines_read b.
Proof. apply omap_app. Qed.

(** The first word of a line decides. *)
Definition words (l : str) : list str := split_on 32 (trim l).
Definition is_exit (l : str) : bool := bool_decide (head (words l) = Some (chars "exit")).
Definition is_bare_run (l : str) : bool := bool_decide (words l = [chars "run"]).

Section sessions.
Context (sys : System).
Lemma split_on_cons c s : exists p ps, split_on c s = p :: ps.
Proof.
  induction s as [|x s (p & ps & E)]; [by exists [], []|]. cbn [split_on]. rewrite E. destruct (x =? c); eauto.
Qed.
(** Adding a call to the end of the trace. *)
Lemma call_run {B} c (k : unit -> ST (list Call) B) tr : (call c ≫= k) tr = k tt (tr ++ [c]).
Proof. done. Qed.
Lemma read_line_run tr : read_line sys tr =
  match line_typed sys tr with Some l => Ret (l, tr ++ [ReadLine l]) | None => Timeout end.
Proof. unfold read_line, st_get, mbind, ST_bind. by destruct (line_typed sys tr). Qed.
Lemma open_run p tr : sys_open_file sys p tr = Ret (opened sys tr p, tr ++ [OpenFile p (opened sys tr p)]).
Proof. done. Qed.
Lemma read_run fd tr : sys_read sys fd tr = Ret (contents sys tr fd, tr ++ [ReadFile fd (contents sys tr fd)]).
Proof. done. Qed.
Lemma spawn_run p tr : sys_spawn sys p tr = Ret (spawned sys tr p, tr ++ [SpawnApp p (spawned sys tr p)]).
Proof. done. Qed.
Lemma wait_run p tr : sys_wait_pid sys p tr = Ret (exit_code_of sys tr p, tr ++ [WaitPid p (exit_code_of sys tr p)]).
Proof. done. Qed.
Lemma pid_run tr : sys_get_pid sys tr = Ret (own_pid sys tr, tr ++ [GetPid (own_pid sys tr)]).
Proof. done. Qed.
(** A command that is handled: it adds a tidy piece without a line to the trace. *)
Definition handled (stop : bool) (tr : list Call) (r : outcome (bool * list Call)) : Prop :=
  exists tr', r = Ret (stop, tr ++ tr') /\ tidy tr' /\ lines_read tr' = [].
Ltac step := first [rewrite call_run | rewrite (st_bind_run _ _ _ _ _ (open_run _ _)) | rewrite (st_bind_run _ _ _ _ _ (read_run _ _)) |
  rewrite (st_bind_run _ _ _ _ _ (spawn_run _ _)) | rewrite (st_bind_run _ _ _ _ _ (wait_run _ _)) | rewrite (st_bind_run _ _ _ _ _ (pid_run _))].
Ltac handle := repeat step; eexists; split; [unfold mret, ST_ret; rewrite <- ?app_assoc; cbn [app]; reflexivity|split; [eauto 20 using tidy_nil, tidy_plain, tidy_cat, tidy_run, tidy_failed|reflexivity]].
Ltac command E := match goal with |- context [decide (?op = ?w)] => destruct (decide (op = w)) as [E|E] end.
Lemma run_command_spec op arg tr : (op = chars "run" -> arg <> None) ->
  handled (bool_decide (op = chars "exit")) tr (run_command sys op arg tr).
Proof.
  intros Harg. unfold run_command, println. assert (Hx : forall w, op = w -> bool_decide (op = chars "exit") = bool_decide (w = chars "exit")) by (by intros w ->).
  command E; [rewrite (Hx _ E); handle|]. command E0; [rewrite (Hx _ E0); handle|]. command E1; [rewrite (Hx _ E1); handle|].
  command E2; [rewrite (Hx _ E2); handle|]. command E3.
  - rewrite (Hx _ E3). destruct arg as [path|]; [|by destruct (Harg E3)]. cbn [unwrap]. rewrite st_lift_bind.
    step.
    destruct (Z.eqb_spec (spawned sys tr path) 0) as [H0|H0]; [rewrite H0|]; handle.
  - command E4; [rewrite (Hx _ E4); handle|]. command E5; [rewrite (Hx _ E5); handle|]. rewrite (bool_decide_false _ E5). command E6; handle.
Qed.
(** One round: no line, or a line that stops the shell, crashes it, or is handled. *)
Lemma round_spec tr :
  match line_typed sys (tr ++ [Print (chars "[>] ")]) with
  | None => shell_round sys tr = Timeout
  | Some l =>
      if is_bare_run l then shell_round sys tr = Panic
      else exists tr', shell_round sys tr = Ret (is_exit l, tr ++ tr') /\ tidy tr' /\ lines_read tr' = [l]
  end.
Proof.
  unfold shell_round, print. rewrite call_run. pose proof (read_line_run (tr ++ [Print (chars "[>] ")])) as Er.
  destruct (line_typed sys (tr ++ [Print (chars "[>] ")])) as [l|]; [|unfold mbind, ST_bind; by rewrite Er]. rewrite (st_bind_run _ _ _ _ _ Er).
  unfold is_bare_run, is_exit, words. destruct (split_on_cons 32 (trim l)) as (op & args & ->). cbn [head tail unwrap]. rewrite st_lift_bind.
  case_bool_decide as Hb; [by injection Hb as -> ->|].
  destruct (run_command_spec op (head args) ((tr ++ [Print (chars "[>] ")]) ++ [ReadLine l])) as (tr' & -> & Ht & Hr).
  { intros -> Ha. apply Hb. by destruct args. }
  exists (Print (chars "[>] ") :: ReadLine l :: tr'). rewrite <- !app_assoc. split; [|split].
  - do 2 f_equal. apply bool_decide_ext. split; [by intros ->|by intros [= ->]].
  - by do 2 (apply tidy_plain; [done|]).
  - change (l :: lines_read tr' = [l]). by rewrite Hr.
Qed.

(** A line after which the shell goes on. *)
Definition quiet (l : str) : bool := negb (is_exit l) && negb (is_bare_run l).
(** The lines [ls] are typed, one after the other. *)
Context (ls : list str) (Htyped : forall tr, line_typed sys tr = ls !! length (lines_read tr)).

Lemma typed_at tr k : lines_read tr = take k ls -> (k <= length ls)%nat -> line_typed sys (tr ++ [Print (chars "[>] ")]) = ls !! k.
Proof.
  intros Hr Hk. rewrite Htyped, lines_read_app, Hr. cbn. rewrite app_nil_r, length_take. f_equal. lia.
Qed.
Lemma loop_quiet n : forall k tr fuel, lines_read tr = take k ls -> (k + n <= length ls)%nat ->
  Forall (fun l => quiet l = true) (take n (drop k ls)) -> exists tr',
  shell_loop sys (n + fuel) tr = shell_loop sys fuel (tr ++ tr') /\ tidy tr' /\ lines_read (tr ++ tr') = take (k + n) ls.
Proof.
  induction n as [|n IH]; intros k tr fuel Hr Hk Hq.
  - exists []. rewrite app_nil_r, Nat.add_0_r. split; [done|]. split; [constructor|done].
  - destruct (lookup_lt_is_Some_2 ls k) as [l El]; [lia|]. rewrite (drop_S ls l k El) in Hq. apply Forall_cons in Hq as [Hl Hq].
    unfold quiet in Hl. apply andb_true_iff in Hl as [Hx%negb_true_iff Hb%negb_true_iff].
    pose proof (round_spec tr) as Hs. rewrite (typed_at tr k Hr), El, Hb, Hx in Hs by lia. destruct Hs as (tr1 & E1 & T1 & R1).
    assert (Hr1 : lines_read (tr ++ tr1) = take (S k) ls) by (rewrite lines_read_app, Hr, R1; by rewrite (take_S_r ls k l)).
    destruct (IH (S k) (tr ++ tr1) fuel Hr1) as (tr2 & E2 & T2 & R2); [lia|done|].
    exists (tr1 ++ tr2). rewrite app_assoc. split; [|split; [by apply tidy_app|by rewrite R2, Nat.add_succ_r]].
    cbn [Nat.add shell_loop]. by rewrite (st_bind_run _ _ _ _ _ E1).
Qed.

(** C33: What the shell does with what is typed.  Given any answers of the system and any lines: it handles the lines in order up to
    the first whose first word is [exit], and then ends with code 0; a line that is [run] without a
    path crashes it; when the lines run out it goes on waiting.  Whatever it did, every file it opened it read once and closed,
    and every program it started it waited for, before the next prompt. *)
Theorem shell_session fuel : (length ls < fuel)%nat ->
  (forall i l, ls !! i = Some l -> Forall (fun l => quiet l = true) (take i ls) ->
     (is_exit l = true -> exists tr, main sys fuel [] = Ret (0, tr) /\ tidy tr /\ lines_read tr = take (S i) ls) /\
     (is_bare_run l = true -> main sys fuel [] = Panic)) /\
  (Forall (fun l => quiet l = true) ls -> main sys fuel [] = Timeout).
Proof.
  intros Hf. unfold main, println. rewrite !call_run. set (tr0 := (_ ++ [_]) ++ [_]).
  assert (H0 : tidy tr0 /\ lines_read tr0 = []) by (split; [by do 2 (apply tidy_plain; [done|]); constructor|done]). destruct H0 as [T0 R0].
  split.
  - intros i l El Hq. assert (Hi : (i < length ls)%nat) by (by apply lookup_lt_Some in El).
    destruct (loop_quiet i 0 tr0 (S (fuel - i - 1)) R0) as (tr1 & E1 & T1 & R1); [lia|done|].
    replace fuel with (i + S (fuel - i - 1))%nat by lia. rewrite E1. cbn [shell_loop].
    pose proof (round_spec (tr0 ++ tr1)) as Hs. rewrite (typed_at _ i R1), El in Hs by lia. split.
    + intros Hx. destruct (is_bare_run l) eqn:Hb.
      { unfold is_bare_run, is_exit in *. apply bool_decide_eq_true in Hb, Hx. by rewrite Hb in Hx. }
      destruct Hs as (tr2 & E2 & T2 & R2). rewrite Hx in E2. rewrite (st_bind_run _ _ _ _ _ E2). exists ((tr0 ++ tr1) ++ tr2).
      split; [done|]. split; [by apply tidy_app; [apply tidy_app|]|]. rewrite lines_read_app, R1, R2. cbn. by rewrite (take_S_r ls i l).
    + intros Hb. rewrite Hb in Hs. unfold mbind, ST_bind. by rewrite Hs.
  - intros Hq. destruct (loop_quiet (length ls) 0 tr0 (S (fuel - length ls - 1)) R0) as (tr1 & E1 & _ & R1); [lia| |].
    { cbn. by rewrite take_ge. }
    replace fuel with (length ls + S (fuel - length ls - 1))%nat by lia. rewrite E1. cbn [shell_loop].
    pose proof (round_spec (tr0 ++ tr1)) as Hs. rewrite (typed_at _ _ R1), lookup_ge_None_2 in Hs by lia. unfold mbind, ST_bind. by rewrite Hs.
Qed.
End sessions.

Definition demo_system (ls : list str) : System := {|
  line_typed tr := ls !! length (lines_read tr); opened _ _ := 3; contents _ _ := chars "hi" ++ replicate 1022 0;
  spawned _ p := if decide (p = chars "/APP/HELLO") then 4 else 0; exit_code_of _ _ := 233; own_pid _ := 2 |}.
Lemma shell_session_witness : exists tr,
  main (demo_system [chars "cat /a"; chars "run /APP/HELLO"; chars " exit "; chars "ps"]) 5 [] = Ret (0, tr) /\ tidy tr /\
  lines_read tr = [chars "cat /a"; chars "run /APP/HELLO"; chars " exit "].
Proof.
  set (ls := [chars "cat /a"; chars "run /APP/HELLO"; chars " exit "; chars "ps"]).
  destruct (shell_session (demo_system ls) ls ltac:(done) 5 ltac:(cbn; lia)) as [H _].
  apply (proj1 (H 2%nat (chars " exit ") eq_refl ltac:(repeat constructor))). reflexivity.
Defined.
