(* ===== verification/Ata.v ===== *)
(** * The ATA driver

    Models [pkg/kernel/src/drivers/ata/{bus,consts,mod}.rs]: a bus is driven by
    reading and writing its ports ([x86_64::instructions::port], a class parameter),
    in the PIO protocol with polling.  The hardware is a parameter too: [AtaHardware]
    says how the ports of a bus behave, after the documents the driver cites. *)

From stdpp Require Import base numbers list.
From S2P Require Import Prelude Bytes Str Device.

(** ** Flags and commands ([consts.rs]) *)
Module AtaStatus.
Definition BUSY : Z := 0x80.
Definition DRIVE_READY : Z := 0x40.
Definition DATA_REQUEST_READY : Z := 0x08.
Definition ERROR : Z := 0x01.
(** All eight bits have names. *)
Definition from_bits_truncate (bits : Z) : Z := Z.land bits 0xFF.
Definition contains (s flag : Z) : bool := Z.land s flag =? flag.
Definition intersects (s flag : Z) : bool := negb (Z.land s flag =? 0).
Definition is_empty (s : Z) : bool := s =? 0.
End AtaStatus.

Inductive AtaCommand : Type :=
| ReadPio | ReadPioExt | ReadDma | ReadDmaExt | WritePio | WritePioExt | WriteDma | WriteDmaExt
| CacheFlush | CacheFlushExt | Packet | IdentifyPacket | IdentifyDevice.
Definition command_code (c : AtaCommand) : Z :=
  match c with
  | ReadPio => 0x20 | ReadPioExt => 0x24 | ReadDma => 0xC8 | ReadDmaExt => 0x25
  | WritePio => 0x30 | WritePioExt => 0x34 | WriteDma => 0xCA | WriteDmaExt => 0x35
  | CacheFlush => 0xE7 | CacheFlushExt => 0xEA
  | Packet => 0xA0 | IdentifyPacket => 0xA1 | IdentifyDevice => 0xEC
  end.

Inductive AtaDeviceType : Type :=
| Pata (res : list Z) | PataPi | Sata | SataPi | NoDevice.

(** ** The bus ([bus.rs]) *)

(** Port input and output: each access gives the next state of the hardware. *)
Class PortIO (H : Type) : Type := {
  in8 : Z -> H -> Z * H;
  out8 : Z -> Z -> H -> H;
  in16 : Z -> H -> Z * H;
  out16 : Z -> Z -> H -> H;
}.

Module AtaBus.
(** A port is its number. *)
Record t : Type := {
  id : Z; irq : Z; io_base : Z; ctrl_base : Z;
  data_port : Z; error_port : Z; features_port : Z; sector_count_port : Z;
  lba_low_port : Z; lba_mid_port : Z; lba_high_port : Z; drive_port : Z;
  status_port : Z; command_port : Z;
  alternate_status_port : Z; control_port : Z; drive_blockess_port : Z;
}.

Definition new (id irq io_base ctrl_base : Z) : t := {|
  id := id; irq := irq; io_base := io_base; ctrl_base := ctrl_base;
  data_port := io_base; error_port := u16 (io_base + 1); features_port := u16 (io_base + 1);
  sector_count_port := u16 (io_base + 2); lba_low_port := u16 (io_base + 3);
  lba_mid_port := u16 (io_base + 4); lba_high_port := u16 (io_base + 5); drive_port := u16 (io_base + 6);
  status_port := u16 (io_base + 7); command_port := u16 (io_base + 7);
  alternate_status_port := ctrl_base; control_port := ctrl_base; drive_blockess_port := u16 (ctrl_base + 1) |}.

Section driver.
(** [warn_on]: the arguments of [warn!] are evaluated when the level is enabled.
    [fuel]: how often a poll loop may go round. *)
Context {H : Type} {IO : PortIO H} (warn_on : bool) (fuel : nat).
Variable b : t.

Definition read8 (port : Z) : ST H Z := fun h => Ret (in8 port h).
Definition write8 (port v : Z) : ST H unit := fun h => Ret (tt, out8 port v h).
Definition read_data : ST H Z := fun h => Ret (in16 (data_port b) h).
Definition write_data (v : Z) : ST H unit := fun h => Ret (tt, out16 (data_port b) v h).
Definition cylinder_low : ST H Z := read8 (lba_mid_port b).
Definition cylinder_high : ST H Z := read8 (lba_high_port b).

Definition status : ST H Z :=
  _ ← read8 (alternate_status_port b); _ ← read8 (alternate_status_port b);
  _ ← read8 (alternate_status_port b); _ ← read8 (alternate_status_port b);
  v ← read8 (status_port b);
  mret (AtaStatus.from_bits_truncate v).
Definition error : ST H Z := v ← read8 (error_port b); mret (Z.land v 0xFF).
Definition is_error : ST H bool := s ← status; mret (AtaStatus.contains s AtaStatus.ERROR).
Definition debug : ST H unit :=
  if warn_on then _ ← error; _ ← status; mret tt else mret tt.

Fixpoint poll_loop (n : nat) (bit : Z) (val : bool) (s : Z) : ST H unit :=
  if Bool.eqb (AtaStatus.intersects s bit) val then mret tt else
  match n with
  | O => st_lift Timeout
  | S n =>
      (if AtaStatus.contains s AtaStatus.ERROR then debug else mret tt);;
      s ← status; poll_loop n bit val s
  end.
Definition poll (bit : Z) (val : bool) : ST H unit := s ← status; poll_loop fuel bit val s.

Definition write_command (drive block : Z) (cmd : AtaCommand) : ST H (result unit FsError) :=
  let bytes := le_bytes 4 block in
  let byte i := default 0 (bytes !! i) in
  write8 (sector_count_port b) 1;;
  write8 (lba_low_port b) (byte 0%nat);;
  write8 (lba_mid_port b) (byte 1%nat);;
  write8 (lba_high_port b) (byte 2%nat);;
  write8 (drive_port b) (Z.lor (Z.land (byte 3%nat) 0x0F) (Z.lor drive 0xE0));;
  write8 (command_port b) (command_code cmd);;
  s ← status;
  if AtaStatus.is_empty s then mret (Err (FsDeviceError UnknownDevice)) else
  poll AtaStatus.BUSY false;;
  e ← is_error;
  if (e : bool) then debug;; mret (Err (FsDeviceError DeviceInvalidOperation)) else
  poll AtaStatus.BUSY false;;
  poll AtaStatus.DATA_REQUEST_READY true;;
  mret (Ok tt).

Fixpoint read_words (n : nat) : ST H (list Z) :=
  match n with
  | O => mret []
  | S n => w ← read_data; ws ← read_words n; mret (w :: ws)
  end.

(** [.expect("")] on the command; the cylinder registers tell the kind of device. *)
Definition identify_drive (drive : Z) : ST H (result AtaDeviceType FsError) :=
  r ← write_command drive 0 IdentifyDevice;
  _ ← st_lift (unwrap_result r);
  s ← status;
  if AtaStatus.is_empty s then mret (Ok NoDevice) else
  poll AtaStatus.BUSY false;;
  e ← is_error;
  if (e : bool) then mret (Err (FsDeviceError UnknownDevice)) else
  lo ← cylinder_low; hi ← cylinder_high;
  if (lo =? 0x00) && (hi =? 0x00) then ws ← read_words 256; mret (Ok (Pata ws))
  else if (lo =? 0x14) && (hi =? 0xEB) then mret (Ok PataPi)
  else if (lo =? 0x3C) && (hi =? 0xC3) then mret (Ok Sata)
  else if (lo =? 0x69) && (hi =? 0x96) then mret (Ok SataPi)
  else mret (Ok NoDevice).

(** The loops over [buf.chunks_mut(2)] and [buf.chunks(2)]; a last chunk of one byte
    panics in [copy_from_slice] and in [try_into().unwrap()]. *)
Fixpoint read_chunks (buf : bytes) : ST H bytes :=
  match buf with
  | [] => mret []
  | [_] => _ ← read_data; st_panic
  | _ :: _ :: rest => d ← read_data; r ← read_chunks rest; mret (le_bytes 2 d ++ r)
  end.
Fixpoint write_chunks (buf : bytes) : ST H unit :=
  match buf with
  | [] => mret tt
  | [_] => st_panic
  | x :: y :: rest => write_data (le_num [x; y]);; write_chunks rest
  end.

(** The filled buffer is returned; the callers do not look at it after an error. *)
Definition read_pio (drive block : Z) (buf : bytes) : ST H (result bytes FsError) :=
  _ <-! write_command drive block ReadPio;;
  buf ← read_chunks buf;
  e ← is_error;
  if (e : bool) then debug;; mret (Err (FsDeviceError ReadError)) else mret (Ok buf).
Definition write_pio (drive block : Z) (buf : bytes) : ST H (result unit FsError) :=
  _ <-! write_command drive block WritePio;;
  write_chunks buf;;
  e ← is_error;
  if (e : bool) then debug;; mret (Err (FsDeviceError WriteError)) else mret (Ok tt).
End driver.
End AtaBus.

(** ** Drives ([mod.rs]) *)
Module AtaDrive.
Definition SERIAL : Z := 20.
Definition SERIAL_SIZE : Z := 20.
Definition MODEL : Z := 54.
Definition MODEL_SIZE : Z := 40.
Definition MAX_LBA : Z := 120.
Definition BUSES : list AtaBus.t := [AtaBus.new 0 14 0x1F0 0x3F6; AtaBus.new 1 15 0x170 0x376].

Record t : Type := { bus : Z; drive : Z; blocks : Z; model : str; serial : str }.

(** [u16::to_be_bytes], [u32::from_be_bytes], [rotate_left(16)]. *)
Definition be16 (w : Z) : bytes := reverse (le_bytes 2 w).
Definition from_be_bytes (l : bytes) : Z := le_num (reverse l).
Definition rotate_left16 (x : Z) : Z := Z.lor (u32 (Z.shiftl x 16)) (Z.shiftr x 16).

Section drive.
Context {H : Type} {IO : PortIO H} (warn_on : bool) (fuel : nat).

Definition open (bus drive : Z) : ST H (option t) :=
  b ← st_lift (index BUSES bus);
  r ← AtaBus.identify_drive warn_on fuel b drive;
  match r with
  | Ok (Pata res) =>
      let buf := res ≫= be16 in
      s ← st_lift (slice buf SERIAL (SERIAL + SERIAL_SIZE));
      m ← st_lift (slice buf MODEL (MODEL + MODEL_SIZE));
      l ← st_lift (slice buf MAX_LBA (MAX_LBA + 4));
      mret (Some {| bus := bus; drive := drive; blocks := rotate_left16 (from_be_bytes l);
                    model := trim (from_utf8_lossy m); serial := trim (from_utf8_lossy s) |})
  | _ => mret None
  end.

Definition block_count (d : t) : result Z FsError := Ok (blocks d).
(** [offset as u32] *)
Definition read_block (d : t) (offset : Z) (block : Block) : ST H (result Block FsError) :=
  b ← st_lift (index BUSES (bus d));
  AtaBus.read_pio warn_on fuel b (drive d) (u32 offset) block.
Definition write_block (d : t) (offset : Z) (block : Block) : ST H (result unit FsError) :=
  b ← st_lift (index BUSES (bus d));
  AtaBus.write_pio warn_on fuel b (drive d) (u32 offset) block.
End drive.
End AtaDrive.
