(* ===== verification/AtaDisk.v ===== *)
(** * The ATA driver and a disk

    What the ports of an ATA bus do, as a state machine per bus, and what the driver
    of [Ata] makes of it: the drive it gives to the file system behaves like a list of
    blocks. *)

From stdpp Require Import base numbers list.
From S2P Require Import Prelude Bytes Str Device Ata.

(** ** The device side of the protocol *)

(** A disk: its sectors and its answer to IDENTIFY DEVICE. *)
Record disk : Type := mkDisk { sectors : list Block; ident : list Z }.

(** A sector as the 16-bit words that go over the data port. *)
Fixpoint to_words (l : bytes) : list Z :=
  match l with x :: y :: l => le_num [x; y] :: to_words l | _ => [] end.
Definition of_words (ws : list Z) : bytes := ws ≫= le_bytes 2.

Inductive phase : Type :=
| Idle
| DataIn (ws : list Z)
| DataOut (slave : bool) (slot : nat) (ws : list Z).

(** [busy]: for how many reads of the status the device stays busy. *)
Record dev : Type := mkDev {
  disks : bool -> option disk;
  r_count : Z; r_low : Z; r_mid : Z; r_high : Z; r_dev : Z;
  ph : phase; busy : nat; err : bool;
}.
Definition set_count v d := mkDev (disks d) v (r_low d) (r_mid d) (r_high d) (r_dev d) (ph d) (busy d) (err d).
Definition set_low v d := mkDev (disks d) (r_count d) v (r_mid d) (r_high d) (r_dev d) (ph d) (busy d) (err d).
Definition set_mid v d := mkDev (disks d) (r_count d) (r_low d) v (r_high d) (r_dev d) (ph d) (busy d) (err d).
Definition set_high v d := mkDev (disks d) (r_count d) (r_low d) (r_mid d) v (r_dev d) (ph d) (busy d) (err d).
Definition set_dev v d := mkDev (disks d) (r_count d) (r_low d) (r_mid d) (r_high d) v (ph d) (busy d) (err d).
Definition set_busy n d := mkDev (disks d) (r_count d) (r_low d) (r_mid d) (r_high d) (r_dev d) (ph d) n (err d).
Definition set_ph p e d := mkDev (disks d) (r_count d) (r_low d) (r_mid d) (r_high d) (r_dev d) p (busy d) e.
Definition set_disk s x d :=
  mkDev (fun i => if Bool.eqb i s then x else disks d i) (r_count d) (r_low d) (r_mid d) (r_high d) (r_dev d) (ph d) (busy d) (err d).

Definition slave (d : dev) : bool := Z.testbit (r_dev d) 4.
Definition selected (d : dev) : option disk := disks d (slave d).
Definition lba (d : dev) : Z :=
  r_low d + 256 * r_mid d + 65536 * r_high d + 2 ^ 24 * Z.land (r_dev d) 0x0F.
Definition ready (d : dev) : Prop := ph d = Idle /\ busy d = 0%nat.
Definition wants_data (d : dev) : bool := match ph d with Idle => false | _ => true end.
(** [n] reads of the status. *)
Definition ticks (n : nat) (d : dev) : dev := set_busy (busy d - n) d.

(** A command for the selected drive; the device is busy for [k] reads. *)
Definition accept (cmd : Z) (k : nat) (d : dev) : dev :=
  match selected d with
  | None => d
  | Some dk =>
      set_busy k
        (if cmd =? 0x20 then
           match sectors dk !! Z.to_nat (lba d) with
           | Some s => set_ph (DataIn (to_words s)) false d
           | None => set_ph Idle true d
           end
         else if cmd =? 0x30 then
           match sectors dk !! Z.to_nat (lba d) with
           | Some s => set_ph (DataOut (slave d) (Z.to_nat (lba d)) []) false d
           | None => set_ph Idle true d
           end
         else if cmd =? 0xEC then set_ph (DataIn (ident dk)) false d
         else set_ph Idle true d)
  end.
(** The last word of a sector has arrived. *)
Definition commit (s : bool) (slot : nat) (ws : list Z) (k : nat) (d : dev) : dev :=
  set_busy k (set_ph Idle false
    (match disks d s with
     | Some dk => set_disk s (Some (mkDisk (<[slot := of_words ws]> (sectors dk)) (ident dk))) d
     | None => d
     end)).

(** What the status register may show; while [BUSY] is set the other bits mean nothing. *)
Definition status_ok (d : dev) (v : Z) : Prop :=
  byte_ok v /\
  match selected d with
  | None => v = 0
  | Some _ =>
      if decide (busy d = 0%nat)
      then v <> 0 /\ Z.testbit v 7 = false /\ Z.testbit v 3 = wants_data d /\ Z.testbit v 0 = err d
      else Z.testbit v 7 = true
  end.

(** How the ports of bus [b] behave.  [delay] bounds how long a command keeps the
    device busy and [settle] how long it is busy with a sector that it was sent,
    both counted in reads of the status. *)
Class AtaHardware {H : Type} {IO : PortIO H} (b : AtaBus.t) (delay settle : nat) (view : H -> dev) : Prop := {
  hw_count h v : ready (view h) -> view (out8 (AtaBus.sector_count_port b) v h) = set_count v (view h);
  hw_low h v : ready (view h) -> view (out8 (AtaBus.lba_low_port b) v h) = set_low v (view h);
  hw_mid h v : ready (view h) -> view (out8 (AtaBus.lba_mid_port b) v h) = set_mid v (view h);
  hw_high h v : ready (view h) -> view (out8 (AtaBus.lba_high_port b) v h) = set_high v (view h);
  hw_dev h v : ready (view h) -> view (out8 (AtaBus.drive_port b) v h) = set_dev v (view h);
  hw_command h c : ready (view h) -> r_count (view h) = 1 -> Z.testbit (r_dev (view h)) 6 = true ->
    exists k, (k <= delay)%nat /\ view (out8 (AtaBus.command_port b) c h) = accept c k (view h);
  hw_status h p : p = AtaBus.alternate_status_port b \/ p = AtaBus.status_port b ->
    view (in8 p h).2 = ticks 1 (view h) /\ status_ok (view h) (in8 p h).1;
  hw_error h : view (in8 (AtaBus.error_port b) h).2 = view h;
  hw_read_mid h : busy (view h) = 0%nat ->
    (in8 (AtaBus.lba_mid_port b) h).1 = r_mid (view h) /\ view (in8 (AtaBus.lba_mid_port b) h).2 = view h;
  hw_read_high h : busy (view h) = 0%nat ->
    (in8 (AtaBus.lba_high_port b) h).1 = r_high (view h) /\ view (in8 (AtaBus.lba_high_port b) h).2 = view h;
  hw_data_in h w ws : busy (view h) = 0%nat -> ph (view h) = DataIn (w :: ws) ->
    (in16 (AtaBus.data_port b) h).1 = w /\
    view (in16 (AtaBus.data_port b) h).2 = set_ph (if ws is [] then Idle else DataIn ws) (err (view h)) (view h);
  hw_data_out h s n ws w : busy (view h) = 0%nat -> ph (view h) = DataOut s n ws -> (length ws < 255)%nat ->
    view (out16 (AtaBus.data_port b) w h) = set_ph (DataOut s n (ws ++ [w])) (err (view h)) (view h);
  hw_data_last h s n ws w : busy (view h) = 0%nat -> ph (view h) = DataOut s n ws -> length ws = 255%nat ->
    exists k, (k <= settle)%nat /\ view (out16 (AtaBus.data_port b) w h) = commit s n (ws ++ [w]) k (view h);
}.

(** ** Bits *)
Lemma land_bit v k : 0 <= k -> Z.land v (2 ^ k) = if Z.testbit v k then 2 ^ k else 0.
Proof.
  intros Hk. apply Z.bits_inj'. intros n Hn. rewrite Z.land_spec, Z.pow2_bits_eqb by done.
  destruct (Z.eqb_spec k n) as [<-|Hne].
  - rewrite andb_true_r. destruct (Z.testbit v k); [by rewrite Z.pow2_bits_true|by rewrite Z.bits_0].
  - rewrite andb_false_r. destruct (Z.testbit v k); [by rewrite Z.pow2_bits_false|by rewrite Z.bits_0].
Qed.
Lemma intersects_bit v k : 0 <= k -> AtaStatus.intersects v (2 ^ k) = Z.testbit v k.
Proof.
  intros Hk. unfold AtaStatus.intersects. rewrite land_bit by done. destruct (Z.testbit v k); [|done].
  destruct (Z.eqb_spec (2 ^ k) 0) as [E|]; [|done]. pose proof (Z.pow_pos_nonneg 2 k). lia.
Qed.
Lemma contains_bit v k : 0 <= k -> AtaStatus.contains v (2 ^ k) = Z.testbit v k.
Proof.
  intros Hk. unfold AtaStatus.contains. rewrite land_bit by done. destruct (Z.testbit v k); [by rewrite Z.eqb_refl|].
  destruct (Z.eqb_spec 0 (2 ^ k)) as [E|]; [|done]. pose proof (Z.pow_pos_nonneg 2 k). lia.
Qed.
Lemma truncate_byte v : byte_ok v -> AtaStatus.from_bits_truncate v = v.
Proof. intros Hv. unfold AtaStatus.from_bits_truncate. change 0xFF with (Z.ones 8). rewrite Z.land_ones by lia. apply Z.mod_small. exact Hv. Qed.

(** ** Words and bytes *)
Lemma length_bind_const {A B} (f : A -> list B) n l : (forall x, x ∈ l -> length (f x) = n) -> length (l ≫= f) = (length l * n)%nat.
Proof.
  induction l as [|x l IH]; intros Hf; [done|]. rewrite bind_cons, length_app, (Hf x (list_elem_of_here _ _)), IH; [done|].
  intros y Hy. apply Hf. by apply list_elem_of_further.
Qed.
Lemma of_to_words n l : length l = (2 * n)%nat -> bytes_ok l -> of_words (to_words l) = l /\ length (to_words l) = n.
Proof.
  revert l. induction n as [|n IH]; intros l Hl Hb.
  - destruct l; [done|done].
  - destruct l as [|x [|y l]]; cbn in Hl; try lia. inversion Hb as [|? ? Hx Hb']; subst. inversion Hb' as [|? ? Hy Hb'']; subst.
    destruct (IH l ltac:(lia) Hb'') as [E1 E2]. cbn [to_words]. split; [|cbn [length]; lia].
    unfold of_words in *. rewrite bind_cons, E1.
    assert (bytes_ok [x; y]) as Hxy by (apply Forall_cons; split; [done|]; by apply Forall_singleton).
    pose proof (le_bytes_le_num [x; y] Hxy) as E. cbn [length] in E. by rewrite E.
Qed.

(** ** The driver against the hardware *)
Section proofs.
Context {H : Type} {IO : PortIO H} (warn_on : bool) (fuel : nat).
Context (b : AtaBus.t) (delay settle : nat) (view : H -> dev) {HW : AtaHardware b delay settle view}.

Lemma ticks_ticks n m d : ticks n (ticks m d) = ticks (m + n) d.
Proof. unfold ticks, set_busy. cbn. f_equal. lia. Qed.
Lemma ticks_0 n d : busy d = 0%nat -> ticks n d = d.
Proof. destruct d. cbn. intros ->. done. Qed.

(** Each read of the status, with the four reads that wait. *)
Lemma status_run h : exists v h', AtaBus.status b h = Ret (v, h') /\
  view h' = ticks 5 (view h) /\ status_ok (ticks 4 (view h)) v.
Proof.
  assert (Ha : forall g, view (in8 (AtaBus.alternate_status_port b) g).2 = ticks 1 (view g)) by (intros g; apply hw_status; auto).
  unfold AtaBus.status, AtaBus.read8, mbind, ST_bind.
  destruct (in8 _ h) as [v1 h1] eqn:E1. destruct (in8 _ h1) as [v2 h2] eqn:E2.
  destruct (in8 _ h2) as [v3 h3] eqn:E3. destruct (in8 _ h3) as [v4 h4] eqn:E4.
  pose proof (Ha h) as H1. pose proof (Ha h1) as H2. pose proof (Ha h2) as H3. pose proof (Ha h3) as H4.
  rewrite E1 in H1. rewrite E2 in H2. rewrite E3 in H3. rewrite E4 in H4. cbn in H1, H2, H3, H4.
  destruct (hw_status h4 (AtaBus.status_port b) ltac:(auto)) as [H5 Hv].
  destruct (in8 (AtaBus.status_port b) h4) as [v h'] eqn:E5. cbn in H5, Hv.
  assert (Hd : view h4 = ticks 4 (view h)) by (rewrite H4, H3, H2, H1, !ticks_ticks; done).
  rewrite Hd in *. exists v, h'. split; [|split; [by rewrite H5, ticks_ticks|done]].
  unfold mret, ST_ret. by rewrite truncate_byte by apply Hv.
Qed.
Lemma debug_run h : exists h' n, AtaBus.debug warn_on b h = Ret (tt, h') /\ view h' = ticks n (view h).
Proof.
  unfold AtaBus.debug. destruct warn_on; [|exists h, 0%nat; split; [done|]; unfold ticks; rewrite Nat.sub_0_r; by destruct (view h)].
  unfold AtaBus.error, AtaBus.read8. destruct (in8 (AtaBus.error_port b) h) as [v h1] eqn:E1.
  pose proof (hw_error h) as He. rewrite E1 in He. cbn in He.
  destruct (status_run h1) as (s & h2 & E2 & Hv & _). exists h2, 5%nat. rewrite Hv, He. split; [|done].
  unfold mbind, ST_bind. rewrite E1. cbn [mret ST_ret]. unfold mret, ST_ret. by rewrite E2.
Qed.

(** Polling ends once the device is ready. *)
Lemma poll_loop_run n : forall s d h, status_ok d s -> selected d <> None -> view h = ticks 1 d -> (busy d <= n)%nat ->
  exists h', AtaBus.poll_loop warn_on b n AtaStatus.BUSY false s h = Ret (tt, h') /\ view h' = set_busy 0 d.
Proof.
  induction n as [|n IH]; intros s d h [Hb Hs] Hsel Hv Hn;
    destruct (selected d) as [dk|] eqn:Esel; try done; cbn [AtaBus.poll_loop];
    change AtaStatus.BUSY with (2 ^ 7); rewrite intersects_bit by lia; case_decide as H0.
  - destruct Hs as (_ & -> & _). exists h. split; [done|]. rewrite Hv. unfold ticks. by rewrite H0.
  - lia.
  - destruct Hs as (_ & -> & _). exists h. split; [done|]. rewrite Hv. unfold ticks. by rewrite H0.
  - rewrite Hs. cbn [Bool.eqb].
    assert (exists h1 m, (if AtaStatus.contains s AtaStatus.ERROR then AtaBus.debug warn_on b else mret tt) h = Ret (tt, h1) /\
      view h1 = ticks m (view h)) as (h1 & m & E1 & Hv1).
    { destruct (AtaStatus.contains s AtaStatus.ERROR); [apply debug_run|]. exists h, 0%nat. split; [done|].
      unfold ticks. rewrite Nat.sub_0_r. by destruct (view h). }
    rewrite (st_bind_run _ _ _ _ _ E1). destruct (status_run h1) as (v & h2 & E2 & Hv2 & Hs2).
    rewrite (st_bind_run _ _ _ _ _ E2). rewrite Hv1, Hv, !ticks_ticks in Hs2. rewrite Hv1, Hv, !ticks_ticks in Hv2.
    destruct (IH v (ticks (1 + m + 4) d) h2 Hs2) as (h' & E' & Hv').
    + change (selected d <> None). by rewrite Esel.
    + rewrite Hv2, ticks_ticks. f_equal. lia.
    + cbn. lia.
    + exists h'. split; [done|]. rewrite Hv'. done.
Qed.
Lemma poll_busy_run h : selected (view h) <> None -> (busy (view h) <= fuel)%nat ->
  exists h', AtaBus.poll warn_on fuel b AtaStatus.BUSY false h = Ret (tt, h') /\ view h' = set_busy 0 (view h).
Proof.
  intros Hsel Hf. unfold AtaBus.poll. destruct (status_run h) as (v & h1 & E1 & Hv & Hs).
  rewrite (st_bind_run _ _ _ _ _ E1). destruct (poll_loop_run fuel v (ticks 4 (view h)) h1) as (h' & E & Hv');
    [done|done|by rewrite Hv, ticks_ticks|cbn; lia|]. exists h'. split; [done|]. rewrite Hv'. done.
Qed.
(** The status of a drive that has settled. *)
Lemma settled_status h dk : selected (view h) = Some dk -> (busy (view h) <= 4)%nat ->
  exists v h', AtaBus.status b h = Ret (v, h') /\ view h' = set_busy 0 (view h) /\ v <> 0 /\
    Z.testbit v 3 = wants_data (view h) /\ Z.testbit v 0 = err (view h).
Proof.
  intros Hsel Hb. destruct (status_run h) as (v & h' & E & Hv & _ & Hs). change (selected (ticks 4 (view h))) with (selected (view h)) in Hs. rewrite Hsel in Hs.
  rewrite decide_True in Hs by (cbn; lia). destruct Hs as (H1 & _ & H2 & H3).
  exists v, h'. split; [done|]. split; [|done]. rewrite Hv. unfold ticks. f_equal. lia.
Qed.
Lemma is_error_run h dk : selected (view h) = Some dk -> (busy (view h) <= 4)%nat ->
  exists h', AtaBus.is_error b h = Ret (err (view h), h') /\ view h' = set_busy 0 (view h).
Proof.
  intros Hsel Hb. destruct (settled_status h dk Hsel Hb) as (v & h' & E & Hv & _ & _ & He).
  exists h'. split; [|done]. unfold AtaBus.is_error. rewrite (st_bind_run _ _ _ _ _ E).
  change AtaStatus.ERROR with (2 ^ 0). by rewrite contains_bit, He by lia.
Qed.
(** While the device is busy the bit means nothing. *)
Lemma is_error_busy h : exists e h', AtaBus.is_error b h = Ret (e, h') /\ view h' = ticks 5 (view h).
Proof.
  destruct (status_run h) as (v & h' & E & Hv & _). exists (AtaStatus.contains v AtaStatus.ERROR), h'.
  split; [|done]. unfold AtaBus.is_error. by rewrite (st_bind_run _ _ _ _ _ E).
Qed.
Lemma poll_drq_run h dk : selected (view h) = Some dk -> busy (view h) = 0%nat -> wants_data (view h) = true ->
  exists h', AtaBus.poll warn_on fuel b AtaStatus.DATA_REQUEST_READY true h = Ret (tt, h') /\ view h' = view h.
Proof.
  intros Hsel Hb Hw. unfold AtaBus.poll. destruct (settled_status h dk Hsel ltac:(lia)) as (v & h' & E & Hv & _ & H3 & _).
  rewrite (st_bind_run _ _ _ _ _ E). exists h'. split.
  - change AtaStatus.DATA_REQUEST_READY with (2 ^ 3). destruct fuel; cbn [AtaBus.poll_loop];
      by rewrite intersects_bit, H3, Hw by lia.
  - rewrite Hv. destruct (view h). cbn in Hb. by subst.
Qed.

(** ** Commands *)

(** The registers that [write_command] fills. *)
Definition address (drive block : Z) (d : dev) : dev :=
  let byte i := default 0 (le_bytes 4 block !! i) in
  set_dev (Z.lor (Z.land (byte 3%nat) 0x0F) (Z.lor drive 0xE0))
    (set_high (byte 2%nat) (set_mid (byte 1%nat) (set_low (byte 0%nat) (set_count 1 d)))).
(** For both drive numbers the register selects the first drive. *)
Lemma address_slave drive block d : drive = 0 \/ drive = 1 -> slave (address drive block d) = false.
Proof.
  intros Hd. unfold slave, address. cbn [r_dev set_dev].
  rewrite !Z.lor_spec, Z.land_spec. change (Z.testbit 15 4) with false. rewrite andb_false_r. by destruct Hd as [->| ->].
Qed.
Lemma address_mode drive block d : Z.testbit (r_dev (address drive block d)) 6 = true.
Proof. unfold address. cbn [r_dev set_dev]. rewrite !Z.lor_spec. change (Z.testbit 0xE0 6) with true. by rewrite !orb_true_r. Qed.
Lemma address_lba drive block d : drive = 0 \/ drive = 1 -> 0 <= block < 2 ^ 32 ->
  lba (address drive block d) = block mod 2 ^ 24 + 2 ^ 24 * Z.lor (block / 2 ^ 24 mod 16) drive.
Proof.
  intros Hd Hb. unfold lba, address. cbn [r_low r_mid r_high r_dev set_dev set_high set_mid set_low set_count].
  cbn [le_bytes lookup list_lookup default]. unfold id. rewrite !Z.land_lor_distr_l.
  replace (Z.land drive 15) with drive by (by destruct Hd as [->| ->]). change (Z.land 0xE0 15) with 0.
  rewrite Z.lor_0_r, <- Z.land_assoc. change (Z.land 15 15) with (Z.ones 4). rewrite Z.land_ones by lia.
  change (2 ^ 4) with 16. rewrite !Z.div_div by lia.
  replace (block / (256 * 256 * 256) mod 256 mod 16) with (block / 2 ^ 24 mod 16) by zdiv.
  change (2 ^ 24) with (256 * (256 * 256)). rewrite !Z.rem_mul_r, Z.div_div by lia. lia.
Qed.

Lemma address_view drive block h : ready (view h) ->
  let byte i := default 0 (le_bytes 4 block !! i) in
  view (out8 (AtaBus.drive_port b) (Z.lor (Z.land (byte 3%nat) 0x0F) (Z.lor drive 0xE0))
    (out8 (AtaBus.lba_high_port b) (byte 2%nat) (out8 (AtaBus.lba_mid_port b) (byte 1%nat)
      (out8 (AtaBus.lba_low_port b) (byte 0%nat) (out8 (AtaBus.sector_count_port b) 1 h))))) =
  address drive block (view h).
Proof.
  intros Hr byte. assert (H1 := hw_count h 1 Hr). set (h1 := out8 _ 1 h) in *.
  assert (H2 := hw_low h1 (byte 0%nat) ltac:(by rewrite H1)). set (h2 := out8 _ _ h1) in *.
  assert (H3 := hw_mid h2 (byte 1%nat) ltac:(by rewrite H2, H1)). set (h3 := out8 _ _ h2) in *.
  assert (H4 := hw_high h3 (byte 2%nat) ltac:(by rewrite H3, H2, H1)). set (h4 := out8 _ _ h3) in *.
  rewrite hw_dev by (by rewrite H4, H3, H2, H1). by rewrite H4, H3, H2, H1.
Qed.

(** A drive that is there takes the command: it settles, with an error or ready for data. *)
Lemma accept_facts c k d dk : selected d = Some dk ->
  accept c k d = set_busy k (accept c 0 d) /\ selected (accept c 0 d) = Some dk /\
  set_busy 0 (accept c 0 d) = accept c 0 d /\ (err (accept c 0 d) = false -> wants_data (accept c 0 d) = true).
Proof.
  intros Hsel. unfold accept. rewrite Hsel.
  destruct (c =? 0x20); [by destruct (sectors dk !! _)|]. destruct (c =? 0x30); [by destruct (sectors dk !! _)|].
  by destruct (c =? 0xEC).
Qed.
(** A drive that is there never shows an empty status. *)
Lemma present_status h dk : selected (view h) = Some dk ->
  exists v h', AtaBus.status b h = Ret (v, h') /\ view h' = ticks 5 (view h) /\ AtaStatus.is_empty v = false.
Proof.
  intros Hsel. destruct (status_run h) as (v & h' & E & Hv & _ & Hs). exists v, h'. split; [done|]. split; [done|].
  change (selected (ticks 4 (view h))) with (selected (view h)) in Hs. rewrite Hsel in Hs.
  unfold AtaStatus.is_empty. destruct (Z.eqb_spec v 0) as [->|]; [|done]. case_decide; [by destruct Hs|done].
Qed.
(** From the command to the data. *)
Lemma settle_run h dk k d2 : view h = set_busy k d2 -> selected d2 = Some dk -> set_busy 0 d2 = d2 -> (k <= fuel)%nat ->
  (err d2 = false -> wants_data d2 = true) ->
  exists h', view h' = d2 /\
    (poll ← AtaBus.poll warn_on fuel b AtaStatus.BUSY false;
     e ← AtaBus.is_error b;
     if (e : bool) then AtaBus.debug warn_on b;; mret (Err (FsDeviceError DeviceInvalidOperation)) else
     AtaBus.poll warn_on fuel b AtaStatus.BUSY false;;
     AtaBus.poll warn_on fuel b AtaStatus.DATA_REQUEST_READY true;;
     mret (Ok tt)) h = Ret (if err d2 then Err (FsDeviceError DeviceInvalidOperation) else Ok tt, h').
Proof.
  intros Hv Hsel H0 Hk Hw.
  destruct (poll_busy_run h) as (h1 & E1 & Hv1); [by rewrite Hv; change (selected d2 <> None); rewrite Hsel|by rewrite Hv|].
  rewrite Hv in Hv1. change (set_busy 0 (set_busy k d2)) with (set_busy 0 d2) in Hv1. rewrite H0 in Hv1.
  assert (Hb : busy d2 = 0%nat) by (by rewrite <- H0).
  rewrite (st_bind_run _ _ _ _ _ E1).
  destruct (is_error_run h1 dk) as (h2 & E2 & Hv2); [by rewrite Hv1|rewrite Hv1; lia|].
  rewrite (st_bind_run _ _ _ _ _ E2). rewrite Hv1, H0 in Hv2. rewrite Hv1. destruct (err d2) eqn:He.
  - destruct (debug_run h2) as (h3 & n & E3 & Hv3). rewrite (st_bind_run _ _ _ _ _ E3). exists h3. split; [|done].
    rewrite Hv3, Hv2. by apply ticks_0.
  - destruct (poll_busy_run h2) as (h3 & E3 & Hv3); [by rewrite Hv2, Hsel|rewrite Hv2; lia|].
    rewrite (st_bind_run _ _ _ _ _ E3). rewrite Hv2, H0 in Hv3.
    destruct (poll_drq_run h3 dk) as (h4 & E4 & Hv4); [by rewrite Hv3|by rewrite Hv3|rewrite Hv3; auto|].
    rewrite (st_bind_run _ _ _ _ _ E4). exists h4. split; [congruence|done].
Qed.

Lemma write_command_run drive block cmd h : ready (view h) -> drive = 0 \/ drive = 1 -> (delay <= fuel)%nat ->
  let d2 := accept (command_code cmd) 0 (address drive block (view h)) in
  exists r h', AtaBus.write_command warn_on fuel b drive block cmd h = Ret (r, h') /\ view h' = d2 /\
    r = match disks (view h) false with
        | None => Err (FsDeviceError UnknownDevice)
        | Some _ => if err d2 then Err (FsDeviceError DeviceInvalidOperation) else Ok tt
        end.
Proof.
  intros Hr Hd Hf d2. unfold AtaBus.write_command. cbv zeta.
  do 5 (erewrite st_bind_run by reflexivity). pose proof (address_view drive block h Hr) as Hv1. cbv zeta in Hv1.
  set (h1 := out8 (AtaBus.drive_port b) _ _) in *.
  assert (Hr1 : ready (view h1)) by (by rewrite Hv1).
  destruct (hw_command h1 (command_code cmd) Hr1) as (k & Hk & Hv2); [by rewrite Hv1|rewrite Hv1; apply address_mode|].
  set (h2 := out8 (AtaBus.command_port b) (command_code cmd) h1) in *.
  erewrite st_bind_run by reflexivity. fold h2. rewrite Hv1 in Hv2.
  assert (Hsel : selected (address drive block (view h)) = disks (view h) false).
  { unfold selected. by rewrite address_slave. }
  destruct (disks (view h) false) as [dk|] eqn:Edk.
  - destruct (accept_facts (command_code cmd) k _ dk Hsel) as (E & Hsel2 & Hb2 & Hw2). fold d2 in E, Hsel2, Hb2, Hw2.
    rewrite E in Hv2. destruct (present_status h2 dk) as (v & h3 & E3 & Hv3 & Hne); [by rewrite Hv2|].
    rewrite (st_bind_run _ _ _ _ _ E3), Hne. rewrite Hv2 in Hv3.
    destruct (settle_run h3 dk (k - 5) d2) as (h4 & Hv4 & E4); [done|done|done|lia|done|].
    eexists _, h4. split; [exact E4|]. done.
  - destruct (status_run h2) as (v & h3 & E3 & Hv3 & _ & Hs). rewrite (st_bind_run _ _ _ _ _ E3).
    assert (Ha : view h2 = address drive block (view h)) by (rewrite Hv2; unfold accept; by rewrite Hsel).
    rewrite Ha in *. change (selected (ticks 4 (address drive block (view h)))) with (selected (address drive block (view h))) in Hs.
    rewrite Hsel in Hs. subst v. exists (Err (FsDeviceError UnknownDevice)), h3. split; [done|]. split; [|done].
    rewrite Hv3, ticks_0 by apply Hr. subst d2. unfold accept. by rewrite Hsel.
Qed.

(** ** Data *)
Definition in_phase (ws : list Z) : phase := if ws is [] then Idle else DataIn ws.
Lemma read_data_run h w ws : busy (view h) = 0%nat -> ph (view h) = DataIn (w :: ws) ->
  exists h', AtaBus.read_data b h = Ret (w, h') /\ view h' = set_ph (in_phase ws) (err (view h)) (view h).
Proof.
  intros Hb Hp. destruct (hw_data_in h w ws Hb Hp) as [E1 E2]. exists (in16 (AtaBus.data_port b) h).2. split; [|done].
  unfold AtaBus.read_data. rewrite <- E1. by destruct (in16 (AtaBus.data_port b) h).
Qed.
Lemma read_words_run ws : forall h, busy (view h) = 0%nat -> ph (view h) = in_phase ws ->
  exists h', AtaBus.read_words b (length ws) h = Ret (ws, h') /\ view h' = set_ph Idle (err (view h)) (view h).
Proof.
  induction ws as [|w ws IH]; intros h Hb Hp.
  - exists h. split; [done|]. cbn in Hp. destruct (view h). cbn in *. by subst.
  - destruct (read_data_run h w ws Hb Hp) as (h1 & E1 & Hv1).
    destruct (IH h1) as (h' & E' & Hv'); [by rewrite Hv1|by rewrite Hv1|]. exists h'. split.
    + cbn [length AtaBus.read_words]. by rewrite (st_bind_run _ _ _ _ _ E1), (st_bind_run _ _ _ _ _ E').
    + by rewrite Hv', Hv1.
Qed.
Lemma read_chunks_run ws : forall buf h, length buf = (2 * length ws)%nat -> busy (view h) = 0%nat -> ph (view h) = in_phase ws ->
  exists h', AtaBus.read_chunks b buf h = Ret (of_words ws, h') /\ view h' = set_ph Idle (err (view h)) (view h).
Proof.
  induction ws as [|w ws IH]; intros buf h Hl Hb Hp.
  - destruct buf; [|done]. exists h. split; [done|]. cbn in Hp. destruct (view h). cbn in *. by subst.
  - destruct buf as [|x [|y buf]]; cbn in Hl; try lia. destruct (read_data_run h w ws Hb Hp) as (h1 & E1 & Hv1).
    destruct (IH buf h1) as (h' & E' & Hv'); [lia|by rewrite Hv1|by rewrite Hv1|]. exists h'. split.
    + cbn [AtaBus.read_chunks]. by rewrite (st_bind_run _ _ _ _ _ E1), (st_bind_run _ _ _ _ _ E').
    + by rewrite Hv', Hv1.
Qed.
Lemma commit_ph s n ws k p e d : commit s n ws k (set_ph p e d) = commit s n ws k d.
Proof. unfold commit. cbn [disks set_ph]. by destruct (disks d s). Qed.
Lemma write_chunks_run m : forall ws buf h s n, length buf = (2 * S m)%nat -> (length ws + S m = 256)%nat ->
  busy (view h) = 0%nat -> ph (view h) = DataOut s n ws ->
  exists h' k, AtaBus.write_chunks b buf h = Ret (tt, h') /\ (k <= settle)%nat /\ view h' = commit s n (ws ++ to_words buf) k (view h).
Proof.
  induction m as [|m IH]; intros ws buf h s n Hl Hw Hb Hp; destruct buf as [|x [|y buf]]; cbn in Hl; try lia.
  - destruct buf; [|done]. destruct (hw_data_last h s n ws (le_num [x; y]) Hb Hp ltac:(lia)) as (k & Hk & Hv).
    eexists _, k. split; [reflexivity|]. split; [done|]. exact Hv.
  - pose proof (hw_data_out h s n ws (le_num [x; y]) Hb Hp ltac:(lia)) as Hv.
    cbn [AtaBus.write_chunks]. erewrite st_bind_run by reflexivity. set (h1 := out16 _ _ h) in *.
    destruct (IH (ws ++ [le_num [x; y]]) buf h1 s n) as (h' & k & E' & Hk & Hv'); [lia|rewrite length_app; cbn; lia|by rewrite Hv..|].
    exists h', k. split; [done|]. split; [done|]. rewrite Hv', Hv, commit_ph. cbn [to_words]. by rewrite <- app_assoc.
Qed.

(** ** Reading and writing a block *)
Definition slot_of (drive block : Z) : nat :=
  Z.to_nat (block mod 2 ^ 24 + 2 ^ 24 * Z.lor (block / 2 ^ 24 mod 16) drive).
Definition disk_ok (dk : disk) : Prop := Forall (block_ok 512) (sectors dk).

(** What [write_command] leaves of the registers. *)
Lemma command_run drive block cmd h dk : ready (view h) -> disks (view h) false = Some dk ->
  drive = 0 \/ drive = 1 -> 0 <= block < 2 ^ 32 -> (delay <= fuel)%nat ->
  exists d1 h1, busy d1 = 0%nat /\ disks d1 = disks (view h) /\ slave d1 = false /\ Z.to_nat (lba d1) = slot_of drive block /\
    r_mid d1 = block / 256 mod 256 /\ r_high d1 = block / 256 / 256 mod 256 /\
    view h1 = accept (command_code cmd) 0 d1 /\
    AtaBus.write_command warn_on fuel b drive block cmd h =
      Ret (if err (accept (command_code cmd) 0 d1) then Err (FsDeviceError DeviceInvalidOperation) else Ok tt, h1).
Proof.
  intros Hr Hdk Hd Hbl Hf.
  destruct (write_command_run drive block cmd h Hr Hd Hf) as (r & h1 & E1 & Hv1 & Hres). rewrite Hdk in Hres. subst r.
  exists (address drive block (view h)), h1. split; [apply Hr|]. split; [done|]. split; [by apply address_slave|].
  split; [by rewrite address_lba|]. done.
Qed.
Lemma read_pio_run drive block buf h dk : ready (view h) -> disks (view h) false = Some dk -> disk_ok dk ->
  drive = 0 \/ drive = 1 -> 0 <= block < 2 ^ 32 -> length buf = 512%nat -> (delay <= fuel)%nat ->
  exists h', AtaBus.read_pio warn_on fuel b drive block buf h =
      Ret (match sectors dk !! slot_of drive block with
           | Some s => Ok s | None => Err (FsDeviceError DeviceInvalidOperation) end, h') /\
    ready (view h') /\ disks (view h') = disks (view h).
Proof.
  intros Hr Hdk Hok Hd Hbl Hlen Hf.
  destruct (command_run drive block ReadPio h dk Hr Hdk Hd Hbl Hf) as (d1 & h1 & Hb1 & Hd1 & Hsl & Hslot & _ & _ & Hv1 & E1).
  assert (Hsel : selected d1 = Some dk) by (unfold selected; by rewrite Hsl, Hd1).
  revert Hv1 E1. unfold accept. rewrite Hsel. cbn [command_code]. change (0x20 =? 0x20) with true. cbv iota. rewrite Hslot.
  clear Hslot Hbl. generalize (slot_of drive block) as n. intros n. unfold AtaBus.read_pio.
  destruct (sectors dk !! n) as [sec|] eqn:Es; cbn [err set_busy set_ph]; intros Hv1 E1.
  - rewrite (st_try_ok _ _ _ _ _ E1). assert (Hsec : block_ok 512 sec) by (by eapply Forall_lookup_1 in Es).
    destruct Hsec as [Hl Hby]. destruct (of_to_words 256 sec Hl Hby) as [Eo El].
    destruct (read_chunks_run (to_words sec) buf h1) as (h2 & E2 & Hv2).
    { by rewrite El, Hlen. } { by rewrite Hv1. } { rewrite Hv1. cbn. by destruct (to_words sec). }
    rewrite (st_bind_run _ _ _ _ _ E2), Eo. rewrite Hv1 in Hv2.
    destruct (is_error_run h2 dk) as (h3 & E3 & Hv3); [by rewrite Hv2; exact Hsel|rewrite Hv2; cbn; lia|].
    rewrite (st_bind_run _ _ _ _ _ E3), Hv2. exists h3. split; [done|]. rewrite Hv3, Hv2. done.
  - rewrite (st_try_err _ _ _ _ _ E1). exists h1. split; [done|]. rewrite Hv1. done.
Qed.

(** The answer to a write: for a sector that is there the block is stored whatever the
    answer, and the answer is right when the device settles in time. *)
Definition write_reply (present : bool) (x : result unit FsError) : Prop :=
  if present then x = Ok tt \/ x = Err (FsDeviceError WriteError)
  else x = Err (FsDeviceError DeviceInvalidOperation).

Lemma write_pio_run drive block buf h dk : ready (view h) -> disks (view h) false = Some dk ->
  drive = 0 \/ drive = 1 -> 0 <= block < 2 ^ 32 -> block_ok 512 buf -> (delay <= fuel)%nat ->
  let present := bool_decide (is_Some (sectors dk !! slot_of drive block)) in
  exists x h', AtaBus.write_pio warn_on fuel b drive block buf h = Ret (x, h') /\ write_reply present x /\
    ph (view h') = Idle /\ disks (view h') false = Some (mkDisk (<[slot_of drive block := buf]> (sectors dk)) (ident dk)) /\
    disks (view h') true = disks (view h) true /\
    ((settle <= 4)%nat -> ready (view h') /\ (present = true -> x = Ok tt)).
Proof.
  intros Hr Hdk Hd Hbl [Hlen Hby] Hf.
  destruct (command_run drive block WritePio h dk Hr Hdk Hd Hbl Hf) as (d1 & h1 & Hb1 & Hd1 & Hsl & Hslot & _ & _ & Hv1 & E1).
  assert (Hsel : selected d1 = Some dk) by (unfold selected; by rewrite Hsl, Hd1).
  revert Hv1 E1. unfold accept. rewrite Hsel, Hsl. cbn [command_code]. change (0x30 =? 0x20) with false.
  change (0x30 =? 0x30) with true. cbv iota. rewrite Hslot.
  clear Hslot Hbl. generalize (slot_of drive block) as n. intros n. unfold AtaBus.write_pio. cbv zeta.
  destruct (sectors dk !! n) as [sec|] eqn:Es; cbn [err set_busy set_ph]; intros Hv1 E1.
  - rewrite bool_decide_true by done. cbn [write_reply].
    destruct (of_to_words 256 buf Hlen Hby) as [Eo _].
    destruct (write_chunks_run 255 [] buf h1 false n) as (h2 & k & E2 & Hk & Hv2);
      [done|done|by rewrite Hv1|by rewrite Hv1|].
    rewrite (st_try_ok _ _ _ _ _ E1), (st_bind_run _ _ _ _ _ E2).
    rewrite Hv1 in Hv2. unfold commit in Hv2. cbn [disks set_busy set_ph] in Hv2. rewrite Hd1, Hdk, app_nil_l, Eo in Hv2.
    set (dk' := mkDisk (<[n := buf]> (sectors dk)) (ident dk)) in *.
    assert (Hsel2 : selected (view h2) = Some dk') by (rewrite Hv2; unfold selected; change (slave _) with (slave d1); by rewrite Hsl).
    assert (Hd2 : disks (view h2) false = Some dk' /\ disks (view h2) true = disks (view h) true) by (rewrite Hv2; cbn; by rewrite Hd1).
    assert (Hp2 : ph (view h2) = Idle) by (by rewrite Hv2).
    destruct (decide (settle <= 4)%nat) as [Hs|Hs].
    + destruct (is_error_run h2 dk' Hsel2) as (h3 & E3 & Hv3); [rewrite Hv2; cbn; lia|].
      assert (He : err (view h2) = false) by (by rewrite Hv2). rewrite He in E3.
      exists (Ok tt), h3. rewrite (st_bind_run _ _ _ _ _ E3). unfold ready. rewrite Hv3. destruct Hd2.
      split; [done|]. split; [by left|]. done.
    + destruct (is_error_busy h2) as (e & h3 & E3 & Hv3). rewrite (st_bind_run _ _ _ _ _ E3). destruct e.
      * destruct (debug_run h3) as (h4 & m & E4 & Hv4). exists (Err (FsDeviceError WriteError)), h4.
        rewrite (st_bind_run _ _ _ _ _ E4). rewrite Hv4, Hv3. destruct Hd2.
        split; [done|]. split; [by right|]. done.
      * exists (Ok tt), h3. rewrite Hv3. destruct Hd2.
        split; [done|]. split; [by left|]. done.
  - rewrite bool_decide_false by (by intros [? ?]). rewrite (st_try_err _ _ _ _ _ E1). eexists _, h1. split; [done|].
    rewrite Hv1. split; [done|]. split; [done|]. split; [|cbn; by rewrite Hd1].
    cbn [disks set_busy set_ph]. rewrite Hd1, Hdk, list_insert_ge by (by apply lookup_ge_None_1). by destruct dk.
Qed.

(** ** Identification *)
Lemma identify_run drive h dk : ready (view h) -> disks (view h) false = Some dk -> length (ident dk) = 256%nat ->
  drive = 0 \/ drive = 1 -> (delay <= fuel)%nat ->
  exists h', AtaBus.identify_drive warn_on fuel b drive h = Ret (Ok (Pata (ident dk)), h') /\
    ready (view h') /\ disks (view h') = disks (view h).
Proof.
  intros Hr Hdk Hid Hd Hf. unfold AtaBus.identify_drive.
  destruct (command_run drive 0 IdentifyDevice h dk Hr Hdk Hd ltac:(lia) Hf) as
    (d1 & h1 & Hb1 & Hd1 & Hsl & _ & Hm & Hh & Hv1 & E1).
  assert (Hsel : selected d1 = Some dk) by (unfold selected; by rewrite Hsl, Hd1).
  assert (Ha : accept (command_code IdentifyDevice) 0 d1 = set_busy 0 (set_ph (DataIn (ident dk)) false d1))
    by (unfold accept; by rewrite Hsel).
  rewrite Ha in Hv1, E1. cbn [err set_busy set_ph] in E1. set (d2 := set_busy 0 (set_ph _ false d1)) in *.
  assert (Hsel2 : selected d2 = Some dk) by done.
  rewrite (st_bind_run _ _ _ _ _ E1). cbn [unwrap_result]. rewrite st_lift_bind.
  destruct (present_status h1 dk) as (v & h2 & E2 & Hv2 & Hne); [by rewrite Hv1|].
  rewrite (st_bind_run _ _ _ _ _ E2), Hne. rewrite Hv1, ticks_0 in Hv2 by done.
  destruct (poll_busy_run h2) as (h3 & E3 & Hv3); [by rewrite Hv2, Hsel2|rewrite Hv2; cbn; lia|].
  rewrite (st_bind_run _ _ _ _ _ E3). rewrite Hv2 in Hv3. change (set_busy 0 d2) with d2 in Hv3.
  destruct (is_error_run h3 dk) as (h4 & E4 & Hv4); [by rewrite Hv3|rewrite Hv3; cbn; lia|].
  rewrite (st_bind_run _ _ _ _ _ E4), Hv3. change (err d2) with false. rewrite Hv3 in Hv4. change (set_busy 0 d2) with d2 in Hv4.
  destruct (hw_read_mid h4 ltac:(by rewrite Hv4)) as [E5 Hv5]. unfold AtaBus.cylinder_low, AtaBus.read8.
  erewrite st_bind_run by (rewrite (surjective_pairing (in8 (AtaBus.lba_mid_port b) h4)); reflexivity).
  rewrite E5, Hv4. set (h5 := (in8 (AtaBus.lba_mid_port b) h4).2) in *. rewrite Hv4 in Hv5.
  destruct (hw_read_high h5 ltac:(by rewrite Hv5)) as [E6 Hv6]. unfold AtaBus.cylinder_high, AtaBus.read8.
  erewrite st_bind_run by (rewrite (surjective_pairing (in8 (AtaBus.lba_high_port b) h5)); reflexivity).
  rewrite E6, Hv5. set (h6 := (in8 (AtaBus.lba_high_port b) h5).2) in *. rewrite Hv5 in Hv6.
  change (r_mid d2) with (r_mid d1). change (r_high d2) with (r_high d1). rewrite Hm, Hh. cbn [Z.eqb andb].
  destruct (read_words_run (ident dk) h6) as (h' & E' & Hv'); [by rewrite Hv6| |].
  { rewrite Hv6. cbn. by destruct (ident dk). }
  rewrite Hid in E'. change ((0 / 256 mod 256 =? 0) && (0 / 256 / 256 mod 256 =? 0)) with true. cbv iota.
  rewrite (st_bind_run _ _ _ _ _ E'). exists h'. split; [done|].
  rewrite Hv', Hv6. split; [done|]. cbn. exact Hd1.
Qed.
Lemma identify_absent drive h : ready (view h) -> disks (view h) false = None -> drive = 0 \/ drive = 1 -> (delay <= fuel)%nat ->
  AtaBus.identify_drive warn_on fuel b drive h = Panic.
Proof.
  intros Hr Hdk Hd Hf. destruct (write_command_run drive 0 IdentifyDevice h Hr Hd Hf) as (r & h1 & E1 & _ & Hres).
  rewrite Hdk in Hres. subst r. unfold AtaBus.identify_drive. by rewrite (st_bind_run _ _ _ _ _ E1).
Qed.

(** The texts and the size in the words of the answer. *)
Lemma sub_words ws i n : sub_bytes (ws ≫= AtaDrive.be16) (2 * i) (2 * n) = sub_bytes ws i n ≫= AtaDrive.be16.
Proof.
  unfold sub_bytes. revert i n. induction ws as [|w ws IH]; intros i n.
  - change ([] ≫= AtaDrive.be16) with (@nil Z). by rewrite !drop_nil, !take_nil.
  - destruct i as [|i].
    + clear IH. revert n. rewrite !drop_0. generalize (w :: ws) as l. intros l n. revert n.
      induction l as [|x l IH]; intros n; [change ([] ≫= AtaDrive.be16) with (@nil Z); by rewrite !take_nil|]. destruct n as [|n]; [done|].
      replace (2 * S n)%nat with (S (S (2 * n))) by lia. cbn [take]. rewrite !bind_cons, <- IH. done.
    + replace (2 * S i)%nat with (S (S (2 * i))) by lia. rewrite bind_cons. cbn [drop]. apply IH.
Qed.
Lemma size_words x y : in_width 16 x -> in_width 16 y ->
  AtaDrive.rotate_left16 (AtaDrive.from_be_bytes (AtaDrive.be16 x ++ AtaDrive.be16 y)) = x + 65536 * y.
Proof.
  unfold in_width. intros Hx Hy. unfold AtaDrive.rotate_left16, AtaDrive.from_be_bytes, AtaDrive.be16.
  rewrite reverse_app, !reverse_involutive. cbn [le_bytes app le_num].
  replace (y mod 256 + 256 * (y / 256 mod 256 + 256 * (x mod 256 + 256 * (x / 256 mod 256 + 256 * 0))))
    with (y + x * 2 ^ 16) by zdiv.
  rewrite Z.shiftl_mul_pow2, Z.shiftr_div_pow2, Z.div_add, (Z.div_small y) by lia. unfold wrap.
  replace ((y + x * 2 ^ 16) * 2 ^ 16) with (y * 2 ^ 16 + x * 2 ^ 32) by lia. rewrite Z_mod_plus_full, Z.mod_small by lia.
  rewrite Z.lor_comm, (lor_disjoint 16); [lia|lia|lia|]. apply Z_mod_mult.
Qed.
End proofs.

(** ** The drive as a block device

    Requests to the driver, and the same requests to a list of blocks. *)
Inductive request : Type := RRead (offset : Z) | RWrite (offset : Z) (block : Block).
Inductive reply : Type := Data (block : Block) | Written | Failed (e : FsError).

Definition serve {H} {IO : PortIO H} (warn_on : bool) (fuel : nat) (d : AtaDrive.t) (r : request) : ST H reply :=
  match r with
  | RRead off =>
      x ← AtaDrive.read_block warn_on fuel d off (Block_default 512);
      mret (match x with Ok blk => Data blk | Err e => Failed e end)
  | RWrite off blk =>
      x ← AtaDrive.write_block warn_on fuel d off blk;
      mret (match x with Ok _ => Written | Err e => Failed e end)
  end.
Fixpoint serve_all {H} {IO : PortIO H} (warn_on : bool) (fuel : nat) (d : AtaDrive.t) (rs : list request) : ST H (list reply) :=
  match rs with
  | [] => mret []
  | r :: rs => x ← serve warn_on fuel d r; xs ← serve_all warn_on fuel d rs; mret (x :: xs)
  end.
(** The same with [wait] after each request: the time that passes before the next one. *)
Fixpoint serve_paced {H} {IO : PortIO H} (warn_on : bool) (fuel : nat) (wait : H -> H) (d : AtaDrive.t) (rs : list request) : ST H (list reply) :=
  match rs with
  | [] => mret []
  | r :: rs =>
      x ← serve warn_on fuel d r;
      (fun h => Ret (tt, wait h));;
      xs ← serve_paced warn_on fuel wait d rs; mret (x :: xs)
  end.

(** Out of range the drive answers with an error of its own. *)
Definition refused : reply := Failed (FsDeviceError DeviceInvalidOperation).
Definition mem_serve (d : MemDisk.t) (r : request) : reply * MemDisk.t :=
  match r with
  | RRead off => (match read_block d off with Ok blk => Data blk | Err _ => refused end, d)
  | RWrite off blk => match write_block d off blk with Ok d' => (Written, d') | Err _ => (refused, d) end
  end.
Fixpoint mem_all (d : MemDisk.t) (rs : list request) : list reply * MemDisk.t :=
  match rs with
  | [] => ([], d)
  | r :: rs => let '(x, d1) := mem_serve d r in let '(xs, d2) := mem_all d1 rs in (x :: xs, d2)
  end.

Definition request_ok (r : request) : Prop :=
  match r with RRead _ => True | RWrite _ blk => block_ok 512 blk end.
Lemma u32_range x : 0 <= u32 x < 2 ^ 32.
Proof. by apply wrap_range. Qed.

(** ** Which block is accessed *)
Lemma slot_of_lor drive off : drive = 0 \/ drive = 1 ->
  slot_of drive (u32 off) = Z.to_nat (Z.lor (off mod 2 ^ 28) (drive * 2 ^ 24)).
Proof.
  intros Hd. unfold slot_of, wrap. f_equal.
  assert (E1 : off mod 2 ^ 32 mod 2 ^ 24 = off mod 2 ^ 28 mod 2 ^ 24)
    by (rewrite !Z.mod_mod_divide; [done|by exists (2 ^ 4)|by exists (2 ^ 8)]).
  assert (E2 : off mod 2 ^ 32 / 2 ^ 24 mod 16 = off mod 2 ^ 28 / 2 ^ 24) by zdiv.
  rewrite E1, E2. set (x := off mod 2 ^ 28) in *.
  pose proof (Z.mod_pos_bound x (2 ^ 24) ltac:(lia)) as Hr. pose proof (Z.div_mod x (2 ^ 24) ltac:(lia)) as Ex.
  assert (Ho : forall q, Z.lor (x mod 2 ^ 24) (Z.shiftl q 24) = x mod 2 ^ 24 + 2 ^ 24 * q).
  { intros q. rewrite Z.shiftl_mul_pow2 by lia. rewrite (lor_disjoint 24); [lia|lia|lia|apply Z_mod_mult]. }
  rewrite <- Ho, Z.shiftl_lor, Z.lor_assoc, Ho, Z.shiftl_mul_pow2 by lia. f_equal. lia.
Qed.

(** The block that an offset names: 28 bits of it, with bit 24 set for drive 1. *)
Definition place (d : AtaDrive.t) (off : Z) : Z := Z.lor (off mod 2 ^ 28) (AtaDrive.drive d * 2 ^ 24).
Definition relocate (d : AtaDrive.t) (r : request) : request :=
  match r with RRead off => RRead (place d off) | RWrite off blk => RWrite (place d off) blk end.
Lemma place_first d off : AtaDrive.drive d = 0 -> 0 <= off < 2 ^ 28 -> place d off = off.
Proof. intros Hd Ho. unfold place. by rewrite Hd, Z.lor_0_r, Z.mod_small. Qed.
Lemma place_nonneg d off : AtaDrive.drive d = 0 \/ AtaDrive.drive d = 1 -> 0 <= place d off.
Proof. intros Hd. apply Z.lor_nonneg. split; [|lia]. apply Z.mod_pos_bound; lia. Qed.

(** The reply [x] of a device that may still be busy, against the reply [y] that is due. *)
Definition agrees (x y : reply) : Prop := x = y \/ y = Written /\ x = Failed (FsDeviceError WriteError).

(** The first drive holds the blocks of [m]. *)
Definition holds (id : list Z) (v : dev) (m : MemDisk.t) : Prop :=
  ready v /\ disks v false = Some (mkDisk (MemDisk.blocks m) id) /\ Forall (block_ok 512) (MemDisk.blocks m).

Section refinement.
Context {H : Type} {IO : PortIO H} (warn_on : bool) (fuel : nat).
Context (d : AtaDrive.t) (b : AtaBus.t) (delay settle : nat) (view : H -> dev) {HW : AtaHardware b delay settle view}.
Hypothesis Hbus : index AtaDrive.BUSES (AtaDrive.bus d) = Ret b.
Hypothesis Hdrive : AtaDrive.drive d = 0 \/ AtaDrive.drive d = 1.
Hypothesis Hfuel : (delay <= fuel)%nat.

(** One request; the device may be left busy with what it was sent. *)
Lemma serve_mem id h m r : holds id (view h) m -> request_ok r ->
  exists x h', serve warn_on fuel d r h = Ret (x, h') /\ agrees x (mem_serve m (relocate d r)).1 /\
    holds id (set_busy 0 (view h')) (mem_serve m (relocate d r)).2 /\ disks (view h') true = disks (view h) true /\
    ((settle <= 4)%nat -> x = (mem_serve m (relocate d r)).1 /\ ready (view h')).
Proof.
  intros (Hr & Hd & Hok) Hreq. destruct r as [off|off blk]; cbn [serve mem_serve relocate].
  - destruct (read_pio_run warn_on fuel b delay settle view (AtaDrive.drive d) (u32 off) (Block_default 512) h _ Hr Hd Hok
      Hdrive (u32_range off) ltac:(done) Hfuel) as (h' & E & Hr' & Hd'). rewrite (slot_of_lor _ off Hdrive) in E.
    fold (place d off) in E. cbn [sectors] in E.
    assert (Ex : match (match MemDisk.blocks m !! Z.to_nat (place d off) with
        | Some s => Ok s | None => Err (FsDeviceError DeviceInvalidOperation) end) with Ok blk => Data blk | Err e => Failed e end =
      match read_block m (place d off) with Ok blk => Data blk | Err _ => refused end).
    { cbn. unfold MemDisk.read. rewrite decide_True by (by apply place_nonneg).
      destruct (MemDisk.blocks m !! Z.to_nat (place d off)) as [s|] eqn:Es; [|done].
      rewrite decide_True; [done|]. exact (Forall_lookup_1 _ _ _ _ Hok Es). }
    eexists _, h'. cbn [fst snd]. rewrite <- Ex. split.
    { unfold AtaDrive.read_block. rewrite Hbus. by erewrite st_bind_run by (rewrite st_lift_bind; exact E). }
    split; [by left|]. destruct Hr' as [Hi Hb']. unfold holds, ready. cbn. rewrite Hd', Hi, Hb'. done.
  - destruct (write_pio_run warn_on fuel b delay settle view (AtaDrive.drive d) (u32 off) blk h _ Hr Hd
      Hdrive (u32_range off) Hreq Hfuel) as (x & h' & E & Hx & Hi & Hd' & Ht' & Hs). rewrite (slot_of_lor _ off Hdrive) in Hx, Hd', Hs.
    fold (place d off) in Hx, Hd', Hs. cbn [sectors ident] in Hx, Hd', Hs. pose proof (place_nonneg d off Hdrive) as H0.
    eexists _, h'. split.
    { unfold AtaDrive.write_block. rewrite Hbus. by erewrite st_bind_run by (rewrite st_lift_bind; exact E). }
    cbn. unfold MemDisk.write, zlen. case_decide as Hin; cbn [fst snd].
    + rewrite bool_decide_true in Hx, Hs by (apply lookup_lt_is_Some_2; lia). cbn in Hx.
      split; [unfold agrees; destruct Hx as [-> | ->]; auto|]. split; [|split; [done|]].
      * unfold holds, ready. cbn. rewrite Hi, Hd'. split; [done|]. split; [done|]. by apply Forall_insert.
      * intros Hle. destruct (Hs Hle) as [Hr' Hx']. by rewrite Hx'.
    + rewrite bool_decide_false in Hx, Hs by (rewrite lookup_ge_None_2 by lia; by intros [? ?]). cbn in Hx. subst x.
      split; [by left|]. rewrite list_insert_ge in Hd' by lia. split; [|split; [done|]].
      * unfold holds, ready. cbn. by rewrite Hi, Hd'.
      * intros Hle. by destruct (Hs Hle).
Qed.
Lemma set_busy_ready v : ready v -> set_busy 0 v = v.
Proof. intros [_ E]. destruct v. cbn in *. by subst. Qed.

Lemma serve_paced_mem (wait : H -> H) id rs : (forall h, view (wait h) = set_busy 0 (view h)) -> Forall request_ok rs ->
  forall h m, holds id (view h) m ->
  exists xs h', serve_paced warn_on fuel wait d rs h = Ret (xs, h') /\ Forall2 agrees xs (mem_all m (relocate d <$> rs)).1 /\
    holds id (view h') (mem_all m (relocate d <$> rs)).2 /\ disks (view h') true = disks (view h) true.
Proof.
  intros Hw Hrs. induction Hrs as [|r rs Hr Hrs IH]; intros h m Hh; [by exists [], h|].
  destruct (serve_mem id h m r Hh Hr) as (x & h1 & E1 & Hx & Hh1 & Ht1 & _).
  rewrite fmap_cons. cbn [serve_paced mem_all]. destruct (mem_serve m (relocate d r)) as [y m1]. cbn [fst snd] in *.
  rewrite <- Hw in Hh1. destruct (IH (wait h1) m1 Hh1) as (xs & h' & E' & Hxs & Hh' & Ht').
  exists (x :: xs), h'. rewrite (st_bind_run _ _ _ _ _ E1). erewrite st_bind_run by reflexivity. rewrite (st_bind_run _ _ _ _ _ E').
  destruct (mem_all m1 (relocate d <$> rs)) as [ys m2]. cbn [fst snd] in *. split; [done|]. split; [by constructor|].
  split; [done|]. rewrite Ht', Hw. exact Ht1.
Qed.
Lemma serve_all_mem id rs : (settle <= 4)%nat -> Forall request_ok rs -> forall h m, holds id (view h) m ->
  exists h', serve_all warn_on fuel d rs h = Ret ((mem_all m (relocate d <$> rs)).1, h') /\
    holds id (view h') (mem_all m (relocate d <$> rs)).2 /\ disks (view h') true = disks (view h) true.
Proof.
  intros Hle Hrs. induction Hrs as [|r rs Hr Hrs IH]; intros h m Hh; [by exists h|].
  destruct (serve_mem id h m r Hh Hr) as (x & h1 & E1 & _ & Hh1 & Ht1 & Hs). destruct (Hs Hle) as [-> Hr1]. clear Hs.
  rewrite set_busy_ready in Hh1 by done. rewrite fmap_cons. cbn [serve_all mem_all].
  destruct (mem_serve m (relocate d r)) as [y m1]. cbn [fst snd] in *.
  destruct (IH h1 m1 Hh1) as (h' & E' & Hh' & Ht'). exists h'.
  rewrite (st_bind_run _ _ _ _ _ E1), (st_bind_run _ _ _ _ _ E').
  destruct (mem_all m1 (relocate d <$> rs)) as [ys m2]. cbn [fst snd] in *. split; [done|]. split; [done|congruence].
Qed.
End refinement.

(** C17: The drive refines a list of blocks.  On a bus whose first drive is idle and
    finds every sector it has, each offset names the block [place d off] of that drive
    (the offset itself, for drive 0 and offsets below 2^28), whatever the offset and
    the drive number, and the second drive is never touched.  However long the device
    takes over a command and over a sector that it was sent, a sequence of block reads
    and writes in which it is left to finish between two requests always returns (the
    poll loops end within the device's delay) and leaves the drive with exactly the
    blocks that the list then has; reads answer what the list answers, requests beyond
    the end fail without effect, and a write within the range is stored, but it may be
    answered by a write error, because the driver looks at the status while the device
    may be busy.  When the device is done within the four reads of the status by which
    the driver waits, requests may follow each other at once and all answers are the
    list's. *)
Theorem ata_refines_disk {H} {IO : PortIO H} warn_on fuel d b delay settle (view : H -> dev)
  {HW : AtaHardware b delay settle view} id rs h m :
  index AtaDrive.BUSES (AtaDrive.bus d) = Ret b -> AtaDrive.drive d = 0 \/ AtaDrive.drive d = 1 -> (delay <= fuel)%nat ->
  Forall request_ok rs -> holds id (view h) m ->
  let '(due, m') := mem_all m (relocate d <$> rs) in
  (AtaDrive.drive d = 0 -> forall off, 0 <= off < 2 ^ 28 -> place d off = off) /\
  (forall wait, (forall g, view (wait g) = set_busy 0 (view g)) ->
    exists xs h', serve_paced warn_on fuel wait d rs h = Ret (xs, h') /\ Forall2 agrees xs due /\
      holds id (view h') m' /\ disks (view h') true = disks (view h) true) /\
  ((settle <= 4)%nat ->
    exists h', serve_all warn_on fuel d rs h = Ret (due, h') /\
      holds id (view h') m' /\ disks (view h') true = disks (view h) true).
Proof.
  intros Hbus Hd Hf Hrs Hh. pose proof (fun w Hw => serve_paced_mem warn_on fuel d b delay settle view Hbus Hd Hf w id rs Hw Hrs h m Hh) as H1.
  pose proof (fun Hle => serve_all_mem warn_on fuel d b delay settle view Hbus Hd Hf id rs Hle Hrs h m Hh) as H2.
  destruct (mem_all m (relocate d <$> rs)) as [due m']. split; [|done]. intros H0 off. by apply place_first.
Qed.

(** Which block the driver accesses, for any offset and either drive number: on
    hardware that behaves as documented it is block [offset mod 2^28], with bit 24 set
    for drive 1, of the first drive of the bus.  So offsets that differ by 2^28
    name the same block, and the second drive is never reached. *)
Theorem ata_addressing {H} {IO : PortIO H} warn_on fuel d b delay settle (view : H -> dev) {HW : AtaHardware b delay settle view} h dk off :
  index AtaDrive.BUSES (AtaDrive.bus d) = Ret b -> AtaDrive.drive d = 0 \/ AtaDrive.drive d = 1 -> (delay <= fuel)%nat ->
  ready (view h) -> disks (view h) false = Some dk -> disk_ok dk ->
  exists h', AtaDrive.read_block warn_on fuel d off (Block_default 512) h =
    Ret (match sectors dk !! Z.to_nat (Z.lor (off mod 2 ^ 28) (AtaDrive.drive d * 2 ^ 24)) with
         | Some blk => Ok blk | None => Err (FsDeviceError DeviceInvalidOperation) end, h').
Proof.
  intros Hbus Hd Hf Hr Hdk Hok.
  destruct (read_pio_run warn_on fuel b delay settle view (AtaDrive.drive d) (u32 off) (Block_default 512) h dk Hr Hdk Hok
    Hd (u32_range off) ltac:(done) Hf) as (h' & E & _).
  exists h'. unfold AtaDrive.read_block. rewrite Hbus, st_lift_bind, E. by rewrite slot_of_lor.
Qed.

(** Opening a drive.  With a disk on the bus, [AtaDrive::open] returns a drive whose
    size is the number of addressable sectors in words 60 and 61 of the disk's
    identification and whose serial number and model are the trimmed texts of words
    10 to 19 and 27 to 46, and leaves the bus idle and the disks as they were;
    without one it panics, it does not return [None]. *)
Theorem ata_open {H} {IO : PortIO H} warn_on fuel bus drive b delay settle (view : H -> dev) {HW : AtaHardware b delay settle view} h :
  index AtaDrive.BUSES bus = Ret b -> drive = 0 \/ drive = 1 -> (delay <= fuel)%nat -> ready (view h) ->
  match disks (view h) false with
  | None => AtaDrive.open warn_on fuel bus drive h = Panic
  | Some dk =>
      forall w60 w61, length (ident dk) = 256%nat -> ident dk !! 60%nat = Some w60 -> ident dk !! 61%nat = Some w61 ->
      in_width 16 w60 -> in_width 16 w61 ->
      exists h', AtaDrive.open warn_on fuel bus drive h =
        Ret (Some {| AtaDrive.bus := bus; AtaDrive.drive := drive; AtaDrive.blocks := w60 + 65536 * w61;
                     AtaDrive.model := trim (from_utf8_lossy (sub_bytes (ident dk) 27 20 ≫= AtaDrive.be16));
                     AtaDrive.serial := trim (from_utf8_lossy (sub_bytes (ident dk) 10 10 ≫= AtaDrive.be16)) |}, h') /\
        ready (view h') /\ disks (view h') = disks (view h)
  end.
Proof.
  intros Hbus Hd Hf Hr. unfold AtaDrive.open. rewrite Hbus. destruct (disks (view h) false) as [dk|] eqn:Edk.
  - intros w60 w61 Hlen E60 E61 H60 H61.
    destruct (identify_run warn_on fuel b delay settle view drive h dk Hr Edk Hlen Hd Hf) as (h' & E & Hr' & Hd').
    exists h'. split; [|done]. rewrite st_lift_bind, (st_bind_run _ _ _ _ _ E).
    assert (Hl : length (ident dk ≫= AtaDrive.be16) = 512%nat).
    { rewrite (length_bind_const _ 2); [lia|]. intros x _. unfold AtaDrive.be16. by rewrite length_reverse, length_le_bytes. }
    unfold AtaDrive.SERIAL, AtaDrive.SERIAL_SIZE, AtaDrive.MODEL, AtaDrive.MODEL_SIZE, AtaDrive.MAX_LBA.
    rewrite (slice_at _ 20 (20 + 20) (2 * 10) (2 * 10)), st_lift_bind by (rewrite ?Hl; lia).
    rewrite (slice_at _ 54 (54 + 40) (2 * 27) (2 * 20)), st_lift_bind by (rewrite ?Hl; lia).
    rewrite (slice_at _ 120 (120 + 4) (2 * 60) (2 * 2)), st_lift_bind by (rewrite ?Hl; lia).
    rewrite !sub_words. assert (E2 : sub_bytes (ident dk) 60 2 = [w60; w61]).
    { unfold sub_bytes. by rewrite (drop_S _ _ _ E60), (drop_S _ _ _ E61). }
    rewrite E2. change ([w60; w61] ≫= AtaDrive.be16) with (AtaDrive.be16 w60 ++ AtaDrive.be16 w61 ++ []).
    rewrite app_nil_r, size_words by done. done.
  - rewrite st_lift_bind. unfold mbind, ST_bind. by rewrite (identify_absent warn_on fuel b delay settle view drive h).
Qed.

(** ** A simulated controller

    The first bus with hardware that follows the protocol step by step. *)
Module Sim.
Section device.
(** How long the device is busy with a sector that it was sent. *)
Context (settle : nat).
Definition bus : AtaBus.t := AtaBus.new 0 14 0x1F0 0x3F6.
Definition status_value (d : dev) : Z :=
  match selected d with
  | None => 0
  | Some _ => if decide (busy d = 0%nat)
              then 0x40 + (if wants_data d then 8 else 0) + (if err d then 1 else 0) else 0x80
  end.
Definition in8 (p : Z) (d : dev) : Z * dev :=
  if (p =? 0x3F6) || (p =? 0x1F7) then (status_value d, ticks 1 d)
  else if p =? 0x1F4 then (r_mid d, d) else if p =? 0x1F5 then (r_high d, d) else (0, d).
Definition out8 (p v : Z) (d : dev) : dev :=
  if p =? 0x1F2 then set_count v d else if p =? 0x1F3 then set_low v d else if p =? 0x1F4 then set_mid v d
  else if p =? 0x1F5 then set_high v d else if p =? 0x1F6 then set_dev v d
  else if p =? 0x1F7 then accept v 12 d else d.
Definition in16 (p : Z) (d : dev) : Z * dev :=
  match ph d with DataIn (w :: ws) => (w, set_ph (in_phase ws) (err d) d) | _ => (0, d) end.
Definition out16 (p v : Z) (d : dev) : dev :=
  match ph d with
  | DataOut s n ws => if (length ws <? 255)%nat then set_ph (DataOut s n (ws ++ [v])) (err d) d else commit s n (ws ++ [v]) settle d
  | _ => d
  end.
End device.
End Sim.
Definition sim_io (settle : nat) : PortIO dev :=
  {| in8 := Sim.in8; out8 := Sim.out8; in16 := Sim.in16; out16 := Sim.out16 settle |}.

Lemma sim_status d : status_ok d (Sim.status_value d).
Proof.
  unfold status_ok, Sim.status_value. destruct (selected d); [|done]. case_decide; [|done].
  by destruct (wants_data d), (err d).
Qed.
Lemma sim_hardware settle : @AtaHardware _ (sim_io settle) Sim.bus 12 settle (fun d => d).
Proof.
  constructor; try done.
  - intros d c _ _ _. by exists 12%nat.
  - intros d p [->| ->]; (split; [done|apply sim_status]).
  - intros d w ws _ Hp. cbn. unfold Sim.in16. by rewrite Hp.
  - intros d s n ws w _ Hp Hl. cbn. unfold Sim.out16. rewrite Hp. by destruct (Nat.ltb_spec (length ws) 255); [|lia].
  - intros d s n ws w _ Hp Hl. exists settle. cbn. unfold Sim.out16. rewrite Hp. split; [lia|].
    by destruct (Nat.ltb_spec (length ws) 255); [lia|].
Qed.

Definition demo_id : list Z := replicate 60 0x2020 ++ [3; 0] ++ replicate 194 0.
Definition demo_disk : MemDisk.t := {| MemDisk.blocks := [replicate 512 7; replicate 512 8; replicate 512 9] |}.
Definition demo_dev : dev :=
  mkDev (fun s => if s then None else Some (mkDisk (MemDisk.blocks demo_disk) demo_id)) 0 0 0 0 0 Idle 0 false.
Definition demo_drive (n : Z) : AtaDrive.t :=
  {| AtaDrive.bus := 0; AtaDrive.drive := n; AtaDrive.blocks := 3; AtaDrive.model := []; AtaDrive.serial := [] |}.

Definition demo_requests : list request := [RWrite 1 (replicate 512 5); RRead (2 ^ 28 + 1); RRead 2; RRead 3].
Lemma demo_requests_ok : Forall request_ok demo_requests.
Proof.
  repeat (apply Forall_cons; split); [|done..|apply Forall_nil; exact I].
  split; [done|]. apply (bool_decide_unpack _). vm_compute; exact I.
Qed.
Lemma demo_holds : holds demo_id demo_dev demo_disk.
Proof. split; [done|]. split; [done|]. unfold block_ok. apply (bool_decide_unpack _). vm_compute; exact I. Qed.

(** A slow device with pauses, and a quick one without. *)
Lemma ata_refines_disk_witness :
  (exists xs h', @serve_paced _ (sim_io 9) true 12 (set_busy 0) (demo_drive 0) demo_requests demo_dev = Ret (xs, h') /\
    Forall2 agrees xs [Written; Data (replicate 512 5); Data (replicate 512 9); refused]) /\
  (exists h', @serve_all _ (sim_io 3) true 12 (demo_drive 0) demo_requests demo_dev =
    Ret ([Written; Data (replicate 512 5); Data (replicate 512 9); refused], h')).
Proof.
  split.
  - pose proof (@ata_refines_disk _ (sim_io 9) true 12 (demo_drive 0) Sim.bus 12 9 (fun d => d) (sim_hardware 9) demo_id
      demo_requests demo_dev demo_disk ltac:(vm_compute; reflexivity) ltac:(by left) ltac:(lia) demo_requests_ok demo_holds) as Hx.
    assert (E : mem_all demo_disk (relocate (demo_drive 0) <$> demo_requests) =
      ([Written; Data (replicate 512 5); Data (replicate 512 9); refused],
       {| MemDisk.blocks := [replicate 512 7; replicate 512 5; replicate 512 9] |})) by (vm_compute; reflexivity).
    rewrite E in Hx. destruct Hx as (_ & Hw & _). destruct (Hw (set_busy 0) ltac:(done)) as (xs & h' & E' & Hxs & _).
    exists xs, h'. split; [exact E'|exact Hxs].
  - pose proof (@ata_refines_disk _ (sim_io 3) true 12 (demo_drive 0) Sim.bus 12 3 (fun d => d) (sim_hardware 3) demo_id
      demo_requests demo_dev demo_disk ltac:(vm_compute; reflexivity) ltac:(by left) ltac:(lia) demo_requests_ok demo_holds) as Hx.
    assert (E : (mem_all demo_disk (relocate (demo_drive 0) <$> demo_requests)).1 =
      [Written; Data (replicate 512 5); Data (replicate 512 9); refused]) by (vm_compute; reflexivity).
    destruct (mem_all demo_disk (relocate (demo_drive 0) <$> demo_requests)) as [due m']. cbn [fst] in E. rewrite E in Hx.
    destruct Hx as (_ & _ & Hw). destruct (Hw ltac:(lia)) as (h' & E' & _). exists h'. exact E'.
Defined.

Lemma ata_addressing_witness :
  (exists h', @AtaDrive.read_block _ (sim_io 3) true 12 (demo_drive 0) (2 ^ 28 + 1) (Block_default 512) demo_dev =
    Ret (Ok (replicate 512 8), h')) /\
  (exists h', @AtaDrive.read_block _ (sim_io 3) true 12 (demo_drive 1) 1 (Block_default 512) demo_dev =
    Ret (Err (FsDeviceError DeviceInvalidOperation), h')).
Proof.
  assert (Hok : disk_ok (mkDisk (MemDisk.blocks demo_disk) demo_id))
    by (unfold disk_ok, block_ok; apply (bool_decide_unpack _); vm_compute; exact I).
  split.
  - destruct (@ata_addressing _ (sim_io 3) true 12 (demo_drive 0) Sim.bus 12 3 (fun d => d) (sim_hardware 3) demo_dev
      (mkDisk (MemDisk.blocks demo_disk) demo_id) (2 ^ 28 + 1)) as [h' E]; [reflexivity|by left|lia|done|done|done|].
    exists h'. rewrite E. reflexivity.
  - destruct (@ata_addressing _ (sim_io 3) true 12 (demo_drive 1) Sim.bus 12 3 (fun d => d) (sim_hardware 3) demo_dev
      (mkDisk (MemDisk.blocks demo_disk) demo_id) 1) as [h' E]; [reflexivity|by right|lia|done|done|done|].
    exists h'. rewrite E. vm_compute; reflexivity.
Defined.

Lemma ata_open_witness :
  exists h', @AtaDrive.open _ (sim_io 3) true 12 0 0 demo_dev = Ret (Some (demo_drive 0), h').
Proof.
  destruct (@ata_open _ (sim_io 3) true 12 0 0 Sim.bus 12 3 (fun d => d) (sim_hardware 3) demo_dev) with (w60 := 3) (w61 := 0)
    as (h' & E & _); [reflexivity|by left|lia|done|reflexivity|reflexivity|reflexivity|done|done|].
  exists h'. rewrite E. vm_compute; reflexivity.
Defined.
