(* ===== verification/Uart.v ===== *)
(** * The serial port

    Models [pkg/kernel/src/drivers/uart16550.rs]: the UART that is the kernel's console,
    driven through its ports.  [UartHardware] says what the ports do. *)

From stdpp Require Import base numbers list.
From S2P Require Import Prelude Bytes Str Ata.

(** [COM1] ([drivers/serial.rs]) *)
Definition SERIAL_IO_PORT : Z := 0x3F8.

Module LineControl.
Definition DLAB : Z := 0x80.
Definition OneStopBit : Z := 0.
Definition NoneParity : Z := 0.
Definition EightCharLength : Z := 3.
End LineControl.

Module SerialPort.
Record t : Type := {
  data : Z; interrupt_enable : Z; interrupt_identification_fifo_control : Z;
  line_control : Z; line_status : Z; scratch : Z;
}.
Definition new (port : Z) : t := {|
  data := port; interrupt_enable := u16 (port + 1); interrupt_identification_fifo_control := u16 (port + 2);
  line_control := u16 (port + 3); line_status := u16 (port + 5); scratch := u16 (port + 7) |}.

Section driver.
(** [fuel]: how often [send] may look at the status. *)
Context {H : Type} {IO : PortIO H} (fuel : nat) (p : t).
Definition read (port : Z) : ST H Z := fun h => Ret (in8 port h).
Definition write (port v : Z) : ST H unit := fun h => Ret (tt, out8 port v h).

Definition init : ST H unit :=
  write (interrupt_enable p) 0x00;;
  write (line_control p) LineControl.DLAB;;
  write (data p) 0x03;;
  write (interrupt_enable p) 0x00;;
  write (line_control p) (Z.lor (Z.lor LineControl.EightCharLength LineControl.NoneParity) LineControl.OneStopBit);;
  write (interrupt_identification_fifo_control p) 0xC7;;
  write (scratch p) 0xAE;;
  write (interrupt_enable p) 0x01.

Fixpoint wait_ready (n : nat) : ST H unit :=
  match n with
  | O => st_lift Timeout
  | S n => s ← read (line_status p); if Z.land s 0x20 =? 0 then wait_ready n else mret tt
  end.
Definition send (v : Z) : ST H unit := wait_ready fuel;; write (data p) v.
Definition receive : ST H (option Z) :=
  s ← read (line_status p);
  if negb (Z.land s 1 =? 0) then v ← read (data p); mret (Some v) else mret None.

Fixpoint send_all (l : bytes) : ST H unit :=
  match l with
  | [] => mret tt
  | b :: l => send b;; send_all l
  end.
Definition write_str (s : str) : ST H unit := send_all (as_bytes s).
End driver.
End SerialPort.

(** ** The hardware *)
(** The latch bit [dlab] of the line control register makes the divisor visible at the ports
    of the data and of the interrupt enable register.  [sent] are the bytes that
    left, [busy] the reads of the status until the next can be taken, [received] the bytes
    that wait to be read. *)
Record uart : Type := mk_uart {
  lcr : Z; ier : Z; fcr : Z; scr : Z; divisor_low : Z; divisor_high : Z;
  busy_for : nat; sent : bytes; received : bytes;
}.
Definition dlab (d : uart) : bool := Z.testbit (lcr d) 7.
Definition set_lcr v (d : uart) := mk_uart v (ier d) (fcr d) (scr d) (divisor_low d) (divisor_high d) (busy_for d) (sent d) (received d).
Definition set_ier v (d : uart) := mk_uart (lcr d) v (fcr d) (scr d) (divisor_low d) (divisor_high d) (busy_for d) (sent d) (received d).
(** Bit 1 clears the receiver. *)
Definition set_fcr v (d : uart) := mk_uart (lcr d) (ier d) v (scr d) (divisor_low d) (divisor_high d) (busy_for d) (sent d) (if Z.testbit v 1 then [] else received d).
Definition set_scr v (d : uart) := mk_uart (lcr d) (ier d) (fcr d) v (divisor_low d) (divisor_high d) (busy_for d) (sent d) (received d).
Definition set_div_low v (d : uart) := mk_uart (lcr d) (ier d) (fcr d) (scr d) v (divisor_high d) (busy_for d) (sent d) (received d).
Definition set_div_high v (d : uart) := mk_uart (lcr d) (ier d) (fcr d) (scr d) (divisor_low d) v (busy_for d) (sent d) (received d).
Definition transmit v k (d : uart) := mk_uart (lcr d) (ier d) (fcr d) (scr d) (divisor_low d) (divisor_high d) k (sent d ++ [v]) (received d).
Definition set_received r (d : uart) := mk_uart (lcr d) (ier d) (fcr d) (scr d) (divisor_low d) (divisor_high d) (busy_for d) (sent d) r.
Definition uart_tick (d : uart) := mk_uart (lcr d) (ier d) (fcr d) (scr d) (divisor_low d) (divisor_high d) (pred (busy_for d)) (sent d) (received d).
(** Bytes can arrive at any time. *)
Definition arrived (d d' : uart) : Prop := exists new, d' = set_received (received d ++ new) d.

Class UartHardware {H : Type} {IO : PortIO H} (p : SerialPort.t) (delay : nat) (view : H -> uart) : Prop := {
  uart_lcr h v : arrived (set_lcr v (view h)) (view (out8 (SerialPort.line_control p) v h));
  uart_ier h v : arrived ((if dlab (view h) then set_div_high else set_ier) v (view h)) (view (out8 (SerialPort.interrupt_enable p) v h));
  uart_fcr h v : busy_for (view h) = 0%nat ->
    arrived (set_fcr v (view h)) (view (out8 (SerialPort.interrupt_identification_fifo_control p) v h));
  uart_scr h v : arrived (set_scr v (view h)) (view (out8 (SerialPort.scratch p) v h));
  uart_divisor h v : dlab (view h) = true -> arrived (set_div_low v (view h)) (view (out8 (SerialPort.data p) v h));
  uart_send h v : dlab (view h) = false -> busy_for (view h) = 0%nat ->
    exists k, (k <= delay)%nat /\ arrived (transmit v k (view h)) (view (out8 (SerialPort.data p) v h));
  uart_status h : let '(s, h') := in8 (SerialPort.line_status p) h in
    arrived (uart_tick (view h)) (view h') /\
    Z.testbit s 5 = bool_decide (busy_for (view h) = 0%nat) /\ Z.testbit s 0 = negb (bool_decide (received (view h) = []));
  uart_receive h b r : dlab (view h) = false -> received (view h) = b :: r ->
    (in8 (SerialPort.data p) h).1 = b /\ arrived (set_received r (view h)) (view (in8 (SerialPort.data p) h).2);
}.

Section laws.
Context {H : Type} {IO : PortIO H} (fuel : nat) (p : SerialPort.t) (delay : nat) (view : H -> uart) {HW : UartHardware p delay view}.

(** Set up as [init] does: 8 bits, no parity, one stop bit, 38400 baud, an interrupt when a byte
    arrives, buffers on. *)
Definition configured (d : uart) : Prop :=
  lcr d = 3 /\ ier d = 1 /\ fcr d = 0xC7 /\ scr d = 0xAE /\ divisor_low d = 3 /\ divisor_high d = 0.
Lemma configured_dlab d : configured d -> dlab d = false.
Proof. unfold dlab. by intros [-> _]. Qed.

Lemma init_run h : busy_for (view h) = 0%nat -> exists h', SerialPort.init p h = Ret (tt, h') /\
  configured (view h') /\ busy_for (view h') = 0%nat /\ sent (view h') = sent (view h).
Proof.
  intros Hb. unfold SerialPort.init, SerialPort.write, mbind, ST_bind, mret, ST_ret. eexists. split; [reflexivity|].
  set (h1 := out8 _ 0 h). pose proof (uart_ier h 0) as A1. fold h1 in A1.
  set (h2 := out8 _ _ h1). pose proof (uart_lcr h1 LineControl.DLAB) as A2. fold h2 in A2.
  set (h3 := out8 _ 3 h2). assert (D2 : dlab (view h2) = true) by (destruct A2 as [n ->]; done).
  pose proof (uart_divisor h2 3 D2) as A3. fold h3 in A3.
  set (h4 := out8 _ 0 h3). pose proof (uart_ier h3 0) as A4. fold h4 in A4.
  assert (D3 : dlab (view h3) = true) by (destruct A3 as [n ->]; done). rewrite D3 in A4.
  set (h5 := out8 _ _ h4). pose proof (uart_lcr h4 3) as A5. change 3 with (Z.lor (Z.lor LineControl.EightCharLength LineControl.NoneParity) LineControl.OneStopBit) in A5 at 2. fold h5 in A5.
  assert (B1 : busy_for (view h1) = 0%nat) by (destruct A1 as [n ->]; by destruct (dlab (view h))).
  assert (B5 : busy_for (view h5) = 0%nat) by (destruct A5 as [? ->], A4 as [? ->], A3 as [? ->], A2 as [? ->]; done).
  set (h6 := out8 _ 0xC7 h5). pose proof (uart_fcr h5 0xC7 B5) as A6. fold h6 in A6.
  set (h7 := out8 _ 0xAE h6). pose proof (uart_scr h6 0xAE) as A7. fold h7 in A7.
  pose proof (uart_ier h7 1) as A8. assert (D7 : dlab (view h7) = false) by (destruct A7 as [? ->], A6 as [? ->], A5 as [? ->]; done).
  rewrite D7 in A8. destruct A8 as [? ->]. cbn. destruct A7 as [? ->]. cbn. destruct A6 as [? ->]. cbn.
  assert (S1 : sent (view h1) = sent (view h)) by (destruct A1 as [n ->]; by destruct (dlab (view h))).
  rewrite B5. destruct A5 as [? ->]. cbn. destruct A4 as [? ->]. cbn. destruct A3 as [? ->]. cbn. destruct A2 as [? ->]. cbn.
  by rewrite S1.
Qed.

Lemma status_bit s i : 0 <= i -> (Z.land s (2 ^ i) =? 0) = negb (Z.testbit s i).
Proof.
  intros Hi. destruct (Z.testbit s i) eqn:E; cbn [negb].
  - apply Z.eqb_neq. intros H0. assert (Z.testbit (Z.land s (2 ^ i)) i = false) as H1 by (rewrite H0; apply Z.bits_0).
    rewrite Z.land_spec, E, Z.pow2_bits_true in H1 by done. done.
  - apply Z.eqb_eq, Z.bits_inj'. intros j Hj. rewrite Z.land_spec, Z.bits_0. destruct (decide (i = j)) as [<-|Hn]; [by rewrite E|].
    rewrite Z.pow2_bits_false by done. apply andb_false_r.
Qed.
(** [d'] is [d] after it has sent [o], with nothing but arrivals in between. *)
Definition has_sent (o : bytes) (d d' : uart) : Prop :=
  sent d' = sent d ++ o /\ (configured d -> configured d') /\ exists new, received d' = received d ++ new.
Lemma wait_ready_run n : forall h, (busy_for (view h) < n)%nat -> exists h', SerialPort.wait_ready p n h = Ret (tt, h') /\
  busy_for (view h') = 0%nat /\ has_sent [] (view h) (view h').
Proof.
  induction n as [|n IH]; intros h Hn; [lia|]. cbn [SerialPort.wait_ready]. pose proof (uart_status h) as Hs.
  unfold SerialPort.read, mbind, ST_bind. destruct (in8 _ h) as [s h1]. destruct Hs as ([new E] & H5 & _).
  change 0x20 with (2 ^ 5). rewrite status_bit, H5 by lia.
  assert (Hh : has_sent [] (view h) (view h1)).
  { rewrite E. split; [cbn; by rewrite app_nil_r|]. split; [done|]. by exists new. }
  case_bool_decide as H0; cbn [negb].
  - exists h1. split; [done|]. split; [|done]. rewrite E. cbn. by rewrite H0.
  - destruct (IH h1) as (h' & E' & Hb & Hs1 & Hc & new' & Hr); [rewrite E; cbn; lia|]. exists h'. split; [exact E'|]. split; [done|].
    destruct Hh as (H1 & H2 & H3). split; [by rewrite Hs1, H1, !app_nil_r|]. split; [auto|].
    exists (new ++ new'). rewrite Hr, E. cbn. by rewrite app_assoc.
Qed.
Lemma has_sent_app o1 o2 d1 d2 d3 : has_sent o1 d1 d2 -> has_sent o2 d2 d3 -> has_sent (o1 ++ o2) d1 d3.
Proof.
  intros (S1 & C1 & n1 & R1) (S2 & C2 & n2 & R2). split; [by rewrite S2, S1, app_assoc|]. split; [auto|].
  exists (n1 ++ n2). by rewrite R2, R1, app_assoc.
Qed.
Lemma send_run v h : configured (view h) -> (busy_for (view h) <= delay < fuel)%nat -> exists h',
  SerialPort.send fuel p v h = Ret (tt, h') /\ (busy_for (view h') <= delay)%nat /\ has_sent [v] (view h) (view h').
Proof.
  intros Hc Hb. unfold SerialPort.send. destruct (wait_ready_run fuel h ltac:(lia)) as (h1 & E1 & Hb1 & Hs1).
  rewrite (st_bind_run _ _ _ _ _ E1). assert (Hc1 : configured (view h1)) by by apply Hs1.
  destruct (uart_send h1 v (configured_dlab _ Hc1) Hb1) as (k & Hk & new & E2). eexists. split; [reflexivity|]. rewrite E2. split; [exact Hk|].
  apply (has_sent_app [] [v] _ (view h1)); [done|]. split; [done|]. split; [done|]. by exists new.
Qed.
Lemma send_all_run l : forall h, configured (view h) -> (busy_for (view h) <= delay < fuel)%nat -> exists h',
  SerialPort.send_all fuel p l h = Ret (tt, h') /\ (busy_for (view h') <= delay)%nat /\ has_sent l (view h) (view h').
Proof.
  induction l as [|v l IH]; intros h Hc Hb; cbn [SerialPort.send_all].
  - exists h. split; [done|]. split; [lia|]. split; [by rewrite app_nil_r|]. split; [done|]. exists []. by rewrite app_nil_r.
  - destruct (send_run v h Hc Hb) as (h1 & E1 & Hb1 & Hs1). rewrite (st_bind_run _ _ _ _ _ E1).
    destruct (IH h1) as (h2 & E2 & Hb2 & Hs2); [by apply Hs1|lia|]. exists h2. split; [exact E2|]. split; [done|].
    by apply (has_sent_app [v] l _ (view h1)).
Qed.
(** What [receive] finds: the first byte that waits, or nothing. *)
Lemma receive_run h : configured (view h) -> exists h' new, SerialPort.receive p h = Ret (head (received (view h)), h') /\
  received (view h') = tail (received (view h)) ++ new /\ sent (view h') = sent (view h) /\ configured (view h').
Proof.
  intros Hc. unfold SerialPort.receive, SerialPort.read. pose proof (uart_status h) as Hs.
  unfold mbind, ST_bind. destruct (in8 _ h) as [s h1]. destruct Hs as ([n1 E1] & _ & H0).
  change (Z.land s 1) with (Z.land s (2 ^ 0)). rewrite status_bit, H0 by lia. rewrite !negb_involutive.
  destruct (received (view h)) as [|b r] eqn:Er; cbn [bool_decide_eq_true]; case_bool_decide as Hn; try done; cbn [negb].
  - exists h1, n1. rewrite E1. cbn. by rewrite Er.
  - destruct (uart_receive h1 b (r ++ n1)) as [Ev [n2 E2]]; [rewrite E1; by apply configured_dlab|rewrite E1; cbn; by rewrite Er|].
    destruct (in8 _ h1) as [v h2]. cbn [fst snd] in *. subst v. exists h2, (n1 ++ n2). split; [done|].
    rewrite E2, E1. cbn. rewrite app_assoc. done.
Qed.

(** The console prints what it is given.  From an idle port, [init] sets the line up, and whatever
    texts are then written, each write returns (the port needs at most [delay] looks at its
    status per byte) and the bytes of the texts leave the port complete and in order; the line stays set up. *)
Theorem serial_prints texts h : busy_for (view h) = 0%nat -> (delay < fuel)%nat ->
  exists h0 h', SerialPort.init p h = Ret (tt, h0) /\
    foldr (fun s k => SerialPort.write_str fuel p s;; k) (mret tt) texts h0 = Ret (tt, h') /\
    configured (view h') /\ sent (view h') = sent (view h) ++ (texts ≫= as_bytes).
Proof.
  intros Hb Hf. destruct (init_run h Hb) as (h0 & E0 & Hc & Hb0 & Hs). exists h0. rewrite <- Hs. clear Hs.
  assert (Hb' : (busy_for (view h0) <= delay)%nat) by lia. clear Hb0. revert h0 E0 Hc Hb'.
  assert (forall h0, configured (view h0) -> (busy_for (view h0) <= delay)%nat -> exists h',
    foldr (fun s k => SerialPort.write_str fuel p s;; k) (mret tt) texts h0 = Ret (tt, h') /\
    configured (view h') /\ sent (view h') = sent (view h0) ++ (texts ≫= as_bytes)) as Hall.
  { induction texts as [|s texts IH]; intros h0 Hc Hb0; cbn [foldr].
    - exists h0. cbn. by rewrite app_nil_r.
    - unfold SerialPort.write_str at 1. destruct (send_all_run (as_bytes s) h0 Hc ltac:(lia)) as (h1 & E1 & Hb1 & Hs1 & Hc1 & _).
      rewrite (st_bind_run _ _ _ _ _ E1). destruct (IH h1 (Hc1 Hc) Hb1) as (h2 & E2 & Hc2 & Hs2). exists h2.
      split; [exact E2|]. split; [done|]. by rewrite Hs2, Hs1, bind_cons, app_assoc. }
  intros h0 E0 Hc Hb'. destruct (Hall h0 Hc Hb') as (h' & H'). by exists h'.
Qed.
End laws.

(** ** A simulated port, for the witness *)
Definition COM1 : SerialPort.t := SerialPort.new SERIAL_IO_PORT.
Definition sim_out (port v : Z) (d : uart) : uart :=
  if port =? SerialPort.line_control COM1 then set_lcr v d
  else if port =? SerialPort.interrupt_enable COM1 then (if dlab d then set_div_high else set_ier) v d
  else if port =? SerialPort.interrupt_identification_fifo_control COM1 then set_fcr v d
  else if port =? SerialPort.scratch COM1 then set_scr v d
  else if port =? SerialPort.data COM1 then (if dlab d then set_div_low v d else transmit v 2 d)
  else d.
Definition sim_in (port : Z) (d : uart) : Z * uart :=
  if port =? SerialPort.line_status COM1 then
    ((if busy_for d is O then 32 else 0) + (if received d is [] then 0 else 1), uart_tick d)
  else if port =? SerialPort.data COM1 then (default 0 (head (received d)), set_received (tail (received d)) d)
  else (0, d).
#[local] Instance sim_uart_io : PortIO uart := {|
  in8 := sim_in; out8 := sim_out; in16 p d := (0, d); out16 p v d := d |}.
Lemma arrived_refl d : arrived d d.
Proof. exists []. destruct d. unfold set_received. cbn. by rewrite app_nil_r. Qed.
#[local] Instance sim_uart : UartHardware COM1 2 (fun d => d).
Proof.
  split; intros; cbn.
  - apply arrived_refl.
  - apply arrived_refl.
  - apply arrived_refl.
  - apply arrived_refl.
  - change (sim_out _ v h) with (if dlab h then set_div_low v h else transmit v 2 h). rewrite H. apply arrived_refl.
  - exists 2%nat. split; [lia|]. change (sim_out _ v h) with (if dlab h then set_div_low v h else transmit v 2 h). rewrite H. apply arrived_refl.
  - split; [apply arrived_refl|]. destruct (busy_for h), (received h); by split.
  - change (sim_in _ h) with (default 0 (head (received h)), set_received (tail (received h)) h). rewrite H0. split; [done|apply arrived_refl].
Qed.
Definition sim_start : uart := mk_uart 0 0 0 0 12 0 0 [] [].
Lemma serial_prints_witness : exists h0 h', SerialPort.init COM1 sim_start = Ret (tt, h0) /\
  foldr (fun s k => SerialPort.write_str 3 COM1 s;; k) (mret tt) [[79; 75]; [233; 10]] h0 = Ret (tt, h') /\
  sent h' = [79; 75; 195; 169; 10].
Proof.
  destruct (serial_prints 3 COM1 2 (fun d => d) [[79; 75]; [233; 10]] sim_start) as (h0 & h' & E0 & E & _ & Hs); [done|lia|].
  by exists h0, h'.
Defined.
