(* ===== verification/Apic.v ===== *)
(** * The interrupt controllers

    Models [pkg/kernel/src/interrupt/apic/{xapic,ioapic}.rs]: the local APIC of the
    processor and the I/O APIC, which are programmed through registers in memory.
    The accesses ([core::ptr::read_volatile], [write_volatile]) and the crate [bit_field]
    are class parameters; [ApicHardware] says how the registers behave, after the Intel
    manuals that the sources cite. *)

From stdpp Require Import base numbers list.
From S2P Require Import Prelude Bytes.

(** Volatile accesses to the 32-bit word at an address. *)
Class Mmio (H : Type) : Type := {
  read_volatile : Z -> H -> Z * H;
  write_volatile : Z -> Z -> H -> H;
}.

(** The trait [bit_field::BitField] for [u32]; [set_bits x lo hi v] is
    [x.set_bits(lo..hi, v)]. *)
Class BitField : Type := {
  get_bit : Z -> Z -> bool;
  get_bits : Z -> Z -> Z -> Z;
  set_bit : Z -> Z -> bool -> Z;
  set_bits : Z -> Z -> Z -> Z -> Z;
}.
Class BitFieldLaws `{BitField} : Prop := {
  get_bit_spec x i : 0 <= x < 2 ^ 32 -> 0 <= i < 32 -> get_bit x i = Z.testbit x i;
  get_bits_spec x lo hi : 0 <= x < 2 ^ 32 -> 0 <= lo < hi -> hi <= 32 -> get_bits x lo hi = Z.shiftr x lo mod 2 ^ (hi - lo);
  set_bit_spec x i b : 0 <= x < 2 ^ 32 -> 0 <= i < 32 ->
    0 <= set_bit x i b < 2 ^ 32 /\ forall j, 0 <= j -> Z.testbit (set_bit x i b) j = if j =? i then b else Z.testbit x j;
  set_bits_spec x lo hi v : 0 <= x < 2 ^ 32 -> 0 <= lo < hi -> hi <= 32 -> 0 <= v < 2 ^ (hi - lo) ->
    0 <= set_bits x lo hi v < 2 ^ 32 /\
    forall j, 0 <= j -> Z.testbit (set_bits x lo hi v) j = if (lo <=? j) && (j <? hi) then Z.testbit v (j - lo) else Z.testbit x j;
}.

(** ** Interrupt numbers ([consts.rs]) *)
Module Interrupts.
Definition IrqBase : Z := 0x20.
Definition Syscall : Z := 0x80.
End Interrupts.
Module Irq.
Definition Timer : Z := 0.
Definition Serial0 : Z := 4.
Definition Error : Z := 19.
Definition Spurious : Z := 31.
End Irq.

(** ** The local APIC ([xapic.rs]) *)
Inductive Registers : Type :=
| ID | VERSION | TPR | EOI | SPIV | ESR | ICRLO | ICRHI | LvtTimer | PMCR | LvtLINT0 | LvtLINT1 | LvtError | TICR | TDCR.
Definition register_offset (r : Registers) : Z :=
  match r with
  | ID => 0x020 | VERSION => 0x030 | TPR => 0x080 | EOI => 0x0B0 | SPIV => 0x0F0 | ESR => 0x280
  | ICRLO => 0x300 | ICRHI => 0x310 | LvtTimer => 0x320 | PMCR => 0x340 | LvtLINT0 => 0x350
  | LvtLINT1 => 0x360 | LvtError => 0x370 | TICR => 0x380 | TDCR => 0x3E0
  end.
Global Instance Registers_eq_dec : EqDecision Registers.
Proof. solve_decision. Defined.

Module ApicRegisters.
Definition MASK : Z := 0x10000.
Definition BCAST : Z := 0x80000.
Definition INIT : Z := 0x500.
Definition TMLV : Z := 0x8000.
Definition DS : Z := 0x1000.
Definition SPI_VECTOR : Z := Interrupts.IrqBase + Irq.Spurious.
Definition TIMER : Z := Interrupts.IrqBase + Irq.Timer.
Definition ERROR : Z := Interrupts.IrqBase + Irq.Error.
(** The bits that some flag has. *)
Definition all : Z := fold_left Z.lor [MASK; BCAST; INIT; TMLV; DS; SPI_VECTOR; TIMER; ERROR] 0.
End ApicRegisters.

Definition LAPIC_ADDR : Z := 0xFEE00000.

Module XApic.
Section ops.
(** [fuel]: how often a loop that waits for a delivery goes round. *)
Context {H : Type} {M : Mmio H} {BF : BitField} {FL : Bitflags} (fuel : nat) (addr : Z).

Definition read (r : Registers) : ST H Z := fun h => Ret (read_volatile (u64 (addr + register_offset r)) h).
Definition write (r : Registers) (v : Z) : ST H unit :=
  (fun h => Ret (tt, write_volatile (u64 (addr + register_offset r)) v h));;
  read ID;; mret tt.

Fixpoint wait_delivered (n : nat) : ST H unit :=
  match n with
  | O => st_lift Timeout
  | S n =>
      v ← read ICRLO;
      f ← st_lift (unwrap (from_bits ApicRegisters.all v));
      if contains f ApicRegisters.DS then wait_delivered n else mret tt
  end.

Definition cpu_init : ST H unit :=
  spiv ← read SPIV;
  let spiv := set_bit spiv 8 true in
  let spiv := set_bits spiv 0 8 ApicRegisters.SPI_VECTOR in
  write SPIV spiv;;
  write TDCR 11;;
  lvt_timer ← read LvtTimer;
  let lvt_timer := set_bits lvt_timer 0 8 ApicRegisters.TIMER in
  let lvt_timer := set_bit lvt_timer 16 false in
  let lvt_timer := set_bit lvt_timer 17 true in
  write LvtTimer lvt_timer;;
  write TICR 0x20000;;
  write LvtLINT0 ApicRegisters.MASK;;
  write LvtLINT1 ApicRegisters.MASK;;
  write PMCR ApicRegisters.MASK;;
  irq_error ← read LvtError;
  let irq_error := set_bits irq_error 0 8 ApicRegisters.ERROR in
  write LvtError irq_error;;
  write ESR 0;;
  write ESR 0;;
  write EOI 0;;
  write ICRHI 0;;
  write ICRLO (Z.lor (Z.lor ApicRegisters.BCAST ApicRegisters.INIT) ApicRegisters.TMLV);;
  wait_delivered fuel;;
  write TPR 1.

Definition id : ST H Z := v ← read ID; mret (Z.shiftr v 24).
Definition version : ST H Z := read VERSION.
Definition icr : ST H Z := hi ← read ICRHI; lo ← read ICRLO; mret (Z.lor (Z.shiftl hi 32) lo).

Fixpoint wait_bit12 (n : nat) : ST H unit :=
  match n with
  | O => st_lift Timeout
  | S n => v ← read ICRLO; if get_bit v 12 then wait_bit12 n else mret tt
  end.
Definition set_icr (value : Z) : ST H unit :=
  wait_bit12 fuel;;
  write ICRHI (u32 (Z.shiftr value 32));;
  write ICRLO (u32 value);;
  wait_bit12 fuel.
Definition eoi : ST H unit := write EOI 0.
End ops.
End XApic.

(** ** The I/O APIC ([ioapic.rs]) *)
Definition IOAPIC_ADDR : Z := 0xFEC00000.
Module RedirectionEntry.
Definition DISABLED : Z := 0x10000.
Definition NONE : Z := 0.
End RedirectionEntry.

Module IoApic.
Record t : Type := { reg : Z; data : Z }.
Definition new (addr : Z) : t := {| reg := addr; data := u64 (addr + 0x10) |}.
Section ops.
Context {H : Type} {M : Mmio H} {BF : BitField} (a : t).
Definition read (r : Z) : ST H Z := fun h => Ret (read_volatile (data a) (write_volatile (reg a) r h)).
Definition write (r v : Z) : ST H unit := fun h => Ret (tt, write_volatile (data a) v (write_volatile (reg a) r h)).
(** The register numbers and the vector are computed in [u8]. *)
Definition write_irq (irq flags dest : Z) : ST H unit :=
  write (u8 (0x10 + u8 (2 * irq))) (Z.lor (u8 (32 + irq)) flags);;
  write (u8 (u8 (0x10 + u8 (2 * irq)) + 1)) (u32 (Z.shiftl dest 24)).
Definition enable (irq cpuid : Z) : ST H unit := write_irq irq RedirectionEntry.NONE cpuid.
Definition disable (irq cpuid : Z) : ST H unit := write_irq irq RedirectionEntry.DISABLED cpuid.
Definition id : ST H Z := v ← read 0; mret (get_bits v 24 28).
Definition version : ST H Z := v ← read 1; mret (get_bits v 0 8).
Definition maxintr : ST H Z := v ← read 1; mret (get_bits v 16 24).
Fixpoint disable_each (irqs : list Z) : ST H unit :=
  match irqs with
  | [] => mret tt
  | i :: irqs => write_irq i RedirectionEntry.DISABLED 0;; disable_each irqs
  end.
Definition disable_all : ST H unit := n ← maxintr; disable_each (seqZ 0 (n + 1)).
End ops.
End IoApic.

(** ** The hardware *)
(** The registers of the local APIC, how many reads of [ICRLO] a delivery still takes,
    and the interrupts that were not acknowledged, the latest first. *)
Record lapic : Type := mk_lapic { lreg : Registers -> Z; delivering : nat; in_service : list Z }.
Definition set_lreg (r : Registers) (v : Z) (d : lapic) : lapic :=
  mk_lapic (fun r' => if decide (r' = r) then v else lreg d r') (delivering d) (in_service d).
Definition set_delivering (n : nat) (d : lapic) : lapic := mk_lapic (lreg d) n (in_service d).
Definition acknowledged (d : lapic) : lapic := mk_lapic (lreg d) (delivering d) (tail (in_service d)).
(** The local vector table is stored only while the APIC is enabled. *)
Definition is_lvt (r : Registers) : bool :=
  match r with LvtTimer | PMCR | LvtLINT0 | LvtLINT1 | LvtError => true | _ => false end.
Definition is_plain (r : Registers) : bool :=
  match r with TPR | SPIV | ESR | ICRHI | TICR | TDCR => true | _ => is_lvt r end.
Definition enabled (d : lapic) : Prop := Z.testbit (lreg d SPIV) 8 = true.

Record ioapic : Type := mk_ioapic { selected_reg : Z; ioreg : Z -> Z }.
Definition set_selected (r : Z) (d : ioapic) : ioapic := mk_ioapic r (ioreg d).
Definition set_ioreg (v : Z) (d : ioapic) : ioapic :=
  mk_ioapic (selected_reg d) (fun r => if r =? selected_reg d then v else ioreg d r).

(** What the registers at [l] and at [io] do; a delivery takes at most [delay] reads. *)
Class ApicHardware {H : Type} {M : Mmio H} (l : Z) (io : IoApic.t) (delay : nat)
    (lview : H -> lapic) (ioview : H -> ioapic) : Prop := {
  lapic_width h r : 0 <= lreg (lview h) r < 2 ^ 32;
  lapic_write h r v : is_plain r = true -> (is_lvt r = true -> enabled (lview h)) -> 0 <= v < 2 ^ 32 ->
    let h' := write_volatile (u64 (l + register_offset r)) v h in
    lview h' = set_lreg r v (lview h) /\ ioview h' = ioview h;
  lapic_eoi h : let h' := write_volatile (u64 (l + register_offset EOI)) 0 h in
    lview h' = acknowledged (lview h) /\ ioview h' = ioview h;
  lapic_command h v : 0 <= v < 2 ^ 32 -> Z.testbit v 12 = false ->
    let h' := write_volatile (u64 (l + register_offset ICRLO)) v h in
    ioview h' = ioview h /\ exists k, (k <= delay)%nat /\ lview h' = set_delivering k (set_lreg ICRLO v (lview h));
  lapic_read h r : r <> ICRLO -> r <> EOI ->
    let '(v, h') := read_volatile (u64 (l + register_offset r)) h in
    v = lreg (lview h) r /\ lview h' = lview h /\ ioview h' = ioview h;
  lapic_read_icr h :
    let '(v, h') := read_volatile (u64 (l + register_offset ICRLO)) h in
    v = (if decide (delivering (lview h) = 0%nat) then lreg (lview h) ICRLO else Z.lor (lreg (lview h) ICRLO) ApicRegisters.DS) /\
    lview h' = set_delivering (pred (delivering (lview h))) (lview h) /\ ioview h' = ioview h;
  ioapic_select h v : 0 <= v < 256 ->
    let h' := write_volatile (IoApic.reg io) v h in ioview h' = set_selected v (ioview h) /\ lview h' = lview h;
  ioapic_write h v : 0 <= v < 2 ^ 32 ->
    let h' := write_volatile (IoApic.data io) v h in ioview h' = set_ioreg v (ioview h) /\ lview h' = lview h;
  ioapic_read h :
    let '(v, h') := read_volatile (IoApic.data io) h in
    v = ioreg (ioview h) (selected_reg (ioview h)) /\ ioview h' = ioview h /\ lview h' = lview h;
}.

Section drivers.
Context {H : Type} {M : Mmio H} {BF : BitField} {FL : Bitflags} {BFL : BitFieldLaws} {FLL : BitflagsLaws} (fuel : nat).
Context (l : Z) (io : IoApic.t) (delay : nat) (lview : H -> lapic) (ioview : H -> ioapic) {HW : ApicHardware l io delay lview ioview}.

(** [h'] is [h] with its local APIC in the state [d]. *)
Definition lapic_at (d : lapic) (h h' : H) : Prop := lview h' = d /\ ioview h' = ioview h.

Lemma xread_run r h : r <> ICRLO -> r <> EOI ->
  exists h', XApic.read l r h = Ret (lreg (lview h) r, h') /\ lapic_at (lview h) h h'.
Proof.
  intros H1 H2. pose proof (lapic_read h r H1 H2) as Hr. unfold XApic.read.
  destruct (read_volatile _ h) as [v h']. destruct Hr as (-> & ? & ?). by exists h'.
Qed.
(** Any write, with the read of [ID] that follows it. *)
Lemma xwrite_post r v h d : lapic_at d h (write_volatile (u64 (l + register_offset r)) v h) ->
  exists h', XApic.write l r v h = Ret (tt, h') /\ lapic_at d h h'.
Proof.
  intros [E1 E2]. destruct (xread_run ID (write_volatile (u64 (l + register_offset r)) v h)) as (h' & E & F1 & F2); [done|done|].
  exists h'. split; [|split; congruence]. unfold XApic.write, mbind, ST_bind. by rewrite E.
Qed.
Lemma xwrite_run r v h : is_plain r = true -> (is_lvt r = true -> enabled (lview h)) -> 0 <= v < 2 ^ 32 ->
  exists h', XApic.write l r v h = Ret (tt, h') /\ lapic_at (set_lreg r v (lview h)) h h'.
Proof. intros. by apply xwrite_post, lapic_write. Qed.
Lemma eoi_run h : exists h', XApic.eoi l h = Ret (tt, h') /\ lapic_at (acknowledged (lview h)) h h'.
Proof. apply xwrite_post, lapic_eoi. Qed.
Lemma icr_run v h : 0 <= v < 2 ^ 32 -> Z.testbit v 12 = false -> exists h' k, (k <= delay)%nat /\
  XApic.write l ICRLO v h = Ret (tt, h') /\ lapic_at (set_delivering k (set_lreg ICRLO v (lview h))) h h'.
Proof.
  intros Hv Hb. destruct (lapic_command h v Hv Hb) as (Eio & k & Hk & E).
  destruct (xwrite_post ICRLO v h _ (conj E Eio)) as (h' & E' & Ha). by exists h', k.
Qed.
Lemma wait_delivered_run n : forall h, (delivering (lview h) < n)%nat ->
  lreg (lview h) ICRLO = Z.lor (Z.lor ApicRegisters.BCAST ApicRegisters.INIT) ApicRegisters.TMLV ->
  exists h', XApic.wait_delivered l n h = Ret (tt, h') /\ lapic_at (set_delivering 0 (lview h)) h h'.
Proof.
  induction n as [|n IH]; intros h Hn Hl; [lia|]. cbn [XApic.wait_delivered]. pose proof (lapic_read_icr h) as Hr. unfold XApic.read.
  unfold mbind at 1, ST_bind at 1. destruct (read_volatile _ h) as [v h1]. destruct Hr as (-> & E1 & E2). rewrite Hl.
  rewrite from_bits_spec. case_decide as H0.
  - change (Z.ldiff _ _ =? 0) with true. cbn [unwrap]. rewrite st_lift_bind, contains_spec. change (_ =? ApicRegisters.DS) with false.
    exists h1. split; [done|]. split; [|done]. by rewrite E1, H0.
  - change (Z.ldiff _ _ =? 0) with true. cbn [unwrap]. rewrite st_lift_bind, contains_spec. change (_ =? ApicRegisters.DS) with true.
    destruct (IH h1) as (h' & E & F1 & F2); [rewrite E1; cbn; lia|by rewrite E1|]. exists h'. split; [exact E|].
    split; [by rewrite F1, E1|congruence].
Qed.

(** ** The local APIC after its initialisation *)
(** The processor takes interrupts from it, the timer ticks for ever and is not masked,
    the pins and the performance counter are masked. *)
Definition initialised (d : lapic) : Prop :=
  enabled d /\ lreg d SPIV mod 256 = ApicRegisters.SPI_VECTOR /\
  lreg d LvtTimer mod 256 = ApicRegisters.TIMER /\ Z.testbit (lreg d LvtTimer) 16 = false /\ Z.testbit (lreg d LvtTimer) 17 = true /\
  lreg d TICR = 0x20000 /\ lreg d TDCR = 11 /\ Forall (fun r => lreg d r = ApicRegisters.MASK) [LvtLINT0; LvtLINT1; PMCR] /\
  lreg d LvtError mod 256 = ApicRegisters.ERROR /\ lreg d TPR = 1 /\ delivering d = 0%nat.

Lemma low_byte x v : 0 <= v < 256 -> (forall j, 0 <= j < 8 -> Z.testbit x j = Z.testbit v j) -> x mod 256 = v.
Proof.
  intros Hv Hx. change 256 with (2 ^ 8) in *. rewrite <- (Z.mod_small v (2 ^ 8)) by lia. apply Z.bits_inj'. intros j Hj.
  destruct (decide (j < 8)).
  - rewrite !Z.mod_pow2_bits_low by lia. apply Hx. lia.
  - by rewrite !Z.mod_pow2_bits_high by lia.
Qed.
(** Putting a vector into the low byte of a register. *)
Lemma vector_bits x v : 0 <= x < 2 ^ 32 -> 0 <= v < 256 ->
  0 <= set_bits x 0 8 v < 2 ^ 32 /\ set_bits x 0 8 v mod 256 = v /\ forall j, 8 <= j -> Z.testbit (set_bits x 0 8 v) j = Z.testbit x j.
Proof.
  intros Hx Hv. destruct (set_bits_spec x 0 8 v) as [Hw Hb]; [lia..|]. split; [done|]. split.
  - apply low_byte; [done|]. intros j Hj. rewrite Hb, (proj2 (Z.leb_le 0 j)), (proj2 (Z.ltb_lt j 8)) by lia. cbn [andb]. f_equal. lia.
  - intros j Hj. rewrite Hb, (proj2 (Z.ltb_ge j 8)), andb_false_r by lia. done.
Qed.
Lemma set_bit_low x i b : 0 <= x < 2 ^ 32 -> 8 <= i < 32 -> set_bit x i b mod 256 = x mod 256.
Proof.
  intros Hx Hi. destruct (set_bit_spec x i b) as [_ Hb]; [lia..|]. apply low_byte; [apply Z.mod_pos_bound; lia|].
  intros j Hj. rewrite Hb, (proj2 (Z.eqb_neq j i)) by lia. change 256 with (2 ^ 8). by rewrite Z.mod_pow2_bits_low by lia.
Qed.

Lemma lreg_set r v d : lreg (set_lreg r v d) r = v.
Proof. cbn. by rewrite decide_True. Qed.
Lemma lreg_set_ne r r' v d : r' <> r -> lreg (set_lreg r v d) r' = lreg d r'.
Proof. intros. cbn. by rewrite decide_False. Qed.

Lemma enabled_set r v d : r <> SPIV -> enabled d -> enabled (set_lreg r v d).
Proof. intros. unfold enabled. by rewrite lreg_set_ne by congruence. Qed.

(** One access: the state of the local APIC before it is known as [D], and after it too. *)
Ltac lapic_step D G := match goal with
  | |- context [(XApic.read l ?r ≫= _) ?h] =>
      let h' := fresh "h" in let E := fresh "E" in let F := fresh "F" in let G' := fresh "G" in
      destruct (xread_run r h) as (h' & E & F & G'); [discriminate|discriminate|];
      rewrite (st_bind_run _ _ _ _ _ E); rewrite D in F |- *; rewrite G in G'; clear E D G; rename F into D; rename G' into G
  | |- context [(XApic.write l ?r ?v ≫= _) ?h] =>
      let h' := fresh "h" in let E := fresh "E" in let F := fresh "F" in let G' := fresh "G" in
      destruct (xwrite_run r v h) as (h' & E & F & G'); [reflexivity|first [discriminate|intros _; rewrite D; repeat (apply enabled_set; [discriminate|]); assumption]|done|];
      rewrite (st_bind_run _ _ _ _ _ E); rewrite D in F; rewrite G in G'; clear E D G; rename F into D; rename G' into G
  end.
(** What the code makes of the three registers that it changes in part. *)
Definition init_spiv (v : Z) : Z := set_bits (set_bit v 8 true) 0 8 ApicRegisters.SPI_VECTOR.
Definition init_timer (v : Z) : Z := set_bit (set_bit (set_bits v 0 8 ApicRegisters.TIMER) 16 false) 17 true.
Lemma init_spiv_bits v : 0 <= v < 2 ^ 32 ->
  0 <= init_spiv v < 2 ^ 32 /\ init_spiv v mod 256 = ApicRegisters.SPI_VECTOR /\ Z.testbit (init_spiv v) 8 = true.
Proof.
  intros Hv. destruct (set_bit_spec v 8 true) as [Hs1 Hs2]; [done|lia|].
  destruct (vector_bits (set_bit v 8 true) ApicRegisters.SPI_VECTOR) as (Hv1 & Hv2 & Hv3); [done|done|].
  split; [done|]. split; [done|]. unfold init_spiv. by rewrite Hv3, Hs2 by lia.
Qed.
Lemma init_timer_bits v : 0 <= v < 2 ^ 32 -> 0 <= init_timer v < 2 ^ 32 /\ init_timer v mod 256 = ApicRegisters.TIMER /\
  Z.testbit (init_timer v) 16 = false /\ Z.testbit (init_timer v) 17 = true.
Proof.
  intros Hv. destruct (vector_bits v ApicRegisters.TIMER) as (Ht1 & Ht2 & Ht3); [done|done|].
  unfold init_timer. set (t1 := set_bits v 0 8 ApicRegisters.TIMER) in *.
  destruct (set_bit_spec t1 16 false) as [Hu1 Hu2]; [done|lia|]. set (t2 := set_bit t1 16 false) in *.
  destruct (set_bit_spec t2 17 true) as [Hx1 Hx2]; [done|lia|]. split; [done|].
  split; [unfold t2; rewrite !set_bit_low by (done || lia); done|]. rewrite !Hx2, Hu2 by lia. done.
Qed.
Lemma cpu_init_run h : (delay < fuel)%nat ->
  exists h', XApic.cpu_init fuel l h = Ret (tt, h') /\ ioview h' = ioview h /\ initialised (lview h').
Proof.
  intros Hf. unfold XApic.cpu_init. pose proof (lapic_width h) as Hw. set (d := lview h) in *.
  set (g := ioview h). assert (D : lview h = d) by done. assert (G : ioview h = g) by done.
  destruct (init_spiv_bits (lreg d SPIV)) as (S1 & S2 & S3); [done|].
  destruct (init_timer_bits (lreg d LvtTimer)) as (T1 & T2 & T3 & T4); [done|].
  destruct (vector_bits (lreg d LvtError) ApicRegisters.ERROR) as (R1 & R2 & _); [done|done|].
  lapic_step D G. change (set_bits (set_bit _ 8 true) 0 8 _) with (init_spiv (lreg d SPIV)).
  lapic_step D G. assert (He : enabled (set_lreg SPIV (init_spiv (lreg d SPIV)) d)) by (unfold enabled; by rewrite lreg_set).
  set (d1 := set_lreg SPIV _ d) in *.
  lapic_step D G. lapic_step D G.
  change (lreg (set_lreg TDCR 11 d1) LvtTimer) with (lreg d LvtTimer).
  change (set_bit (set_bit (set_bits _ 0 8 _) 16 false) 17 true) with (init_timer (lreg d LvtTimer)).
  do 6 lapic_step D G.
  match goal with |- context [lreg (set_lreg PMCR ?v ?x) LvtError] => change (lreg (set_lreg PMCR v x) LvtError) with (lreg d LvtError) end.
  do 3 lapic_step D G. destruct (eoi_run h12) as (ha & E & F & G1). unfold XApic.eoi in E. rewrite (st_bind_run _ _ _ _ _ E).
  rewrite D in F. rewrite G in G1. clear D G E. lapic_step F G1.
  destruct (icr_run (Z.lor (Z.lor ApicRegisters.BCAST ApicRegisters.INIT) ApicRegisters.TMLV) h13) as (hb & k & Hk & E & F2 & G2); [done|done|].
  rewrite (st_bind_run _ _ _ _ _ E). rewrite F in F2. rewrite G1 in G2. clear E F G1.
  destruct (wait_delivered_run fuel hb) as (hc & E & F3 & G3); [rewrite F2; cbn; lia|by rewrite F2|].
  rewrite (st_bind_run _ _ _ _ _ E). rewrite F2 in F3. rewrite G2 in G3. clear E F2 G2.
  destruct (xwrite_run TPR 1 hc) as (hd & -> & F4 & G4); [done|done|done|]. exists hd. rewrite F3 in F4. rewrite G3 in G4.
  split; [done|]. split; [done|]. rewrite F4. split; [exact S3|]. split; [exact S2|]. split; [exact T2|]. split; [exact T3|].
  split; [exact T4|]. split; [done|]. split; [done|]. split; [by repeat constructor|]. by split.
Qed.

(** ** Routing an interrupt *)
Lemma lor_width32 a b : 0 <= a < 2 ^ 32 -> 0 <= b < 2 ^ 32 -> 0 <= Z.lor a b < 2 ^ 32.
Proof.
  intros Ha Hb. assert (0 <= Z.lor a b) by (apply Z.lor_nonneg; lia). split; [done|].
  destruct (decide (Z.lor a b = 0)) as [->|Hn]; [lia|]. apply Z.log2_lt_pow2; [lia|]. rewrite Z.log2_lor by lia.
  destruct (decide (a = 0)) as [->|Ha0], (decide (b = 0)) as [->|Hb0]; cbn [Z.log2];
    try (assert (Z.log2 a < 32) by (apply Z.log2_lt_pow2; lia)); try (assert (Z.log2 b < 32) by (apply Z.log2_lt_pow2; lia)); lia.
Qed.
Lemma iowrite_run r v h : 0 <= r < 256 -> 0 <= v < 2 ^ 32 -> exists h', IoApic.write io r v h = Ret (tt, h') /\
  lview h' = lview h /\ ioview h' = set_ioreg v (set_selected r (ioview h)).
Proof.
  intros Hr Hv. unfold IoApic.write. eexists. split; [done|]. destruct (ioapic_select h r Hr) as [E1 E2].
  destruct (ioapic_write (write_volatile (IoApic.reg io) r h) v Hv) as [E3 E4]. split; congruence.
Qed.
(** The entry of [irq] gets the vector [32 + irq], the flags and the destination, and no other entry changes. *)
Lemma write_irq_run irq flags dest h : 0 <= irq < 120 -> 0 <= flags < 2 ^ 32 -> 0 <= dest < 256 ->
  exists h', IoApic.write_irq io irq flags dest h = Ret (tt, h') /\ lview h' = lview h /\
    ioreg (ioview h') (0x10 + 2 * irq) = Z.lor (32 + irq) flags /\ ioreg (ioview h') (0x10 + 2 * irq + 1) = Z.shiftl dest 24 /\
    forall r, r <> 0x10 + 2 * irq -> r <> 0x10 + 2 * irq + 1 -> ioreg (ioview h') r = ioreg (ioview h) r.
Proof.
  intros Hi Hf Hd. unfold IoApic.write_irq. rewrite !(wrap_small 8 (2 * irq)), !(wrap_small 8 (0x10 + 2 * irq)),
    (wrap_small 8 (32 + irq)), (wrap_small 8 (0x10 + 2 * irq + 1)) by lia.
  assert (Hs : 0 <= Z.shiftl dest 24 < 2 ^ 32) by (rewrite Z.shiftl_mul_pow2 by lia; lia). rewrite (wrap_small 32) by lia.
  destruct (iowrite_run (0x10 + 2 * irq) (Z.lor (32 + irq) flags) h) as (h1 & E1 & F1 & G1); [lia|by apply lor_width32; lia|].
  rewrite (st_bind_run _ _ _ _ _ E1).
  destruct (iowrite_run (0x10 + 2 * irq + 1) (Z.shiftl dest 24) h1) as (h2 & E2 & F2 & G2); [lia|done|].
  exists h2. split; [exact E2|]. split; [congruence|]. rewrite G2, G1. cbn.
  rewrite Z.eqb_refl, (proj2 (Z.eqb_neq (0x10 + 2 * irq) (0x10 + 2 * irq + 1))), Z.eqb_refl by lia. split; [done|]. split; [done|].
  intros r H1 H2. by rewrite (proj2 (Z.eqb_neq r _) H1), (proj2 (Z.eqb_neq r _) H2).
Qed.
End drivers.
