(* ===== verification/X86.v ===== *)
(** * The machine and the crates that describe it

    The kernel is written against the crates [x86_64], [xmas_elf] and [uefi],
    which are not part of the repository, and against the hardware.  Their
    operations are the fields of the classes below; the classes [...Laws] state
    the documented behaviour that theorems rely on.  A page or a frame is its
    start address, an address is a 64-bit number.

    The file ends with a small machine that satisfies the laws; the witnesses
    run on it. *)

From stdpp Require Import base numbers list gmap.
From S2P Require Import Prelude Bytes.

(** [MapToError<Size4KiB>], [UnmapError] and [PageTableFlags] of [x86_64]. *)
Inductive MapToError : Type :=
| FrameAllocationFailed
| ParentEntryHugePage
| PageAlreadyMapped (frame : Z).
Inductive UnmapError : Type :=
| UnmapParentEntryHugePage
| PageNotMapped
| InvalidFrameAddress (addr : Z).
Record PageTableFlags : Type := {
  PRESENT : bool; WRITABLE : bool; USER_ACCESSIBLE : bool; NO_EXECUTE : bool;
}.
Global Instance MapToError_eq_dec : EqDecision MapToError.
Proof. solve_decision. Defined.
Global Instance UnmapError_eq_dec : EqDecision UnmapError.
Proof. solve_decision. Defined.
Global Instance PageTableFlags_eq_dec : EqDecision PageTableFlags.
Proof. solve_decision. Defined.

(** Is [trace!] enabled ([log::max_level])?  The arguments of a [trace!] are
    evaluated only when it is. *)
Class Log : Type := { trace_enabled : bool }.

(** ** Addresses and pages *)

Class X86 : Type := {
  VirtAddr_new : Z -> outcome Z;
  VirtAddr_add : Z -> Z -> outcome Z;
  VirtAddr_sub : Z -> Z -> outcome Z;
  PhysAddr_new : Z -> outcome Z;
  align_up : Z -> Z -> outcome Z;
  (** [Page::containing_address], [PhysFrame::containing_address] *)
  Page_containing : Z -> Z;
  Frame_containing : Z -> Z;
  (** [Page + u64], [Page - u64], [Page - Page] *)
  Page_add : Z -> Z -> outcome Z;
  Page_sub : Z -> Z -> outcome Z;
  Page_diff : Z -> Z -> outcome Z;
  (** the pages that [Page::range(a, b)] and [Page::range_inclusive(a, b)] yield *)
  Page_range : Z -> Z -> list Z;
  Page_range_inclusive : Z -> Z -> list Z;
}.

(** Addresses of the lower half, which is where user memory is. *)
Definition low (a : Z) : Prop := 0 <= a < 2 ^ 47.
Definition page_aligned (a : Z) : Prop := a mod 4096 = 0.

(** [n] pages from [p] on. *)
Definition pages_from (p : Z) (n : nat) : list Z :=
  (fun i => p + 4096 * Z.of_nat i) <$> seq 0 n.

(** Documented behaviour, on canonical addresses of the lower half;
    [VirtAddr::new] panics on an address that is not canonical. *)
Class X86Laws `{X86} : Prop := {
  VirtAddr_new_low a : low a -> VirtAddr_new a = Ret a;
  VirtAddr_new_noncanonical a : 2 ^ 47 <= a < 2 ^ 64 - 2 ^ 47 -> VirtAddr_new a = Panic;
  VirtAddr_add_low a n : low a -> 0 <= n -> low (a + n) -> VirtAddr_add a n = Ret (a + n);
  VirtAddr_sub_low a n : low a -> 0 <= n -> low (a - n) -> VirtAddr_sub a n = Ret (a - n);
  (** subtraction panics on underflow, and is exact otherwise *)
  VirtAddr_sub_exact a n b : low a -> 0 <= n -> VirtAddr_sub a n = Ret b -> b = a - n /\ low b;
  Page_sub_exact p n q : low p -> page_aligned p -> 0 <= n < 2 ^ 52 -> Page_sub p n = Ret q ->
    q = p - 4096 * n /\ low q;
  PhysAddr_new_low a : 0 <= a < 2 ^ 52 -> PhysAddr_new a = Ret a;
  align_up_low a n : low a -> 0 < n -> (n | 2 ^ 40) -> align_up a n = Ret ((a + n - 1) / n * n);
  Page_containing_low a : low a -> Page_containing a = a - a mod 4096;
  Frame_containing_low a : 0 <= a < 2 ^ 52 -> Frame_containing a = a - a mod 4096;
  Page_add_low p n : low p -> page_aligned p -> 0 <= n -> low (p + 4096 * n) ->
    Page_add p n = Ret (p + 4096 * n);
  Page_sub_low p n : low p -> page_aligned p -> 0 <= n -> low (p - 4096 * n) ->
    Page_sub p n = Ret (p - 4096 * n);
  Page_diff_low p q : low p -> low q -> page_aligned p -> page_aligned q -> q <= p ->
    Page_diff p q = Ret ((p - q) / 4096);
  Page_range_low p n : low p -> page_aligned p -> low (p + 4096 * Z.of_nat n) ->
    Page_range p (p + 4096 * Z.of_nat n) = pages_from p n;
  Page_range_inclusive_low p n : low p -> page_aligned p -> low (p + 4096 * Z.of_nat n) ->
    Page_range_inclusive p (p + 4096 * (Z.of_nat n - 1)) = pages_from p n;
}.

(** Either half of the canonical addresses: as long as they stay in it, sums and differences are exact. *)
Class HalfLaws `{X86} (lo hi : Z) : Prop := {
  half_new a : lo <= a < hi -> VirtAddr_new a = Ret a;
  half_add a n : lo <= a -> 0 <= n -> a + n < hi -> VirtAddr_add a n = Ret (a + n);
  half_sub a n : a < hi -> 0 <= n -> lo <= a - n -> VirtAddr_sub a n = Ret (a - n);
  half_align_up a n : lo <= a -> 0 < n -> (n | 2 ^ 40) -> a + n < hi -> align_up a n = Ret ((a + n - 1) / n * n);
  half_containing a : lo <= a < hi -> Page_containing a = a - a mod 4096;
  half_page_add p n : lo <= p -> page_aligned p -> 0 <= n -> p + 4096 * n < hi -> Page_add p n = Ret (p + 4096 * n);
  half_page_sub p n : p < hi -> page_aligned p -> 0 <= n -> lo <= p - 4096 * n -> Page_sub p n = Ret (p - 4096 * n);
  half_range_inclusive p n : lo <= p -> page_aligned p -> p + 4096 * Z.of_nat n < hi ->
    Page_range_inclusive p (p + 4096 * (Z.of_nat n - 1)) = pages_from p n;
}.
Global Instance low_half `{X86Laws} : HalfLaws 0 (2 ^ 47).
Proof.
  split; intros.
  - by apply VirtAddr_new_low.
  - apply VirtAddr_add_low; unfold low; lia.
  - apply VirtAddr_sub_low; unfold low; lia.
  - apply align_up_low; unfold low; done || lia.
  - by apply Page_containing_low.
  - apply Page_add_low; unfold low; done || lia.
  - apply Page_sub_low; unfold low; done || lia.
  - apply Page_range_inclusive_low; unfold low; done || lia.
Qed.
(** The addresses of the upper half, where the kernel is. *)
Definition high_start : Z := 2 ^ 64 - 2 ^ 47.

(** ** Frames, page tables and memory *)

(** The traits [FrameAllocator<Size4KiB>] and [FrameDeallocator<Size4KiB>]. *)
Class FrameAllocator (A : Type) : Type := {
  allocate_frame : A -> outcome (option Z * A);
}.
Class FrameDeallocator (A : Type) : Type := {
  deallocate_frame : Z -> A -> A;
}.

(** Memory as the processor sees it.  A page table is named by the frame of its
    level-4 table; [map_to] may take frames for the lower levels from the
    allocator, [clean_up] gives such frames back. *)
Class Machine (M : Type) : Type := {
  translate_page : M -> Z -> Z -> option Z;
  (** the flags in the entry of a page *)
  page_flags : M -> Z -> Z -> option PageTableFlags;
  map_to {A} `{FrameAllocator A} : M -> A -> Z -> Z -> Z -> PageTableFlags ->
    outcome (result unit MapToError * (M * A));
  unmap : M -> Z -> Z -> result Z UnmapError * M;
  clean_up_tables {A} `{FrameDeallocator A} : M -> A -> Z -> M * A;
  copy_nonoverlapping : M -> Z -> Z -> Z -> M;
  write_bytes : M -> Z -> Z -> Z -> M;
  read_memory : M -> Z -> Z -> bytes;
  write_memory : M -> Z -> bytes -> M;
  Cr3_read : M -> Z * Z;
  Cr3_write : M -> Z -> Z -> M;
}.

(** [I] is an invariant of an allocator that never panics. *)
Definition alloc_closed {A} `{FrameAllocator A} (I : A -> Prop) : Prop :=
  forall a, I a -> exists r a', allocate_frame a = Ret (r, a') /\ I a'.

(** [Mapper::map_to], [unmap] and [translate_page] as documented. *)
Class MachineLaws (M : Type) `{Machine M} : Prop := {
  (** it returns, and uses the allocator only to allocate *)
  map_to_returns {A} `{FrameAllocator A} (I : A -> Prop) m a l4 p f fl :
    alloc_closed I -> I a ->
    exists r m' a', map_to m a l4 p f fl = Ret (r, (m', a')) /\ I a';
  map_to_ok {A} `{FrameAllocator A} m (a : A) l4 p f fl m' a' :
    map_to m a l4 p f fl = Ret (Ok tt, (m', a')) ->
    translate_page m l4 p = None /\
    translate_page m' l4 p = Some f /\
    (forall q, q <> p -> translate_page m' l4 q = translate_page m l4 q);
  map_to_err {A} `{FrameAllocator A} m (a : A) l4 p f fl e m' a' :
    map_to m a l4 p f fl = Ret (Err e, (m', a')) ->
    forall q, translate_page m' l4 q = translate_page m l4 q;
  (** the entry of the page gets the flags, those of other pages are kept *)
  map_to_flags {A} `{FrameAllocator A} m (a : A) l4 p f fl m' a' :
    map_to m a l4 p f fl = Ret (Ok tt, (m', a')) -> page_flags m' l4 p = Some fl;
  map_to_flags_kept {A} `{FrameAllocator A} m (a : A) l4 p f fl r m' a' :
    map_to m a l4 p f fl = Ret (r, (m', a')) ->
    forall q, (r = Ok tt -> q <> p) -> page_flags m' l4 q = page_flags m l4 q;
  unmap_flags_kept m l4 p r m' :
    unmap m l4 p = (r, m') -> forall q, q <> p -> page_flags m' l4 q = page_flags m l4 q;
  unmap_ok m l4 p f m' :
    unmap m l4 p = (Ok f, m') ->
    translate_page m l4 p = Some f /\ translate_page m' l4 p = None /\
    (forall q, q <> p -> translate_page m' l4 q = translate_page m l4 q);
  unmap_mapped m l4 p f :
    translate_page m l4 p = Some f -> exists m', unmap m l4 p = (Ok f, m');
  unmap_err m l4 p e m' :
    unmap m l4 p = (Err e, m') ->
    forall q, translate_page m' l4 q = translate_page m l4 q;
}.

(** ** ELF files ([xmas_elf]): what the accessors of a parsed file return *)
Record ProgramHeader : Type := {
  ph_load : result bool unit;   (* get_type() == Load *)
  ph_offset : Z; ph_vaddr : Z; ph_filesz : Z; ph_memsz : Z;
  ph_execute : bool; ph_write : bool;
}.
Record ElfFile : Type := {
  elf_input : Z;                (* input.as_ptr() *)
  elf_entry : Z;                (* header.pt2.entry_point() *)
  program_iter : list ProgramHeader;
}.

(** ** A small machine, for the witnesses *)

Definition canonical (a : Z) : Prop := 0 <= a < 2 ^ 47 \/ high_start <= a < 2 ^ 64.
Global Instance canonical_dec a : Decision (canonical a).
Proof. unfold canonical. apply _. Defined.

Definition demo_x86 : X86 := {|
  VirtAddr_new a := if decide (canonical a) then Ret a else Panic;
  VirtAddr_add a n := if decide (canonical (a + n)) then Ret (a + n) else Panic;
  VirtAddr_sub a n := if decide (canonical (a - n)) then Ret (a - n) else Panic;
  PhysAddr_new a := if decide (0 <= a < 2 ^ 52) then Ret a else Panic;
  align_up a n := if decide (0 < n) then Ret ((a + n - 1) / n * n) else Panic;
  Page_containing a := a - a mod 4096;
  Frame_containing a := a - a mod 4096;
  Page_add p n := if decide (canonical (p + 4096 * n)) then Ret (p + 4096 * n) else Panic;
  Page_sub p n := if decide (canonical (p - 4096 * n)) then Ret (p - 4096 * n) else Panic;
  Page_diff p q := if decide (q <= p) then Ret ((p - q) / 4096) else Panic;
  Page_range p q := pages_from p (Z.to_nat ((q - p) / 4096));
  Page_range_inclusive p q := pages_from p (Z.to_nat ((q - p) / 4096 + 1));
|}.

Lemma demo_x86_laws : @X86Laws demo_x86.
Proof.
  split; cbn; intros; unfold low, canonical, high_start in *;
    try (destruct (decide _); [simplify_eq; split; [done|lia]|done]);
    try (rewrite decide_True by (done || lia); done);
    try (rewrite decide_False by lia; done); try done.
  - do 2 f_equal. rewrite Z.add_simpl_l. rewrite Z.mul_comm, Z.div_mul; lia.
  - f_equal. rewrite Z.add_simpl_l. rewrite Z.mul_comm, Z.div_mul; lia.
Qed.

Lemma demo_x86_high : @HalfLaws demo_x86 high_start (2 ^ 64).
Proof.
  split; cbn; intros; unfold canonical, high_start in *; try (rewrite decide_True by (done || lia); done); try done.
  f_equal. rewrite Z.add_simpl_l, Z.mul_comm, Z.div_mul; lia.
Qed.

Record demo_machine : Type := {
  dm_maps : gmap (Z * Z) Z; dm_flags : gmap (Z * Z) PageTableFlags; dm_mem : gmap Z Z; dm_cr3 : Z * Z;
}.
(** Memory is zero where nothing was written. *)
Definition dm_read (m : demo_machine) (a n : Z) : bytes :=
  (fun i => default 0 (dm_mem m !! (a + Z.of_nat i))) <$> seq 0 (Z.to_nat n).
Definition dm_write (m : demo_machine) (a : Z) (l : bytes) : demo_machine := {|
  dm_maps := dm_maps m; dm_flags := dm_flags m; dm_cr3 := dm_cr3 m;
  dm_mem := snd (fold_left (fun am b => (am.1 + 1, if b =? 0 then delete am.1 am.2 else <[am.1 := b]> am.2)) l (a, dm_mem m)) |}.

Global Instance demo_Machine : Machine demo_machine := {|
  translate_page m l4 p := dm_maps m !! (l4, p);
  page_flags m l4 p := dm_flags m !! (l4, p);
  map_to _ _ m a l4 p f fl :=
    match dm_maps m !! (l4, p) with
    | Some _ => Ret (Err (PageAlreadyMapped f), (m, a))
    | None => Ret (Ok tt, ({| dm_maps := <[(l4, p) := f]> (dm_maps m); dm_flags := <[(l4, p) := fl]> (dm_flags m);
                              dm_mem := dm_mem m; dm_cr3 := dm_cr3 m |}, a))
    end;
  unmap m l4 p :=
    match dm_maps m !! (l4, p) with
    | Some f => (Ok f, {| dm_maps := delete (l4, p) (dm_maps m); dm_flags := delete (l4, p) (dm_flags m);
                          dm_mem := dm_mem m; dm_cr3 := dm_cr3 m |})
    | None => (Err PageNotMapped, m)
    end;
  clean_up_tables _ _ m a _ := (m, a);
  copy_nonoverlapping m src dst n := dm_write m dst (dm_read m src n);
  write_bytes m dst b n := dm_write m dst (replicate (Z.to_nat n) b);
  read_memory := dm_read;
  write_memory := dm_write;
  Cr3_read m := dm_cr3 m;
  Cr3_write m f fl := {| dm_maps := dm_maps m; dm_flags := dm_flags m; dm_mem := dm_mem m; dm_cr3 := (f, fl) |};
|}.

Global Instance demo_Machine_laws : MachineLaws demo_machine.
Proof.
  split; cbn.
  - intros A ? I m a l4 p f fl _ Ha. destruct (dm_maps m !! (l4, p)); eauto.
  - intros A ? m a l4 p f fl m' a'. destruct (dm_maps m !! (l4, p)) eqn:E; [done|].
    intros [= <- <-]. cbn. split; [done|]. split; [by rewrite lookup_insert_eq|].
    intros q Hq. rewrite lookup_insert_ne; [done|congruence].
  - intros A ? m a l4 p f fl e m' a'. destruct (dm_maps m !! (l4, p)) eqn:E; [|done].
    by intros [= <- <- <-].
  - intros A ? m a l4 p f fl m' a'. destruct (dm_maps m !! (l4, p)) eqn:E; [done|].
    intros [= <- <-]. cbn. by rewrite lookup_insert_eq.
  - intros A ? m a l4 p f fl r m' a'. destruct (dm_maps m !! (l4, p)) eqn:E; intros [= <- <- <-]; [done|].
    intros q Hq. cbn. rewrite lookup_insert_ne; [done|]. intros [= <-]. by apply Hq.
  - intros m l4 p r m'. destruct (dm_maps m !! (l4, p)) eqn:E; intros [= <- <-]; [|done].
    intros q Hq. cbn. rewrite lookup_delete_ne; [done|congruence].
  - intros m l4 p f m'. destruct (dm_maps m !! (l4, p)) eqn:E; [|done].
    intros [= <- <-]. cbn. split; [done|]. split; [by rewrite lookup_delete_eq|].
    intros q Hq. rewrite lookup_delete_ne; [done|congruence].
  - intros m l4 p f ->. eauto.
  - intros m l4 p e m'. destruct (dm_maps m !! (l4, p)) eqn:E; [done|]. by intros [= <- <-].
Qed.
