(* ===== verification/Logger.v ===== *)
(** * The log

    Models [pkg/kernel/src/utils/logger.rs].  The crate [log] asks the logger for a record when the record's level is within the maximum level that was
    set; [LogCrate] is that test, and [LogCrateLaws] its documentation.  The rest of the development takes whether [trace!] evaluates its arguments as the class [Log]; [kernel_log]
    is what this comes to. *)

From Stdlib Require Import Ascii String.
From stdpp Require Import base numbers list.
From S2P Require Import Prelude Bytes Str Num X86.

Inductive Level : Type := LError | LWarn | LInfo | LDebug | LTrace.
Inductive LevelFilter : Type := FOff | FError | FWarn | FInfo | FDebug | FTrace.
Definition level_rank (l : Level) : nat := match l with LError => 1 | LWarn => 2 | LInfo => 3 | LDebug => 4 | LTrace => 5 end.
Definition filter_rank (f : LevelFilter) : nat := match f with FOff => 0 | FError => 1 | FWarn => 2 | FInfo => 3 | FDebug => 4 | FTrace => 5 end.
Class LogCrate : Type := { within : Level -> LevelFilter -> bool }.
Class LogCrateLaws (LC : LogCrate) : Prop := { within_rank l f : within l f = true <-> (level_rank l <= filter_rank f)%nat }.

(** [init]: the maximum level for the name in the boot information. *)
Definition max_level (log_level : str) : LevelFilter :=
  if decide (log_level = chars "Error") then FError
  else if decide (log_level = chars "Warn") then FWarn
  else if decide (log_level = chars "Info") then FInfo
  else if decide (log_level = chars "Debug") then FDebug
  else if decide (log_level = chars "Trace") then FTrace
  else FInfo.
(** [Logger::enabled] compares the level with itself. *)
Definition logger_enabled (level : Level) : bool := Nat.leb (level_rank level) (level_rank level).
(** [Logger::log]: what is printed of a record. *)
Definition logger_log (level : Level) (args : str) : list (Level * str) := if logger_enabled level then [(level, args)] else [].
(** A record on its way through the crate. *)
Definition log_record `{LogCrate} (log_level : str) (level : Level) (args : str) : list (Level * str) :=
  if within level (max_level log_level) then logger_log level args else [].
Definition kernel_log `{LogCrate} (log_level : str) : Log := {| trace_enabled := within LTrace (max_level log_level) |}.

(** Which records are printed.  Those whose level is at most the configured one: the five names have their meaning, every other text is taken for [Info].
    The logger's own test lets everything pass.  The arguments of [trace!] are evaluated for the name [Trace] alone. *)
Theorem log_levels `{LogCrateLaws} log_level level args :
  log_record log_level level args = (if decide (level_rank level <= filter_rank (max_level log_level))%nat then [(level, args)] else []) /\
  logger_enabled level = true /\
  (forall l name, (l, name) ∈ [(LError, "Error"); (LWarn, "Warn"); (LInfo, "Info"); (LDebug, "Debug"); (LTrace, "Trace")]%string ->
     filter_rank (max_level (chars name)) = level_rank l) /\
  (filter_rank (max_level log_level) <> 3%nat -> log_level ∈ (chars <$> ["Error"; "Warn"; "Debug"; "Trace"]%string)) /\
  (@trace_enabled (kernel_log log_level) = true <-> log_level = chars "Trace").
Proof.
  assert (He : logger_enabled level = true) by by destruct level. split; [|split; [done|split; [|split]]].
  - unfold log_record, logger_log. rewrite He. pose proof (within_rank level (max_level log_level)) as Hw.
    destruct (within level _) eqn:Ew, (decide _) as [Hd|Hd]; try done; [by destruct Hd; apply Hw|apply Hw in Hd; congruence].
  - intros l name Hin. repeat (apply elem_of_cons in Hin as [[= -> ->]|Hin]; [vm_compute; reflexivity|]). by apply elem_of_nil in Hin.
  - unfold max_level. intros Hr. cbn [fmap list_fmap]. rewrite !elem_of_cons. repeat (destruct (decide _) as [->|]; [auto; done|]). done.
  - cbn. rewrite within_rank. unfold max_level. split; [|intros ->; vm_compute; lia].
    repeat (destruct (decide _) as [->|]; [cbn; intros; first [done|lia]|]). cbn. lia.
Qed.
#[local] Instance demo_log_crate : LogCrate := {| within l f := Nat.leb (level_rank l) (filter_rank f) |}.
#[local] Instance demo_log_crate_laws : LogCrateLaws demo_log_crate.
Proof. split. intros l f. apply Nat.leb_le. Qed.
Lemma log_levels_witness : log_record (chars "Warn") LInfo [] = [] /\ log_record (chars "warn") LInfo [] = [(LInfo, [])].
Proof.
  split; [rewrite (proj1 (log_levels (chars "Warn") LInfo []))|rewrite (proj1 (log_levels (chars "warn") LInfo []))]; vm_compute; reflexivity.
Defined.
