(* ===== verification/Frames.v ===== *)
(** * The frame allocator

    Models [pkg/kernel/src/memory/frames.rs], [address.rs] and the memory
    accounting of [memory/mod.rs]. *)

From stdpp Require Import base numbers list gmap.
From S2P Require Import Prelude Bytes X86.

Definition PAGE_SIZE : Z := 4096.
Definition FRAME_SIZE : Z := PAGE_SIZE.
(** [physical_to_virtual], with the offset that [PHYSICAL_OFFSET] holds; 64-bit. *)
Definition physical_to_virtual (physical_offset addr : Z) : Z := u64 (addr + physical_offset).

(** The descriptors of the UEFI memory map, and the tag of usable memory. *)
Class Uefi : Type := { CONVENTIONAL : Z }.
Record MemoryDescriptor : Type := { ty : Z; phys_start : Z; page_count : Z }.

(** [recycled] is the vector with its last element first, [frames] the addresses
    that the iterator has still to yield. *)
Record BootInfoFrameAllocator : Type := {
  size : Z;
  used : Z;
  frames : list Z;
  recycled : list Z;
}.

Section ops.
Context {X : X86} {U : Uefi}.

(** The addresses of [create_frame_iter], before [PhysFrame::containing_address]. *)
Definition create_frame_iter (memory_map : list MemoryDescriptor) : list Z :=
  List.filter (fun r => ty r =? CONVENTIONAL) memory_map ≫=
  (fun r => (fun v => u64 (u64 (v * 4096) + phys_start r)) <$> seqZ 0 (page_count r)).

Definition init (memory_map : list MemoryDescriptor) (sz : Z) : BootInfoFrameAllocator :=
  {| size := sz; frames := create_frame_iter memory_map; used := 0; recycled := [] |}.

Definition frames_used (a : BootInfoFrameAllocator) : Z := used a.
Definition frames_total (a : BootInfoFrameAllocator) : Z := size a.
Definition frames_recycled (a : BootInfoFrameAllocator) : Z := zlen (recycled a).

(** [FrameAllocator::allocate_frame]: the counter moves also when the iterator
    has nothing left. *)
Definition BootInfo_allocate_frame (a : BootInfoFrameAllocator)
    : outcome (option Z * BootInfoFrameAllocator) :=
  match recycled a with
  | f :: rest =>
      Ret (Some f, {| size := size a; used := used a; frames := frames a; recycled := rest |})
  | [] =>
      match frames a with
      | [] => Ret (None, {| size := size a; used := u64 (used a + 1); frames := [];
                            recycled := [] |})
      | addr :: rest =>
          pa ← PhysAddr_new addr;
          Ret (Some (Frame_containing pa),
               {| size := size a; used := u64 (used a + 1); frames := rest; recycled := [] |})
      end
  end.

Definition BootInfo_deallocate_frame (frame : Z) (a : BootInfoFrameAllocator)
    : BootInfoFrameAllocator :=
  {| size := size a; used := used a; frames := frames a; recycled := frame :: recycled a |}.

Global Instance BootInfo_FrameAllocator : FrameAllocator BootInfoFrameAllocator :=
  {| allocate_frame := BootInfo_allocate_frame |}.
Global Instance BootInfo_FrameDeallocator : FrameDeallocator BootInfoFrameAllocator :=
  {| deallocate_frame := BootInfo_deallocate_frame |}.

(** [memory::init]: total and usable page counts, 64-bit sums. *)
Definition memory_sizes (memory_map : list MemoryDescriptor) : Z * Z :=
  fold_left (fun '(mem_size, usable) item =>
      (u64 (mem_size + page_count item),
       if ty item =? CONVENTIONAL then u64 (usable + page_count item) else usable))
    memory_map (0, 0).
Definition memory_init (memory_map : list MemoryDescriptor) : BootInfoFrameAllocator :=
  init memory_map (memory_sizes memory_map).2.

(** ** Runs of the allocator

    A state is the allocator, the frames handed out and not yet given back, and
    the number of allocations that found nothing. *)
Inductive frame_step :
    BootInfoFrameAllocator * list Z * Z -> BootInfoFrameAllocator * list Z * Z -> Prop :=
| step_alloc a live fails f a' :
    allocate_frame a = Ret (Some f, a') ->
    frame_step (a, live, fails) (a', f :: live, fails)
| step_alloc_fail a live fails a' :
    allocate_frame a = Ret (None, a') ->
    frame_step (a, live, fails) (a', live, fails + 1)
| step_dealloc a live1 f live2 fails :
    frame_step (a, live1 ++ f :: live2, fails) (deallocate_frame f a, live1 ++ live2, fails).

(** The frames of the map, in the order the iterator yields them. *)
Definition all_frames (memory_map : list MemoryDescriptor) : list Z :=
  Frame_containing <$> create_frame_iter memory_map.

Definition frames_inv (all : list Z) (s : BootInfoFrameAllocator * list Z * Z) : Prop :=
  let '(a, live, fails) := s in
  recycled a ++ (Frame_containing <$> frames a) ++ live ≡ₚ all /\
  used a = u64 (zlen (recycled a) + zlen live + fails).

(** A valid memory map: usable regions are page aligned, within the physical
    address space, and do not overlap. *)
Definition region_ok (r : MemoryDescriptor) : Prop :=
  0 <= phys_start r /\ page_aligned (phys_start r) /\ 0 <= page_count r /\
  phys_start r + 4096 * page_count r <= 2 ^ 52.
Definition region_disjoint (r s : MemoryDescriptor) : Prop :=
  phys_start r + 4096 * page_count r <= phys_start s \/
  phys_start s + 4096 * page_count s <= phys_start r.
Definition map_ok (memory_map : list MemoryDescriptor) : Prop :=
  let rs := List.filter (fun r => ty r =? CONVENTIONAL) memory_map in
  Forall region_ok rs /\ ForallOrdPairs region_disjoint rs.

Context {XL : X86Laws}.

Lemma frames_inv_step all s s' :
  Forall (fun x => 0 <= x < 2 ^ 52) (frames s.1.1) ->
  frames_inv all s -> frame_step s s' ->
  frames_inv all s' /\ Forall (fun x => 0 <= x < 2 ^ 52) (frames s'.1.1).
Proof.
  intros Hr Hi Hs. inversion Hs as [a live fails f a' Ha|a live fails a' Ha|a l1 f l2 fails];
    subst; cbn [fst] in *; destruct Hi as [Hp Hu]; clear Hs.
  - cbn in Ha. unfold BootInfo_allocate_frame in Ha.
    destruct (recycled a) as [|g rest] eqn:Er; [destruct (frames a) as [|x xs] eqn:Ef|].
    + done.
    + apply Forall_cons in Hr as [Hx Hxs]. rewrite PhysAddr_new_low in Ha by done.
      cbn in Ha. injection Ha as <- <-. cbn [frames recycled used app] in *. split; [|done].
      split.
      * rewrite <- Hp. rewrite fmap_cons. cbn [app]. by rewrite Permutation_middle.
      * rewrite Hu. unfold wrap. rewrite Zplus_mod_idemp_l. unfold zlen. cbn [length recycled]. apply (f_equal (fun x => x mod _)). lia.
    + injection Ha as <- <-. cbn [frames recycled used] in *. split; [|done]. split.
      * rewrite <- Hp. cbn [app]. by rewrite app_assoc, <- Permutation_middle, app_assoc.
      * rewrite Hu. apply (f_equal u64). unfold zlen. cbn [length recycled]. lia.
  - cbn in Ha. unfold BootInfo_allocate_frame in Ha.
    destruct (recycled a) as [|g rest] eqn:Er; [destruct (frames a) as [|x xs] eqn:Ef|].
    + injection Ha as <-. cbn [frames recycled used app] in *. split; [|done]. split; [done|].
      rewrite Hu. unfold wrap. rewrite Zplus_mod_idemp_l. cbn [recycled]. apply (f_equal (fun x => x mod _)). lia.
    + apply Forall_cons in Hr as [Hx Hxs]. rewrite PhysAddr_new_low in Ha by done. done.
    + done.
  - cbn. split; [|done]. split.
    + rewrite <- Hp. rewrite !app_assoc, <- Permutation_middle. done.
    + rewrite Hu. apply (f_equal u64). unfold zlen. cbn [length recycled]. rewrite !length_app. cbn [length]. lia.
Qed.

Lemma create_frame_iter_range mm :
  map_ok mm -> Forall (fun x => 0 <= x < 2 ^ 52 /\ page_aligned x) (create_frame_iter mm).
Proof.
  intros [Hr _]. unfold create_frame_iter. apply Forall_bind.
  eapply Forall_impl; [exact Hr|]. intros r (H1 & H2 & H3 & H4).
  apply Forall_fmap, Forall_forall. intros v Hv%elem_of_seqZ. cbn.
  rewrite (wrap_small 64 (v * 4096)), wrap_small by lia. unfold page_aligned in *. split; [lia|zdiv].
Qed.

Lemma region_frames_NoDup r :
  region_ok r -> NoDup ((fun v => u64 (u64 (v * 4096) + phys_start r)) <$> seqZ 0 (page_count r)).
Proof.
  intros (H1 & H2 & H3 & H4). apply NoDup_fmap_2_strong; [|apply NoDup_seqZ].
  intros x y Hx%elem_of_seqZ Hy%elem_of_seqZ.
  rewrite !(wrap_small 64 (_ * 4096)), !wrap_small by lia. lia.
Qed.

Lemma create_frame_iter_NoDup mm : map_ok mm -> NoDup (create_frame_iter mm).
Proof.
  unfold map_ok, create_frame_iter. generalize (List.filter (fun r => ty r =? CONVENTIONAL) mm).
  intros rs [Hr Hd]. induction Hd as [|r rs Hrs Hd IH]; [constructor|].
  apply Forall_cons in Hr as [Hr1 Hr2]. cbn. apply NoDup_app. split_and!;
    [by apply region_frames_NoDup| |by apply IH].
  intros x (v & -> & Hv%elem_of_seqZ)%list_elem_of_fmap Hx.
  apply list_elem_of_bind in Hx as (s & Hx & Hs).
  apply list_elem_of_fmap in Hx as (w & Hx & Hw%elem_of_seqZ).
  pose proof (proj1 (Forall_forall _ _) Hrs s Hs) as Hdis.
  pose proof (proj1 (Forall_forall _ _) Hr2 s Hs) as (H1 & H2 & H3 & H4).
  destruct Hr1 as (H1' & H2' & H3' & H4'). unfold region_disjoint in Hdis.
  rewrite !(wrap_small 64 (_ * 4096)), !wrap_small in Hx by lia. lia.
Qed.

Lemma all_frames_NoDup mm : map_ok mm -> NoDup (all_frames mm).
Proof.
  intros Hm. unfold all_frames.
  assert (E : Frame_containing <$> create_frame_iter mm = create_frame_iter mm).
  { pose proof (create_frame_iter_range mm Hm) as Hr.
    induction Hr as [|x l [Hx Ha] Hl IH]; [done|]. rewrite fmap_cons, IH.
    rewrite Frame_containing_low by done. unfold page_aligned in Ha. f_equal. lia. }
  rewrite E. by apply create_frame_iter_NoDup.
Qed.

Lemma frame_run_inv mm s :
  map_ok mm -> rtc frame_step (memory_init mm, [], 0) s ->
  frames_inv (all_frames mm) s /\ Forall (fun x => 0 <= x < 2 ^ 52) (frames s.1.1).
Proof.
  intros Hm. generalize (eq_refl (memory_init mm, @nil Z, 0)).
  generalize (memory_init mm, @nil Z, 0) at 1 3. intros s0 E Hrun.
  assert (Hi : frames_inv (all_frames mm) s0 /\
               Forall (fun x => 0 <= x < 2 ^ 52) (frames s0.1.1)).
  { subst s0. split; [split; [by rewrite app_nil_r|done]|]. cbn.
    eapply Forall_impl; [by apply create_frame_iter_range|]. by intros x [? _]. }
  clear E. induction Hrun as [|x y z Hxy _ IH]; [done|]. apply IH.
  destruct Hi. eapply frames_inv_step; done.
Qed.

(** C26: frames are neither lost nor handed out twice.  Started from a valid memory
    map, after any sequence of allocations and of deallocations of frames in use,
    the recycled frames, the frames still to come and the frames in use are
    together exactly the frames of the map; no allocation panics; a frame that an
    allocation returns is not in use; and [frames_used - frames_recycled] is the
    number of frames in use plus the number of failed allocations. *)
Theorem frame_allocator_conserves mm a live fails :
  map_ok mm -> rtc frame_step (memory_init mm, [], 0) (a, live, fails) ->
  recycled a ++ (Frame_containing <$> frames a) ++ live ≡ₚ all_frames mm /\
  NoDup live /\
  u64 (frames_used a - frames_recycled a) = u64 (zlen live + fails) /\
  exists r a', allocate_frame a = Ret (r, a') /\ (forall f, r = Some f -> f ∉ live) /\
               (r = None <-> recycled a = [] /\ frames a = []).
Proof.
  intros Hm Hrun. destruct (frame_run_inv mm _ Hm Hrun) as [[Hp Hu] Hr]. cbn in Hr.
  pose proof (all_frames_NoDup mm Hm) as Hnd. rewrite <- Hp in Hnd.
  split; [done|]. split; [by apply NoDup_app in Hnd as (_ & _ & (_ & _ & ?)%NoDup_app)|].
  split.
  { unfold frames_used, frames_recycled. rewrite Hu. unfold wrap. rewrite Zminus_mod_idemp_l.
    f_equal. lia. }
  cbn. unfold BootInfo_allocate_frame. destruct (recycled a) as [|g rest].
  - destruct (frames a) as [|x xs].
    + eexists _, _. split; [done|]. done.
    + apply Forall_cons in Hr as [Hx _]. rewrite PhysAddr_new_low by done.
      eexists _, _. split; [done|]. split; [|by split; [|intros [_ ?]]].
      intros f [= <-] Hin. rewrite fmap_cons in Hnd. apply NoDup_app in Hnd as (_ & _ & Hnd).
      apply NoDup_app in Hnd as (_ & Hnd & _). eapply Hnd; [|done]. apply elem_of_cons; auto.
  - eexists _, _. split; [done|]. split; [|by split; [|intros [? _]]].
    intros f [= <-] Hin. apply NoDup_app in Hnd as (_ & Hnd & _).
    apply (Hnd g); [apply elem_of_cons; auto|]. apply elem_of_app; auto.
Qed.
End ops.

(** Two usable regions around a reserved one. *)
Definition demo_uefi : Uefi := {| CONVENTIONAL := 7 |}.
Definition demo_map : list MemoryDescriptor :=
  [{| ty := 7; phys_start := 0x1000; page_count := 2 |};
   {| ty := 0; phys_start := 0x3000; page_count := 1 |};
   {| ty := 7; phys_start := 0x8000; page_count := 64 |}].

Lemma demo_map_ok : @map_ok demo_uefi demo_map.
Proof.
  split; cbn; repeat constructor; cbn; unfold region_disjoint; cbn; lia || reflexivity || discriminate.
Qed.

Lemma frame_allocator_conserves_witness :
  exists a, rtc (@frame_step demo_x86) (@memory_init demo_uefi demo_map, [], 0) (a, [0x1000], 0) /\
    NoDup [0x1000] /\ u64 (frames_used a - frames_recycled a) = 1.
Proof.
  pose (a := {| size := 66; used := 2; frames := 0x8000 + 4096 * 0 :: ((fun v => 0x8000 + 4096 * v) <$> seqZ 1 63);
               recycled := [0x2000] |}).
  exists a. assert (Hrun : rtc (@frame_step demo_x86) (@memory_init demo_uefi demo_map, [], 0)
                             (a, [0x1000], 0)).
  { eapply rtc_l; [eapply step_alloc; vm_compute; reflexivity|].
    eapply rtc_l; [eapply step_alloc; vm_compute; reflexivity|].
    eapply rtc_l; [apply (step_dealloc _ [] _ [_])|].
    match goal with |- rtc _ (?b, _, _) _ => replace b with a by (vm_compute; reflexivity) end.
    apply rtc_refl. }
  destruct (@frame_allocator_conserves demo_x86 demo_uefi demo_x86_laws demo_map _ _ _
              demo_map_ok Hrun) as (_ & Hnd & Hu & _).
  split; [exact Hrun|]. split; [exact Hnd|]. rewrite Hu. reflexivity.
Defined.
