(* ===== verification/ElfMap.v ===== *)
(** * Mapping memory and loading programs

    Models [pkg/elf/src/lib.rs]: mapping and unmapping page ranges, loading and
    mapping the segments of an ELF file.  The state of an operation is the
    machine and the frame allocator; the page table is named by the frame of its
    level-4 table. *)

From stdpp Require Import base numbers list gmap.
From S2P Require Import Prelude Bytes X86 Frames.

(** [PageRange]: the pages from [start] up to but not including [end]. *)
Record PageRange : Type := { start : Z; end_ : Z }.
(** [PageRangeInclusive]: the last page included. *)
Record PageRangeInclusive : Type := { istart : Z; iend : Z }.

Section ops.
Context {M A : Type} `{Log, X86, Machine M, !FrameAllocator A, !FrameDeallocator A}.
Abbreviation Mem := (ST (M * A)).

(** [allocate_frame().ok_or(FrameAllocationFailed)] *)
Definition alloc_frame : Mem (result Z MapToError) := fun '(m, a) =>
  r ← allocate_frame a;
  Ret (match r.1 with Some f => Ok f | None => Err FrameAllocationFailed end, (m, r.2)).
(** [page_table.map_to(..)?.flush()] *)
Definition do_map_to (l4 page frame : Z) (flags : PageTableFlags) : Mem (result unit MapToError) :=
  fun '(m, a) => map_to m a l4 page frame flags.
(** [page_table.unmap(page)] *)
Definition do_unmap (l4 page : Z) : Mem (result Z UnmapError) := fun '(m, a) =>
  Ret ((unmap m l4 page).1, ((unmap m l4 page).2, a)).
Definition do_dealloc_frame (frame : Z) : Mem unit := fun '(m, a) =>
  Ret (tt, (m, deallocate_frame frame a)).
Definition on_machine (f : M -> M) : Mem unit := fun '(m, a) => Ret (tt, (f m, a)).

(** The loop of [map_range]. *)
Fixpoint map_each (l4 : Z) (flags : PageTableFlags) (pages : list Z) : Mem (result unit MapToError) :=
  match pages with
  | [] => mret (Ok tt)
  | page :: pages' =>
      frame <-! alloc_frame ;;
      _ <-! do_map_to l4 page frame flags ;;
      map_each l4 flags pages'
  end.

Definition map_range (l4 : Z) (page_range : PageRangeInclusive) (user_access : bool)
    : Mem (result unit MapToError) :=
  map_each l4 {| PRESENT := true; WRITABLE := true; USER_ACCESSIBLE := user_access;
                 NO_EXECUTE := false |}
    (Page_range_inclusive (istart page_range) (iend page_range)).

(** The [trace!] at the end of [map_pages] unwraps the translation of a page. *)
Definition trace_translation (l4 page : Z) : Mem unit := fun '(m, a) =>
  if trace_enabled
  then match translate_page m l4 page with Some _ => Ret (tt, (m, a)) | None => Panic end
  else Ret (tt, (m, a)).

Definition map_pages (l4 addr pages : Z) (user_access : bool) : Mem (result PageRange MapToError) :=
  va ← st_lift (VirtAddr_new addr);
  let range_start := Page_containing va in
  range_end ← st_lift (Page_add range_start pages);
  last ← st_lift (Page_sub range_end 1);
  _ <-! map_range l4 {| istart := range_start; iend := last |} user_access ;;
  _ ← trace_translation l4 range_start;
  mret (Ok {| start := range_start; end_ := range_end |}).

(** The loop of [unmap_range]. *)
Fixpoint unmap_each (l4 : Z) (do_dealloc : bool) (pages : list Z) : Mem (result unit UnmapError) :=
  match pages with
  | [] => mret (Ok tt)
  | page :: pages' =>
      frame <-! do_unmap l4 page ;;
      _ ← (if do_dealloc then do_dealloc_frame frame else mret tt);
      unmap_each l4 do_dealloc pages'
  end.

Definition unmap_range (l4 : Z) (page_range : PageRangeInclusive) (do_dealloc : bool)
    : Mem (result unit UnmapError) :=
  unmap_each l4 do_dealloc (Page_range_inclusive (istart page_range) (iend page_range)).

Definition unmap_pages (l4 addr pages : Z) (do_dealloc : bool) : Mem (result unit UnmapError) :=
  va ← st_lift (VirtAddr_new addr);
  let start := Page_containing va in
  e ← st_lift (Page_add start pages);
  last ← st_lift (Page_sub e 1);
  unmap_range l4 {| istart := start; iend := last |} do_dealloc.

(** ** Loading segments into new frames *)

Definition segment_flags (segment : ProgramHeader) (user_access : bool) : PageTableFlags :=
  {| PRESENT := true; WRITABLE := ph_write segment; USER_ACCESSIBLE := user_access;
     NO_EXECUTE := negb (ph_execute segment) |}.

(** [segment.offset() & !0xfff] *)
Definition file_offset (segment : ProgramHeader) : Z := Z.land (ph_offset segment) (2 ^ 64 - 0x1000).

(** The loop over the pages with file contents; [idx] counts them. *)
Fixpoint load_pages (l4 physical_offset data file_size : Z) (flags : PageTableFlags)
    (idx : Z) (pages : list Z) : Mem (result unit MapToError) :=
  match pages with
  | [] => mret (Ok tt)
  | page :: pages' =>
      frame <-! alloc_frame ;;
      let offset := u64 (idx * 4096) in
      let count := if u64 (file_size - offset) <? 4096 then u64 (file_size - offset) else 4096 in
      _ ← on_machine (fun m =>
            copy_nonoverlapping m (u64 (data + offset)) (u64 (frame + physical_offset)) count);
      _ <-! do_map_to l4 page frame flags ;;
      _ ← (if count <? 4096
           then on_machine (fun m =>
                  write_bytes m (u64 (frame + physical_offset + count)) 0 (4096 - count))
           else mret tt);
      load_pages l4 physical_offset data file_size flags (idx + 1) pages'
  end.

(** The loop over the additional pages of [.bss]. *)
Fixpoint load_bss (l4 physical_offset : Z) (flags : PageTableFlags) (pages : list Z)
    : Mem (result unit MapToError) :=
  match pages with
  | [] => mret (Ok tt)
  | page :: pages' =>
      frame <-! alloc_frame ;;
      _ <-! do_map_to l4 page frame flags ;;
      _ ← on_machine (fun m => write_bytes m (u64 (frame + physical_offset)) 0 4096);
      load_bss l4 physical_offset flags pages'
  end.

Definition load_segment (elf : ElfFile) (physical_offset : Z) (segment : ProgramHeader)
    (l4 : Z) (user_access : bool) : Mem (result PageRangeInclusive MapToError) :=
  let mem_size := ph_memsz segment in
  let file_size := ph_filesz segment in
  virt_start_addr ← st_lift (VirtAddr_new (ph_vaddr segment));
  let flags := segment_flags segment user_access in
  let start_page := Page_containing virt_start_addr in
  file_end ← st_lift (VirtAddr_add virt_start_addr file_size);
  file_last ← st_lift (VirtAddr_sub file_end 1);
  let end_page := Page_containing file_last in
  let data := u64 (elf_input elf + file_offset segment) in
  _ <-! load_pages l4 physical_offset data file_size flags 0
          (Page_range_inclusive start_page end_page) ;;
  _ <-! (if file_size <? mem_size then
           zero_start ← st_lift (VirtAddr_add virt_start_addr file_size);
           zero_end ← st_lift (VirtAddr_add virt_start_addr mem_size);
           up ← st_lift (align_up zero_start 4096);
           va ← st_lift (VirtAddr_new up);
           load_bss l4 physical_offset flags
             (Page_range_inclusive (Page_containing va) (Page_containing zero_end))
         else mret (Ok tt)) ;;
  mem_end ← st_lift (VirtAddr_add virt_start_addr mem_size);
  mem_last ← st_lift (VirtAddr_sub mem_end 1);
  mret (Ok {| istart := start_page; iend := Page_containing mem_last |}).

(** The iterator chain of [load_elf]: segments are examined lazily, in order, and
    the first error ends it. *)
Fixpoint load_segments (elf : ElfFile) (physical_offset l4 : Z) (user_access : bool)
    (segments : list ProgramHeader) : Mem (result (list PageRangeInclusive) MapToError) :=
  match segments with
  | [] => mret (Ok [])
  | segment :: segments' =>
      is_load ← st_lift (unwrap_result (ph_load segment));
      if (is_load : bool) then
        range <-! load_segment elf physical_offset segment l4 user_access ;;
        ranges <-! load_segments elf physical_offset l4 user_access segments' ;;
        mret (Ok (range :: ranges))
      else load_segments elf physical_offset l4 user_access segments'
  end.

Definition load_elf (elf : ElfFile) (physical_offset l4 : Z) (user_access : bool)
    : Mem (result (list PageRangeInclusive) MapToError) :=
  load_segments elf physical_offset l4 user_access (program_iter elf).

End ops.

(** ** What the operations do to the translation of pages *)

Section spec.
Context {M A : Type} {L : Log} {X : X86} {XL : X86Laws} {MM : Machine M} {ML : MachineLaws M}
  {FA : FrameAllocator A} {FD : FrameDeallocator A}.
Context (I : A -> Prop) (HI : alloc_closed I).

(** The flags of pages that [map_range] maps. *)
Definition access_flags (user_access : bool) : PageTableFlags :=
  {| PRESENT := true; WRITABLE := true; USER_ACCESSIBLE := user_access; NO_EXECUTE := false |}.

(** From [m] to [m'] exactly the pages [ps] of table [l4] were mapped, with flags [fl]. *)
Definition maps_new (l4 : Z) (fl : PageTableFlags) (m m' : M) (ps : list Z) : Prop :=
  (forall p, p ∈ ps -> translate_page m l4 p = None /\ is_Some (translate_page m' l4 p)) /\
  (forall p, p ∉ ps -> translate_page m' l4 p = translate_page m l4 p) /\
  (forall p, page_flags m' l4 p = if decide (p ∈ ps) then Some fl else page_flags m l4 p).

Lemma maps_new_nil l4 fl m m' :
  (forall p, translate_page m' l4 p = translate_page m l4 p) ->
  (forall p, page_flags m' l4 p = page_flags m l4 p) -> maps_new l4 fl m m' [].
Proof. intros Hm Hf. split; [intros p Hp%elem_of_nil; done|]. split; [auto|]. intros p. rewrite decide_False; [done|apply not_elem_of_nil]. Qed.

Lemma maps_new_cons l4 fl m m1 m' p f ps :
  translate_page m l4 p = None -> translate_page m1 l4 p = Some f ->
  (forall q, q <> p -> translate_page m1 l4 q = translate_page m l4 q) ->
  (forall q, page_flags m1 l4 q = if decide (q = p) then Some fl else page_flags m l4 q) ->
  maps_new l4 fl m1 m' ps -> maps_new l4 fl m m' (p :: ps).
Proof.
  intros H1 H2 H3 H4 (Ha & Hb & Hc).
  assert (Hp : p ∉ ps) by (intros Hp; destruct (Ha p Hp) as [? _]; congruence).
  split; [|split].
  - intros q [->|Hq]%elem_of_cons.
    + rewrite Hb by done. eauto.
    + destruct (Ha q Hq) as [Hn Hs]. split; [|done]. rewrite <- H3; [done|congruence].
  - intros q [Hne Hq]%not_elem_of_cons. rewrite Hb by done. by apply H3.
  - intros q. rewrite Hc, H4. repeat case_decide; set_solver.
Qed.

Lemma alloc_frame_returns (m : M) a : I a ->
  exists r a', alloc_frame (m, a) = Ret (r, (m, a')) /\ I a'.
Proof.
  intros Ha. destruct (HI a Ha) as (r & a' & E & Ha'). unfold alloc_frame. rewrite E.
  cbn [mbind outcome_bind fst snd]. eauto.
Qed.

Lemma map_each_spec l4 fl pages : forall (m : M) a, I a ->
  exists r m' a' k, map_each l4 fl pages (m, a) = Ret (r, (m', a')) /\ I a' /\
    (k <= length pages)%nat /\ (r = Ok tt <-> k = length pages) /\
    maps_new l4 fl m m' (take k pages).
Proof using All.
  induction pages as [|p pages IH]; intros m a Ha; cbn [map_each].
  - exists (Ok tt), m, a, 0%nat. split_and!; try done. by apply maps_new_nil.
  - unfold st_try at 1. destruct (alloc_frame_returns m a Ha) as (r & a1 & -> & Ha1).
    destruct r as [f|e].
    2:{ exists (Err e), m, a1, 0%nat. split_and!; try done; [lia|]. by apply maps_new_nil. }
    destruct (map_to_returns I m a1 l4 p f fl HI Ha1) as (r & m1 & a2 & E & Ha2).
    unfold st_try at 1, do_map_to at 1. rewrite E. destruct r as [[]|e].
    + destruct (map_to_ok _ _ _ _ _ _ _ _ E) as (Hn & Hs & Ho).
      destruct (IH m1 a2 Ha2) as (r & m' & a' & k & E' & Ha' & Hk & Hr & Hm).
      exists r, m', a', (S k). rewrite E'. split_and!; try done; cbn [length take]; [lia| |].
      * rewrite Hr. lia.
      * eapply maps_new_cons; [done..| |exact Hm]. intros q. case_decide as Hq; [subst; by eapply map_to_flags|].
        by eapply map_to_flags_kept.
    + exists (Err e), m1, a2, 0%nat. split_and!; try done; [cbn [length]; lia|].
      apply maps_new_nil; [by eapply map_to_err|]. intros q. by eapply map_to_flags_kept.
Qed.

(** Page arithmetic of [map_pages] and [unmap_pages] on a page-aligned lower-half
    address. *)
Lemma aligned_containing p : low p -> page_aligned p -> Page_containing p = p.
Proof. intros Hp Ha. rewrite Page_containing_low by done. unfold page_aligned in Ha. lia. Qed.

Lemma page_span p n :
  low p -> page_aligned p -> 1 <= n -> low (p + 4096 * n) ->
  Page_add p n = Ret (p + 4096 * n) /\
  Page_sub (p + 4096 * n) 1 = Ret (p + 4096 * (n - 1)) /\
  Page_range_inclusive p (p + 4096 * (n - 1)) = pages_from p (Z.to_nat n).
Proof.
  intros Hp Ha Hn Hl. rewrite Page_add_low by (done || lia). split; [done|].
  rewrite Page_sub_low by (unfold low, page_aligned in *; done || lia || zdiv).
  split; [f_equal; lia|].
  rewrite <- (Page_range_inclusive_low p (Z.to_nat n)) by (rewrite ?Z2Nat.id by lia; done).
  by rewrite Z2Nat.id by lia.
Qed.

Lemma elem_of_pages_from p n x :
  x ∈ pages_from p n <-> exists i : nat, x = p + 4096 * Z.of_nat i /\ (i < n)%nat.
Proof.
  unfold pages_from. rewrite list_elem_of_fmap. split.
  - intros (i & -> & Hi%elem_of_seq). exists i. lia.
  - intros (i & -> & Hi). exists i. split; [done|]. apply elem_of_seq. lia.
Qed.

Lemma length_pages_from p n : length (pages_from p n) = n.
Proof. unfold pages_from. by rewrite length_fmap, length_seq. Qed.

Lemma NoDup_pages_from p n : NoDup (pages_from p n).
Proof. apply NoDup_fmap_2; [intros i j; lia|apply NoDup_seq]. Qed.

Lemma take_pages_from p n k : (k <= n)%nat -> take k (pages_from p n) = pages_from p k.
Proof. intros Hk. unfold pages_from. rewrite <- fmap_take, take_seq. do 2 f_equal. lia. Qed.

Lemma map_pages_spec l4 p n user (m : M) a :
  low p -> page_aligned p -> 1 <= n -> low (p + 4096 * n) -> I a ->
  exists r m' a' (k : nat), map_pages l4 p n user (m, a) = Ret (r, (m', a')) /\ I a' /\
    Z.of_nat k <= n /\
    match r with
    | Ok range => range = {| start := p; end_ := p + 4096 * n |} /\ Z.of_nat k = n
    | Err _ => Z.of_nat k < n
    end /\
    maps_new l4 (access_flags user) m m' (pages_from p k).
Proof using All.
  intros Hp Ha Hn Hl Hi. unfold map_pages, map_range.
  destruct (page_span p n Hp Ha Hn Hl) as (E1 & E2 & E3).
  rewrite VirtAddr_new_low by done. rewrite st_lift_bind. cbv zeta.
  rewrite aligned_containing by done. rewrite E1, st_lift_bind, E2, st_lift_bind.
  cbn [istart iend]. rewrite E3.
  fold (access_flags user). set (fl := access_flags user).
  destruct (map_each_spec l4 fl (pages_from p (Z.to_nat n)) m a Hi)
    as (r & m' & a' & k & E & Ha' & Hk & Hr & Hm).
  rewrite length_pages_from in *. rewrite take_pages_from in Hm by done.
  destruct r as [[]|e].
  - rewrite (st_try_ok _ _ _ _ _ E).
    assert (k = Z.to_nat n) as -> by by apply Hr.
    assert (Hs : is_Some (translate_page m' l4 p)).
    { apply Hm. apply elem_of_pages_from. exists 0%nat. lia. }
    destruct Hs as [f Hf]. eexists (Ok _), m', a', (Z.to_nat n). split_and!;
      [|done|lia|done|lia|done].
    erewrite st_bind_run; [done|]. unfold trace_translation. rewrite Hf. by destruct trace_enabled.
  - rewrite (st_try_err _ _ _ _ _ E).
    eexists (Err e), m', a', k. split_and!; try done; [lia|].
    assert (k <> Z.to_nat n) by (intros Ek%Hr; done). lia.
Qed.

(** From [m] to [m'] exactly the pages [ps] were unmapped. *)
Definition unmaps (l4 : Z) (m m' : M) (ps : list Z) : Prop :=
  (forall p, p ∈ ps -> translate_page m' l4 p = None) /\
  (forall p, p ∉ ps -> translate_page m' l4 p = translate_page m l4 p) /\
  (forall p, p ∉ ps -> page_flags m' l4 p = page_flags m l4 p).

Definition give_back (fs : list Z) (a : A) : A := fold_left (fun a f => deallocate_frame f a) fs a.

Lemma unmap_each_spec l4 (d : bool) pages : forall (m : M) (a : A),
  NoDup pages -> (forall p, p ∈ pages -> is_Some (translate_page m l4 p)) ->
  exists m' fs, unmap_each l4 d pages (m, a) =
      Ret (Ok tt, (m', if d then give_back fs a else a)) /\
    Forall2 (fun p f => translate_page m l4 p = Some f) pages fs /\
    unmaps l4 m m' pages.
Proof using All.
  induction pages as [|p pages IH]; intros m a Hnd Hm; cbn [unmap_each].
  - exists m, []. split; [by destruct d|]. split; [constructor|].
    split; [intros p Hp%elem_of_nil; done|by split].
  - apply NoDup_cons in Hnd as [Hp Hnd].
    destruct (Hm p) as [f Hf]; [apply elem_of_cons; auto|].
    destruct (unmap_mapped m l4 p f Hf) as [m1 E].
    destruct (unmap_ok _ _ _ _ _ E) as (_ & Hn & Ho).
    destruct (IH m1 (if d then deallocate_frame f a else a)) as (m' & fs & E' & Hfs & Hu1 & Hu2 & Hu3);
      [done| |].
    { intros q Hq. rewrite Ho by (intros ->; done). apply Hm, elem_of_cons; auto. }
    exists m', (f :: fs). split; [|split].
    + unfold st_try, do_unmap. rewrite E. cbn [fst snd].
      destruct d; exact E'.
    + constructor; [done|]. eapply Forall2_impl_in; [exact Hfs|].
      intros q g Hq Hg. rewrite <- Hg. symmetry. apply Ho. intros ->; done.
    + split; [|split].
      * intros q [->|Hq]%elem_of_cons; [|by apply Hu1]. by rewrite Hu2.
      * intros q [Hne Hq]%not_elem_of_cons. rewrite Hu2 by done. by apply Ho.
      * intros q [Hne Hq]%not_elem_of_cons. rewrite Hu3 by done. by eapply unmap_flags_kept.
Qed.

Lemma unmap_pages_spec l4 p n (d : bool) (m : M) (a : A) :
  low p -> page_aligned p -> 1 <= n -> low (p + 4096 * n) ->
  (forall q, q ∈ pages_from p (Z.to_nat n) -> is_Some (translate_page m l4 q)) ->
  exists m' fs, unmap_pages l4 p n d (m, a) = Ret (Ok tt, (m', if d then give_back fs a else a)) /\
    Forall2 (fun q f => translate_page m l4 q = Some f) (pages_from p (Z.to_nat n)) fs /\
    unmaps l4 m m' (pages_from p (Z.to_nat n)).
Proof using All.
  intros Hp Ha Hn Hl Hm. unfold unmap_pages, unmap_range.
  destruct (page_span p n Hp Ha Hn Hl) as (E1 & E2 & E3).
  rewrite VirtAddr_new_low by done. rewrite st_lift_bind. cbv zeta.
  rewrite aligned_containing by done. rewrite E1, st_lift_bind, E2, st_lift_bind.
  cbn [istart iend]. rewrite E3. apply unmap_each_spec; [apply NoDup_pages_from|done].
Qed.

(** C27: mapping a range and unmapping it again.  [map_pages] on [n >= 1] pages of
    user memory always returns.  On success it has mapped exactly the [n] pages,
    all unmapped before, as present and writable pages that a user may access if
    asked for, and returns their range; a later [unmap_pages] of that range succeeds,
    gives back to the allocator exactly the frames that the pages were mapped to, each
    once and in the order of the pages, and restores the translation of every page.  On
    failure it has mapped a proper prefix of the pages, which stays mapped, and changed
    no other translation. *)
Theorem map_unmap_pages l4 p n user (m : M) a :
  low p -> page_aligned p -> 1 <= n -> low (p + 4096 * n) -> I a ->
  exists r m' a' (k : nat), map_pages l4 p n user (m, a) = Ret (r, (m', a')) /\
    Z.of_nat k <= n /\ maps_new l4 (access_flags user) m m' (pages_from p k) /\
    match r with
    | Err _ => Z.of_nat k < n
    | Ok range =>
        range = {| start := p; end_ := p + 4096 * n |} /\ Z.of_nat k = n /\
        forall a2, exists m2 fs, unmap_pages l4 p n true (m', a2) = Ret (Ok tt, (m2, give_back fs a2)) /\
          zlen fs = n /\ Forall2 (fun q f => translate_page m' l4 q = Some f) (pages_from p (Z.to_nat n)) fs /\
          forall q, translate_page m2 l4 q = translate_page m l4 q
    end.
Proof using All.
  intros Hp Ha Hn Hl Hi.
  destruct (map_pages_spec l4 p n user m a Hp Ha Hn Hl Hi)
    as (r & m' & a' & k & E & _ & Hk & Hr & Hm).
  exists r, m', a', k. split; [done|]. split; [done|]. split; [done|].
  destruct r as [range|e]; [|done]. destruct Hr as [-> Hkn]. split; [done|]. split; [done|].
  intros a2. assert (k = Z.to_nat n) as -> by lia.
  destruct (unmap_pages_spec l4 p n true m' a2) as (m2 & fs & E2 & Hfs & Hu1 & Hu2 & _); try done.
  { intros q Hq. by apply Hm. }
  exists m2, fs. split; [done|]. split; [|split; [exact Hfs|]].
  - apply Forall2_length in Hfs. rewrite length_pages_from in Hfs. unfold zlen. lia.
  - intros q. destruct (decide (q ∈ pages_from p (Z.to_nat n))) as [Hq|Hq].
    + rewrite Hu1 by done. symmetry. by apply Hm.
    + rewrite Hu2 by done. by apply Hm.
Qed.
End spec.

(** The allocator never panics while the frames to come are physical addresses. *)
Definition frames_in_range (a : BootInfoFrameAllocator) : Prop :=
  Forall (fun x => 0 <= x < 2 ^ 52) (frames a).
Lemma frames_in_range_closed `{X86Laws} : alloc_closed frames_in_range.
Proof.
  intros a Ha. cbn. unfold BootInfo_allocate_frame. destruct (recycled a) as [|g rest]; [|eauto].
  unfold frames_in_range in *. destruct (frames a) as [|x xs]; [eexists _, _; split; [done|constructor]|].
  apply Forall_cons in Ha as [Hx Hxs]. rewrite PhysAddr_new_low by done. eauto.
Qed.

Definition demo_log : Log := {| trace_enabled := true |}.
Definition demo_mem : demo_machine := {| dm_maps := ∅; dm_flags := ∅; dm_mem := ∅; dm_cr3 := (0, 0) |}.
Definition demo_frames : BootInfoFrameAllocator := @memory_init demo_uefi demo_map.

#[local] Existing Instances demo_log demo_x86 demo_x86_laws demo_uefi.

Lemma map_unmap_pages_witness :
  exists r m' a', map_pages 0 0x5000 2 true (demo_mem, demo_frames) =
    Ret (r, (m', a')) /\
    r = Ok {| start := 0x5000; end_ := 0x7000 |} /\ is_Some (translate_page m' 0 0x6000).
Proof.
  destruct (map_unmap_pages frames_in_range frames_in_range_closed
    0 0x5000 2 true demo_mem demo_frames) as (r & m' & a' & k & E & Hk & Hm & Hr).
  - vm_compute; split; discriminate || reflexivity.
  - reflexivity.
  - lia.
  - vm_compute; split; discriminate || reflexivity.
  - apply Forall_forall. intros x Hx. eapply (proj1 (Forall_forall _ _)) in Hx;
      [|apply (@create_frame_iter_range demo_uefi demo_map demo_map_ok)]. apply Hx.
  - assert (Er : r = Ok {| start := 0x5000; end_ := 0x7000 |}).
    { vm_compute in E. injection E as <- _ _. reflexivity. }
    exists r, m', a'. split; [exact E|]. split; [exact Er|]. rewrite Er in Hr.
    destruct Hr as (_ & Hkn & _). apply Hm. apply elem_of_pages_from. exists 1%nat. lia.
Defined.
