(* ===== verification/ElfLoad.v ===== *)
(** * Loading programs

    What [load_elf] of [ElfMap.v] leaves in memory.  [MemoryLaws] says what the accesses to memory and the
    mapping of pages do to the bytes of physical memory; [frame_source] is what the loader expects of the frame
    allocator, and [BootInfoFrameAllocator] is shown to be one. *)

From stdpp Require Import base numbers list gmap.
From S2P Require Import Prelude Bytes X86 Frames ElfMap.

(** ** The interfaces *)
(** Physical memory: its bytes, the physical address that the processor reaches at a virtual address (the same one, often, at
    several), and the frames that hold page tables. *)
Class MemoryView (M : Type) : Type := {
  byte_at : M -> Z -> Z;
  reach : M -> Z -> option Z;
  tables : M -> Z -> Prop;
}.
(** The byte that is read at a virtual address. *)
Definition seen {M} `{MemoryView M} (m : M) (x : Z) : Z := default 0 (byte_at m <$> reach m x).
Definition in_frame (g x : Z) : Prop := g <= x < g + 4096.
Definition between (a x b : Z) : Prop := a <= x < b.
Global Instance between_dec a x b : Decision (between a x b).
Proof. unfold between. apply _. Defined.
(** The [n] bytes at [d] are those at the physical address [D]. *)
Definition reaches {M} `{MemoryView M} (m : M) (d D n : Z) : Prop := forall i, 0 <= i < n -> reach m (d + i) = Some (D + i).

(** An allocator that hands out aligned frames below [limit], each of them free until then and not afterwards; it may panic
    only when [oom]. *)
Definition frame_source {A} `{FrameAllocator A} (oom : Prop) (limit : Z) (I : A -> Prop) (free : A -> Z -> Prop) : Prop :=
  forall a, I a ->
    (forall g, free a g -> page_aligned g /\ 0 <= g /\ g + 4096 <= limit) /\
    (allocate_frame a = Panic /\ oom \/
     exists r a', allocate_frame a = Ret (r, a') /\ I a' /\ (forall g, free a' g -> free a g) /\
      (forall f, r = Some f -> free a f /\ ~ free a' f)).

(** From [m] to [m'] the tables are the same ones with the same translations. *)
Definition tables_kept {M} `{Machine M} `{MemoryView M} (m m' : M) : Prop :=
  (forall g, tables m' g <-> tables m g) /\ (forall l4 p, translate_page m' l4 p = translate_page m l4 p) /\
  (forall x, reach m' x = reach m x).
Class MemoryLaws (M : Type) {MM : Machine M} {MV : MemoryView M} : Prop := {
  tables_aligned m g : tables m g -> page_aligned g;
  copy_byte m s d D n p : 0 <= n -> reaches m d D n ->
    (forall i, 0 <= i < n -> exists q, reach m (s + i) = Some q /\ ~ between D q (D + n)) ->
    byte_at (copy_nonoverlapping m s d n) p = if decide (between D p (D + n)) then seen m (s + (p - D)) else byte_at m p;
  write_byte m d D b n p : 0 <= n -> reaches m d D n ->
    byte_at (write_bytes m d b n) p = if decide (between D p (D + n)) then b else byte_at m p;
  (** writing elsewhere than into page tables does not change them *)
  copy_elsewhere m s d D n : 0 <= n -> reaches m d D n -> (forall x g, between D x (D + n) -> tables m g -> ~ in_frame g x) ->
    tables_kept m (copy_nonoverlapping m s d n);
  write_elsewhere m d D b n : 0 <= n -> reaches m d D n -> (forall x g, between D x (D + n) -> tables m g -> ~ in_frame g x) ->
    tables_kept m (write_bytes m d b n);
  (** mapping a page panics only when an allocation does *)
  map_to_stops {A} `{FrameAllocator A} (oom : Prop) (I : A -> Prop) m a l4 p f fl :
    (forall a, I a -> allocate_frame a = Panic /\ oom \/ exists r a', allocate_frame a = Ret (r, a') /\ I a') -> I a ->
    map_to m a l4 p f fl = Panic /\ oom \/ exists r m' a', map_to m a l4 p f fl = Ret (r, (m', a')) /\ I a';
  (** mapping a page writes only to page tables, and takes new ones from the allocator; what was reached still is *)
  map_to_memory {A} `{FrameAllocator A} oom limit (I : A -> Prop) (free : A -> Z -> Prop) m a l4 p f fl r m' a' :
    frame_source oom limit I free -> I a -> map_to m a l4 p f fl = Ret (r, (m', a')) ->
    (forall g, tables m' g -> tables m g \/ free a g /\ ~ free a' g) /\
    (forall x, (forall g, tables m' g -> ~ in_frame g x) -> byte_at m' x = byte_at m x) /\
    (forall x y, reach m x = Some y -> reach m' x = Some y);
}.

Section load.
Context {M A : Type} {L : Log} {X : X86} {MM : Machine M} {ML : MachineLaws M} {MV : MemoryView M}
  {FA : FrameAllocator A} {MeL : MemoryLaws M}.
(** Physical memory up to [win] is seen from [off] on; frames are below [limit]. *)
Context (off win limit : Z) (oom : Prop) (I : A -> Prop) (free : A -> Z -> Prop) (HI : frame_source oom limit I free)
  (Hoff : 0 <= off /\ off + limit <= 2 ^ 64) (Hwin : limit <= win).

(** Page tables are not handed out as data, and the window is in place. *)
Definition sound (m : M) (a : A) : Prop := I a /\ (forall g, tables m g -> ~ free a g) /\ reaches m off 0 win.
(** A physical address that neither a page table nor a free frame covers. *)
Definition safe (m : M) (a : A) (x : Z) : Prop := forall g, tables m g \/ free a g -> ~ in_frame g x.
(** A virtual address at which the loader may read. *)
Definition readable (m : M) (a : A) (x : Z) : Prop := exists q, reach m x = Some q /\ safe m a q.
(** From [(m, a)] to [(m', a')] only tables and frames that were free were written. *)
Definition keeps (m : M) (a : A) (m' : M) (a' : A) : Prop :=
  sound m' a' /\ (forall g, tables m' g \/ free a' g -> tables m g \/ free a g) /\
  (forall x, safe m a x -> byte_at m' x = byte_at m x) /\ (forall x y, reach m x = Some y -> reach m' x = Some y).

Lemma keeps_refl m a : sound m a -> keeps m a m a.
Proof. by repeat split; try apply H. Qed.
Lemma keeps_safe m a m' a' x : keeps m a m' a' -> safe m a x -> safe m' a' x.
Proof. intros (_ & Hg & _) Hs g Hm. apply Hs. by apply Hg. Qed.
Lemma keeps_trans m1 a1 m2 a2 m3 a3 : keeps m1 a1 m2 a2 -> keeps m2 a2 m3 a3 -> keeps m1 a1 m3 a3.
Proof.
  intros K1 K2. split; [apply K2|]. split; [intros g Hg; by apply K1, K2|]. split.
  - intros x Hx. destruct K2 as (_ & _ & B2 & _). rewrite B2 by by eapply keeps_safe. by apply K1.
  - intros x y Hy. by apply K2, K1.
Qed.
(** What could be read can be read again, and has not changed. *)
Lemma keeps_readable m a m' a' x : keeps m a m' a' -> readable m a x -> readable m' a' x /\ seen m' x = seen m x.
Proof.
  intros K (q & Hq & Hs). assert (Hq' : reach m' x = Some q) by by apply K. split; [exists q; split; [done|by eapply keeps_safe]|].
  unfold seen. rewrite Hq, Hq'. cbn. by apply K.
Qed.

(** A page with its contents. *)
Definition loaded (m : M) (a : A) (l4 page : Z) (content : Z -> Z) : Prop :=
  exists f, translate_page m l4 page = Some f /\
    forall k, 0 <= k < 4096 -> safe m a (f + k) /\ byte_at m (f + k) = content k.
Lemma loaded_keeps m a m' a' l4 page content : keeps m a m' a' -> translate_page m' l4 page = translate_page m l4 page ->
  loaded m a l4 page content -> loaded m' a' l4 page content.
Proof.
  intros K Ht (f & Hf & Hc). exists f. split; [by rewrite Ht|]. intros k Hk. destruct (Hc k Hk) as [Hs Hb].
  split; [by eapply keeps_safe|]. rewrite <- Hb. by apply K.
Qed.

(** A computation that ends early: out of frames, or with an error. *)
Definition stops {T} (x : outcome (result T MapToError * (M * A))) : Prop := x = Panic /\ oom \/ exists e m' a', x = Ret (Err e, (m', a')).
Lemma stops_try {T U} (x : ST (M * A) (result T MapToError)) (k : T -> ST (M * A) (result U MapToError)) s : stops (x s) -> stops (st_try x k s).
Proof.
  intros [[E Ho]|(e & m' & a' & E)]; [left|right; exists e, m', a'].
  - unfold st_try. by rewrite E.
  - by rewrite (st_try_err _ _ _ _ _ E).
Qed.
(** [map_to] returns, and keeps memory. *)
Lemma map_to_keeps m a l4 p f fl : sound m a -> do_map_to l4 p f fl (m, a) = Panic /\ oom \/ exists r m' a', do_map_to l4 p f fl (m, a) = Ret (r, (m', a')) /\ keeps m a m' a' /\
  match r with
  | Ok _ => translate_page m l4 p = None /\ translate_page m' l4 p = Some f /\ forall q, q <> p -> translate_page m' l4 q = translate_page m l4 q
  | Err _ => forall q, translate_page m' l4 q = translate_page m l4 q
  end.
Proof.
  intros (Ha & Ht & Hw). destruct (map_to_stops oom (fun a' => I a' /\ forall g, free a' g -> free a g) m a l4 p f fl) as [[E Ho]|(r & m' & a' & E & Ha' & Hf)]; [|done|by left|right].
  { intros a1 [Ha1 Hf]. destruct (HI a1 Ha1) as (_ & [[E Ho]|(r & a' & E & Ha' & Hm & _)]); [by left|right]. exists r, a'. split; [done|]. split; [done|]. auto. }
  exists r, m', a'. split; [exact E|]. destruct (map_to_memory oom limit I free m a l4 p f fl r m' a' HI Ha E) as (Hg & Hb & Hre). split.
  - split; [split; [done|split; [|intros i Hi; by apply Hre, Hw]]|split; [|split; [|done]]].
    + intros g Hm. destruct (Hg g Hm) as [Ho|[_ Hn]]; [|done]. intros Hf'. by apply (Ht g Ho), Hf.
    + intros g [Hm|Hf']; [|right; by apply Hf]. destruct (Hg g Hm) as [Ho|[Ho _]]; auto.
    + intros x Hx. apply Hb. intros g Hm. destruct (Hg g Hm) as [Ho|[Ho _]]; apply Hx; auto.
  - destruct r as [[]|e]; [by eapply map_to_ok|by eapply map_to_err].
Qed.

Lemma frame_same f g x : page_aligned f -> page_aligned g -> in_frame f x -> in_frame g x -> f = g.
Proof. unfold page_aligned, in_frame. intros Hf Hg H1 H2. pose proof (Z.div_mod f 4096). pose proof (Z.div_mod g 4096). lia. Qed.
(** Writing into a frame that was free keeps memory. *)
Lemma fill_keeps m a m1 a1 m2 f : keeps m a m1 a1 -> free a f -> tables_kept m1 m2 ->
  (forall x, ~ in_frame f x -> byte_at m2 x = byte_at m1 x) -> keeps m a m2 a1.
Proof.
  intros ((Hi & Ht & Hw) & Hg & Hb & Hre) Hf (Ht2 & _ & Hre2) Hb2. split; [split; [done|split]|split; [|split]].
  - intros g Hm. apply Ht. by apply Ht2.
  - intros i Hi'. rewrite Hre2. by apply Hw.
  - intros g [Hm|Hm]; apply Hg; [left; by apply Ht2|by right].
  - intros x Hx. rewrite Hb2 by (apply Hx; by right). by apply Hb.
  - intros x y Hy. rewrite Hre2. by apply Hre.
Qed.
(** A frame of our own: out of the reach of tables and of the allocator. *)
Definition ours (m : M) (a : A) (f : Z) : Prop := forall x, in_frame f x -> safe m a x.
Lemma ours_keeps m a m' a' f : keeps m a m' a' -> ours m a f -> ours m' a' f.
Proof. intros K Ho x Hx. eapply keeps_safe; [done|]. by apply Ho. Qed.
(** A new frame is ours from now on. *)
Lemma alloc_keeps m a : sound m a -> alloc_frame (m, a) = Panic /\ oom \/ exists r a', alloc_frame (m, a) = Ret (r, (m, a')) /\ keeps m a m a' /\
  forall f, r = Ok f -> free a f /\ 0 <= f /\ f + 4096 <= limit /\ ours m a' f.
Proof.
  intros (Ha & Ht & Hwd). destruct (HI a Ha) as (Hal & [[E Ho]|(r & a' & E & Ha' & Hm & Hs)]); unfold alloc_frame; rewrite E; cbn [mbind outcome_bind fst snd]; [by left|right].
  eexists _, a'. split; [reflexivity|]. split.
  { split; [split; [done|split; [|done]]|split; [|done]]; [intros g Hg Hf; by apply (Ht g Hg), Hm|intros g [Hg|Hg]; auto]. }
  intros f Hr. destruct r as [f'|]; [|done]. injection Hr as ->. destruct (Hs f eq_refl) as [Hf Hn]. destruct (Hal f Hf) as (Hfa & Hf0 & Hfl).
  do 3 (split; [done|]). intros x Hx g [Hg|Hg] Hw.
  - pose proof (frame_same f g x Hfa (tables_aligned m g Hg) Hx Hw). subst g. by apply (Ht f Hg).
  - destruct (Hal g (Hm g Hg)) as [Hga _]. pose proof (frame_same f g x Hfa Hga Hx Hw). by subst g.
Qed.
(** [m'] is [m] with the physical bytes from [d] to [e] given by [g]. *)
Definition written (m m' : M) (d e : Z) (g : Z -> Z) : Prop :=
  tables_kept m m' /\ forall x, byte_at m' x = if decide (between d x e) then g x else byte_at m x.
Lemma write_in m a m1 a1 m2 f d e g : keeps m a m1 a1 -> free a f -> ours m1 a1 f ->
  (forall x, between d x e -> in_frame f x) -> written m1 m2 d e g -> keeps m a m2 a1 /\ ours m2 a1 f.
Proof.
  intros K Hf Ho Hin [Ht Hb]. split.
  - apply (fill_keeps m a m1 a1 m2 f K Hf Ht). intros x Hx. rewrite Hb, decide_False; [done|]. intros Hd. by apply Hx, Hin.
  - intros x Hx g' [Hg|Hg]; [apply (proj1 Ht) in Hg|]; eapply (Ho x Hx); eauto.
Qed.
Lemma window_reaches m a f d n : sound m a -> 0 <= d -> d + n <= 4096 -> 0 <= f -> f + 4096 <= limit -> reaches m (f + off + d) (f + d) n.
Proof.
  intros (_ & _ & Hw) Hd Hn Hf Hl i Hi. replace (f + off + d + i) with (off + (f + d + i)) by lia. rewrite Hw by lia. done.
Qed.
Lemma copy_in m a a1 f src count : keeps m a m a1 -> free a f -> 0 <= f -> f + 4096 <= limit -> ours m a1 f -> 0 <= count <= 4096 ->
  (forall i, 0 <= i < count -> readable m a (src + i)) ->
  let m1 := copy_nonoverlapping m src (f + off) count in
  written m m1 f (f + count) (fun x => seen m (src + (x - f))) /\ keeps m a m1 a1 /\ ours m1 a1 f.
Proof.
  intros K Hf Hf0 Hfl Ho Hc Hfile m1. assert (Hin : forall x, between f x (f + count) -> in_frame f x) by (unfold between, in_frame; lia).
  assert (Hr : reaches m (f + off) f count) by (pose proof (window_reaches m a1 f 0 count (proj1 K) ltac:(lia) ltac:(lia) Hf0 Hfl) as Hr; by rewrite !Z.add_0_r in Hr).
  assert (Hw : written m m1 f (f + count) (fun x => seen m (src + (x - f)))).
  { split.
    - apply (copy_elsewhere m src (f + off) f count); [lia|done|]. intros x g Hx Hg. apply (Ho x (Hin x Hx)). by left.
    - intros x. apply copy_byte; [lia|done|]. intros i Hi. destruct (Hfile i Hi) as (q & Hq & Hs). exists q. split; [done|]. intros Hb.
      apply (Hs f); [by right|by apply Hin]. }
  split; [done|]. by eapply (write_in m a m a1).
Qed.
Lemma zero_in m a m1 a1 f d n : keeps m a m1 a1 -> free a f -> 0 <= f -> f + 4096 <= limit -> ours m1 a1 f -> 0 <= n -> 0 <= d -> d + n <= 4096 ->
  let m2 := write_bytes m1 (f + off + d) 0 n in
  written m1 m2 (f + d) (f + d + n) (fun _ => 0) /\ keeps m a m2 a1 /\ ours m2 a1 f.
Proof.
  intros K Hf Hf0 Hfl Ho Hn H1 H2 m2. assert (Hin : forall x, between (f + d) x (f + d + n) -> in_frame f x) by (unfold between, in_frame; lia).
  pose proof (window_reaches m1 a1 f d n (proj1 K) H1 H2 Hf0 Hfl) as Hr.
  assert (Hw : written m1 m2 (f + d) (f + d + n) (fun _ => 0)).
  { split; [|intros x; by apply write_byte].
    apply (write_elsewhere m1 (f + off + d) (f + d) 0 n); [lia|done|]. intros x g Hx Hg. apply (Ho x (Hin x Hx)). by left. }
  split; [done|]. by eapply (write_in m a m1 a1).
Qed.

Lemma on_machine_run {B} (g : M -> M) (k : unit -> ST (M * A) B) m a : (on_machine g ≫= k) (m, a) = k tt (g m, a).
Proof. done. Qed.
(** One page of [load_pages]: [count] bytes from [src], then zeros. *)
Definition load_page (l4 page src count : Z) (fl : PageTableFlags) (k : ST (M * A) (result unit MapToError)) : ST (M * A) (result unit MapToError) :=
  frame <-! alloc_frame ;;
  _ ← on_machine (fun m => copy_nonoverlapping m src (u64 (frame + off)) count);
  _ <-! do_map_to l4 page frame fl ;;
  _ ← (if count <? 4096 then on_machine (fun m => write_bytes m (u64 (frame + off + count)) 0 (4096 - count)) else mret tt);
  k.
Definition page_step (m : M) (a : A) (m' : M) (a' : A) (l4 page : Z) (content : Z -> Z) : Prop :=
  keeps m a m' a' /\ loaded m' a' l4 page content /\ translate_page m l4 page = None /\
  forall q, q <> page -> translate_page m' l4 q = translate_page m l4 q.
Lemma load_page_spec l4 page src count fl k m a : sound m a -> 0 <= count <= 4096 ->
  (forall i, 0 <= i < count -> readable m a (src + i)) ->
  stops (load_page l4 page src count fl k (m, a)) \/
  (exists m' a', load_page l4 page src count fl k (m, a) = k (m', a') /\
     page_step m a m' a' l4 page (fun i => if i <? count then seen m (src + i) else 0)).
Proof.
  intros Hs Hc Hfile. unfold load_page. destruct (alloc_keeps m a Hs) as [[E1 Ho]|(r & a1 & E1 & K1 & Hr)]; [left; apply stops_try; by left|].
  destruct r as [f|e]; [|left; apply stops_try; right; eauto]. rewrite (st_try_ok _ _ _ _ _ E1).
  destruct (Hr f eq_refl) as (Hfree & Hf0 & Hfl & Ho). clear Hr. rewrite (wrap_small 64 (f + off)) by lia.
  destruct (copy_in m a a1 f src count K1 Hfree Hf0 Hfl Ho Hc Hfile) as ([(_ & T1 & _) B1] & K2 & Ho1).
  set (m1 := copy_nonoverlapping m src (f + off) count) in *. rewrite (on_machine_run _ _ m a1). fold m1.
  destruct (map_to_keeps m1 a1 l4 page f fl) as [[E3 Ho3]|(r & m2 & a2 & E3 & K3 & Hr3)]; [apply K2|left; apply stops_try; by left|].
  destruct r as [[]|e]; [|left; apply stops_try; right; eauto]. rewrite (st_try_ok _ _ _ _ _ E3). right.
  destruct Hr3 as (Hn & Hm & Hoth). rewrite T1 in Hn. pose proof (keeps_trans _ _ _ _ _ _ K2 K3) as K4. pose proof (ours_keeps _ _ _ _ _ K3 Ho1) as Ho2.
  assert (B2 : forall i, 0 <= i < count -> byte_at m2 (f + i) = seen m (src + i)).
  { intros i Hi. destruct K3 as (_ & _ & B3 & _). rewrite B3 by (apply Ho1; unfold in_frame; lia).
    rewrite B1, decide_True by (unfold between; lia). f_equal. lia. }
  destruct (Z.ltb_spec count 4096) as [Hlt|Hge].
  - rewrite (wrap_small 64 (f + off + count)) by lia.
    destruct (zero_in m a m2 a2 f count (4096 - count) K4 Hfree Hf0 Hfl Ho2) as ([(_ & T3 & _) B3] & K5 & Ho3); [lia..|].
    set (m3 := write_bytes m2 _ _ _) in *. exists m3, a2. split; [by rewrite (on_machine_run _ _ m2 a2)|].
    split; [done|]. split; [|split; [done|intros q Hq; by rewrite T3, Hoth, T1]]. exists f. split; [by rewrite T3|].
    intros i Hi. split; [apply Ho3; unfold in_frame; lia|]. rewrite B3. destruct (Z.ltb_spec i count).
    + rewrite decide_False by (unfold between; lia). apply B2. lia.
    + by rewrite decide_True by (unfold between; lia).
  - exists m2, a2. split; [done|]. split; [done|]. split; [|split; [done|intros q Hq; by rewrite Hoth, T1]].
    exists f. split; [done|]. intros i Hi. split; [apply Ho2; unfold in_frame; lia|].
    rewrite (proj2 (Z.ltb_lt i count)) by lia. apply B2. lia.
Qed.
(** A page of [.bss]. *)
Definition load_zero_page (l4 page : Z) (fl : PageTableFlags) (k : ST (M * A) (result unit MapToError)) : ST (M * A) (result unit MapToError) :=
  frame <-! alloc_frame ;;
  _ <-! do_map_to l4 page frame fl ;;
  _ ← on_machine (fun m => write_bytes m (u64 (frame + off)) 0 4096);
  k.
Lemma load_zero_page_spec l4 page fl k m a : sound m a ->
  stops (load_zero_page l4 page fl k (m, a)) \/
  (exists m' a', load_zero_page l4 page fl k (m, a) = k (m', a') /\ page_step m a m' a' l4 page (fun _ => 0)).
Proof.
  intros Hs. unfold load_zero_page. destruct (alloc_keeps m a Hs) as [[E1 Ho]|(r & a1 & E1 & K1 & Hr)]; [left; apply stops_try; by left|].
  destruct r as [f|e]; [|left; apply stops_try; right; eauto]. rewrite (st_try_ok _ _ _ _ _ E1).
  destruct (Hr f eq_refl) as (Hfree & Hf0 & Hfl & Ho). clear Hr. rewrite (wrap_small 64 (f + off)) by lia.
  destruct (map_to_keeps m a1 l4 page f fl) as [[E3 Ho3]|(r & m2 & a2 & E3 & K3 & Hr3)]; [apply K1|left; apply stops_try; by left|].
  destruct r as [[]|e]; [|left; apply stops_try; right; eauto]. rewrite (st_try_ok _ _ _ _ _ E3). right.
  destruct Hr3 as (Hn & Hm & Hoth). rewrite <- (Z.add_0_r (f + off)).
  destruct (zero_in m a m2 a2 f 0 4096 (keeps_trans _ _ _ _ _ _ K1 K3) Hfree Hf0 Hfl) as ([(_ & T3 & _) B3] & K5 & Ho3);
    [by eapply ours_keeps|lia..|].
  set (m3 := write_bytes m2 _ _ _) in *. exists m3, a2. split; [by rewrite (on_machine_run _ _ m2 a2)|].
  split; [done|]. split; [|split; [done|intros q Hq; by rewrite T3, Hoth]]. exists f. split; [by rewrite T3|].
  intros i Hi. split; [apply Ho3; unfold in_frame; lia|]. by rewrite B3, decide_True by (unfold between; lia).
Qed.

(** ** Runs of pages *)
Lemma pages_from_S p n : pages_from p (S n) = p :: pages_from (p + 4096) n.
Proof.
  unfold pages_from. rewrite <- cons_seq, fmap_cons, <- fmap_S_seq, <- list_fmap_compose. f_equal; [lia|].
  apply list_fmap_ext. intros i x _. cbn. lia.
Qed.
Lemma loaded_ext m a l4 page c1 c2 : (forall i, 0 <= i < 4096 -> c1 i = c2 i) -> loaded m a l4 page c1 -> loaded m a l4 page c2.
Proof. intros He (f & Hf & Hc). exists f. split; [done|]. intros k Hk. rewrite <- He by done. auto. Qed.
(** The [n] pages from [p] on were mapped, with the contents [C], and nothing else was. *)
Definition region_step (m : M) (a : A) (m' : M) (a' : A) (l4 p : Z) (n : nat) (C : Z -> Z) : Prop :=
  keeps m a m' a' /\
  (forall j, (j < n)%nat -> translate_page m l4 (p + 4096 * Z.of_nat j) = None /\
     loaded m' a' l4 (p + 4096 * Z.of_nat j) (fun i => C (4096 * Z.of_nat j + i))) /\
  (forall q, q ∉ pages_from p n -> translate_page m' l4 q = translate_page m l4 q).
Lemma region_nil m a l4 p C : sound m a -> region_step m a m a l4 p 0 C.
Proof. intros Hs. split; [by apply keeps_refl|]. split; [lia|done]. Qed.
Lemma region_app m a m1 a1 m2 a2 l4 p n1 n2 C : region_step m a m1 a1 l4 p n1 C ->
  region_step m1 a1 m2 a2 l4 (p + 4096 * Z.of_nat n1) n2 (fun o => C (4096 * Z.of_nat n1 + o)) -> region_step m a m2 a2 l4 p (n1 + n2) C.
Proof.
  intros (K1 & P1 & O1) (K2 & P2 & O2). split; [by eapply keeps_trans|]. split.
  - intros j Hj. destruct (decide (j < n1)%nat) as [H1|H1].
    + destruct (P1 j H1) as [Hn Hl]. split; [done|]. eapply (loaded_keeps m1 a1); [done| |done]. apply O2.
      rewrite elem_of_pages_from. intros (i & E & Hi). lia.
    + destruct (P2 (j - n1)%nat) as [Hn Hl]; [lia|]. replace (p + 4096 * Z.of_nat n1 + 4096 * Z.of_nat (j - n1)) with (p + 4096 * Z.of_nat j) in * by lia.
      split.
      * rewrite <- O1; [done|]. rewrite elem_of_pages_from. intros (i & E & Hi). lia.
      * eapply loaded_ext; [|exact Hl]. intros i Hi. cbn. f_equal. lia.
  - intros q Hq. rewrite elem_of_pages_from in Hq. rewrite O2, O1; [done| |]; rewrite elem_of_pages_from; intros (i & E & Hi); apply Hq.
    + exists i. split; [done|lia].
    + exists (n1 + i)%nat. split; lia.
Qed.
Lemma region_one m a m1 a1 l4 p C : page_step m a m1 a1 l4 p C -> region_step m a m1 a1 l4 p 1 C.
Proof.
  intros (K & Hl & Hn & Ho). split; [done|]. split.
  - intros j Hj. assert (j = 0%nat) as -> by lia. rewrite Z.add_0_r. split; [done|]. eapply loaded_ext; [|exact Hl]. intros i Hi. f_equal; lia.
  - intros q Hq. apply Ho. intros ->. apply Hq. apply elem_of_pages_from. exists 0%nat. lia.
Qed.
Lemma load_bss_spec l4 fl n : forall p m a, sound m a ->
  stops (load_bss l4 off fl (pages_from p n) (m, a)) \/
  (exists m' a', load_bss l4 off fl (pages_from p n) (m, a) = Ret (Ok tt, (m', a')) /\ region_step m a m' a' l4 p n (fun _ => 0)).
Proof.
  induction n as [|n IH]; intros p m a Hs; [right; exists m, a; split; [done|by apply region_nil]|]. rewrite pages_from_S.
  destruct (load_zero_page_spec l4 p fl (load_bss l4 off fl (pages_from (p + 4096) n)) m a Hs) as [?|(m1 & a1 & E1 & S1)]; [by left|].
  destruct (IH (p + 4096) m1 a1) as [E2|(m2 & a2 & E2 & S2)]; [apply S1| |].
  - left. change (stops (load_zero_page l4 p fl (load_bss l4 off fl (pages_from (p + 4096) n)) (m, a))). by rewrite E1.
  - right. exists m2, a2. split; [etransitivity; [exact E1|exact E2]|]. apply (region_app m a m1 a1 m2 a2 l4 p 1 n); [by apply region_one|exact S2].
Qed.
Lemma load_pages_spec l4 fl data file_size B n : forall idx p m a, sound m a -> 0 < data -> 0 <= idx -> data + file_size <= 2 ^ 64 ->
  (n = 0%nat \/ 4096 * (idx + Z.of_nat n - 1) < file_size) ->
  (forall o, 0 <= o < file_size -> readable m a (data + o) /\ seen m (data + o) = B o) ->
  stops (load_pages l4 off data file_size fl idx (pages_from p n) (m, a)) \/
  (exists m' a', load_pages l4 off data file_size fl idx (pages_from p n) (m, a) = Ret (Ok tt, (m', a')) /\
     region_step m a m' a' l4 p n (fun o => if 4096 * idx + o <? file_size then B (4096 * idx + o) else 0)).
Proof.
  induction n as [|n IH]; intros idx p m a Hs Hd Hi Hsz Hn HB; [right; exists m, a; split; [done|by apply region_nil]|]. rewrite pages_from_S.
  set (count := if file_size - 4096 * idx <? 4096 then file_size - 4096 * idx else 4096).
  assert (Hcnt : 0 <= count <= 4096 /\ 4096 * idx + count <= file_size) by (unfold count; destruct (Z.ltb_spec (file_size - 4096 * idx) 4096); lia).
  assert (Eb : load_pages l4 off data file_size fl idx (p :: pages_from (p + 4096) n) =
    load_page l4 p (data + 4096 * idx) count fl (load_pages l4 off data file_size fl (idx + 1) (pages_from (p + 4096) n))).
  { cbn [load_pages]. unfold load_page. rewrite (wrap_small 64 (idx * 4096)), (wrap_small 64 (file_size - idx * 4096)), (wrap_small 64 (data + idx * 4096)) by lia.
    rewrite (Z.mul_comm idx 4096). done. }
  rewrite Eb. destruct (load_page_spec l4 p (data + 4096 * idx) count fl (load_pages l4 off data file_size fl (idx + 1) (pages_from (p + 4096) n)) m a)
    as [?|(m1 & a1 & E1 & S1)]; [done|lia| |by left|].
  { intros i Hi'. rewrite <- Z.add_assoc. apply HB. lia. }
  destruct (IH (idx + 1) (p + 4096) m1 a1) as [E2|(m2 & a2 & E2 & S2)]; [apply S1|lia|lia|lia|lia| | |].
  { intros o Ho. destruct (HB o Ho) as [Hsf Hb]. destruct (keeps_readable m a m1 a1 _ (proj1 S1) Hsf) as [Hr1 Hr2]. split; [done|]. by rewrite Hr2. }
  - left. by rewrite E1.
  - right. exists m2, a2. split; [by rewrite E1|]. apply (region_app m a m1 a1 m2 a2 l4 p 1 n).
    + apply region_one. destruct S1 as (K & Hl & Hr). split; [done|]. split; [|done]. eapply loaded_ext; [|exact Hl]. intros i Hi'. cbn beta.
      unfold count. destruct (Z.ltb_spec (file_size - 4096 * idx) 4096).
      * destruct (Z.ltb_spec i (file_size - 4096 * idx)), (Z.ltb_spec (4096 * idx + i) file_size); try lia.
        rewrite <- Z.add_assoc. apply HB. lia.
      * rewrite (proj2 (Z.ltb_lt i 4096)), (proj2 (Z.ltb_lt (4096 * idx + i) file_size)) by lia. rewrite <- Z.add_assoc. apply HB. lia.
    + destruct S2 as (K2 & P2 & O2). split; [done|]. split; [|done]. intros j Hj. destruct (P2 j Hj) as [Hn2 Hl2]. split; [done|].
      eapply loaded_ext; [|exact Hl2]. intros i Hi'. cbn beta. by replace (4096 * (idx + 1) + (4096 * Z.of_nat j + i)) with (4096 * idx + (4096 * Z.of_nat 1 + (4096 * Z.of_nat j + i))) by lia.
Qed.

(** ** Segments *)
(** A segment as linkers make them: page aligned in the file and in memory, not empty, in one half of the addresses. *)
Context (lo hi : Z) {HX : HalfLaws lo hi}.
Definition segment_ok (elf : ElfFile) (s : ProgramHeader) : Prop :=
  page_aligned (ph_vaddr s) /\ lo <= ph_vaddr s /\ ph_vaddr s + ph_memsz s + 4096 < hi /\
  page_aligned (ph_offset s) /\ 0 <= ph_offset s /\ 0 < ph_filesz s <= ph_memsz s /\
  0 < elf_input elf /\ elf_input elf + ph_offset s + ph_filesz s <= 2 ^ 64.
(** Where its contents are in the file. *)
Definition segment_data (elf : ElfFile) (s : ProgramHeader) : Z := elf_input elf + ph_offset s.
Definition segment_content (elf : ElfFile) (m : M) (s : ProgramHeader) (o : Z) : Z :=
  if o <? ph_filesz s then seen m (segment_data elf s + o) else 0.
Definition file_safe (elf : ElfFile) (m : M) (a : A) (s : ProgramHeader) : Prop :=
  forall o, 0 <= o < ph_filesz s -> readable m a (segment_data elf s + o).
(** The pages of a segment: those with file contents, and those added for [.bss] (one more than needed when it ends at
    the end of a page). *)
Definition file_pages (s : ProgramHeader) : nat := Z.to_nat ((ph_filesz s - 1) / 4096 + 1).
Definition bss_pages (s : ProgramHeader) : nat :=
  if ph_filesz s <? ph_memsz s then Z.to_nat (ph_memsz s / 4096 + 1 - Z.of_nat (file_pages s)) else 0.
Definition segment_range (s : ProgramHeader) : PageRangeInclusive :=
  {| istart := ph_vaddr s; iend := ph_vaddr s + (ph_memsz s - 1) / 4096 * 4096 |}.

Lemma aligned_mask x : 0 <= x < 2 ^ 64 -> page_aligned x -> Z.land x (2 ^ 64 - 0x1000) = x.
Proof.
  unfold page_aligned. intros Hx Ha. change 4096 with (2 ^ 12) in Ha. apply Z.bits_inj'. intros i Hi. rewrite Z.land_spec.
  destruct (decide (i < 12)) as [H1|H1]; [rewrite <- (Z.mod_pow2_bits_low x 12 i), Ha, Z.bits_0 by lia; done|].
  destruct (decide (i < 64)) as [H2|H2].
  - replace (2 ^ 64 - 0x1000) with (Z.shiftl (Z.ones 52) 12) by done. rewrite Z.shiftl_spec, Z.ones_spec_low by lia. apply andb_true_r.
  - rewrite <- (Z.mod_small x (2 ^ 64)), Z.mod_pow2_bits_high by lia. done.
Qed.
Lemma containing_in p k : lo <= p -> page_aligned p -> 0 <= k -> p + k < hi -> Page_containing (p + k) = p + k / 4096 * 4096.
Proof.
  intros Hp Ha Hk Hl. rewrite half_containing by lia. unfold page_aligned in Ha.
  pose proof (Z.div_mod p 4096 ltac:(lia)). pose proof (Z.div_mod k 4096 ltac:(lia)).
  assert (E : (p + k) mod 4096 = k mod 4096) by (rewrite Z.add_mod, Ha, Z.add_0_l, Z.mod_mod by lia; done). rewrite E. lia.
Qed.
Lemma containing_page p : lo <= p < hi -> page_aligned p -> Page_containing p = p.
Proof. intros Hp Ha. pose proof (containing_in p 0) as E. rewrite Z.add_0_r in E. rewrite E by (done || lia). apply Z.add_0_r. Qed.
Lemma align_up_in p k : lo <= p -> page_aligned p -> 0 < k -> p + k + 4096 < hi -> align_up (p + k) 4096 = Ret (p + 4096 * ((k - 1) / 4096 + 1)).
Proof.
  intros Hp Ha Hk Hl. rewrite half_align_up; [|lia|lia|exists (2 ^ 28); done|lia]. f_equal. unfold page_aligned in Ha.
  pose proof (Z.div_mod p 4096 ltac:(lia)) as E. replace (p + k + 4096 - 1) with (k - 1 + (p / 4096 + 1) * 4096) by lia.
  rewrite Z.div_add by lia. lia.
Qed.
(** The addresses that [load_segment] computes. *)
Lemma load_segment_run elf s l4 user m a : segment_ok elf s ->
  load_segment elf off s l4 user (m, a) =
  (_ <-! load_pages l4 off (segment_data elf s) (ph_filesz s) (segment_flags s user) 0 (pages_from (ph_vaddr s) (file_pages s)) ;;
   _ <-! load_bss l4 off (segment_flags s user) (pages_from (ph_vaddr s + 4096 * Z.of_nat (file_pages s)) (bss_pages s)) ;;
   mret (Ok (segment_range s))) (m, a).
Proof.
  intros (Ha & Hl & Hl2 & Hao & Ho & Hsz & Hin & Hend). unfold load_segment. cbv zeta.
  rewrite half_new, st_lift_bind by lia. rewrite (half_add (ph_vaddr s) (ph_filesz s)), (half_add (ph_vaddr s) (ph_memsz s)), st_lift_bind by lia.
  rewrite half_sub, st_lift_bind by lia.
  rewrite containing_page by (done || lia). unfold file_offset. rewrite aligned_mask, wrap_small by (done || lia). fold (segment_data elf s).
  pose proof (Z.div_pos (ph_filesz s - 1) 4096 ltac:(lia) ltac:(lia)) as Hd1. pose proof (Z.mul_div_le (ph_filesz s - 1) 4096 ltac:(lia)) as Hd2.
  assert (Hn1 : Z.of_nat (file_pages s) = (ph_filesz s - 1) / 4096 + 1) by (unfold file_pages; lia).
  assert (Hp1 : Page_range_inclusive (ph_vaddr s) (Page_containing (ph_vaddr s + ph_filesz s - 1)) = pages_from (ph_vaddr s) (file_pages s)).
  { rewrite <- Z.add_sub_assoc, containing_in by (done || lia). rewrite <- half_range_inclusive by (done || lia). f_equal. lia. }
  rewrite Hp1. assert (Hr : Page_containing (ph_vaddr s + ph_memsz s - 1) = iend (segment_range s))
    by (rewrite <- Z.add_sub_assoc, containing_in by (done || lia); done).
  apply st_try_ext; [done|]. intros _ s1. apply st_try_ext.
  - intros s2. unfold bss_pages. destruct (Z.ltb_spec (ph_filesz s) (ph_memsz s)) as [Hlt|Hge]; [|done].
    rewrite st_lift_bind, st_lift_bind, align_up_in, st_lift_bind, half_new, st_lift_bind by (done || lia).
    rewrite <- Hn1. f_equal. pose proof (Z.div_le_mono (ph_filesz s) (ph_memsz s) 4096 ltac:(lia) ltac:(lia)) as Hm.
    pose proof (Z.div_mod (ph_filesz s) 4096 ltac:(lia)). pose proof (Z.mod_pos_bound (ph_filesz s) 4096 ltac:(lia)).
    pose proof (Z.div_mod (ph_filesz s - 1) 4096 ltac:(lia)). pose proof (Z.mod_pos_bound (ph_filesz s - 1) 4096 ltac:(lia)).
    pose proof (Z.div_mod (ph_memsz s) 4096 ltac:(lia)). pose proof (Z.mod_pos_bound (ph_memsz s) 4096 ltac:(lia)).
    assert (Hal : page_aligned (ph_vaddr s + 4096 * Z.of_nat (file_pages s))) by (unfold page_aligned in *; rewrite Z.add_mod, Ha, Z.mul_comm, Z.mod_mul by lia; done).
    rewrite containing_page by (done || lia). rewrite containing_in by (done || lia).
    rewrite <- half_range_inclusive by (done || lia). f_equal. lia.
  - intros _ s2. rewrite st_lift_bind, half_sub, st_lift_bind, Hr by lia. done.
Qed.
Lemma load_segment_spec elf s l4 user m a : segment_ok elf s -> sound m a -> file_safe elf m a s ->
  stops (load_segment elf off s l4 user (m, a)) \/
  (exists m' a', load_segment elf off s l4 user (m, a) = Ret (Ok (segment_range s), (m', a')) /\
     region_step m a m' a' l4 (ph_vaddr s) (file_pages s + bss_pages s) (segment_content elf m s)).
Proof.
  intros Hok Hs Hfile. rewrite load_segment_run by done. destruct Hok as (Ha & Hl & Hl2 & Hao & Ho & Hsz & Hin & Hend).
  pose proof (Z.div_mod (ph_filesz s - 1) 4096 ltac:(lia)). pose proof (Z.mod_pos_bound (ph_filesz s - 1) 4096 ltac:(lia)).
  assert (Hn1 : Z.of_nat (file_pages s) = (ph_filesz s - 1) / 4096 + 1) by (unfold file_pages; lia).
  destruct (load_pages_spec l4 (segment_flags s user) (segment_data elf s) (ph_filesz s) (fun o => seen m (segment_data elf s + o)) (file_pages s) 0 (ph_vaddr s) m a)
    as [E1|(m1 & a1 & E1 & S1)]; [done|unfold segment_data; lia|done|unfold segment_data; lia|right; lia|by intros o Hoo; split; [apply Hfile|]| |].
  { left. by apply stops_try. }
  rewrite (st_try_ok _ _ _ _ _ E1).
  destruct (load_bss_spec l4 (segment_flags s user) (bss_pages s) (ph_vaddr s + 4096 * Z.of_nat (file_pages s)) m1 a1) as [E2|(m2 & a2 & E2 & S2)]; [apply S1| |].
  { left. by apply stops_try. }
  rewrite (st_try_ok _ _ _ _ _ E2). right. exists m2, a2. split; [done|]. eapply region_app; [exact S1|].
  destruct S2 as (K2 & P2 & O2). split; [done|]. split; [|done]. intros j Hj. destruct (P2 j Hj) as [Hn2 Hl3]. split; [done|].
  eapply loaded_ext; [|exact Hl3]. intros i Hi. unfold segment_content. by rewrite (proj2 (Z.ltb_ge _ _)) by lia.
Qed.

(** ** Programs *)
(** The segments to load. *)
Definition loads (segments : list ProgramHeader) : list ProgramHeader :=
  List.filter (fun s => match ph_load s with Ok b => b | Err _ => false end) segments.
Definition header_ok (elf : ElfFile) (m : M) (a : A) (s : ProgramHeader) : Prop :=
  ph_load s = Ok false \/ ph_load s = Ok true /\ segment_ok elf s /\ file_safe elf m a s.
Definition segment_pages (s : ProgramHeader) : nat := file_pages s + bss_pages s.
(** A segment in memory, with the contents it had in the file of [m0]. *)
Definition segment_in (elf : ElfFile) (m0 m : M) (a : A) (l4 : Z) (s : ProgramHeader) : Prop :=
  forall j, (j < segment_pages s)%nat ->
    loaded m a l4 (ph_vaddr s + 4096 * Z.of_nat j) (fun i => segment_content elf m0 s (4096 * Z.of_nat j + i)).
Lemma segment_in_later elf m0 m a m' a' l4 s : keeps m a m' a' ->
  (forall q, is_Some (translate_page m l4 q) -> translate_page m' l4 q = translate_page m l4 q) ->
  segment_in elf m0 m a l4 s -> segment_in elf m0 m' a' l4 s.
Proof.
  intros K Ht Hs j Hj. pose proof (Hs j Hj) as Hl. eapply loaded_keeps; [done| |done]. apply Ht. destruct Hl as (f & -> & _). eauto.
Qed.
Lemma load_segments_spec elf l4 user m0 a0 segments : forall m a, keeps m0 a0 m a -> Forall (header_ok elf m0 a0) segments ->
  stops (load_segments elf off l4 user segments (m, a)) \/
  (exists m' a', load_segments elf off l4 user segments (m, a) = Ret (Ok (segment_range <$> loads segments), (m', a')) /\ keeps m a m' a' /\
     Forall (segment_in elf m0 m' a' l4) (loads segments) /\
     forall q, is_Some (translate_page m l4 q) -> translate_page m' l4 q = translate_page m l4 q).
Proof.
  induction segments as [|s segments IH]; intros m a K0 Hok; cbn [load_segments loads List.filter].
  - right. exists m, a. split; [done|]. split; [apply keeps_refl, K0|]. split; [constructor|done].
  - apply Forall_cons in Hok as [[Hp|(Hp & Hseg & Hf)] Hok]; rewrite Hp; cbn [unwrap_result]; rewrite st_lift_bind; [by apply IH|].
    assert (Hf' : file_safe elf m a s) by (intros o Ho; eapply keeps_readable; [exact K0|by apply Hf]).
    destruct (load_segment_spec elf s l4 user m a Hseg) as [E1|(m1 & a1 & E1 & K1 & P1 & O1)]; [apply K0|done| |].
    { left. by apply stops_try. }
    rewrite (st_try_ok _ _ _ _ _ E1). assert (Ht1 : forall q, is_Some (translate_page m l4 q) -> translate_page m1 l4 q = translate_page m l4 q).
    { intros q [f Hq]. apply O1. rewrite elem_of_pages_from. intros (j & -> & Hj). destruct (P1 j Hj) as [Hn _]. congruence. }
    assert (Hin : segment_in elf m0 m1 a1 l4 s).
    { intros j Hj. eapply loaded_ext; [|by apply P1]. intros i Hi. unfold segment_content. destruct (Z.ltb_spec (4096 * Z.of_nat j + i) (ph_filesz s)); [|done].
      eapply keeps_readable; [exact K0|]. apply Hf. lia. }
    destruct (IH m1 a1 (keeps_trans _ _ _ _ _ _ K0 K1) Hok) as [E2|(m2 & a2 & E2 & K2 & L2 & T2)].
    { left. by apply stops_try. }
    rewrite (st_try_ok _ _ _ _ _ E2). right. exists m2, a2. split; [done|]. split; [by eapply keeps_trans|]. split.
    + constructor; [by eapply segment_in_later|exact L2].
    + intros q Hq. rewrite T2; [by apply Ht1|by rewrite Ht1].
Qed.
Lemma segment_byte elf m0 m a l4 s o : segment_ok elf s -> segment_in elf m0 m a l4 s -> 0 <= o < ph_memsz s ->
  exists f, translate_page m l4 (ph_vaddr s + o / 4096 * 4096) = Some f /\ byte_at m (f + o mod 4096) = segment_content elf m0 s o.
Proof.
  intros Hok Hin Ho. pose proof (Z.div_mod o 4096 ltac:(lia)). pose proof (Z.mod_pos_bound o 4096 ltac:(lia)). pose proof (Z.div_pos o 4096 ltac:(lia) ltac:(lia)).
  destruct Hok as (_ & _ & _ & _ & _ & Hsz & _). destruct (Hin (Z.to_nat (o / 4096))) as (f & Hf & Hc).
  - unfold segment_pages, bss_pages, file_pages. pose proof (Z.div_le_mono o (ph_memsz s) 4096 ltac:(lia) ltac:(lia)).
    pose proof (Z.div_pos (ph_filesz s - 1) 4096 ltac:(lia) ltac:(lia)). destruct (Z.ltb_spec (ph_filesz s) (ph_memsz s)); [lia|].
    pose proof (Z.div_le_mono o (ph_filesz s - 1) 4096 ltac:(lia) ltac:(lia)). lia.
  - exists f. rewrite Z2Nat.id in * by lia. split; [by rewrite (Z.mul_comm (o / 4096))|]. destruct (Hc (o mod 4096)) as [_ ->]; [lia|]. f_equal. lia.
Qed.

(** ** Other pages *)
(** [map_range] adds pages and keeps memory. *)
Lemma map_each_keeps l4 fl pages : forall m a, sound m a -> stops (map_each l4 fl pages (m, a)) \/
  exists m' a', map_each l4 fl pages (m, a) = Ret (Ok tt, (m', a')) /\ keeps m a m' a' /\
    (forall p, p ∈ pages -> is_Some (translate_page m' l4 p)) /\
    (forall q, is_Some (translate_page m l4 q) -> translate_page m' l4 q = translate_page m l4 q).
Proof.
  induction pages as [|p pages IH]; intros m a Hs; cbn [map_each].
  { right. exists m, a. split; [done|]. split; [by apply keeps_refl|]. split; [by intros p Hp%elem_of_nil|done]. }
  destruct (alloc_keeps m a Hs) as [[E1 Ho]|(r & a1 & E1 & K1 & _)]; [left; apply stops_try; by left|].
  destruct r as [f|e]; [|left; apply stops_try; right; eauto]. rewrite (st_try_ok _ _ _ _ _ E1).
  destruct (map_to_keeps m a1 l4 p f fl) as [[E2 Ho]|(r & m2 & a2 & E2 & K2 & Hr)]; [apply K1|left; apply stops_try; by left|].
  destruct r as [[]|e]; [|left; apply stops_try; right; eauto]. rewrite (st_try_ok _ _ _ _ _ E2). destruct Hr as (Hn & Hm & Hoth).
  destruct (IH m2 a2) as [?|(m' & a' & E' & K' & Hp & Hq)]; [apply K2|by left|right].
  exists m', a'. split; [done|]. split; [eapply keeps_trans; [|exact K']; by eapply keeps_trans|]. split.
  - intros q [->|Hq']%elem_of_cons; [rewrite Hq; rewrite Hm; eauto|by apply Hp].
  - intros q [g Hg]. assert (q <> p) by congruence. rewrite Hq; rewrite Hoth by done; eauto.
Qed.
Lemma map_pages_keeps l4 p n user m a : sound m a -> lo <= p -> page_aligned p -> 1 <= n -> p + 4096 * n < hi ->
  stops (map_pages l4 p n user (m, a)) \/
  exists m' a', map_pages l4 p n user (m, a) = Ret (Ok {| start := p; end_ := p + 4096 * n |}, (m', a')) /\ keeps m a m' a' /\
    (forall q, q ∈ pages_from p (Z.to_nat n) -> is_Some (translate_page m' l4 q)) /\
    (forall q, is_Some (translate_page m l4 q) -> translate_page m' l4 q = translate_page m l4 q).
Proof.
  intros Hs Hp Ha Hn Hh. unfold map_pages, map_range. rewrite half_new, st_lift_bind by lia. cbv zeta. rewrite containing_page by (done || lia).
  rewrite half_page_add, st_lift_bind by (done || lia).
  rewrite half_page_sub, st_lift_bind by (unfold page_aligned in *; try (rewrite (Z.mul_comm 4096), Z_mod_plus_full); done || lia). cbn [istart iend].
  replace (p + 4096 * n - 4096 * 1) with (p + 4096 * (Z.of_nat (Z.to_nat n) - 1)) by lia. rewrite half_range_inclusive by (done || lia).
  match goal with |- context [map_each l4 ?fl _] => destruct (map_each_keeps l4 fl (pages_from p (Z.to_nat n)) m a Hs) as [?|(m' & a' & E & K & H1 & H2)] end;
    [left; by apply stops_try|right].
  rewrite (st_try_ok _ _ _ _ _ E). exists m', a'. split; [|done].
  destruct (H1 p) as [f Hf]; [apply elem_of_pages_from; exists 0%nat; lia|].
  erewrite st_bind_run; [done|]. unfold trace_translation. rewrite Hf. by destruct trace_enabled.
Qed.

(** C10: A loaded program is in memory as the file says.  Loading an ELF file with page-aligned segments returns, unless the allocator panics; when it
    succeeds, every byte of every segment is mapped and holds the byte of the file, or zero beyond the file part, at the
    frame that the page table gives; the ranges returned are those of the segments; pages that were mapped before are mapped as
    before; and no byte outside of page tables and of frames that were free has changed. *)
Theorem load_elf_loads elf l4 user m a : sound m a -> Forall (header_ok elf m a) (program_iter elf) ->
  load_elf elf off l4 user (m, a) = Panic /\ oom \/
  exists r m' a', load_elf elf off l4 user (m, a) = Ret (r, (m', a')) /\
  forall ranges, r = Ok ranges ->
    ranges = segment_range <$> loads (program_iter elf) /\
    (forall s o, s ∈ loads (program_iter elf) -> 0 <= o < ph_memsz s -> exists f,
       translate_page m' l4 (ph_vaddr s + o / 4096 * 4096) = Some f /\
       byte_at m' (f + o mod 4096) = if o <? ph_filesz s then seen m (elf_input elf + ph_offset s + o) else 0) /\
    (forall q, is_Some (translate_page m l4 q) -> translate_page m' l4 q = translate_page m l4 q) /\
    (forall x, safe m a x -> byte_at m' x = byte_at m x).
Proof.
  intros Hs Hok. unfold load_elf.
  destruct (load_segments_spec elf l4 user m a (program_iter elf) m a (keeps_refl _ _ Hs) Hok) as [[?|(e & m' & a' & E)]|(m' & a' & E & K & Hl & Ht)]; [by left|right..].
  - exists (Err e), m', a'. by split.
  - exists (Ok (segment_range <$> loads (program_iter elf))), m', a'. split; [done|]. intros ranges [= <-]. split; [done|].
    split; [|split; [done|apply K]]. intros s o Hin Ho. rewrite Forall_forall in Hl. apply (segment_byte elf m m' a' l4 s o); [|by apply Hl|done].
    unfold loads in Hin. apply list_elem_of_In, filter_In in Hin as [Hin Hp]. apply list_elem_of_In in Hin. rewrite Forall_forall in Hok.
    destruct (Hok s Hin) as [E1|(_ & Hseg & _)]; [by rewrite E1 in Hp|done].
Qed.
End load.

(** ** The kernel's allocator *)
Definition available `{X86} (a : BootInfoFrameAllocator) : list Z := recycled a ++ (Frame_containing <$> frames a).
Definition frames_ready `{X86} (limit : Z) (a : BootInfoFrameAllocator) : Prop :=
  Forall (fun x => 0 <= x < 2 ^ 52) (frames a) /\ Forall (fun g => page_aligned g /\ 0 <= g /\ g + 4096 <= limit) (available a) /\ NoDup (available a).
(** The usable memory is below [limit]. *)
Definition map_below `{Uefi} (limit : Z) (mm : list MemoryDescriptor) : Prop :=
  Forall (fun r => phys_start r + 4096 * page_count r <= limit) (List.filter (fun r => ty r =? CONVENTIONAL) mm).
Lemma create_frame_iter_below `{Uefi} limit mm : map_ok mm -> map_below limit mm -> Forall (fun x => x + 4096 <= limit) (create_frame_iter mm).
Proof.
  intros [Hr _] Hb. unfold create_frame_iter. apply Forall_bind. unfold map_below in Hb.
  induction (List.filter (fun r => ty r =? CONVENTIONAL) mm) as [|r rs IH]; [constructor|].
  apply Forall_cons in Hr as [(H1 & H2 & H3 & H4) Hr]. apply Forall_cons in Hb as [Hb1 Hb]. constructor; [|by apply IH].
  apply Forall_fmap, Forall_forall. intros v Hv%elem_of_seqZ. cbn. rewrite (wrap_small 64 (v * 4096)), wrap_small by lia. lia.
Qed.
Lemma memory_init_ready `{X86Laws} `{Uefi} limit mm : map_ok mm -> map_below limit mm -> frames_ready limit (memory_init mm).
Proof.
  intros Hm Hb. pose proof (create_frame_iter_range mm Hm) as Hr. pose proof (create_frame_iter_below limit mm Hm Hb) as Hl.
  split; [eapply Forall_impl; [exact Hr|]; by intros x []|]. split; [|exact (all_frames_NoDup mm Hm)].
  cbn. apply Forall_fmap. pose proof (proj2 (Forall_and _ _) (conj Hr Hl)) as Ha. eapply Forall_impl; [exact Ha|]. intros x [[Hx Hxa] Hxl]. cbn.
  rewrite Frame_containing_low by done. unfold page_aligned in *. rewrite Hxa, Z.sub_0_r. split; [done|]. split; [lia|exact Hxl].
Qed.
(** The frame allocator of the kernel keeps the loader's contract. *)
Lemma BootInfo_frame_source `{X86Laws} limit : frame_source False limit (frames_ready limit) (fun a g => g ∈ available a).
Proof.
  intros a (Hr & Ha & Hn). split; [intros g Hg; by apply (proj1 (Forall_forall _ _) Ha)|]. right. cbn. unfold available, BootInfo_allocate_frame in *.
  destruct (recycled a) as [|f rest] eqn:Er; cbn [app] in *.
  - destruct (frames a) as [|x xs] eqn:Ef; cbn [fmap list_fmap] in *.
    + eexists None, _. split; [done|]. cbn. repeat split; try constructor; done.
    + apply Forall_cons in Hr as [Hx Hxs]. apply Forall_cons in Ha as [Hfa Ha]. apply NoDup_cons in Hn as [Hf Hn]. rewrite PhysAddr_new_low by done.
      eexists (Some _), _. split; [reflexivity|]. unfold frames_ready, available. cbn. split; [done|]. split; [intros g Hg; by right|].
      intros f [= <-]. split; [by left|done].
  - apply Forall_cons in Ha as [Hfa Ha]. apply NoDup_cons in Hn as [Hf Hn].
    eexists (Some _), _. split; [reflexivity|]. unfold frames_ready, available. cbn. split; [done|]. split; [intros g Hg; by right|].
    intros f' [= <-]. split; [by left|done].
Qed.

(** ** The small machine: every address is its own physical address *)
Global Instance demo_view : MemoryView demo_machine := {| byte_at m x := default 0 (dm_mem m !! x); reach _ x := Some x; tables _ _ := False |}.
Lemma dm_write_byte m d l x : byte_at (dm_write m d l) x =
  if decide (between d x (d + Z.of_nat (length l))) then default 0 (l !! Z.to_nat (x - d)) else byte_at m x.
Proof.
  cbn. destruct m as [maps flags mem cr3]. cbn. revert d mem. induction l as [|b l IH]; intros d mem; cbn [fold_left length fst snd].
  - rewrite decide_False; [done|]. unfold between. lia.
  - rewrite IH. destruct (decide (x = d)) as [->|Hx].
    + rewrite decide_False by (unfold between; lia). rewrite decide_True by (unfold between; lia). rewrite Z.sub_diag. cbn.
      destruct (Z.eqb_spec b 0) as [->|Hb]; [by rewrite lookup_delete_eq|by rewrite lookup_insert_eq].
    + destruct (decide (between (d + 1) x (d + 1 + Z.of_nat (length l)))) as [Hi|Hi].
      * rewrite decide_True by (unfold between in *; lia). unfold between in Hi. replace (Z.to_nat (x - d)) with (S (Z.to_nat (x - (d + 1)))) by lia. done.
      * rewrite decide_False by (unfold between in *; lia). destruct (b =? 0); [by rewrite lookup_delete_ne|by rewrite lookup_insert_ne].
Qed.
Lemma demo_reaches m d D n : reaches m d D n -> D = d \/ n <= 0.
Proof. intros Hr. destruct (decide (n <= 0)) as [|Hn]; [by right|left]. pose proof (Hr 0 ltac:(lia)) as E. cbn in E. injection E as E. lia. Qed.
Global Instance demo_MemoryLaws : MemoryLaws demo_machine.
Proof.
  split; try done.
  - intros m s d D n x Hn Hr _. change (copy_nonoverlapping m s d n) with (dm_write m d (dm_read m s n)). rewrite dm_write_byte. unfold dm_read.
    rewrite length_fmap, length_seq, Z2Nat.id by lia. destruct (demo_reaches m d D n Hr) as [->|H0]; [|rewrite !decide_False by (unfold between; lia); done].
    destruct (decide _) as [Hi|]; [|done]. unfold between in Hi.
    rewrite list_lookup_fmap, lookup_seq_lt by lia. cbn. by rewrite Z2Nat.id by lia.
  - intros m d D b n x Hn Hr. change (write_bytes m d b n) with (dm_write m d (replicate (Z.to_nat n) b)). rewrite dm_write_byte.
    rewrite length_replicate, Z2Nat.id by lia. destruct (demo_reaches m d D n Hr) as [->|H0]; [|rewrite !decide_False by (unfold between; lia); done].
    destruct (decide _) as [Hi|]; [|done]. unfold between in Hi. rewrite lookup_replicate_2 by lia. done.
  - intros A0 FA0 oom0 I0 m a l4 p f fl _ Ha. right. cbn. destruct (dm_maps m !! (l4, p)); eauto.
  - intros A0 FA0 oom0 limit I0 free0 m a l4 p f fl r m' a' _ _ E. cbn in E.
    destruct (dm_maps m !! (l4, p)); injection E as _ <- _; (split; [by intros ? []|done]).
Qed.

(** A program of three bytes and a page of [.bss], in a file at 0x100000. *)
Definition demo_segment : ProgramHeader :=
  {| ph_load := Ok true; ph_offset := 0x1000; ph_vaddr := 0x400000; ph_filesz := 3; ph_memsz := 0x1003; ph_execute := true; ph_write := true |}.
Definition demo_elf : ElfFile := {| elf_input := 0x100000; elf_entry := 0x400000; program_iter := [demo_segment] |}.
Definition demo_file_mem : demo_machine := dm_write demo_mem 0x101000 [0x7f; 0x45; 0x4c].

#[local] Existing Instances demo_log demo_x86 demo_x86_laws demo_uefi.
Lemma demo_map_below : map_below 0x48000 demo_map.
Proof. repeat constructor; cbn; lia. Qed.
Lemma demo_safe x : 0x48000 <= x -> safe (fun a g => g ∈ available a) demo_file_mem demo_frames x.
Proof.
  intros Hx g [[]|Hg] Hw. destruct (memory_init_ready 0x48000 demo_map demo_map_ok demo_map_below) as (_ & Ha & _).
  destruct (proj1 (Forall_forall _ _) Ha g Hg) as (_ & _ & Hr). unfold in_frame in Hw. lia.
Qed.
Lemma load_elf_loads_witness : exists r m' a', load_elf demo_elf 0 0 true (demo_file_mem, demo_frames) = Ret (r, (m', a')) /\
  r = Ok [{| istart := 0x400000; iend := 0x401000 |}] /\
  (exists f, translate_page m' 0 0x400000 = Some f /\ byte_at m' (f + 1) = 0x45) /\
  (exists f, translate_page m' 0 0x401000 = Some f /\ byte_at m' (f + 2) = 0).
Proof.
  destruct (load_elf_loads 0 0x48000 0x48000 False (frames_ready 0x48000) (fun a g => g ∈ available a) (BootInfo_frame_source 0x48000) ltac:(lia) ltac:(lia) 0 (2 ^ 47)
    demo_elf 0 true demo_file_mem demo_frames) as [[_ []]|(r & m' & a' & E & Hr)].
  - split; [exact (memory_init_ready 0x48000 demo_map demo_map_ok demo_map_below)|]. split; [by intros g []|]. by intros i Hi.
  - constructor; [|constructor]. right. split; [reflexivity|]. split; [vm_compute; repeat split; discriminate|].
    intros o Ho. eexists. split; [reflexivity|]. apply demo_safe. cbn in Ho. unfold segment_data. cbn. lia.
  - assert (Er : r = Ok [{| istart := 0x400000; iend := 0x401000 |}]) by (vm_compute in E; injection E as <- _ _; reflexivity).
    exists r, m', a'. split; [exact E|]. split; [exact Er|]. destruct (Hr _ Er) as (_ & Hb & _). split.
    + apply (Hb demo_segment 1); [left|cbn; lia].
    + apply (Hb demo_segment 0x1002); [left|cbn; lia].
Defined.
