(* ===== verification/ElfDirect.v ===== *)
(** * Mapping programs in place

    The other half of [pkg/elf/src/lib.rs]: [map_physical_memory], and [map_elf] and [unmap_elf], which map the frames that
    hold an ELF file instead of copying them. *)

From stdpp Require Import base numbers list gmap.
From S2P Require Import Prelude Bytes X86 Frames ElfMap ElfLoad.

(** Physical addresses and frames, and pages and frames of 2 MiB ([x86_64]). *)
Class X86Phys : Type := {
  PhysAddr_add : Z -> Z -> outcome Z;
  PhysAddr_sub : Z -> Z -> outcome Z;
  Frame_diff : Z -> Z -> outcome Z;
  Frame_range_inclusive : Z -> Z -> list Z;
  Frame2M_containing : Z -> Z;
  Page2M_containing : Z -> Z;
  Frame2M_range_inclusive : Z -> Z -> list Z;
}.
Definition huge_from (p : Z) (n : nat) : list Z := (fun i => p + 0x200000 * Z.of_nat i) <$> seq 0 n.
Class X86PhysLaws `{X86Phys} : Prop := {
  PhysAddr_add_in a n : 0 <= a -> 0 <= n -> a + n < 2 ^ 52 -> PhysAddr_add a n = Ret (a + n);
  PhysAddr_sub_in a n : a < 2 ^ 52 -> 0 <= n -> 0 <= a - n -> PhysAddr_sub a n = Ret (a - n);
  Frame_diff_in p q : 0 <= q <= p -> page_aligned p -> page_aligned q -> Frame_diff p q = Ret ((p - q) / 4096);
  Frame_range_inclusive_in p n : 0 <= p -> page_aligned p -> p + 4096 * Z.of_nat n < 2 ^ 52 ->
    Frame_range_inclusive p (p + 4096 * (Z.of_nat n - 1)) = pages_from p n;
  Frame2M_containing_in a : 0 <= a < 2 ^ 52 -> Frame2M_containing a = a - a mod 0x200000;
  Page2M_containing_in a : 2 ^ 64 - 2 ^ 47 <= a < 2 ^ 64 \/ 0 <= a < 2 ^ 47 -> Page2M_containing a = a - a mod 0x200000;
  Frame2M_range_in n : Z.of_nat n * 0x200000 <= 2 ^ 52 -> Frame2M_range_inclusive 0 (0x200000 * (Z.of_nat n - 1)) = huge_from 0 n;
}.
(** [Mapper<Size2MiB>] *)
Class HugeMapper (M : Type) : Type := {
  translate_huge : M -> Z -> Z -> option Z;
  map_huge {A} `{FrameAllocator A} : M -> A -> Z -> Z -> Z -> PageTableFlags -> outcome (result unit MapToError * (M * A));
}.
Class HugeMapperLaws (M : Type) `{HugeMapper M} : Prop := {
  map_huge_ok {A} `{FrameAllocator A} m (a : A) l4 p f fl m' a' :
    map_huge m a l4 p f fl = Ret (Ok tt, (m', a')) ->
    translate_huge m l4 p = None /\ translate_huge m' l4 p = Some f /\
    (forall q, q <> p -> translate_huge m' l4 q = translate_huge m l4 q);
  map_huge_returns {A} `{FrameAllocator A} (I : A -> Prop) m a l4 p f fl :
    alloc_closed I -> I a -> exists r m' a', map_huge m a l4 p f fl = Ret (r, (m', a')) /\ I a';
}.

Section ops.
Context {M A : Type} `{X86, !X86Phys, Machine M, !HugeMapper M, !FrameAllocator A}.
Abbreviation Mem := (ST (M * A)).

(** ** Physical memory *)
(** [.map_to(..).expect("Failed to map physical memory").flush()] *)
Definition do_map_huge (l4 page frame : Z) (flags : PageTableFlags) : Mem unit := fun '(m, a) =>
  r ← map_huge m a l4 page frame flags;
  _ ← unwrap_result r.1;
  Ret (tt, r.2).
Fixpoint map_huge_each (l4 offset : Z) (frames : list Z) : Mem unit :=
  match frames with
  | [] => mret tt
  | frame :: frames' =>
      va ← st_lift (VirtAddr_new (u64 (frame + offset)));
      _ ← do_map_huge l4 (Page2M_containing va) frame
            {| PRESENT := true; WRITABLE := true; USER_ACCESSIBLE := false; NO_EXECUTE := false |};
      map_huge_each l4 offset frames'
  end.
Definition map_physical_memory (l4 offset max_addr : Z) : Mem unit :=
  p0 ← st_lift (PhysAddr_new 0);
  p1 ← st_lift (PhysAddr_new max_addr);
  map_huge_each l4 offset (Frame2M_range_inclusive (Frame2M_containing p0) (Frame2M_containing p1)).

(** ** Segments in place *)
(** The page at which frame [frame] of a segment is mapped. *)
Definition frame_page (start_page start_frame frame : Z) : outcome Z :=
  offset ← Frame_diff frame start_frame; Page_add start_page offset.
Fixpoint map_frames (l4 start_page start_frame : Z) (flags : PageTableFlags) (frames : list Z) : Mem (result unit MapToError) :=
  match frames with
  | [] => mret (Ok tt)
  | frame :: frames' =>
      page ← st_lift (frame_page start_page start_frame frame);
      _ <-! do_map_to l4 page frame flags ;;
      map_frames l4 start_page start_frame flags frames'
  end.
(** [last_page] moved to a frame of its own, where its end can be cleared. *)
Definition remap_last (l4 virt_start_addr file_size end_frame : Z) (flags : PageTableFlags) : Mem (result unit MapToError) :=
  new_frame <-! alloc_frame ;;
  file_end ← st_lift (VirtAddr_add virt_start_addr file_size);
  file_last ← st_lift (VirtAddr_sub file_end 1);
  let last_page := Page_containing file_last in
  _ ← on_machine (fun m => copy_nonoverlapping m end_frame new_frame 4096);
  u ← do_unmap l4 last_page;
  match u with
  | Err UnmapParentEntryHugePage => mret (Err ParentEntryHugePage)
  | Err _ => st_lift Panic
  | Ok _ => do_map_to l4 last_page new_frame flags
  end.
Definition map_segment (segment : ProgramHeader) (start l4 : Z) : Mem (result unit MapToError) :=
  is_load ← st_lift (unwrap_result (ph_load segment));
  if negb is_load then mret (Ok tt) else
  let mem_size := ph_memsz segment in
  let file_size := ph_filesz segment in
  phys_start_addr ← st_lift (PhysAddr_add start (file_offset segment));
  virt_start_addr ← st_lift (VirtAddr_new (ph_vaddr segment));
  let start_page := Page_containing virt_start_addr in
  let start_frame := Frame_containing phys_start_addr in
  phys_end ← st_lift (PhysAddr_add phys_start_addr file_size);
  phys_last ← st_lift (PhysAddr_sub phys_end 1);
  let end_frame := Frame_containing phys_last in
  let flags := segment_flags segment false in
  _ <-! map_frames l4 start_page start_frame flags (Frame_range_inclusive start_frame end_frame) ;;
  if file_size <? mem_size then
    zero_start ← st_lift (VirtAddr_add virt_start_addr file_size);
    zero_end ← st_lift (VirtAddr_add virt_start_addr mem_size);
    _ <-! (if negb (Z.land zero_start 0xfff =? 0) then remap_last l4 virt_start_addr file_size end_frame flags else mret (Ok tt)) ;;
    up ← st_lift (align_up zero_start 4096);
    va ← st_lift (VirtAddr_new up);
    _ <-! map_each l4 flags (Page_range_inclusive (Page_containing va) (Page_containing zero_end)) ;;
    _ ← on_machine (fun m => write_bytes m zero_start 0 (mem_size - file_size));
    mret (Ok tt)
  else mret (Ok tt).
Fixpoint map_segments (start l4 : Z) (segments : list ProgramHeader) : Mem (result unit MapToError) :=
  match segments with
  | [] => mret (Ok tt)
  | segment :: segments' => _ <-! map_segment segment start l4 ;; map_segments start l4 segments'
  end.
Definition map_elf (elf : ElfFile) (l4 : Z) : Mem (result unit MapToError) :=
  start ← st_lift (PhysAddr_new (elf_input elf));
  map_segments start l4 (program_iter elf).

Fixpoint unmap_frames (l4 start_page start_frame : Z) (frames : list Z) : Mem (result unit UnmapError) :=
  match frames with
  | [] => mret (Ok tt)
  | frame :: frames' =>
      page ← st_lift (frame_page start_page start_frame frame);
      _ <-! do_unmap l4 page ;;
      unmap_frames l4 start_page start_frame frames'
  end.
Fixpoint unmap_plain (l4 : Z) (pages : list Z) : Mem (result unit UnmapError) :=
  match pages with
  | [] => mret (Ok tt)
  | page :: pages' => _ <-! do_unmap l4 page ;; unmap_plain l4 pages'
  end.
Definition unmap_segment (segment : ProgramHeader) (kernel_start l4 : Z) : Mem (result unit UnmapError) :=
  is_load ← st_lift (unwrap_result (ph_load segment));
  if negb is_load then mret (Ok tt) else
  let mem_size := ph_memsz segment in
  let file_size := ph_filesz segment in
  phys_start_addr ← st_lift (PhysAddr_add kernel_start (file_offset segment));
  virt_start_addr ← st_lift (VirtAddr_new (ph_vaddr segment));
  let start_page := Page_containing virt_start_addr in
  let start_frame := Frame_containing phys_start_addr in
  phys_end ← st_lift (PhysAddr_add phys_start_addr file_size);
  phys_last ← st_lift (PhysAddr_sub phys_end 1);
  let end_frame := Frame_containing phys_last in
  _ <-! unmap_frames l4 start_page start_frame (Frame_range_inclusive start_frame end_frame) ;;
  if file_size <? mem_size then
    zero_start ← st_lift (VirtAddr_add virt_start_addr file_size);
    zero_end ← st_lift (VirtAddr_add virt_start_addr mem_size);
    _ <-! (if negb (Z.land zero_start 0xfff =? 0) then
             file_end ← st_lift (VirtAddr_add virt_start_addr file_size);
             file_last ← st_lift (VirtAddr_sub file_end 1);
             _ <-! do_unmap l4 (Page_containing file_last) ;; mret (Ok tt)
           else mret (Ok tt)) ;;
    up ← st_lift (align_up zero_start 4096);
    va ← st_lift (VirtAddr_new up);
    unmap_plain l4 (Page_range_inclusive (Page_containing va) (Page_containing zero_end))
  else mret (Ok tt).
Fixpoint unmap_segments (start l4 : Z) (segments : list ProgramHeader) : Mem (result unit UnmapError) :=
  match segments with
  | [] => mret (Ok tt)
  | segment :: segments' => _ <-! unmap_segment segment start l4 ;; unmap_segments start l4 segments'
  end.
Definition unmap_elf (elf : ElfFile) (l4 : Z) : Mem (result unit UnmapError) :=
  kernel_start ← st_lift (PhysAddr_new (elf_input elf));
  unmap_segments kernel_start l4 (program_iter elf).
End ops.

(** ** What they do to the translation of pages *)
Section spec.
Context {M A : Type} {L : Log} {X : X86} {XL : X86Laws} {XP : X86Phys} {XPL : X86PhysLaws} {MM : Machine M} {ML : MachineLaws M} {HM : HugeMapper M}
  {HML : HugeMapperLaws M} {FA : FrameAllocator A} {FD : FrameDeallocator A}.
Context (lo hi : Z) {HX : HalfLaws lo hi} (I : A -> Prop) (HI : alloc_closed I).

Lemma aligned_add p n : page_aligned p -> page_aligned (p + 4096 * n).
Proof. unfold page_aligned. intros Hp. by rewrite (Z.mul_comm 4096), Z_mod_plus_full. Qed.
Lemma frame_page_in sp sf i : lo <= sp -> sp + 4096 * i < hi -> page_aligned sp -> 0 <= sf -> page_aligned sf -> 0 <= i ->
  frame_page sp sf (sf + 4096 * i) = Ret (sp + 4096 * i).
Proof.
  intros H1 H2 H3 H4 H5 H6. unfold frame_page. rewrite Frame_diff_in by (try apply aligned_add; done || lia). cbn.
  replace (sf + 4096 * i - sf) with (i * 4096) by lia. rewrite Z.div_mul by lia. by apply half_page_add.
Qed.
(** Going through the frames is going through the pages. *)
Lemma unmap_frames_pages l4 sp sf n : forall j s, lo <= sp -> page_aligned sp -> 0 <= sf -> page_aligned sf -> 0 <= j -> sp + 4096 * (j + Z.of_nat n) < hi ->
  unmap_frames l4 sp sf (pages_from (sf + 4096 * j) n) s = unmap_each l4 false (pages_from (sp + 4096 * j) n) s.
Proof.
  induction n as [|n IH]; intros j [m a] H1 H2 H3 H4 H5 H6; [done|]. rewrite !pages_from_S. cbn [unmap_frames unmap_each].
  rewrite frame_page_in, st_lift_bind by (done || lia). apply st_try_ext; [done|]. intros f s. rewrite st_ret_bind.
  replace (sf + 4096 * j + 4096) with (sf + 4096 * (j + 1)) by lia. replace (sp + 4096 * j + 4096) with (sp + 4096 * (j + 1)) by lia. apply IH; done || lia.
Qed.
Lemma unmap_plain_each l4 pages : forall s, unmap_plain l4 pages s = unmap_each l4 false pages (s : M * A).
Proof. induction pages as [|p pages IH]; intros s; [done|]. cbn [unmap_plain unmap_each]. apply st_try_ext; [done|]. intros f s'. rewrite st_ret_bind. apply IH. Qed.
(** From [m] to [m'] the [n] pages from [sp] on were mapped to the frames from [sf] on, and nothing else was. *)
Definition maps_frames (l4 : Z) (m m' : M) (sp sf : Z) (n : nat) : Prop :=
  (forall i, (i < n)%nat -> translate_page m l4 (sp + 4096 * Z.of_nat i) = None /\ translate_page m' l4 (sp + 4096 * Z.of_nat i) = Some (sf + 4096 * Z.of_nat i)) /\
  (forall q, q ∉ pages_from sp n -> translate_page m' l4 q = translate_page m l4 q).
Lemma maps_frames_nil l4 m m' sp sf : (forall q, translate_page m' l4 q = translate_page m l4 q) -> maps_frames l4 m m' sp sf 0.
Proof. intros Hq. split; [lia|auto]. Qed.
Lemma maps_frames_S l4 m m1 m' sp sf n : translate_page m l4 sp = None -> translate_page m1 l4 sp = Some sf ->
  (forall q, q <> sp -> translate_page m1 l4 q = translate_page m l4 q) -> maps_frames l4 m1 m' (sp + 4096) (sf + 4096) n -> maps_frames l4 m m' sp sf (S n).
Proof.
  intros H1 H2 H3 [Ha Hb]. split.
  - intros [|i] Hi.
    + rewrite !Z.add_0_r. split; [done|]. rewrite Hb; [done|]. rewrite elem_of_pages_from. intros (i & E & _). lia.
    + destruct (Ha i ltac:(lia)) as [Hn Hs]. replace (sp + 4096 * Z.of_nat (S i)) with (sp + 4096 + 4096 * Z.of_nat i) by lia.
      replace (sf + 4096 * Z.of_nat (S i)) with (sf + 4096 + 4096 * Z.of_nat i) by lia. split; [|done]. rewrite <- Hn. symmetry. apply H3. lia.
  - intros q Hq. rewrite pages_from_S in Hq. apply not_elem_of_cons in Hq as [Hne Hq]. rewrite Hb by done. by apply H3.
Qed.
Lemma map_frames_spec l4 sp sf fl n : forall j m a, I a -> lo <= sp -> page_aligned sp -> 0 <= sf -> page_aligned sf -> 0 <= j -> sp + 4096 * (j + Z.of_nat n) < hi ->
  exists r m' a' k, map_frames l4 sp sf fl (pages_from (sf + 4096 * j) n) (m, a) = Ret (r, (m', a')) /\ I a' /\
    (k <= n)%nat /\ (r = Ok tt <-> k = n) /\ maps_frames l4 m m' (sp + 4096 * j) (sf + 4096 * j) k.
Proof.
  induction n as [|n IH]; intros j m a Ha H1 H2 H3 H4 H5 H6.
  { exists (Ok tt), m, a, 0%nat. split; [done|]. do 2 (split; [done|]). split; [done|by apply maps_frames_nil]. }
  rewrite pages_from_S. cbn [map_frames]. rewrite frame_page_in, st_lift_bind by (done || lia).
  destruct (map_to_returns I m a l4 (sp + 4096 * j) (sf + 4096 * j) fl HI Ha) as (r & m1 & a1 & E & Ha1).
  pose proof (E : do_map_to l4 (sp + 4096 * j) (sf + 4096 * j) fl (m, a) = _) as Ed. destruct r as [[]|e].
  - rewrite (st_try_ok _ _ _ _ _ Ed). destruct (map_to_ok _ _ _ _ _ _ _ _ E) as (Hn & Hs & Ho).
    destruct (IH (j + 1) m1 a1) as (r & m' & a' & k & E' & Ha' & Hk & Hr & Hm); [done..|lia|lia|].
    exists r, m', a', (S k). replace (sf + 4096 * j + 4096) with (sf + 4096 * (j + 1)) by lia. split; [done|]. split; [done|]. split; [lia|].
    split; [rewrite Hr; lia|]. apply (maps_frames_S l4 m m1); [done..|].
    by replace (sp + 4096 * j + 4096) with (sp + 4096 * (j + 1)) by lia; replace (sf + 4096 * j + 4096) with (sf + 4096 * (j + 1)) by lia.
  - rewrite (st_try_err _ _ _ _ _ Ed). exists (Err e), m1, a1, 0%nat. split; [done|]. split; [done|]. split; [lia|]. split; [done|].
    apply maps_frames_nil. by eapply map_to_err.
Qed.

(** A segment of a file at [start] that can be mapped in place. *)
Definition in_place (start : Z) (s : ProgramHeader) : Prop :=
  ph_load s = Ok true /\ page_aligned start /\ 0 <= start /\ page_aligned (ph_vaddr s) /\ lo <= ph_vaddr s /\ ph_vaddr s + ph_memsz s + 8192 < hi /\
  page_aligned (ph_offset s) /\ 0 <= ph_offset s < 2 ^ 64 /\ 0 < ph_filesz s <= ph_memsz s /\ start + ph_offset s + ph_filesz s + 4096 < 2 ^ 52.
Lemma frame_aligned a : 0 <= a < 2 ^ 52 -> page_aligned a -> Frame_containing a = a.
Proof. intros Ha Hp. rewrite Frame_containing_low by done. unfold page_aligned in Hp. lia. Qed.
(** The frames of the file part. *)
Lemma segment_frames start s : in_place start s -> let ps := start + ph_offset s in
  PhysAddr_add start (file_offset s) = Ret ps /\ Frame_containing ps = ps /\ page_aligned ps /\ 0 <= ps /\
  PhysAddr_add ps (ph_filesz s) = Ret (ps + ph_filesz s) /\ PhysAddr_sub (ps + ph_filesz s) 1 = Ret (ps + ph_filesz s - 1) /\
  Frame_range_inclusive ps (Frame_containing (ps + ph_filesz s - 1)) = pages_from (ps + 4096 * 0) (file_pages s) /\
  ph_vaddr s + 4096 * (0 + Z.of_nat (file_pages s)) < hi.
Proof.
  intros (_ & Hsa & Hs0 & Hva & Hvl & Hvh & Hoa & Ho & Hsz & Hend) ps. unfold file_offset. rewrite aligned_mask by done.
  assert (Hpa : page_aligned ps) by (unfold page_aligned, ps in *; rewrite Z.add_mod, Hsa, Hoa by lia; done).
  pose proof (Z.div_pos (ph_filesz s - 1) 4096 ltac:(lia) ltac:(lia)) as Hd1. pose proof (Z.mul_div_le (ph_filesz s - 1) 4096 ltac:(lia)) as Hd2.
  assert (Hn1 : Z.of_nat (file_pages s) = (ph_filesz s - 1) / 4096 + 1) by (unfold file_pages; lia).
  split; [apply PhysAddr_add_in; unfold ps in *; lia|]. split; [apply frame_aligned; [unfold ps in *; lia|done]|]. split; [done|]. split; [unfold ps; lia|].
  split; [apply PhysAddr_add_in; unfold ps in *; lia|]. split; [apply PhysAddr_sub_in; unfold ps in *; lia|]. split; [|lia].
  assert (E : Frame_containing (ps + ph_filesz s - 1) = ps + 4096 * (Z.of_nat (file_pages s) - 1)).
  { rewrite Frame_containing_low by (unfold ps; lia). unfold page_aligned in Hpa. rewrite <- Z.add_sub_assoc.
    assert (E : (ps + (ph_filesz s - 1)) mod 4096 = (ph_filesz s - 1) mod 4096) by (rewrite Z.add_mod, Hpa, Z.add_0_l, Z.mod_mod by lia; done).
    rewrite E. pose proof (Z.div_mod (ph_filesz s - 1) 4096 ltac:(lia)). lia. }
  rewrite E, Z.add_0_r. apply Frame_range_inclusive_in; [unfold ps; lia|done|unfold ps; lia].
Qed.
Lemma unmap_segment_run start s l4 (m : M) (a : A) : in_place start s ->
  unmap_segment s start l4 (m, a) =
  (_ <-! unmap_each l4 false (pages_from (ph_vaddr s) (file_pages s)) ;;
   if ph_filesz s <? ph_memsz s then
     _ <-! (if negb (ph_filesz s mod 4096 =? 0) then _ <-! do_unmap l4 (ph_vaddr s + 4096 * (Z.of_nat (file_pages s) - 1)) ;; mret (Ok tt) else mret (Ok tt)) ;;
     unmap_each l4 false (pages_from (ph_vaddr s + 4096 * Z.of_nat (file_pages s)) (bss_pages s))
   else mret (Ok tt)) (m, a).
Proof.
  intros Hin. destruct (segment_frames start s Hin) as (E1 & E2 & Hpa & Hp0 & E3 & E4 & E5 & Hh). cbv zeta in *.
  destruct Hin as (Hl & Hsa & Hs0 & Hva & Hvl & Hvh & Hoa & Ho & Hsz & Hend). unfold unmap_segment. rewrite Hl. cbn [unwrap_result negb].
  rewrite st_lift_bind. cbn [negb]. cbv zeta. rewrite E1, st_lift_bind, half_new, st_lift_bind by lia. rewrite E2, E3, st_lift_bind, E4, st_lift_bind, E5.
  rewrite (containing_page lo hi) by (done || lia).
  pose proof (Z.div_mod (ph_filesz s - 1) 4096 ltac:(lia)). pose proof (Z.mod_pos_bound (ph_filesz s - 1) 4096 ltac:(lia)).
  assert (Hn1 : Z.of_nat (file_pages s) = (ph_filesz s - 1) / 4096 + 1) by (unfold file_pages; lia).
  apply st_try_ext; [intros s1; rewrite unmap_frames_pages by (done || lia); by rewrite Z.add_0_r|]. intros _ s1.
  destruct (Z.ltb_spec (ph_filesz s) (ph_memsz s)) as [Hlt|Hge]; [|done].
  rewrite (half_add (ph_vaddr s) (ph_filesz s)), (half_add (ph_vaddr s) (ph_memsz s)), !st_lift_bind by lia.
  assert (Em : Z.land (ph_vaddr s + ph_filesz s) 0xfff = ph_filesz s mod 4096).
  { change 0xfff with (Z.ones 12). rewrite Z.land_ones by lia. change (2 ^ 12) with 4096. unfold page_aligned in Hva.
    rewrite Z.add_mod, Hva, Z.add_0_l, Z.mod_mod by lia. done. }
  rewrite Em. apply st_try_ext.
  - intros s2. destruct (Z.eqb_spec (ph_filesz s mod 4096) 0); cbn [negb]; [done|]. rewrite st_lift_bind, half_sub, st_lift_bind by lia.
    rewrite <- Z.add_sub_assoc, (containing_in lo hi) by (done || lia).
    by replace (ph_vaddr s + (ph_filesz s - 1) / 4096 * 4096) with (ph_vaddr s + 4096 * (Z.of_nat (file_pages s) - 1)) by lia.
  - intros _ s2. rewrite (align_up_in lo hi), st_lift_bind, half_new, st_lift_bind by (done || lia). rewrite <- Hn1, unmap_plain_each. do 2 f_equal.
    pose proof (Z.div_mod (ph_memsz s) 4096 ltac:(lia)). pose proof (Z.mod_pos_bound (ph_memsz s) 4096 ltac:(lia)).
    pose proof (Z.div_mod (ph_filesz s) 4096 ltac:(lia)). pose proof (Z.mod_pos_bound (ph_filesz s) 4096 ltac:(lia)).
    pose proof (Z.div_le_mono (ph_filesz s) (ph_memsz s) 4096 ltac:(lia) ltac:(lia)).
    rewrite (containing_page lo hi) by (try apply aligned_add; done || lia). rewrite (containing_in lo hi) by (done || lia).
    unfold bss_pages. rewrite (proj2 (Z.ltb_lt _ _) Hlt).
    rewrite <- half_range_inclusive by (try apply aligned_add; done || lia). f_equal. lia.
Qed.
(** A file mapped in place and unmapped again.  For a segment without [.bss], [map_segment] always returns; when it succeeds, every page of
    the segment is mapped to the frame that holds that part of the file, and [unmap_segment] then succeeds and restores the
    translation of every page. *)
Theorem in_place_roundtrip start s l4 (m : M) (a : A) : in_place start s -> ph_memsz s = ph_filesz s -> I a ->
  exists r m' a', map_segment s start l4 (m, a) = Ret (r, (m', a')) /\ (r = Ok tt ->
    (forall o, 0 <= o < ph_filesz s -> translate_page m' l4 (ph_vaddr s + o / 4096 * 4096) = Some (start + ph_offset s + o / 4096 * 4096)) /\
    forall a2 : A, exists m2, unmap_segment s start l4 (m', a2) = Ret (Ok tt, (m2, a2)) /\ forall q, translate_page m2 l4 q = translate_page m l4 q).
Proof.
  intros Hin Heq Ha. destruct (segment_frames start s Hin) as (E1 & E2 & Hpa & Hp0 & E3 & E4 & E5 & Hh). cbv zeta in *.
  pose proof Hin as (Hl & Hsa & Hs0 & Hva & Hvl & Hvh & Hoa & Ho & Hsz & Hend).
  assert (E : map_segment s start l4 (m, a) =
    (_ <-! map_frames l4 (ph_vaddr s) (start + ph_offset s) (segment_flags s false) (pages_from (start + ph_offset s + 4096 * 0) (file_pages s)) ;; mret (Ok tt)) (m, a)).
  { unfold map_segment. rewrite Hl. cbn [unwrap_result negb]. rewrite st_lift_bind. cbn [negb]. cbv zeta.
    rewrite E1, st_lift_bind, half_new, st_lift_bind by lia. rewrite E2, E3, st_lift_bind, E4, st_lift_bind, E5.
    rewrite (containing_page lo hi) by (done || lia). by rewrite (proj2 (Z.ltb_ge _ _)) by lia. }
  rewrite E. destruct (map_frames_spec l4 (ph_vaddr s) (start + ph_offset s) (segment_flags s false) (file_pages s) 0 m a)
    as (r & m' & a' & k & Em & Ha' & Hk & Hr & Hm); [done..|lia|].
  replace (ph_vaddr s + 4096 * 0) with (ph_vaddr s) in Hm by lia. replace (start + ph_offset s + 4096 * 0) with (start + ph_offset s) in Hm by lia.
  destruct Hm as [Hm1 Hm2]. destruct r as [[]|e].
  2:{ rewrite (st_try_err _ _ _ _ _ Em). by exists (Err e), m', a'. }
  rewrite (st_try_ok _ _ _ _ _ Em). exists (Ok tt), m', a'. split; [done|]. intros _. assert (k = file_pages s) as -> by by apply Hr. split.
  - intros o Hoo. pose proof (Z.div_pos o 4096 ltac:(lia) ltac:(lia)). pose proof (Z.div_le_mono o (ph_filesz s - 1) 4096 ltac:(lia) ltac:(lia)).
    destruct (Hm1 (Z.to_nat (o / 4096))) as [_ Hs]; [unfold file_pages; lia|]. rewrite Z2Nat.id in Hs by lia.
    rewrite (Z.mul_comm (o / 4096)). exact Hs.
  - intros a2. rewrite (unmap_segment_run start s l4 m' a2 Hin).
    destruct (unmap_each_spec I HI l4 false (pages_from (ph_vaddr s) (file_pages s)) m' a2) as (m2 & fs & Eu & _ & Hu1 & Hu2 & _); [apply NoDup_pages_from| |].
    { intros q (i & -> & Hi)%elem_of_pages_from. destruct (Hm1 i Hi) as [_ ->]. eauto. }
    rewrite (st_try_ok _ _ _ _ _ Eu), (proj2 (Z.ltb_ge _ _)) by lia. exists m2. split; [done|]. intros q.
    destruct (decide (q ∈ pages_from (ph_vaddr s) (file_pages s))) as [Hq|Hq]; [|by rewrite Hu2, Hm2].
    rewrite Hu1 by done. apply elem_of_pages_from in Hq as (i & -> & Hi). by destruct (Hm1 i Hi) as [-> _].
Qed.
(** [unmap_segment] cannot unmap what [map_segment] maps when [.bss] begins inside a page: it unmaps the last page of the file part
    with the others, then once more, and stops with an error there; the pages of [.bss] stay mapped. *)
Theorem unmap_bss_fails start s l4 (m : M) (a : A) : in_place start s -> ph_filesz s < ph_memsz s -> ph_filesz s mod 4096 <> 0 ->
  (forall q, q ∈ pages_from (ph_vaddr s) (segment_pages s) -> is_Some (translate_page m l4 q)) ->
  exists e m', unmap_segment s start l4 (m, a) = Ret (Err e, (m', a)) /\
    (forall q, q ∈ pages_from (ph_vaddr s) (file_pages s) -> translate_page m' l4 q = None) /\
    (forall q, q ∉ pages_from (ph_vaddr s) (file_pages s) -> translate_page m' l4 q = translate_page m l4 q).
Proof.
  intros Hin Hlt Hmod Hm. rewrite (unmap_segment_run start s l4 m a Hin).
  destruct (unmap_each_spec I HI l4 false (pages_from (ph_vaddr s) (file_pages s)) m a) as (m1 & fs & Eu & _ & Hu1 & Hu2 & _); [apply NoDup_pages_from| |].
  { intros q (i & -> & Hi)%elem_of_pages_from. apply Hm, elem_of_pages_from. exists i. unfold segment_pages. lia. }
  rewrite (st_try_ok _ _ _ _ _ Eu), (proj2 (Z.ltb_lt _ _)) by lia. destruct (Z.eqb_spec (ph_filesz s mod 4096) 0) as [|_]; [done|]. cbn [negb].
  set (last := ph_vaddr s + 4096 * (Z.of_nat (file_pages s) - 1)).
  assert (Hl : last ∈ pages_from (ph_vaddr s) (file_pages s)).
  { assert (0 < file_pages s)%nat by (destruct Hin as (_ & _ & _ & _ & _ & _ & _ & _ & Hsz & _); unfold file_pages; pose proof (Z.div_pos (ph_filesz s - 1) 4096); lia).
    apply elem_of_pages_from. exists (file_pages s - 1)%nat. split; [unfold last|]; lia. }
  destruct (unmap m1 l4 last) as [[f|e] m2] eqn:E2.
  { destruct (unmap_ok _ _ _ _ _ E2) as [Hs _]. rewrite Hu1 in Hs by done. done. }
  assert (Ed : do_unmap l4 last (m1, a) = Ret (Err e, (m2, a))) by (unfold do_unmap; by rewrite E2).
  exists e, m2. split; [unfold st_try; by rewrite Ed|]. pose proof (unmap_err _ _ _ _ _ E2) as He.
  split; intros q Hq; rewrite He; [by apply Hu1|by apply Hu2].
Qed.

End spec.

Section window.
Context {M A : Type} {L : Log} {X : X86} {XL : X86Laws} {XP : X86Phys} {XPL : X86PhysLaws} {MM : Machine M} {ML : MachineLaws M} {HM : HugeMapper M}
  {HML : HugeMapperLaws M} {FA : FrameAllocator A} {HX : HalfLaws high_start (2 ^ 64)}.
(** ** Physical memory *)
Lemma map_huge_run (J : M -> A -> Prop) l4 offset fr
    (HJ : forall m a p f fl, J m a -> map_huge m a l4 p f fl = Panic \/ exists r m' a', map_huge m a l4 p f fl = Ret (r, (m', a')) /\ J m' a') :
  forall (m : M) a, J m a ->
  Forall (fun f => VirtAddr_new (u64 (f + offset)) = Ret (f + offset) /\ Page2M_containing (f + offset) = f + offset) fr -> NoDup fr ->
  map_huge_each l4 offset fr (m, a) = Panic \/
  exists m' a', map_huge_each l4 offset fr (m, a) = Ret (tt, (m', a')) /\ J m' a' /\
    (forall f, f ∈ fr -> translate_huge m l4 (f + offset) = None /\ translate_huge m' l4 (f + offset) = Some f) /\
    (forall q, q - offset ∉ fr -> translate_huge m' l4 q = translate_huge m l4 q).
Proof.
  induction fr as [|f fr IH]; intros m a Ha Hf Hn; cbn [map_huge_each].
  - right. exists m, a. split; [done|]. split; [done|]. split; [by intros f Hf'%elem_of_nil|done].
  - apply Forall_cons in Hf as [[E1 E2] Hf]. apply NoDup_cons in Hn as [Hnf Hn]. rewrite E1, st_lift_bind, E2.
    destruct (HJ m a (f + offset) f {| PRESENT := true; WRITABLE := true; USER_ACCESSIBLE := false; NO_EXECUTE := false |} Ha)
      as [E|(r & m1 & a1 & E & Ha1)]; [left; unfold mbind, ST_bind, do_map_huge; by rewrite E|]. destruct r as [[]|e].
    2:{ left. unfold mbind, ST_bind, do_map_huge. rewrite E. done. }
    destruct (map_huge_ok _ _ _ _ _ _ _ _ E) as (Hb & Hs & Ho).
    assert (Ed : do_map_huge l4 (f + offset) f {| PRESENT := true; WRITABLE := true; USER_ACCESSIBLE := false; NO_EXECUTE := false |} (m, a) = Ret (tt, (m1, a1)))
      by (unfold do_map_huge; by rewrite E).
    rewrite (st_bind_run _ _ _ _ _ Ed). destruct (IH m1 a1 Ha1 Hf Hn) as [E'|(m' & a' & E' & Ha' & Hin & Hout)]; [by left|]. right.
    exists m', a'. split; [done|]. split; [done|]. split.
    + intros g [->|Hg]%elem_of_cons; [rewrite Hout; [done|by replace (f + offset - offset) with f by lia]|].
      destruct (Hin g Hg) as [H1 H2]. split; [|done]. rewrite <- Ho; [done|]. intros Eq. apply Hnf. by replace f with g by lia.
    + intros q [Hq1 Hq2]%not_elem_of_cons. rewrite Hout by done. apply Ho. lia.
Qed.

Lemma elem_of_huge p n x : x ∈ huge_from p n <-> exists i : nat, x = p + 0x200000 * Z.of_nat i /\ (i < n)%nat.
Proof.
  unfold huge_from. rewrite list_elem_of_fmap. split.
  - intros (i & -> & Hi%elem_of_seq). exists i. lia.
  - intros (i & -> & Hi). exists i. split; [done|]. apply elem_of_seq. lia.
Qed.
Lemma huge_index x max : 0 <= x <= max -> x - x mod 0x200000 ∈ huge_from 0 (Z.to_nat (max / 0x200000 + 1)).
Proof.
  intros Hx. apply elem_of_huge. pose proof (Z.div_mod x 0x200000 ltac:(lia)). pose proof (Z.div_pos x 0x200000 ltac:(lia) ltac:(lia)).
  pose proof (Z.div_le_mono x max 0x200000 ltac:(lia) ltac:(lia)). exists (Z.to_nat (x / 0x200000)). lia.
Qed.
(** [map_physical_memory], for any property [J] of the state that mapping a page keeps. *)
Lemma map_physical_run (J : M -> A -> Prop) l4 offset max_addr (m : M) (a : A)
    (HJ : forall m a p f fl, J m a -> map_huge m a l4 p f fl = Panic \/ exists r m' a', map_huge m a l4 p f fl = Ret (r, (m', a')) /\ J m' a') :
  J m a -> high_start <= offset -> offset mod 0x200000 = 0 -> 0 <= max_addr < 2 ^ 51 -> offset + max_addr + 0x200000 <= 2 ^ 64 ->
  map_physical_memory l4 offset max_addr (m, a) = Panic \/
  exists m' a', map_physical_memory l4 offset max_addr (m, a) = Ret (tt, (m', a')) /\ J m' a' /\
    (forall x, 0 <= x <= max_addr -> exists frame, translate_huge m' l4 (Page2M_containing (offset + x)) = Some frame /\
       frame + (offset + x - Page2M_containing (offset + x)) = x /\ translate_huge m l4 (Page2M_containing (offset + x)) = None) /\
    (forall q, (forall x, 0 <= x <= max_addr -> q <> Page2M_containing (offset + x)) -> translate_huge m' l4 q = translate_huge m l4 q).
Proof.
  intros Ha Hlo Hal Hmax Hhi. unfold high_start in *. set (n := Z.to_nat (max_addr / 0x200000 + 1)).
  pose proof (Z.div_mod max_addr 0x200000 ltac:(lia)). pose proof (Z.mod_pos_bound max_addr 0x200000 ltac:(lia)). pose proof (Z.div_pos max_addr 0x200000 ltac:(lia) ltac:(lia)).
  assert (Hpage : forall x, 0 <= x <= max_addr -> Page2M_containing (offset + x) = x - x mod 0x200000 + offset).
  { intros x Hx. pose proof (Z.mod_le x 0x200000 ltac:(lia) ltac:(lia)). rewrite Page2M_containing_in by lia.
    rewrite Z.add_mod, Hal, Z.add_0_l, Z.mod_mod by lia. lia. }
  unfold map_physical_memory. rewrite !PhysAddr_new_low, !st_lift_bind by lia. rewrite !Frame2M_containing_in by lia.
  replace (max_addr - max_addr mod 0x200000) with (0x200000 * (Z.of_nat n - 1)) by lia. change (0 - 0 mod 0x200000) with 0. rewrite Frame2M_range_in by lia.
  destruct (map_huge_run J l4 offset (huge_from 0 n) HJ m a Ha) as [E|(m' & a' & E & Ha' & Hin & Hout)]; [| |by left|right].
  { apply Forall_forall. intros f (i & -> & Hi)%elem_of_huge. rewrite wrap_small by lia. split; [apply half_new; unfold high_start; lia|].
    rewrite Page2M_containing_in by lia. rewrite Z.add_0_l, (Z.mul_comm 0x200000), Z.add_comm, Z_mod_plus_full, Hal. lia. }
  { unfold huge_from. apply NoDup_fmap_2; [intros i j; lia|apply NoDup_seq]. }
  exists m', a'. split; [done|]. split; [done|]. split.
  - intros x Hx. rewrite Hpage by done. destruct (Hin (x - x mod 0x200000)) as [Hn1 Hn2]; [by apply huge_index|]. eexists. split; [exact Hn2|]. split; [lia|done].
  - intros q Hq. apply Hout. intros (i & Ei & Hi)%elem_of_huge. apply (Hq (0x200000 * Z.of_nat i)); [lia|]. rewrite Hpage by lia.
    rewrite (Z.mul_comm 0x200000), Z.mod_mul by lia. lia.
Qed.
(** The window onto physical memory.  [map_physical_memory] either panics, because a page of the window cannot be mapped, or
    afterwards every physical address up to [max_addr] is found at [offset] plus that address; no other page of 2 MiB has changed. *)
Theorem physical_window (I : A -> Prop) l4 offset max_addr (m : M) (a : A) : alloc_closed I -> I a -> high_start <= offset -> offset mod 0x200000 = 0 -> 0 <= max_addr < 2 ^ 51 ->
  offset + max_addr + 0x200000 <= 2 ^ 64 ->
  map_physical_memory l4 offset max_addr (m, a) = Panic \/
  exists m' a', map_physical_memory l4 offset max_addr (m, a) = Ret (tt, (m', a')) /\ I a' /\
    (forall x, 0 <= x <= max_addr -> exists frame, translate_huge m' l4 (Page2M_containing (offset + x)) = Some frame /\
       frame + (offset + x - Page2M_containing (offset + x)) = x /\ translate_huge m l4 (Page2M_containing (offset + x)) = None) /\
    (forall q, (forall x, 0 <= x <= max_addr -> q <> Page2M_containing (offset + x)) -> translate_huge m' l4 q = translate_huge m l4 q).
Proof.
  intros HI Ha H1 H2 H3 H4. apply (map_physical_run (fun _ a => I a)); [|done..].
  intros m1 a1 p f fl Ha1. right. by apply (map_huge_returns I m1 a1 l4 p f fl HI).
Qed.
End window.
