(* ===== verification/Boot.v ===== *)
(** * The boot loader

    Models [pkg/boot]: [main.rs], [fs.rs], [allocator.rs] and the data of [lib.rs].  [efi_main] reads the configuration, the
    kernel and, if asked to, the programs; maps physical memory, the kernel and its stack; and jumps to the kernel, which is the
    value it returns.  The services of the firmware are a class; the allocator of frames is the one of the firmware. *)

From Stdlib Require Import Ascii String.
From stdpp Require Import base numbers list gmap.
From S2P Require Import Prelude Bytes Str Num Config X86 Frames ElfMap ElfLoad ElfDirect.

(** The firmware ([uefi]) and the parser of ELF files ([xmas_elf]): [F] is the state of the firmware, [H] a file handle. *)
Class Firmware (F H : Type) : Type := {
  (** [CStr16::from_str_with_buf] for a buffer of [n] units, and the text of a file name *)
  CStr16_from_str : str -> Z -> option (list Z);
  CStr16_str : list Z -> option str;
  (** the root directory of the boot volume, opening a name in a directory *)
  open_volume : option H;
  open_in : H -> list Z -> option H;
  (** [into_type]: is it a regular file?  [is_directory] *)
  into_type_regular : H -> option bool;
  is_directory : H -> option bool;
  (** the entries that [read_entry] yields, an error among them as [None] *)
  entries : H -> list (option (list Z));
  (** [get_info], which fails when the information does not fit the buffer; [read] into a buffer of [n] bytes *)
  info_size : H -> option Z;
  read_file : H -> Z -> option bytes;
  allocate_pages : F -> Z -> option (Z * F);
  free_pages : F -> Z -> Z -> option F;
  get_memory_map : F -> option (list MemoryDescriptor);
  exit_boot_services : F -> list MemoryDescriptor;
  ElfFile_new : Z -> bytes -> option ElfFile;
}.
(** [Cr0::update] of the flag WRITE_PROTECT *)
Class Cr0 (M : Type) : Type := { set_write_protect : bool -> M -> M }.

Definition CONFIG_PATH : str := chars "\EFI\BOOT\boot.conf".
Definition MAX_APPLIST_LEN : Z := 16.
Record App : Type := { name : str; elf : ElfFile }.
Record BootInfo : Type := {
  memory_map : list MemoryDescriptor;
  info_offset : Z;               (* physical_memory_offset *)
  info_log_level : str;          (* log_level *)
  loaded_apps : option (list App);
  kernel_pages : list PageRangeInclusive;
}.
(** What [jump_to_entry] loads into the registers. *)
Record Jump : Type := { j_rip : Z; j_rsp : Z; j_rdi : BootInfo }.

Section ops.
Context {M F H : Type} `{X86, !X86Phys, Machine M, !HugeMapper M, !Cr0 M, !Firmware F H}.
Abbreviation Boot := (ST (M * F)).
(** The level of the log is [Info]. *)
#[local] Instance boot_log : Log := {| trace_enabled := false |}.

(** ** Frames and files *)
Definition UEFI_allocate_frame (f : F) : outcome (option Z * F) :=
  '(addr, f') ← unwrap (allocate_pages f 1);
  pa ← PhysAddr_new addr;
  Ret (Some (Frame_containing pa), f').
#[local] Instance UEFIFrameAllocator : FrameAllocator F := {| allocate_frame := UEFI_allocate_frame |}.

Definition open_root : outcome H := unwrap open_volume.
Definition open_file (path : str) : outcome H :=
  cstr_path ← unwrap (CStr16_from_str path 64);
  root ← open_root;
  handle ← unwrap (open_in root cstr_path);
  regular ← unwrap (into_type_regular handle);
  if (regular : bool) then Ret handle else Panic.
(** The slice: its address and its bytes. *)
Definition load_file (file : H) : Boot (Z * bytes) :=
  size ← st_lift (unwrap (info_size file));
  let pages := size / 0x1000 + 1 in
  mem_start ← (fun '(m, f) => '(addr, f') ← unwrap (allocate_pages f pages); Ret (addr, (m, f')));
  data ← st_lift (unwrap (read_file file (pages * 0x1000)));
  _ ← on_machine (fun m => write_memory m mem_start data);
  mret (mem_start, data).
Definition free_elf (mem_start len : Z) : Boot unit := fun '(m, f) =>
  f' ← unwrap (free_pages f mem_start (len / 0x1000 + 1)); Ret (tt, (m, f')).
(** The loop of [load_apps] over the entries of the directory. *)
Fixpoint load_entries (handle : H) (es : list (option (list Z))) (apps : list App) : Boot (list App) :=
  match es with
  | [] => mret apps
  | None :: _ => st_panic
  | Some entry :: es' =>
      file ← st_lift (unwrap (open_in handle entry));
      if default true (is_directory file) then load_entries handle es' apps
      else
        regular ← st_lift (unwrap (into_type_regular file));
        slice ← (if (regular : bool) then load_file file else st_panic);
        parsed ← st_lift (unwrap (ElfFile_new slice.1 slice.2));
        text ← st_lift (unwrap (CStr16_str entry));
        if 16 <? str_len text then st_panic
        else if MAX_APPLIST_LEN <=? zlen apps then st_panic
        else load_entries handle es' (apps ++ [{| name := text; elf := parsed |}])
  end.
Definition load_apps : Boot (list App) :=
  root ← st_lift open_root;
  cstr_path ← st_lift (unwrap (CStr16_from_str (chars "\APP\") 8));
  handle ← st_lift (unwrap (open_in root cstr_path));
  dir ← st_lift (unwrap (into_type_regular handle));
  if (dir : bool) then st_panic else load_entries handle (entries handle) [].

(** ** The loader *)
(** [mmap.entries().map(..).max().unwrap().max(0x1_0000_0000)] *)
Definition max_phys_addr (mmap : list MemoryDescriptor) : outcome Z :=
  match (fun r => u64 (phys_start r + u64 (page_count r * 0x1000))) <$> mmap with
  | [] => Panic
  | e :: es => Ret (Z.max (fold_left Z.max es e) 0x100000000)
  end.
(** Where the stack of the kernel starts and how many pages it has. *)
Definition kernel_stack (config : Config) : Z * Z :=
  if 0 <? kernel_stack_auto_grow config then
    let init_size := kernel_stack_auto_grow config in
    (u64 (kernel_stack_address config + u64 ((kernel_stack_size config - init_size) * 0x1000)), init_size)
  else (kernel_stack_address config, kernel_stack_size config).
(** The first part of [efi_main]: what is read from the volume; the kernel comes with its slice. *)
Definition boot_files : Boot (Config * ElfFile * (Z * Z) * option (list App)) :=
  conf ← st_lift (open_file CONFIG_PATH);
  slice ← load_file conf;
  config ← st_lift (parse slice.2);
  file ← st_lift (open_file (kernel_path config));
  slice ← load_file file;
  kernel ← st_lift (unwrap (ElfFile_new slice.1 slice.2));
  apps ← (if Config.load_apps config then apps ← load_apps; mret (Some apps) else mret None);
  mret (config, kernel, (slice.1, zlen slice.2), apps).
(** The second part: the mappings of physical memory, of the kernel and of its stack. *)
Definition boot_maps (config : Config) (kernel : ElfFile) : Boot (list PageRangeInclusive) :=
  mmap ← (fun '(m, f) => mm ← unwrap (get_memory_map f); Ret (mm, (m, f)));
  max_addr ← st_lift (max_phys_addr mmap);
  l4 ← st_gets (fun s => (Cr3_read s.1).1);
  _ ← on_machine (set_write_protect false);
  _ ← map_physical_memory l4 (physical_memory_offset config) max_addr;
  loaded ← load_elf kernel (physical_memory_offset config) l4 false;
  kernelpages ← match loaded with
                | Ok pages => if 8 <? zlen pages then st_panic else mret pages
                | Err _ => st_panic
                end;
  let '(stack_start, stack_size) := kernel_stack config in
  mapped ← map_pages l4 stack_start stack_size false;
  _ ← st_lift (unwrap_result mapped);
  _ ← on_machine (set_write_protect true);
  mret kernelpages.
Definition jump_to_entry (entry : Z) (bootinfo : BootInfo) (stacktop : Z) : outcome Jump :=
  if entry =? 0 then Panic else Ret {| j_rip := entry; j_rsp := stacktop; j_rdi := bootinfo |}.
Definition efi_main : Boot Jump :=
  files ← boot_files;
  let '(config, kernel, (mem_start, len), apps) := files in
  let entry := elf_entry kernel in
  kernelpages ← boot_maps config kernel;
  _ ← free_elf mem_start len;
  mmap ← st_gets (fun s => exit_boot_services s.2);
  if 256 <? zlen mmap then st_panic else
  let bootinfo := {| memory_map := mmap; info_offset := physical_memory_offset config; info_log_level := log_level config;
                     loaded_apps := apps; kernel_pages := kernelpages |} in
  let '(stack_start, stack_size) := kernel_stack config in
  let stacktop := u64 (u64 (stack_start + u64 (stack_size * 0x1000)) - 8) in
  st_lift (jump_to_entry entry bootinfo stacktop).
End ops.

(** ** What the loader hands over *)
(** The current page table is the one the processor uses; mapping pages of 2 MiB and the write-protection flag change memory as
    mapping pages of 4 KiB does, or not at all. *)
Class BootLaws (M : Type) {MM : Machine M} {HM : HugeMapper M} {MC : Cr0 M} {MV : MemoryView M} : Prop := {
  huge_reach m p f i : translate_huge m (Cr3_read m).1 p = Some f -> 0 <= i < 0x200000 -> reach m (p + i) = Some (f + i);
  map_huge_stops {A} `{FrameAllocator A} (oom : Prop) (I : A -> Prop) m a l4 p f fl :
    (forall a, I a -> allocate_frame a = Panic /\ oom \/ exists r a', allocate_frame a = Ret (r, a') /\ I a') -> I a ->
    map_huge m a l4 p f fl = Panic /\ oom \/ exists r m' a', map_huge m a l4 p f fl = Ret (r, (m', a')) /\ I a';
  map_huge_memory {A} `{FrameAllocator A} oom limit (I : A -> Prop) (free : A -> Z -> Prop) m a l4 p f fl r m' a' :
    frame_source oom limit I free -> I a -> map_huge m a l4 p f fl = Ret (r, (m', a')) ->
    (forall g, tables m' g -> tables m g \/ free a g /\ ~ free a' g) /\
    (forall x, (forall g, tables m' g -> ~ in_frame g x) -> byte_at m' x = byte_at m x) /\
    (forall x y, reach m x = Some y -> reach m' x = Some y) /\ Cr3_read m' = Cr3_read m;
  write_protect_kept b m : tables_kept m (set_write_protect b m) /\ (forall x, byte_at (set_write_protect b m) x = byte_at m x) /\
    Cr3_read (set_write_protect b m) = Cr3_read m;
}.

Section spec.
Context {M F H : Type} {X : X86} {XL : X86Laws} {XP : X86Phys} {XPL : X86PhysLaws} {HX : HalfLaws high_start (2 ^ 64)}
  {MM : Machine M} {ML : MachineLaws M} {HM : HugeMapper M} {HML : HugeMapperLaws M} {MC : Cr0 M} {MV : MemoryView M} {MeL : MemoryLaws M} {BL : BootLaws M}
  {FW : Firmware F H}.
#[local] Existing Instances boot_log UEFIFrameAllocator.
Context (limit : Z) (oom : Prop) (I : F -> Prop) (free : F -> Z -> Prop) (HI : frame_source oom limit I free).

Definition config_ok (config : Config) (max_addr : Z) : Prop :=
  let off := physical_memory_offset config in
  let '(stack_start, stack_size) := kernel_stack config in
  high_start <= off /\ off mod 0x200000 = 0 /\ 0 <= max_addr < 2 ^ 51 /\ off + max_addr + 0x200000 <= 2 ^ 64 /\
  high_start <= stack_start /\ page_aligned stack_start /\ 1 <= stack_size /\ stack_start + 4096 * stack_size < 2 ^ 64.

(** Mapping a page of 2 MiB keeps memory, with or without the window. *)
Lemma map_huge_keeps off win m0 f0 m f l4 p fr fl : ElfLoad.keeps off win I free m0 f0 m f ->
  map_huge m f l4 p fr fl = Panic \/
  exists r m' f', map_huge m f l4 p fr fl = Ret (r, (m', f')) /\ ElfLoad.keeps off win I free m0 f0 m' f' /\ Cr3_read m' = Cr3_read m.
Proof.
  intros K. pose proof K as ((Hi & Ht & Hw) & _).
  destruct (map_huge_stops oom (fun a' => I a' /\ forall g, free a' g -> free f g) m f l4 p fr fl) as [[E _]|(r & m' & f' & E & Hi' & Hf)]; [|done|by left|right].
  { intros a1 [Ha1 Hf]. destruct (HI a1 Ha1) as (_ & [[E Ho]|(r & a' & E & Ha' & Hm & _)]); [by left|right]. exists r, a'. split; [done|]. split; [done|]. auto. }
  destruct (map_huge_memory oom limit I free m f l4 p fr fl r m' f' HI Hi E) as (Hg & Hb & Hre & Hc).
  exists r, m', f'. split; [exact E|]. split; [|done]. eapply keeps_trans; [exact K|].
  split; [split; [done|split; [|intros i Hii; by apply Hre, Hw]]|split; [|split; [|done]]].
  - intros g Hm. destruct (Hg g Hm) as [Ho|[_ Hn]]; [|done]. intros Hf'. by apply (Ht g Ho), Hf.
  - intros g [Hm|Hf']; [|right; by apply Hf]. destruct (Hg g Hm) as [Ho|[Ho _]]; auto.
  - intros x Hx. apply Hb. intros g Hm. destruct (Hg g Hm) as [Ho|[Ho _]]; apply Hx; auto.
Qed.
(** Changing the write-protection flag keeps memory. *)
Lemma write_protect_keeps off win b m f : sound off win I free m f -> ElfLoad.keeps off win I free m f (set_write_protect b m) f.
Proof.
  intros (Hi & Ht & Hw). destruct (write_protect_kept b m) as ((Hg & _ & Hre) & Hb & _). split; [split; [done|split]|split; [|split]].
  - intros g Hm. apply Ht. by apply Hg.
  - intros i Hii. rewrite Hre. by apply Hw.
  - intros g [Hm|Hm]; [left; by apply Hg|by right].
  - intros x _. apply Hb.
  - intros x y Hy. by rewrite Hre.
Qed.
(** With the window in place, the state is sound for the loader. *)
Lemma keeps_window off win m f m' f' : reaches m' off 0 win -> ElfLoad.keeps off 0 I free m f m' f' -> sound off win I free m' f'.
Proof. intros Hr ((Hi & Ht & _) & _). by split. Qed.
(** The machine [m'] as the kernel finds it, when the loader started on [m]: physical memory up to [max_addr] seen from the offset on,
    every byte of the kernel in its place, and a mapped stack. *)
Definition booted (config : Config) (kernel : ElfFile) (max_addr : Z) (m m' : M) : Prop :=
  let l4 := (Cr3_read m).1 in
  let '(stack_start, stack_size) := kernel_stack config in
  (forall x, 0 <= x <= max_addr -> reach m' (physical_memory_offset config + x) = Some x) /\
  (forall s o, s ∈ loads (program_iter kernel) -> 0 <= o < ph_memsz s -> exists f,
     translate_page m' l4 (ph_vaddr s + o / 4096 * 4096) = Some f /\
     byte_at m' (f + o mod 4096) = if o <? ph_filesz s then seen m (elf_input kernel + ph_offset s + o) else 0) /\
  (forall q, q ∈ pages_from stack_start (Z.to_nat stack_size) -> is_Some (translate_page m' l4 q)).

Lemma header_later off win lo hi kernel m f m' f' : ElfLoad.keeps off win I free m f m' f' ->
  Forall (header_ok free lo hi kernel m f) (program_iter kernel) -> Forall (header_ok free lo hi kernel m' f') (program_iter kernel).
Proof.
  intros K Hk. eapply Forall_impl; [exact Hk|]. intros s [Hp|(Hp & Hs & Hf)]; [by left|right]. split; [done|]. split; [done|].
  intros o Ho. eapply keeps_readable; [exact K|by apply Hf].
Qed.
(** A byte of a segment loaded after [m'], as it was in the file before. *)
Lemma segment_byte_from off win lo hi kernel m f m1 f1 m' f' l4 s o : ElfLoad.keeps off win I free m f m1 f1 -> header_ok free lo hi kernel m f s -> ph_load s = Ok true ->
  segment_in free kernel m1 m' f' l4 s -> 0 <= o < ph_memsz s -> exists fr,
  translate_page m' l4 (ph_vaddr s + o / 4096 * 4096) = Some fr /\
  byte_at m' (fr + o mod 4096) = if o <? ph_filesz s then seen m (elf_input kernel + ph_offset s + o) else 0.
Proof.
  intros K [Hl|(_ & Hs & Hf)] Hld Hin Ho; [congruence|]. destruct (segment_byte free lo hi kernel m1 m' f' l4 s o Hs Hin Ho) as (fr & Ht & Hb). exists fr. split; [done|].
  rewrite Hb. unfold segment_content. destruct (Z.ltb_spec o (ph_filesz s)); [|done]. apply (keeps_readable off win I free m f m1 f1 _ K). apply Hf. lia.
Qed.
Lemma fold_max_ge l : forall x, x <= fold_left Z.max l x /\ forall y, y ∈ l -> y <= fold_left Z.max l x.
Proof.
  induction l as [|z l IH]; intros x; cbn [fold_left]; [split; [lia|by intros y Hy%elem_of_nil]|].
  destruct (IH (Z.max x z)) as [H1 H2]. split; [lia|]. intros y [->|Hy]%elem_of_cons; [lia|by apply H2].
Qed.
Lemma max_phys_bound mmap max_addr : max_phys_addr mmap = Ret max_addr ->
  0x100000000 <= max_addr /\ forall r, r ∈ mmap -> u64 (phys_start r + u64 (page_count r * 0x1000)) <= max_addr.
Proof.
  unfold max_phys_addr. set (g := fun r => _). intros Hm. destruct (g <$> mmap) as [|e es] eqn:E; [done|]. injection Hm as <-. split; [lia|].
  intros r Hr. destruct (fold_max_ge es e) as [H1 H2]. assert (Hg : g r ∈ e :: es) by (rewrite <- E; by apply list_elem_of_fmap_2).
  apply elem_of_cons in Hg as [Hg|Hg]; [|specialize (H2 _ Hg)]; change (u64 (phys_start r + u64 (page_count r * 0x1000))) with (g r); lia.
Qed.
Lemma boot_maps_spec config kernel m f mmap max_addr : get_memory_map f = Some mmap -> max_phys_addr mmap = Ret max_addr -> config_ok config max_addr ->
  limit <= max_addr + 1 -> I f -> (forall g, tables m g -> ~ free f g) -> Forall (header_ok free high_start (2 ^ 64) kernel m f) (program_iter kernel) ->
  boot_maps config kernel (m, f) = Panic \/
  exists m' f', boot_maps config kernel (m, f) = Ret (segment_range <$> loads (program_iter kernel), (m', f')) /\ booted config kernel max_addr m m' /\
    zlen (loads (program_iter kernel)) <= 8.
Proof.
  intros Hmm Hmax Hc Hlim Hi Htab Hk. unfold config_ok in Hc. unfold boot_maps, booted. destruct (kernel_stack config) as [st sz] eqn:Es.
  destruct Hc as (Hoff1 & Hoff2 & Hma & Hoff3 & Hst1 & Hst2 & Hst3 & Hst4). set (off := physical_memory_offset config) in *. set (l4 := (Cr3_read m).1).
  assert (S0 : sound off 0 I free m f) by (split; [done|]; split; [done|]; intros i Hii; lia).
  assert (E0 : forall B (k : list MemoryDescriptor -> ST (M * F) B), ((fun '(m, f) => mm ← unwrap (get_memory_map f); Ret (mm, (m, f))) ≫= k) (m, f) = k mmap (m, f))
    by (intros B k; unfold mbind, ST_bind; cbn; by rewrite Hmm).
  rewrite E0, Hmax, st_lift_bind. clear E0.
  erewrite st_bind_run by reflexivity. cbn [fst]. fold l4. rewrite on_machine_run. set (m1 := set_write_protect false m).
  pose proof (write_protect_keeps off 0 false m f S0) as K1. fold m1 in K1.
  assert (Hcr : Cr3_read m1 = Cr3_read m) by apply write_protect_kept.
  destruct (map_physical_run (fun m' f' => ElfLoad.keeps off 0 I free m f m' f' /\ Cr3_read m' = Cr3_read m) l4 off max_addr m1 f)
    as [E2|(m2 & f2 & E2 & [K2 Hc2] & Hw & _)]; [| |done..| |].
  { intros ma fa p fr fl [K Hcc]. destruct (map_huge_keeps off 0 m f ma fa l4 p fr fl K) as [?|(r & m' & f' & E & K' & Hc')]; [by left|right].
    exists r, m', f'. split; [done|]. split; [done|]. by rewrite Hc'. }
  { by split. }
  { left. unfold mbind, ST_bind at 1. by rewrite E2. }
  rewrite (st_bind_run _ _ _ _ _ E2).
  assert (Hreach : reaches m2 off 0 (max_addr + 1)).
  { intros i Hii. destruct (Hw i ltac:(lia)) as (fr & Ht & Ef & _). rewrite Page2M_containing_in in * by (unfold high_start in *; lia).
    pose proof (Z.mod_pos_bound (off + i) 0x200000 ltac:(lia)).
    replace (off + i) with (off + i - (off + i) mod 0x200000 + (off + i) mod 0x200000) at 1 by lia. unfold l4 in Ht. rewrite <- Hc2 in Ht.
    rewrite (huge_reach m2 _ fr) by (done || lia). f_equal. lia. }
  pose proof (keeps_window off (max_addr + 1) m f m2 f2 Hreach K2) as S2.
  pose proof (header_later off 0 high_start (2 ^ 64) kernel m f m2 f2 K2 Hk) as Hk2. unfold high_start in *.
  assert (Hwin : 0 <= off /\ off + limit <= 2 ^ 64) by lia.
  destruct (load_segments_spec off (max_addr + 1) limit oom I free HI Hwin Hlim (2 ^ 64 - 2 ^ 47) (2 ^ 64) kernel l4 false m2 f2 (program_iter kernel) m2 f2 (keeps_refl _ _ _ _ _ _ S2) Hk2)
    as [[[E3 _]|(e & m3 & f3 & E3)]|(m3 & f3 & E3 & K3 & L3 & T3)].
  { left. unfold mbind, ST_bind at 1, load_elf. by rewrite E3. }
  { left. unfold mbind, ST_bind at 1, load_elf. by rewrite E3. }
  rewrite (st_bind_run _ _ _ _ _ (E3 : load_elf kernel off l4 false (m2, f2) = _)).
  assert (Ez : zlen (segment_range <$> loads (program_iter kernel)) = zlen (loads (program_iter kernel))) by (unfold zlen; by rewrite length_fmap).
  rewrite !Ez.
  destruct (Z.ltb_spec 8 (zlen (loads (program_iter kernel)))) as [H8|H8]; [by left|]. rewrite st_ret_bind.
  destruct (map_pages_keeps off (max_addr + 1) limit oom I free HI (2 ^ 64 - 2 ^ 47) (2 ^ 64) l4 st sz false m3 f3) as [[[E4 _]|(e & m4 & f4 & E4)]|(m4 & f4 & E4 & K4 & P4 & T4)];
    [apply K3|done..| | |].
  { left. unfold mbind, ST_bind at 1. by rewrite E4. }
  { left. unfold mbind, ST_bind at 1. by rewrite E4. }
  rewrite (st_bind_run _ _ _ _ _ E4). cbn [unwrap_result]. rewrite st_lift_bind, on_machine_run. right. set (m5 := set_write_protect true m4).
  exists m5, f4. split; [done|]. split; [|done]. destruct (write_protect_kept true m4) as ((_ & Ht5 & Hre5) & Hb5 & _). fold m5 in Ht5, Hre5, Hb5. split_and!.
  - intros x Hx. rewrite Hre5. apply K4, K3. by apply Hreach; lia.
  - intros s o Hs Ho. rewrite Forall_forall in L3. pose proof (L3 s Hs) as Hin. unfold loads in Hs. apply list_elem_of_In, filter_In in Hs as [Hs Hl].
    apply list_elem_of_In in Hs. rewrite Forall_forall in Hk. pose proof (Hk s Hs) as Hok. destruct (ph_load s) as [[]|] eqn:Hld; try done.
    destruct (segment_byte_from off 0 (2 ^ 64 - 2 ^ 47) (2 ^ 64) kernel m f m2 f2 m4 f4 l4 s o K2 Hok Hld) as (fr & Htr & Hb); [|done|].
    { by apply (segment_in_later off (max_addr + 1) I free kernel m2 m3 f3). }
    exists fr. by rewrite Ht5, Hb5.
  - intros q Hq. rewrite Ht5. by apply P4.
Qed.
(** C9: The kernel starts in the state it expects.  When the files of the boot volume could be read and the configuration, the kernel and the firmware's
    frames are well-formed, the boot loader panics or jumps to the entry point of the kernel; then all physical memory of the map (and the first 4
    GiB) is seen from the configured offset on, every byte of the kernel is mapped and holds the byte of the file, or zero beyond the file part,
    the pages of the stack are mapped and the stack pointer is 8 bytes below their end, and the boot information has the final memory map, the offset,
    the loaded programs and the page ranges of the kernel. *)
Theorem boot_hands_over m0 f0 config kernel mem_start len apps m f mmap max_addr :
  boot_files (m0, f0) = Ret ((config, kernel, (mem_start, len), apps), (m, f)) ->
  get_memory_map f = Some mmap -> max_phys_addr mmap = Ret max_addr -> config_ok config max_addr -> limit <= max_addr + 1 ->
  I f -> (forall g, tables m g -> ~ free f g) -> Forall (header_ok free high_start (2 ^ 64) kernel m f) (program_iter kernel) ->
  efi_main (m0, f0) = Panic \/
  exists j m' f', efi_main (m0, f0) = Ret (j, (m', f')) /\
    j_rip j = elf_entry kernel /\ elf_entry kernel <> 0 /\
    j_rsp j + 8 = (kernel_stack config).1 + 4096 * (kernel_stack config).2 /\
    0x100000000 <= max_addr /\ (forall r, r ∈ mmap -> u64 (phys_start r + u64 (page_count r * 0x1000)) <= max_addr) /\
    booted config kernel max_addr m m' /\
    j_rdi j = {| memory_map := exit_boot_services f'; info_offset := physical_memory_offset config; info_log_level := log_level config;
                 loaded_apps := apps; kernel_pages := segment_range <$> loads (program_iter kernel) |} /\
    zlen (memory_map (j_rdi j)) <= 256 /\ zlen (kernel_pages (j_rdi j)) <= 8.
Proof.
  intros Hf Hmm Hmax Hc Hlim Hi Htab Hk. unfold efi_main. rewrite (st_bind_run _ _ _ _ _ Hf). cbv zeta.
  destruct (boot_maps_spec config kernel m f mmap max_addr Hmm Hmax Hc Hlim Hi Htab Hk) as [E|(m' & f' & E & Hb & H8)].
  { left. unfold mbind, ST_bind at 1. by rewrite E. }
  rewrite (st_bind_run _ _ _ _ _ E). destruct (free_pages f' mem_start (len / 0x1000 + 1)) as [f2|] eqn:Ef.
  2:{ left. unfold mbind, ST_bind at 1, free_elf. by rewrite Ef. }
  erewrite st_bind_run by (unfold free_elf; rewrite Ef; reflexivity). erewrite st_bind_run by reflexivity. cbn [snd].
  destruct (Z.ltb_spec 256 (zlen (exit_boot_services f2))) as [|H256]; [by left|].
  unfold config_ok in Hc. destruct (kernel_stack config) as [st sz] eqn:Es. destruct Hc as (_ & _ & _ & _ & Hst1 & _ & Hst2 & Hst3). unfold high_start in Hst1.
  unfold jump_to_entry. destruct (Z.eqb_spec (elf_entry kernel) 0) as [|He]; [by left|]. right. eexists _, m', f2. split; [reflexivity|]. cbn [fst snd j_rip j_rsp j_rdi memory_map kernel_pages].
  rewrite (wrap_small 64 (sz * 0x1000)), (wrap_small 64 (st + sz * 0x1000)), wrap_small by lia.
  destruct (max_phys_bound mmap max_addr Hmax) as [Hm1 Hm2]. split_and!; try done; [lia|]. unfold zlen in *. by rewrite length_fmap.
Qed.
End spec.
