(* ===== verification/BootDemo.v ===== *)
(** * A small computer

    A machine and a firmware that satisfy the laws of [Boot.v], and a boot volume with a kernel of one segment; the boot loader is
    run on them. *)

From Stdlib Require Import Ascii String.
From stdpp Require Import base numbers list gmap.
From S2P Require Import Prelude Bytes Str Num Config X86 Frames ElfMap ElfLoad ElfDirect Boot.

(** ** The machine *)
(** Mappings of both sizes, physical memory, CR3.  The lower half is mapped onto itself; the upper half as the pages of 2 MiB say. *)
Record pc : Type := { pc_maps : gmap (Z * Z) Z; pc_flags : gmap (Z * Z) PageTableFlags; pc_huge : gmap (Z * Z) Z; pc_mem : gmap Z Z; pc_cr3 : Z * Z }.
Definition pc_reach (m : pc) (x : Z) : option Z :=
  if decide (0 <= x < 2 ^ 47) then Some x
  else (fun f => f + x mod 0x200000) <$> pc_huge m !! ((pc_cr3 m).1, x - x mod 0x200000).
Definition pc_byte (m : pc) (p : Z) : Z := default 0 (pc_mem m !! p).
Global Instance pc_view : MemoryView pc := {| byte_at := pc_byte; reach := pc_reach; tables _ _ := False |}.
Definition pc_put (mem : gmap Z Z) (p : option Z) (b : Z) : gmap Z Z := match p with Some p => <[p := b]> mem | None => mem end.
Definition pc_with_mem (m : pc) (mem : gmap Z Z) : pc := {| pc_maps := pc_maps m; pc_flags := pc_flags m; pc_huge := pc_huge m; pc_mem := mem; pc_cr3 := pc_cr3 m |}.
Fixpoint pc_puts (m : pc) (d : Z) (l : bytes) (mem : gmap Z Z) : gmap Z Z :=
  match l with [] => mem | b :: l => pc_puts m (d + 1) l (pc_put mem (pc_reach m d) b) end.
Definition pc_write (m : pc) (d : Z) (l : bytes) : pc := pc_with_mem m (pc_puts m d l (pc_mem m)).
Definition pc_read (m : pc) (a n : Z) : bytes := (fun i => seen m (a + Z.of_nat i)) <$> seq 0 (Z.to_nat n).

Global Instance pc_Machine : Machine pc := {|
  translate_page m l4 p := pc_maps m !! (l4, p);
  page_flags m l4 p := pc_flags m !! (l4, p);
  map_to _ _ m a l4 p f fl :=
    match pc_maps m !! (l4, p) with
    | Some _ => Ret (Err (PageAlreadyMapped f), (m, a))
    | None => Ret (Ok tt, ({| pc_maps := <[(l4, p) := f]> (pc_maps m); pc_flags := <[(l4, p) := fl]> (pc_flags m); pc_huge := pc_huge m; pc_mem := pc_mem m; pc_cr3 := pc_cr3 m |}, a))
    end;
  unmap m l4 p :=
    match pc_maps m !! (l4, p) with
    | Some f => (Ok f, {| pc_maps := delete (l4, p) (pc_maps m); pc_flags := delete (l4, p) (pc_flags m); pc_huge := pc_huge m; pc_mem := pc_mem m; pc_cr3 := pc_cr3 m |})
    | None => (Err PageNotMapped, m)
    end;
  clean_up_tables _ _ m a _ := (m, a);
  copy_nonoverlapping m src dst n := pc_write m dst (pc_read m src n);
  write_bytes m dst b n := pc_write m dst (replicate (Z.to_nat n) b);
  read_memory := pc_read;
  write_memory := pc_write;
  Cr3_read m := pc_cr3 m;
  Cr3_write m f fl := {| pc_maps := pc_maps m; pc_flags := pc_flags m; pc_huge := pc_huge m; pc_mem := pc_mem m; pc_cr3 := (f, fl) |};
|}.
Global Instance pc_Machine_laws : MachineLaws pc.
Proof.
  split; cbn.
  - intros A ? I m a l4 p f fl _ Ha. destruct (pc_maps m !! (l4, p)); eauto.
  - intros A ? m a l4 p f fl m' a'. destruct (pc_maps m !! (l4, p)) eqn:E; [done|]. intros [= <- <-]. cbn.
    split; [done|]. split; [by rewrite lookup_insert_eq|]. intros q Hq. rewrite lookup_insert_ne; [done|congruence].
  - intros A ? m a l4 p f fl e m' a'. destruct (pc_maps m !! (l4, p)) eqn:E; [|done]. by intros [= <- <- <-].
  - intros A ? m a l4 p f fl m' a'. destruct (pc_maps m !! (l4, p)) eqn:E; [done|]. intros [= <- <-]. cbn. by rewrite lookup_insert_eq.
  - intros A ? m a l4 p f fl r m' a'. destruct (pc_maps m !! (l4, p)) eqn:E; intros [= <- <- <-]; [done|].
    intros q Hq. cbn. rewrite lookup_insert_ne; [done|]. intros [= <-]. by apply Hq.
  - intros m l4 p r m'. destruct (pc_maps m !! (l4, p)) eqn:E; intros [= <- <-]; [|done].
    intros q Hq. cbn. rewrite lookup_delete_ne; [done|congruence].
  - intros m l4 p f m'. destruct (pc_maps m !! (l4, p)) eqn:E; [|done]. intros [= <- <-]. cbn.
    split; [done|]. split; [by rewrite lookup_delete_eq|]. intros q Hq. rewrite lookup_delete_ne; [done|congruence].
  - intros m l4 p f ->. eauto.
  - intros m l4 p e m'. destruct (pc_maps m !! (l4, p)) eqn:E; [done|]. by intros [= <- <-].
Qed.
Lemma pc_puts_byte m l : forall d D mem p, reaches m d D (zlen l) ->
  pc_puts m d l mem !! p = if decide (between D p (D + zlen l)) then l !! Z.to_nat (p - D) else mem !! p.
Proof.
  induction l as [|b l IH]; intros d D mem p Hr; unfold zlen in *; cbn [pc_puts length] in *; [rewrite decide_False; [done|unfold between; lia]|].
  pose proof (Hr 0 ltac:(lia)) as E0. rewrite !Z.add_0_r in E0. change (pc_reach m d = Some D) in E0. rewrite E0. cbn [pc_put].
  rewrite (IH (d + 1) (D + 1)) by (intros i Hi; rewrite <- !Z.add_assoc; apply Hr; lia).
  destruct (decide (p = D)) as [->|Hp].
  - rewrite decide_False, decide_True by (unfold between; lia). rewrite Z.sub_diag. by rewrite lookup_insert_eq.
  - rewrite lookup_insert_ne by done. destruct (decide (between (D + 1) p (D + 1 + Z.of_nat (length l)))) as [Hi|Hi].
    + rewrite decide_True by (unfold between in *; lia). unfold between in Hi. by replace (Z.to_nat (p - D)) with (S (Z.to_nat (p - (D + 1)))) by lia.
    + rewrite decide_False by (unfold between in *; lia). done.
Qed.
Global Instance pc_MemoryLaws : MemoryLaws pc.
Proof.
  split; try done.
  - intros m s d D n p Hn Hr _. change (byte_at _ p) with (default 0 (pc_puts m d (pc_read m s n) (pc_mem m) !! p)) at 1.
    assert (Hz : zlen (pc_read m s n) = n) by (unfold zlen, pc_read; rewrite length_fmap, length_seq; lia).
    rewrite (pc_puts_byte m _ d D) by by rewrite Hz. rewrite Hz. destruct (decide _) as [Hi|]; [|done]. unfold between in Hi.
    unfold pc_read. rewrite list_lookup_fmap, lookup_seq_lt by lia. rewrite Nat.add_0_l. cbn [fmap option_fmap option_map default]. by rewrite Z2Nat.id by lia.
  - intros m d D b n p Hn Hr. change (byte_at _ p) with (default 0 (pc_puts m d (replicate (Z.to_nat n) b) (pc_mem m) !! p)) at 1.
    assert (Hz : zlen (replicate (Z.to_nat n) b) = n) by (unfold zlen; rewrite length_replicate; lia).
    rewrite (pc_puts_byte m _ d D) by by rewrite Hz. rewrite Hz. destruct (decide _) as [Hi|]; [|done]. unfold between in Hi.
    by rewrite lookup_replicate_2 by lia.
  - intros A FA oom I m a l4 p f fl _ Ha. right. cbn. destruct (pc_maps m !! (l4, p)); eauto.
  - intros A FA oom limit I free m a l4 p f fl r m' a' _ _ E. cbn in E.
    destruct (pc_maps m !! (l4, p)); injection E as _ <- _; (split; [by intros ? []|done]).
Qed.

(** Pages of 2 MiB, in the upper half. *)
Definition huge_ok (p : Z) : bool := (p mod 0x200000 =? 0) && (high_start <=? p).
Global Instance pc_HugeMapper : HugeMapper pc := {|
  translate_huge m l4 p := if huge_ok p then pc_huge m !! (l4, p) else None;
  map_huge _ _ m a l4 p f _ :=
    if huge_ok p then
      match pc_huge m !! (l4, p) with
      | Some _ => Ret (Err (PageAlreadyMapped f), (m, a))
      | None => Ret (Ok tt, ({| pc_maps := pc_maps m; pc_flags := pc_flags m; pc_huge := <[(l4, p) := f]> (pc_huge m); pc_mem := pc_mem m; pc_cr3 := pc_cr3 m |}, a))
      end
    else Ret (Err ParentEntryHugePage, (m, a));
|}.
Global Instance pc_HugeMapper_laws : HugeMapperLaws pc.
Proof.
  split; cbn.
  - intros A ? m a l4 p f fl m' a'. destruct (huge_ok p) eqn:Hp; [|done]. destruct (pc_huge m !! (l4, p)) eqn:E; [done|]. intros [= <- <-]. cbn.
    split; [done|]. split; [by rewrite lookup_insert_eq|]. intros q Hq. rewrite lookup_insert_ne; [done|congruence].
  - intros A ? I m a l4 p f fl _ Ha. destruct (huge_ok p), (pc_huge m !! (l4, p)); eauto.
Qed.
Global Instance pc_Cr0 : Cr0 pc := {| set_write_protect _ m := m |}.
Global Instance pc_BootLaws : BootLaws pc.
Proof.
  split.
  - intros m p f i. cbn. unfold huge_ok, pc_reach, high_start. destruct (Z.eqb_spec (p mod 0x200000) 0) as [Hp|]; [|done].
    destruct (Z.leb_spec (2 ^ 64 - 2 ^ 47) p) as [Hh|]; [|done]. cbn [andb]. intros E Hi. rewrite decide_False by lia.
    rewrite Z.add_mod, Hp, Z.add_0_l, Z.mod_mod, (Z.mod_small i) by lia. by replace (p + i - i) with p by lia; rewrite E.
  - intros A FA oom I m a l4 p f fl _ Ha. right. cbn. destruct (huge_ok p), (pc_huge m !! (l4, p)); eauto.
  - intros A FA oom limit I free m a l4 p f fl r m' a' _ _ E. cbn in E. destruct (huge_ok p); [|injection E as _ <- _; by split].
    destruct (pc_huge m !! (l4, p)) eqn:En; injection E as _ <- _; [by split|]. split; [by intros ? []|]. split; [done|]. split; [|done].
    intros x y. cbn. unfold pc_reach. destruct (decide _); [done|]. cbn.
    destruct (decide ((l4, p) = ((pc_cr3 m).1, x - x mod 0x200000))) as [<-|Hne]; [by rewrite En|by rewrite lookup_insert_ne].
  - intros b m. by repeat split.
Qed.

(** ** Frames of 2 MiB, and the firmware *)
Definition demo_x86_phys : X86Phys := {|
  PhysAddr_add a n := if decide (0 <= a + n < 2 ^ 52) then Ret (a + n) else Panic;
  PhysAddr_sub a n := if decide (0 <= a - n < 2 ^ 52) then Ret (a - n) else Panic;
  Frame_diff p q := if decide (q <= p) then Ret ((p - q) / 4096) else Panic;
  Frame_range_inclusive p q := pages_from p (Z.to_nat ((q - p) / 4096 + 1));
  Frame2M_containing a := a - a mod 0x200000;
  Page2M_containing a := a - a mod 0x200000;
  Frame2M_range_inclusive p q := huge_from p (Z.to_nat ((q - p) / 0x200000 + 1));
|}.
Lemma demo_x86_phys_laws : @X86PhysLaws demo_x86_phys.
Proof.
  split; cbn; intros; try (rewrite decide_True by lia; done); try done.
  - f_equal. rewrite Z.add_simpl_l, Z.mul_comm, Z.div_mul; lia.
  - f_equal. rewrite Z.sub_0_r, Z.mul_comm, Z.div_mul; lia.
Qed.
(** The firmware hands out pages from an address on, up to 8 MiB; its volume has a configuration file without lines and a kernel. *)
Definition demo_kernel : ProgramHeader :=
  {| ph_load := Ok true; ph_offset := 0; ph_vaddr := 0xFFFFFF0000000000; ph_filesz := 3; ph_memsz := 0x1003; ph_execute := true; ph_write := true |}.
Global Instance demo_firmware : Firmware Z Z := {|
  CStr16_from_str s n := if zlen s <? n then Some s else None;
  CStr16_str u := Some u;
  open_volume := Some 0;
  open_in dir u := if decide (u = CONFIG_PATH) then Some 1 else if decide (u = chars "\KERNEL.ELF") then Some 2 else None;
  into_type_regular h := Some (0 <? h);
  is_directory h := Some (h =? 0);
  entries _ := [];
  info_size h := Some (if h =? 2 then 3 else 0);
  read_file h n := Some (if h =? 2 then [0x7f; 0x45; 0x4c] else []);
  allocate_pages f n := if decide (f + 4096 * n <= 0x800000) then Some (f, f + 4096 * n) else None;
  free_pages f _ _ := Some f;
  get_memory_map _ := Some demo_map;
  exit_boot_services _ := demo_map;
  ElfFile_new addr _ := Some {| elf_input := addr; elf_entry := 0xFFFFFF0000000000; program_iter := [demo_kernel] |};
|}.
Definition demo_pc : pc := {| pc_maps := ∅; pc_flags := ∅; pc_huge := ∅; pc_mem := ∅; pc_cr3 := (0x1000, 0) |}.

#[local] Existing Instances demo_x86 demo_x86_laws demo_x86_high demo_x86_phys demo_x86_phys_laws UEFIFrameAllocator.
Definition fw_ready (f : Z) : Prop := page_aligned f /\ 0 <= f <= 0x800000.
Definition fw_free (f g : Z) : Prop := page_aligned g /\ f <= g /\ g + 4096 <= 0x800000.
Lemma demo_firmware_source : frame_source True 0x800000 fw_ready fw_free.
Proof.
  intros f [Ha Hf]. split; [intros g (Hg & H1 & H2); split; [done|lia]|]. cbn. unfold UEFI_allocate_frame. cbn.
  destruct (decide _) as [Hl|]; [right|by left]. cbn. rewrite decide_True by lia. cbn. unfold page_aligned in Ha. rewrite Ha, Z.sub_0_r.
  eexists _, _. split; [reflexivity|]. split; [split; [exact (eq_trans (Z_mod_plus_full f 1 4096) Ha)|lia]|].
  split; [intros g (Hg & H1 & H2); split; [done|lia]|]. intros g [= <-]. split; [split; [done|lia]|]. intros (_ & H1 & _). lia.
Qed.
(** The kernel's segment is as the loader expects it, wherever below the free pages the file is. *)
Lemma demo_header_ok m f addr : 0 < addr -> addr + 4096 <= f -> f <= 0x800000 ->
  Forall (header_ok fw_free high_start (2 ^ 64) {| elf_input := addr; elf_entry := 0xFFFFFF0000000000; program_iter := [demo_kernel] |} m f) [demo_kernel].
Proof.
  intros Ha Hf Hl. constructor; [|constructor]. right. split; [reflexivity|]. split.
  - unfold segment_ok. cbn. repeat split; try done; lia.
  - intros o Ho. exists (addr + o). cbn in Ho. split; [unfold segment_data; cbn; unfold pc_reach; rewrite Z.add_0_r, decide_True by lia; done|].
    intros g [[]|(_ & H1 & _)]. unfold in_frame. lia.
Qed.
Lemma demo_boots : match efi_main (demo_pc, 0x100000) with Ret _ => true | _ => false end = true.
Proof. vm_compute. reflexivity. Qed.
Lemma boot_hands_over_witness : exists j m' f', efi_main (demo_pc, 0x100000) = Ret (j, (m', f')) /\
  j_rip j = 0xFFFFFF0000000000 /\ j_rsp j + 8 = 0xFFFFFF0100200000 /\ reach m' 0xFFFF800000101002 = Some 0x101002 /\
  exists f, translate_page m' 0x1000 0xFFFFFF0000000000 = Some f /\ byte_at m' (f + 1) = 0x45.
Proof.
  destruct (boot_files (demo_pc, 0x100000)) as [[[[[config kernel] [mem_start len]] apps] [m f]]| |] eqn:E; [|vm_compute in E; discriminate..].
  pose proof E as E1. vm_compute in E1. injection E1 as Ec Ek Em El Ea Emm Ef.
  destruct (boot_hands_over 0x800000 True fw_ready fw_free demo_firmware_source demo_pc 0x100000 config kernel mem_start len apps m f demo_map 0x100000000 E)
    as [Hp|(j & m' & f' & Ej & Hrip & _ & Hrsp & _ & _ & Hb & _)].
  - reflexivity.
  - reflexivity.
  - rewrite <- Ec. vm_compute. by repeat split.
  - lia.
  - rewrite <- Ef. split; [reflexivity|lia].
  - by intros g [].
  - rewrite <- Ek, <- Ef. apply demo_header_ok; lia.
  - pose proof demo_boots as Hb. rewrite Hp in Hb. discriminate.
  - exists j, m', f'. split; [exact Ej|]. rewrite <- Ek in Hrip. split; [exact Hrip|]. rewrite <- Ec in Hrsp, Hb. split; [exact Hrsp|].
    unfold booted in Hb. rewrite <- Ek, <- Emm in Hb. destruct Hb as (Hw & Hk & _). split; [apply (Hw 0x101002); lia|].
    apply (Hk demo_kernel 1); [left|cbn; lia].
Defined.
