(* ===== verification/Sync.v ===== *)
(** * Semaphores

    Models [pkg/kernel/src/proc/sync.rs].  The mutex around a semaphore and the
    lock around the set are taken with interrupts disabled on one processor, so
    an operation is one step. *)

From stdpp Require Import base numbers list gmap.
From S2P Require Import Prelude Bytes.

(** [ProcessId] is its number, [SemaphoreId] its key. *)
Record Semaphore : Type := { count : Z; wait_queue : list Z }.

Inductive SemaphoreResult : Type :=
| SemOk
| NotExist
| Block (pid : Z)
| WakeUp (pid : Z).
Global Instance SemaphoreResult_eq_dec : EqDecision SemaphoreResult.
Proof. solve_decision. Defined.
Global Instance Semaphore_eq_dec : EqDecision Semaphore.
Proof. solve_decision. Defined.

Module Sem.
Definition new (value : Z) : Semaphore := {| count := value; wait_queue := [] |}.

Definition wait (pid : Z) (s : Semaphore) : SemaphoreResult * Semaphore :=
  if count s =? 0
  then (Block pid, {| count := count s; wait_queue := wait_queue s ++ [pid] |})
  else (SemOk, {| count := count s - 1; wait_queue := wait_queue s |}).

Definition signal (s : Semaphore) : SemaphoreResult * Semaphore :=
  match wait_queue s with
  | pid :: rest => (WakeUp pid, {| count := count s; wait_queue := rest |})
  | [] => (SemOk, {| count := u64 (count s + 1); wait_queue := [] |})
  end.
End Sem.

(** [SemaphoreSet]: the map from keys to semaphores. *)
Module SemSet.
Abbreviation t := (gmap Z Semaphore).
Definition new : t := ∅.

(** [BTreeMap::insert] replaces an existing semaphore, and the result tells. *)
Definition insert (key value : Z) (s : t) : bool * t :=
  (bool_decide (s !! key = None), <[key := Sem.new value]> s).
Definition remove (key : Z) (s : t) : bool * t :=
  (bool_decide (is_Some (s !! key)), delete key s).

Definition wait (key pid : Z) (s : t) : SemaphoreResult * t :=
  match s !! key with
  | Some sem => let '(r, sem') := Sem.wait pid sem in (r, <[key := sem']> s)
  | None => (NotExist, s)
  end.
Definition signal (key : Z) (s : t) : SemaphoreResult * t :=
  match s !! key with
  | Some sem => let '(r, sem') := Sem.signal sem in (r, <[key := sem']> s)
  | None => (NotExist, s)
  end.
End SemSet.

(** ** Runs of a semaphore in a set

    The operations that processes perform on the semaphore of key [key], in the
    order they happen, interleaved with operations on other keys. *)
Inductive sem_op : Type :=
| OpWait (key pid : Z)
| OpSignal (key : Z)
| OpNew (key value : Z)
| OpRemove (key : Z).

Definition op_key (o : sem_op) : Z :=
  match o with OpWait k _ | OpSignal k | OpNew k _ | OpRemove k => k end.

Definition sem_exec (s : SemSet.t) (o : sem_op) : SemaphoreResult * SemSet.t :=
  match o with
  | OpWait k pid => SemSet.wait k pid s
  | OpSignal k => SemSet.signal k s
  | OpNew k v => (SemOk, (SemSet.insert k v s).2)
  | OpRemove k => (SemOk, (SemSet.remove k s).2)
  end.

(** The results of a run, each with its operation. *)
Fixpoint sem_run (s : SemSet.t) (ops : list sem_op) : list (sem_op * SemaphoreResult) * SemSet.t :=
  match ops with
  | [] => ([], s)
  | o :: ops' =>
      let '(r, s1) := sem_exec s o in
      let '(rs, s2) := sem_run s1 ops' in ((o, r) :: rs, s2)
  end.

(** What a log says about one key: signals, processes let through (at once, or
    woken), processes that blocked and processes that were woken, in order. *)
Definition signals (key : Z) (log : list (sem_op * SemaphoreResult)) : Z :=
  zlen (List.filter (fun e => match e.1 with OpSignal k => k =? key | _ => false end) log).
Definition passes (key : Z) (log : list (sem_op * SemaphoreResult)) : Z :=
  zlen (List.filter (fun e => match e with
    | (OpWait k _, SemOk) => k =? key
    | (OpSignal k, WakeUp _) => k =? key
    | _ => false end) log).
Definition blocked (key : Z) (log : list (sem_op * SemaphoreResult)) : list Z :=
  log ≫= (fun e => match e with
    | (OpWait k _, Block p) => if k =? key then [p] else []
    | _ => [] end).
Definition woken (key : Z) (log : list (sem_op * SemaphoreResult)) : list Z :=
  log ≫= (fun e => match e with
    | (OpSignal k, WakeUp p) => if k =? key then [p] else []
    | _ => [] end).

Definition sem_wf (s : Semaphore) : Prop :=
  0 <= count s < 2 ^ 64 /\ (0 < count s -> wait_queue s = []).

(** Operations on other keys leave a semaphore alone. *)
Lemma sem_exec_other s o key : op_key o <> key -> (sem_exec s o).2 !! key = s !! key.
Proof.
  destruct o as [k pid|k|k v|k]; cbn [op_key sem_exec]; intros Hk;
    unfold SemSet.wait, SemSet.signal, SemSet.insert, SemSet.remove; cbn [snd].
  - destruct (s !! k); [|done]. destruct (Sem.wait _ _). cbn [snd]. by rewrite lookup_insert_ne.
  - destruct (s !! k); [|done]. destruct (Sem.signal _). cbn [snd]. by rewrite lookup_insert_ne.
  - by rewrite lookup_insert_ne.
  - by rewrite lookup_delete_ne.
Qed.

Lemma log_cons key e log :
  signals key (e :: log) = signals key [e] + signals key log /\
  passes key (e :: log) = passes key [e] + passes key log /\
  blocked key (e :: log) = blocked key [e] ++ blocked key log /\
  woken key (e :: log) = woken key [e] ++ woken key log.
Proof.
  unfold signals, passes, blocked, woken, zlen.
  destruct e as [[k p|k|k v|k] []]; cbn; try destruct (k =? key); cbn; split_and!;
    rewrite ?app_nil_r; done || lia.
Qed.

Lemma log_other key o r : op_key o <> key ->
  signals key [(o, r)] = 0 /\ passes key [(o, r)] = 0 /\
  blocked key [(o, r)] = [] /\ woken key [(o, r)] = [].
Proof.
  intros Hk. unfold signals, passes, blocked, woken.
  destruct o as [k pid|k|k v|k]; cbn in *; try (rewrite (proj2 (Z.eqb_neq k key)) by done);
    destruct r; split_and!; done.
Qed.

Lemma sem_step_spec key s o r s' sem :
  s !! key = Some sem -> sem_wf sem -> count sem + signals key [(o, r)] < 2 ^ 64 ->
  match o with OpWait _ _ | OpSignal _ => True | _ => op_key o <> key end ->
  sem_exec s o = (r, s') ->
  exists sem', s' !! key = Some sem' /\ sem_wf sem' /\
    count sem + signals key [(o, r)] = passes key [(o, r)] + count sem' /\
    wait_queue sem ++ blocked key [(o, r)] = woken key [(o, r)] ++ wait_queue sem'.
Proof.
  intros Hs Hwf Hov Ho E. destruct (decide (op_key o = key)) as [<-|Hk].
  - destruct Hwf as [Hc Hq]. destruct o as [k pid|k|k v|k]; cbn in *; try done.
    + unfold SemSet.wait in E. rewrite Hs in E. unfold Sem.wait in E.
      unfold signals, passes, blocked, woken.
      destruct (Z.eqb_spec (count sem) 0); injection E as <- <-; cbn;
        rewrite ?Z.eqb_refl; eexists; rewrite lookup_insert_eq; (split; [done|]);
        unfold sem_wf; cbn [count wait_queue]; unfold zlen; cbn.
      * split_and!; [lia|lia|lia|lia|done].
      * split_and!; [lia|lia|intros; apply Hq; lia|lia|by rewrite app_nil_r].
    + unfold SemSet.signal in E. rewrite Hs in E. unfold Sem.signal in E.
      unfold signals, passes, blocked, woken, zlen in *. cbn in Hov. rewrite Z.eqb_refl in Hov.
      cbn in Hov.
      destruct (wait_queue sem) as [|p q] eqn:Eq; injection E as <- <-; cbn;
        rewrite ?Z.eqb_refl; eexists; rewrite lookup_insert_eq; (split; [done|]);
        unfold sem_wf; cbn [count wait_queue]; cbn [length].
      * rewrite wrap_small by lia. split_and!; try done; lia.
      * assert (count sem = 0).
        { destruct (decide (0 < count sem)) as [Hp|]; [|lia]. by specialize (Hq Hp). }
        split_and!; try lia. by rewrite app_nil_r.
  - destruct (log_other key o r Hk) as (-> & -> & -> & ->).
    exists sem. rewrite <- (sem_exec_other s o key Hk), E in Hs. cbn in Hs.
    split; [done|]. split; [done|]. split; [lia|]. by rewrite app_nil_r.
Qed.

Lemma sem_run_spec key ops : forall s sem log s',
  s !! key = Some sem -> sem_wf sem -> sem_run s ops = (log, s') ->
  count sem + signals key log < 2 ^ 64 ->
  Forall (fun o => match o with OpWait _ _ | OpSignal _ => True | _ => op_key o <> key end) ops ->
  exists sem', s' !! key = Some sem' /\ sem_wf sem' /\
    count sem + signals key log = passes key log + count sem' /\
    wait_queue sem ++ blocked key log = woken key log ++ wait_queue sem'.
Proof.
  induction ops as [|o ops IH]; intros s sem log s' Hs Hwf E Hov Ho.
  - injection E as <- <-. exists sem. split; [done|]. split; [done|]. unfold signals, passes, zlen.
    cbn. split; [lia|]. by rewrite app_nil_r.
  - apply Forall_cons in Ho as [Ho Hos]. cbn [sem_run] in E.
    destruct (sem_exec s o) as [r s1] eqn:E1. destruct (sem_run s1 ops) as [rs s2] eqn:E2.
    injection E as <- <-. destruct (log_cons key (o, r) rs) as (L1 & L2 & L3 & L4).
    rewrite L1, L2, L3, L4 in *.
    assert (0 <= signals key rs) by (unfold signals, zlen; lia).
    destruct (sem_step_spec key s o r s1 sem Hs Hwf ltac:(lia) Ho E1) as (sem1 & Hs1 & Hw1 & A1 & B1).
    assert (0 <= passes key [(o, r)]) by (unfold passes, zlen; lia).
    destruct (IH s1 sem1 rs s2 Hs1 Hw1 E2 ltac:(lia) Hos) as (sem2 & Hs2 & Hw2 & A2 & B2).
    exists sem2. split; [done|]. split; [done|]. split; [lia|].
    rewrite app_assoc, B1, <- app_assoc, B2. by rewrite app_assoc.
Qed.

(** C25: semaphores count and are fair.  A semaphore is created with a value and
    then used, in any interleaving with operations on other keys, without being
    created again or removed, and with fewer than [2^64] signals.  At any time the
    initial value plus the signals is the number of processes let through plus the
    counter, so no more than [value] processes are between [wait] and [signal];
    processes are woken in the order in which they blocked, and those not yet
    woken are the wait queue; and processes wait only while the counter is 0. *)
Theorem semaphore_accounting s key value ops log s' :
  0 <= value -> sem_run (SemSet.insert key value s).2 ops = (log, s') ->
  value + signals key log < 2 ^ 64 ->
  Forall (fun o => match o with OpWait _ _ | OpSignal _ => True | _ => op_key o <> key end) ops ->
  exists sem, s' !! key = Some sem /\
    value + signals key log = passes key log + count sem /\ 0 <= count sem /\
    passes key log - signals key log <= value /\
    blocked key log = woken key log ++ wait_queue sem /\
    (0 < count sem -> wait_queue sem = []).
Proof.
  intros Hv E Hov Ho.
  assert (0 <= signals key log) by (unfold signals, zlen; lia).
  destruct (sem_run_spec key ops (SemSet.insert key value s).2 (Sem.new value) log s')
    as (sem & Hs & [Hc Hq] & A & B); [apply lookup_insert_eq| |done|done|done|].
  { split; cbn; [lia|done]. }
  cbn in A, B. exists sem. split_and!; try done; lia.
Qed.

Lemma semaphore_accounting_witness :
  exists log s' sem, sem_run (SemSet.insert 5 1 ∅).2
      [OpWait 5 2; OpWait 5 3; OpNew 6 0; OpWait 5 4; OpSignal 5] = (log, s') /\
    s' !! 5 = Some sem /\ [3; 4] = woken 5 log ++ wait_queue sem /\
    passes 5 log - signals 5 log <= 1.
Proof.
  destruct (sem_run (SemSet.insert 5 1 ∅).2
    [OpWait 5 2; OpWait 5 3; OpNew 6 0; OpWait 5 4; OpSignal 5]) as [log s'] eqn:E.
  pose proof E as E'. vm_compute in E'. injection E' as El _.
  destruct (semaphore_accounting ∅ 5 1 _ log s' ltac:(lia) E) as (sem & Hs & _ & _ & Hp & Hb & _).
  - rewrite <- El. vm_compute. reflexivity.
  - repeat constructor; discriminate.
  - exists log, s', sem. split; [reflexivity|]. split; [exact Hs|]. split; [|exact Hp].
    rewrite <- Hb, <- El. reflexivity.
Defined.
