(* ===== verification/Threads.v ===== *)
(** * Programs of several processes

    The applications of [pkg/app] that fork: processes that share memory (a fork
    shares the page table) and the semaphores of the kernel, interleaved in any
    order.  The semaphore calls are those of [SemSet], which models
    [pkg/kernel/src/proc/sync.rs]; a process inside [wait] stays there until it is
    woken.  This file holds the steps and the facts every application uses: the
    queues, and the balance of waits and signals. *)

From stdpp Require Import base numbers list gmap relations.
From S2P Require Import Prelude Bytes Str Sync.

(** ** Code

    [A] names the accesses to memory of one application and its output, [L] is
    the private state of a process, [M] the shared memory. *)
Section code.
Context {A L : Type}.

Inductive item : Type :=
| Wait (key : Z)
| Signal (key : Z)
| New (key value : Z)
| Remove (key : Z)
| Act (a : A)
(** [for i in i..n], or [loop] without a bound. *)
| For (i : nat) (n : option nat) (body : nat -> list item)
(** [sys_fork]: the child's code, and what the parent does with the child's number. *)
| Fork (child : list item) (ret : nat -> L -> L)
(** [sys_wait_pid] *)
| Join (pid : L -> nat).

(** The end of the code is [sys_exit]. *)
Record thread : Type := mkT { code : list item; loc : L; blocked : bool }.
End code.
Arguments item : clear implicits.
Arguments thread : clear implicits.

(** What an access does; [None] when it has to be tried again (a [compare_exchange]
    that failed). *)
Class App (A L M : Type) : Type := act : A -> L -> M -> option (L * M * str).

Record world (A L M : Type) : Type := mkW {
  sems : SemSet.t; mem : M; threads : list (thread A L); out : str }.
Arguments mkW {A L M} _ _ _ _.
Arguments sems {A L M} _.
Arguments mem {A L M} _.
Arguments threads {A L M} _.
Arguments out {A L M} _.

(** ** Steps *)
Section steps.
Context {A L M : Type} {AP : App A L M}.
Abbreviation item := (item A L).
Abbreviation thread := (thread A L).
Abbreviation world := (world A L M).

Definition goto (c : list item) (t : thread) : thread := mkT c (loc t) (blocked t).
Definition sleep_in (t : thread) : thread := mkT (code t) (loc t) true.
Definition woken_up (t : thread) : thread := mkT (tail (code t)) (loc t) false.

Definition finished (t : thread) : bool := match code t with [] => true | _ => false end.

(** One step of process [i], when it can make one. *)
Definition step1 (i : nat) (w : world) : option world :=
  t ← threads w !! i;
  if blocked t then None
  else
    let upd sm m t' o := Some (mkW sm m (<[i := t']> (threads w)) (out w ++ o)) in
    match code t with
    | [] => None
    | Wait k :: c =>
        match SemSet.wait k (Z.of_nat i) (sems w) with
        | (Block _, sm) => upd sm (mem w) (sleep_in t) []
        | (_, sm) => upd sm (mem w) (goto c t) []
        end
    | Signal k :: c =>
        match SemSet.signal k (sems w) with
        | (WakeUp j, sm) =>
            Some (mkW sm (mem w) (alter woken_up (Z.to_nat j) (<[i := goto c t]> (threads w))) (out w))
        | (_, sm) => upd sm (mem w) (goto c t) []
        end
    | New k v :: c => upd (SemSet.insert k v (sems w)).2 (mem w) (goto c t) []
    | Remove k :: c => upd (SemSet.remove k (sems w)).2 (mem w) (goto c t) []
    | Act a :: c =>
        match act a (loc t) (mem w) with
        | Some (l, m, o) => upd (sems w) m (mkT c l (blocked t)) o
        | None => upd (sems w) (mem w) t []
        end
    | For j n body :: c =>
        if (match n with None => true | Some n => (j <? n)%nat end)
        then upd (sems w) (mem w) (goto (body j ++ For (S j) n body :: c) t) []
        else upd (sems w) (mem w) (goto c t) []
    | Fork child ret :: c =>
        Some (mkW (sems w) (mem w)
          (<[i := mkT c (ret (length (threads w)) (loc t)) (blocked t)]> (threads w) ++
             [mkT child (loc t) false]) (out w))
    | Join p :: c =>
        t' ← threads w !! p (loc t);
        if finished t' then upd (sems w) (mem w) (goto c t) [] else None
    end.

Definition step (w w' : world) : Prop := exists i, step1 i w = Some w'.

(** The run of a schedule; a process that cannot move is passed over. *)
Fixpoint run (sched : list nat) (w : world) : world :=
  match sched with
  | [] => w
  | i :: sched' => run sched' (default w (step1 i w))
  end.

Lemma run_steps sched : forall w, rtc step w (run sched w).
Proof.
  induction sched as [|i sched IH]; intros w; cbn [run]; [done|].
  destruct (step1 i w) as [w2|] eqn:E; cbn [default]; [|apply IH]. eapply rtc_l; [by exists i|apply IH].
Qed.

Lemma rtc_inv (I : world -> Prop) w w' :
  I w -> (forall w1 w2, I w1 -> step w1 w2 -> I w2) -> rtc step w w' -> I w'.
Proof. intros H0 Hs H. induction H; eauto. Qed.
End steps.

(** ** Weights

    A weight on operations, summed over the code that a process has left; an endless
    loop counts what it has done, negatively, so that unfolding keeps the sum. *)
Definition zsum {B} (f : B -> Z) (l : list B) : Z := foldr (fun x acc => f x + acc) 0 l.

Lemma zsum_cons {B} (f : B -> Z) x l : zsum f (x :: l) = f x + zsum f l.
Proof. done. Qed.
Lemma zsum_nil {B} (f : B -> Z) : zsum f [] = 0.
Proof. done. Qed.
Lemma zsum_app {B} (f : B -> Z) l k : zsum f (l ++ k) = zsum f l + zsum f k.
Proof. induction l as [|x l IH]; [done|]. cbn [app]. rewrite !zsum_cons. lia. Qed.
Lemma zsum_insert {B} (f : B -> Z) l i x y :
  l !! i = Some x -> zsum f (<[i := y]> l) = zsum f l - f x + f y.
Proof.
  revert i. induction l as [|z l IH]; intros [|i] E; try done.
  - injection E as ->. change (<[0%nat := y]> (x :: l)) with (y :: l). rewrite !zsum_cons. lia.
  - change (<[S i := y]> (z :: l)) with (z :: <[i := y]> l). rewrite !zsum_cons, (IH i E). lia.
Qed.
Lemma zsum_alter {B} (f : B -> Z) l i x g :
  l !! i = Some x -> zsum f (alter g i l) = zsum f l - f x + f (g x).
Proof.
  intros E. rewrite <- (zsum_insert f l i x (g x) E). f_equal. apply list_eq. intros j.
  destruct (decide (i = j)) as [->|].
  - rewrite list_lookup_alter_eq, list_lookup_insert_eq, E; [done|]. by eapply lookup_lt_Some.
  - by rewrite list_lookup_alter_ne, list_lookup_insert_ne.
Qed.
Lemma zsum_le {B} (f g : B -> Z) l : (forall x, x ∈ l -> f x <= g x) -> zsum f l <= zsum g l.
Proof.
  induction l as [|x l IH]; intros H; [done|]. rewrite !zsum_cons.
  specialize (H x (list_elem_of_here _ _)) as Hx.
  assert (zsum f l <= zsum g l) by (apply IH; intros; apply H; by apply list_elem_of_further). lia.
Qed.
Lemma zsum_zero {B} (l : list B) : zsum (fun _ => 0) l = 0.
Proof. induction l as [|x l IH]; [done|]. rewrite zsum_cons. lia. Qed.
Lemma zsum_const {B} (f : B -> Z) l v : (forall x, x ∈ l -> f x = v) -> zsum f l = Z.of_nat (length l) * v.
Proof.
  induction l as [|x l IH]; intros H; [done|]. rewrite zsum_cons, (H x (list_elem_of_here _ _)), IH; [cbn; lia|].
  intros y Hy. apply H. by apply list_elem_of_further.
Qed.
Lemma zsum_nonneg {B} (f : B -> Z) l : (forall x, x ∈ l -> 0 <= f x) -> 0 <= zsum f l.
Proof. intros H. rewrite <- (zsum_zero l). by apply zsum_le. Qed.
(** One element's share, and that of two, of a sum whose terms are not negative. *)
Lemma zsum_ge_elem {B} (f : B -> Z) l i x :
  (forall y, y ∈ l -> 0 <= f y) -> l !! i = Some x -> f x <= zsum f l.
Proof.
  revert i. induction l as [|z l IH]; intros [|i] H E; try done; rewrite zsum_cons;
    assert (forall y, y ∈ l -> 0 <= f y) as Hl by (intros; apply H; by apply list_elem_of_further).
  - injection E as ->. pose proof (zsum_nonneg f l Hl). lia.
  - pose proof (IH i Hl E). specialize (H z (list_elem_of_here _ _)). lia.
Qed.
Lemma zsum_ge_two {B} (f : B -> Z) l i j x y :
  (forall y, y ∈ l -> 0 <= f y) -> i <> j -> l !! i = Some x -> l !! j = Some y ->
  f x + f y <= zsum f l.
Proof.
  revert i j. induction l as [|z l IH]; intros [|i] [|j] H Hne Ei Ej; try done; rewrite zsum_cons;
    assert (forall y, y ∈ l -> 0 <= f y) as Hl by (intros; apply H; by apply list_elem_of_further).
  - injection Ei as ->. pose proof (zsum_ge_elem f l j y Hl Ej). lia.
  - injection Ej as ->. pose proof (zsum_ge_elem f l i x Hl Ei). lia.
  - pose proof (IH i j Hl ltac:(congruence) Ei Ej). specialize (H z (list_elem_of_here _ _)). lia.
Qed.
(** A positive sum has a positive term. *)
Lemma zsum_pos {B} (f : B -> Z) l : 0 < zsum f l -> exists i x, l !! i = Some x /\ 0 < f x.
Proof.
  induction l as [|x l IH]; [done|]. rewrite zsum_cons. intros H.
  destruct (decide (0 < f x)); [by exists 0%nat, x|].
  destruct IH as (i & y & E & Hy); [lia|]. by exists (S i), y.
Qed.

Section weights.
Context {A L : Type}.
Variable f : item A L -> Z.

Fixpoint weigh (x : item A L) : Z :=
  match x with
  | For i (Some n) body => zsum (fun j => zsum weigh (body j)) (seq i (n - i))
  | For i None body => - zsum (fun j => zsum weigh (body j)) (seq 0 i)
  | Fork child _ => f x + zsum weigh child
  | _ => f x
  end.
Definition weight (c : list (item A L)) : Z := zsum weigh c.

Lemma weight_cons x c : weight (x :: c) = weigh x + weight c.
Proof. done. Qed.
Lemma weight_nil : weight [] = 0.
Proof. done. Qed.
Lemma weight_app c d : weight (c ++ d) = weight c + weight d.
Proof. apply zsum_app. Qed.
Lemma weight_unfold i n body c :
  match n with None => True | Some n => (i < n)%nat end ->
  weight (body i ++ For (S i) n body :: c) = weight (For i n body :: c).
Proof.
  intros H. rewrite weight_app, !weight_cons. destruct n as [n|]; cbn [weigh].
  - replace (n - i)%nat with (S (n - S i)) by lia. cbn [seq]. rewrite zsum_cons. unfold weight. lia.
  - rewrite seq_S, zsum_app, zsum_cons. unfold weight. rewrite zsum_nil. cbn [Nat.add]. lia.
Qed.
Lemma weight_done i n body c : (n <= i)%nat -> weight (For i (Some n) body :: c) = weight c.
Proof. intros H. rewrite weight_cons. cbn [weigh]. replace (n - i)%nat with 0%nat by lia. done. Qed.
End weights.

(** Weights add up. *)
Section weights_add.
Context {A L : Type}.

Lemma zsum_add {B} (f g k : B -> Z) l : (forall x, x ∈ l -> k x = f x + g x) -> zsum k l = zsum f l + zsum g l.
Proof.
  induction l as [|x l IH]; intros H; [done|]. rewrite !zsum_cons, (H x (list_elem_of_here _ _)), IH; [lia|].
  intros y Hy. apply H. by apply list_elem_of_further.
Qed.
(** Induction on code, into the bodies of loops and the code of children. *)
Lemma item_nested_ind (P : item A L -> Prop) :
  (forall x, match x with For _ _ _ | Fork _ _ => False | _ => True end -> P x) ->
  (forall i n body, (forall j, Forall P (body j)) -> P (For i n body)) ->
  (forall child ret, Forall P child -> P (Fork child ret)) -> forall x, P x.
Proof.
  intros Hp Hf Hk. refine (fix go x := match x as y return P y with
    | For i n body => Hf i n body (fun j => (fix gol l : Forall P l :=
        match l with [] => Forall_nil_2 P | y :: l' => Forall_cons_2 P y l' (go y) (gol l') end) (body j))
    | Fork child ret => Hk child ret ((fix gol l : Forall P l :=
        match l with [] => Forall_nil_2 P | y :: l' => Forall_cons_2 P y l' (go y) (gol l') end) child)
    | _ => Hp _ _
    end); exact I.
Qed.
Lemma weigh_add (f g : item A L -> Z) x : weigh (fun x => f x + g x) x = weigh f x + weigh g x.
Proof.
  induction x as [x Hx|i n body Hb|child ret Hc] using item_nested_ind; [by destruct x| |].
  - assert (Hj : forall j, zsum (weigh (fun x => f x + g x)) (body j) = zsum (weigh f) (body j) + zsum (weigh g) (body j))
      by (intros j; apply zsum_add; by rewrite <- Forall_forall).
    destruct n; cbn [weigh].
    + apply zsum_add. auto.
    + rewrite (zsum_add (fun j => zsum (weigh f) (body j)) (fun j => zsum (weigh g) (body j))); [lia|auto].
  - cbn [weigh]. rewrite (zsum_add (weigh f) (weigh g)); [lia|]. by rewrite <- Forall_forall.
Qed.
Lemma weigh_opp (f g : item A L -> Z) x : (forall x, g x = - f x) -> weigh g x = - weigh f x.
Proof.
  intros H. assert (Hl : forall l, Forall (fun x => weigh g x = - weigh f x) l -> zsum (weigh g) l = - zsum (weigh f) l).
  { induction 1 as [|y l Hy _ IH]; [done|]. rewrite !zsum_cons. lia. }
  assert (Hm : forall (h k : nat -> Z) l, (forall j, k j = - h j) -> zsum k l = - zsum h l).
  { intros h k l E. induction l as [|j l IH]; [done|]. rewrite !zsum_cons, E. lia. }
  induction x as [x Hx|i n body Hb|child ret Hc] using item_nested_ind; [destruct x; try done; apply H| |].
  - destruct n; cbn [weigh]; [|f_equal]; apply Hm; auto.
  - cbn [weigh]. rewrite Hl, H by done. lia.
Qed.
Lemma weight_opp (f g : item A L -> Z) c : (forall x, g x = - f x) -> weight g c = - weight f c.
Proof. intros H. induction c as [|x c IH]; [done|]. rewrite !weight_cons, IH, (weigh_opp f g x H). lia. Qed.
Lemma weight_add (f g : item A L -> Z) c : weight (fun x => f x + g x) c = weight f c + weight g c.
Proof. apply zsum_add. intros x _. apply weigh_add. Qed.
End weights_add.

(** ** What holds between steps *)
Section invariants.
Context {A L M : Type} {AP : App A L M}.
Abbreviation item := (item A L).
Abbreviation thread := (thread A L).
Abbreviation world := (world A L M).

Definition cnt (k : Z) (sm : SemSet.t) : Z :=
  match sm !! k with Some s => count s | None => 0 end.
(** Waits count 1, signals -1, and the initial value is signalled by [new]. *)
Definition net (k : Z) (x : item) : Z :=
  match x with
  | Wait k' => if k' =? k then 1 else 0
  | Signal k' => if k' =? k then -1 else 0
  | New k' v => if k' =? k then - v else 0
  | _ => 0
  end.
Definition remaining (f : item -> Z) (w : world) : Z := zsum (fun t => weight f (code t)) (threads w).
Lemma remaining_add f g w : remaining (fun x => f x + g x) w = remaining f w + remaining g w.
Proof. apply zsum_add. intros t _. apply weight_add. Qed.
Lemma remaining_opp f g w : (forall x, g x = - f x) -> remaining g w = - remaining f w.
Proof.
  intros H. unfold remaining. induction (threads w) as [|t ts IH]; [done|]. rewrite !zsum_cons, IH, (weight_opp f g) by done. lia.
Qed.
Lemma held_sum f w : zsum (fun t => - weight f (code t)) (threads w) = - remaining f w.
Proof. unfold remaining. induction (threads w) as [|t ts IH]; [done|]. rewrite !zsum_cons, IH. lia. Qed.
(** The balance of a semaphore. *)
Definition balance (k : Z) (w : world) : Z := cnt k (sems w) - remaining (net k) w.

(** The queue of a semaphore holds the processes that are inside [wait]. *)
Definition waits_in (k : Z) (j : Z) (ts : list thread) : Prop :=
  exists (i : nat) t c, j = Z.of_nat i /\ ts !! i = Some t /\ blocked t = true /\
    code t = Wait k :: c.
Definition sem_ok (w : world) (k : Z) (s : Semaphore) : Prop :=
  0 <= count s < 2 ^ 64 /\ (0 < count s -> wait_queue s = []) /\ NoDup (wait_queue s) /\
  forall j, j ∈ wait_queue s <-> waits_in k j (threads w).
(** Blocked processes stay inside their [wait]. *)
Definition parked (w : world) : Prop :=
  forall i t, threads w !! i = Some t -> blocked t = true ->
    exists k c, code t = Wait k :: c /\ is_Some (sems w !! k).
Definition wf (w : world) : Prop :=
  (forall k s, sems w !! k = Some s -> sem_ok w k s) /\ parked w.

Lemma cnt_nonneg w k : wf w -> 0 <= cnt k (sems w).
Proof. intros [Hs _]. unfold cnt. destruct (sems w !! k) as [s|] eqn:E; [|done]. by destruct (Hs k s E) as [? _]; lia. Qed.

(** Semaphores are used when they exist, created once and do not overflow. *)
Definition tidy (w : world) (x : item) : Prop :=
  match x with
  | Wait k => is_Some (sems w !! k)
  | Signal k => is_Some (sems w !! k) /\ cnt k (sems w) + 1 < 2 ^ 64
  | New k v => sems w !! k = None /\ 0 <= v < 2 ^ 64
  | Remove k => forall s, sems w !! k = Some s -> wait_queue s = []
  | _ => True
  end.

(** The steps of a well-formed world. *)
Inductive effect (i : nat) (w : world) (t : thread) : item -> list item -> world -> Prop :=
| eff_pass k c s : sems w !! k = Some s -> 0 < count s ->
    effect i w t (Wait k) c
      (mkW (<[k := {| count := count s - 1; wait_queue := [] |}]> (sems w)) (mem w)
         (<[i := goto c t]> (threads w)) (out w))
| eff_block k c s : sems w !! k = Some s -> count s = 0 ->
    effect i w t (Wait k) c
      (mkW (<[k := {| count := 0; wait_queue := wait_queue s ++ [Z.of_nat i] |}]> (sems w)) (mem w)
         (<[i := sleep_in t]> (threads w)) (out w))
| eff_raise k c s : sems w !! k = Some s -> wait_queue s = [] ->
    effect i w t (Signal k) c
      (mkW (<[k := {| count := count s + 1; wait_queue := [] |}]> (sems w)) (mem w)
         (<[i := goto c t]> (threads w)) (out w))
| eff_wake k c s j q u d : sems w !! k = Some s -> count s = 0 ->
    wait_queue s = Z.of_nat j :: q -> i <> j -> threads w !! j = Some u -> blocked u = true ->
    code u = Wait k :: d ->
    effect i w t (Signal k) c
      (mkW (<[k := {| count := 0; wait_queue := q |}]> (sems w)) (mem w)
         (<[j := mkT d (loc u) false]> (<[i := goto c t]> (threads w))) (out w))
| eff_new k v c : sems w !! k = None -> 0 <= v < 2 ^ 64 ->
    effect i w t (New k v) c
      (mkW (<[k := {| count := v; wait_queue := [] |}]> (sems w)) (mem w)
         (<[i := goto c t]> (threads w)) (out w))
| eff_remove k c :
    effect i w t (Remove k) c
      (mkW (delete k (sems w)) (mem w) (<[i := goto c t]> (threads w)) (out w))
| eff_act a c l m o : act a (loc t) (mem w) = Some (l, m, o) ->
    effect i w t (Act a) c
      (mkW (sems w) m (<[i := mkT c l false]> (threads w)) (out w ++ o))
| eff_spin a c : act a (loc t) (mem w) = None -> effect i w t (Act a) c w
| eff_unfold j n body c : match n with None => True | Some n => (j < n)%nat end ->
    effect i w t (For j n body) c
      (mkW (sems w) (mem w) (<[i := goto (body j ++ For (S j) n body :: c) t]> (threads w)) (out w))
| eff_leave j n body c : (n <= j)%nat ->
    effect i w t (For j (Some n) body) c
      (mkW (sems w) (mem w) (<[i := goto c t]> (threads w)) (out w))
| eff_fork child ret c :
    effect i w t (Fork child ret) c
      (mkW (sems w) (mem w)
         (<[i := mkT c (ret (length (threads w)) (loc t)) false]> (threads w) ++
            [mkT child (loc t) false]) (out w))
| eff_join p c u : threads w !! p (loc t) = Some u -> code u = [] ->
    effect i w t (Join p) c
      (mkW (sems w) (mem w) (<[i := goto c t]> (threads w)) (out w)).

Lemma step_effect i w w' :
  wf w -> step1 i w = Some w' ->
  (forall t x c, threads w !! i = Some t -> code t = x :: c -> tidy w x) ->
  exists t x c, threads w !! i = Some t /\ blocked t = false /\ code t = x :: c /\
    tidy w x /\ effect i w t x c w'.
Proof.
  intros [Hs Hb] E Ht. unfold step1 in E. destruct (threads w !! i) as [t|] eqn:Et; [|done].
  cbn [mbind option_bind] in E. destruct (blocked t) eqn:Eb; [done|].
  destruct (code t) as [|x c] eqn:Ec; [done|]. specialize (Ht t x c eq_refl Ec).
  exists t, x, c. repeat (split; [done|]).
  destruct x as [k|k|k v|k|a|j n body|child ret|p]; cbn in Ht.
  - destruct Ht as [s Ek]. unfold SemSet.wait, Sem.wait in E. rewrite Ek in E.
    destruct (Hs k s Ek) as (Hc & Hq & _). destruct (Z.eqb_spec (count s) 0) as [H0|H0]; injection E as <-;
      rewrite app_nil_r.
    + rewrite H0. by econstructor.
    + rewrite (Hq ltac:(lia)). econstructor; [done|lia].
  - destruct Ht as [[s Ek] Hov]. unfold SemSet.signal, Sem.signal in E. rewrite Ek in E.
    destruct (Hs k s Ek) as (Hc & Hq & Hnd & Hin). unfold cnt in Hov. rewrite Ek in Hov.
    destruct (wait_queue s) as [|p q] eqn:Eq; injection E as <-.
    + rewrite app_nil_r, wrap_small by lia. by econstructor.
    + assert (count s = 0) as H0.
      { destruct (decide (0 < count s)) as [Hp|]; [|lia]. by specialize (Hq Hp). }
      destruct (proj1 (Hin p) (list_elem_of_here _ _)) as (j & u & d & -> & Eu & Hbu & Hd).
      rewrite Nat2Z.id, H0. assert (i <> j) by congruence.
      replace (alter woken_up j (<[i:=goto c t]> (threads w)))
        with (<[j := mkT d (loc u) false]> (<[i:=goto c t]> (threads w))); [by econstructor|].
      symmetry. apply list_eq. intros n. destruct (decide (n = j)) as [->|].
      * rewrite list_lookup_alter_eq, list_lookup_insert_ne, Eu by done. cbn.
        rewrite list_lookup_insert_eq by (rewrite length_insert; by eapply lookup_lt_Some).
        unfold woken_up. by rewrite Hd.
      * by rewrite list_lookup_alter_ne, (list_lookup_insert_ne _ j) by done.
  - injection E as <-. rewrite app_nil_r. destruct Ht. by constructor.
  - injection E as <-. rewrite app_nil_r. constructor.
  - destruct (act a (loc t) (mem w)) as [[[l m] o]|] eqn:Ea; injection E as <-.
    + by constructor.
    + rewrite app_nil_r, list_insert_id by done. destruct w. by constructor.
  - destruct n as [n|].
    + destruct (Nat.ltb_spec j n); injection E as <-; rewrite app_nil_r; by constructor.
    + injection E as <-; rewrite app_nil_r; by constructor.
  - injection E as <-. constructor.
  - destruct (threads w !! p (loc t)) as [u|] eqn:Eu; [|done]. cbn [mbind option_bind] in E.
    unfold finished in E. destruct (code u) eqn:Eu'; [|done]. injection E as <-.
    rewrite app_nil_r. by econstructor.
Qed.

(** Who waits, after an update of a process. *)
Lemma waits_in_insert ts i (t t' : thread) k j :
  ts !! i = Some t -> blocked t = false -> blocked t' = false ->
  waits_in k j (<[i := t']> ts) <-> waits_in k j ts.
Proof.
  intros Et Hb Hb'. split; intros (n & u & c & -> & E & Hu & Hc); exists n, u, c.
  - destruct (decide (i = n)) as [->|].
    + rewrite list_lookup_insert_eq in E by (by eapply lookup_lt_Some). congruence.
    + by rewrite list_lookup_insert_ne in E.
  - rewrite list_lookup_insert_ne by congruence. done.
Qed.
Lemma waits_in_app ts (t : thread) k j :
  blocked t = false -> waits_in k j (ts ++ [t]) <-> waits_in k j ts.
Proof.
  intros Hb. split; intros (n & u & c & -> & E & Hu & Hc); exists n, u, c.
  - apply lookup_app_Some in E as [E|[_ E]]; [done|].
    apply list_lookup_singleton_Some in E as [_ ->]. congruence.
  - by rewrite lookup_app_l by (by eapply lookup_lt_Some).
Qed.
Lemma waits_in_sleep ts i (t : thread) k' c k j :
  ts !! i = Some t -> blocked t = false -> code t = Wait k' :: c ->
  waits_in k j (<[i := sleep_in t]> ts) <-> waits_in k j ts \/ (k = k' /\ j = Z.of_nat i).
Proof.
  intros Et Hb Hc. assert (i < length ts)%nat by (by eapply lookup_lt_Some). split.
  - intros (n & u & d & -> & E & Hu & Hd). destruct (decide (i = n)) as [->|].
    + rewrite list_lookup_insert_eq in E by done. injection E as <-. cbn in Hd. right. split; congruence.
    + rewrite list_lookup_insert_ne in E by done. left. by exists n, u, d.
  - intros [(n & u & d & -> & E & Hu & Hd)|[-> ->]].
    + exists n, u, d. rewrite list_lookup_insert_ne by congruence. done.
    + exists i, (sleep_in t), c. rewrite list_lookup_insert_eq by done. done.
Qed.
Lemma waits_in_woken ts j0 (u u' : thread) k' d k j :
  ts !! j0 = Some u -> blocked u = true -> code u = Wait k' :: d -> blocked u' = false ->
  waits_in k j (<[j0 := u']> ts) <-> waits_in k j ts /\ ~ (k = k' /\ j = Z.of_nat j0).
Proof.
  intros Eu Hb Hc Hb'. split.
  - intros (n & v & e & -> & E & Hv & He). destruct (decide (j0 = n)) as [->|].
    + rewrite list_lookup_insert_eq in E by (by eapply lookup_lt_Some). congruence.
    + rewrite list_lookup_insert_ne in E by done. split; [by exists n, v, e|]. intros [_ ?]; lia.
  - intros [(n & v & e & -> & E & Hv & He) Hn]. exists n, v, e.
    destruct (decide (j0 = n)) as [->|]; [|by rewrite list_lookup_insert_ne].
    exfalso. apply Hn. split; congruence.
Qed.

Lemma sem_ok_same w w' k s :
  (forall j, waits_in k j (threads w') <-> waits_in k j (threads w)) -> sem_ok w k s -> sem_ok w' k s.
Proof. intros H (H1 & H2 & H3 & H4). repeat (split; [done|]). intros j. by rewrite H4, H. Qed.

Lemma parked_insert w sm m i t o :
  parked w -> (forall k, is_Some (sems w !! k) -> is_Some (sm !! k)) -> blocked t = false ->
  parked (mkW sm m (<[i := t]> (threads w)) o).
Proof.
  intros H Hk Hb j u E Hu. cbn [threads sems] in *. apply list_lookup_insert_Some in E as [(-> & <- & _)|(_ & E)];
    [congruence|]. destruct (H j u E Hu) as (k & c & Ec & Hs). exists k, c. auto.
Qed.
Lemma is_Some_insert_keep (sm : SemSet.t) k s k' : is_Some (sm !! k') -> is_Some (<[k := s]> sm !! k').
Proof. intros H. destruct (decide (k = k')) as [->|]; [by rewrite lookup_insert_eq|by rewrite lookup_insert_ne]. Qed.

Lemma wf_move w i t t' m o :
  wf w -> threads w !! i = Some t -> blocked t = false -> blocked t' = false ->
  wf (mkW (sems w) m (<[i := t']> (threads w)) o).
Proof.
  intros [Hs Hp] Et Hb Hb'. split; [|by apply parked_insert].
  intros k s E. eapply sem_ok_same; [|by apply Hs]. intros j. by eapply waits_in_insert.
Qed.
(** The same with a semaphore nobody waits on. *)
Lemma wf_move_sem w i t t' m o k v :
  wf w -> threads w !! i = Some t -> blocked t = false -> blocked t' = false ->
  (forall j, ~ waits_in k j (threads w)) -> 0 <= v < 2 ^ 64 ->
  wf (mkW (<[k := {| count := v; wait_queue := [] |}]> (sems w)) m (<[i := t']> (threads w)) o).
Proof.
  intros [Hs Hp] Et Hb Hb' Hk Hv. split; [|apply parked_insert; [done|apply is_Some_insert_keep|done]].
  intros k' s E. cbn [sems] in E. apply lookup_insert_Some in E as [[<- <-]|[Hne E]].
  - split; [done|]. split; [done|]. split; [apply NoDup_nil_2|]. intros j. cbn [threads wait_queue].
    rewrite waits_in_insert by done. split; [by intros ?%not_elem_of_nil|by intros ?%Hk].
  - eapply sem_ok_same; [|by apply Hs]. intros j. by eapply waits_in_insert.
Qed.
Lemma no_waits w k s : sem_ok w k s -> wait_queue s = [] -> forall j, ~ waits_in k j (threads w).
Proof. intros (_ & _ & _ & H) E j Hj. apply H in Hj. rewrite E in Hj. by apply not_elem_of_nil in Hj. Qed.
Lemma no_waits_absent w k : parked w -> sems w !! k = None -> forall j, ~ waits_in k j (threads w).
Proof. intros Hp E j (i & t & c & -> & Et & Hb & Hc). destruct (Hp i t Et Hb) as (k' & c' & Hc' & ?).
  rewrite Hc in Hc'. injection Hc' as <- <-. by apply (is_Some_None (A := Semaphore)); rewrite <- E. Qed.

Lemma wf_block w i t k c s :
  wf w -> threads w !! i = Some t -> blocked t = false -> code t = Wait k :: c ->
  sems w !! k = Some s -> count s = 0 ->
  wf (mkW (<[k := {| count := 0; wait_queue := wait_queue s ++ [Z.of_nat i] |}]> (sems w)) (mem w)
        (<[i := sleep_in t]> (threads w)) (out w)).
Proof.
  intros [Hs Hp] Et Hb Hc Ek H0. split.
  - intros k' s' E. cbn [sems] in E. apply lookup_insert_Some in E as [[<- <-]|[Hne E]].
    + destruct (Hs k s Ek) as (_ & _ & Hnd & Hin).
      assert (Z.of_nat i ∉ wait_queue s).
      { intros (n & u & d & En & Eu & Hu & _)%Hin. apply Nat2Z.inj in En as <-. congruence. }
      unfold sem_ok. cbn [count wait_queue threads]. split; [lia|]. split; [lia|]. split.
      * apply NoDup_app. split; [done|]. split; [|apply NoDup_singleton].
        intros j Hj ->%list_elem_of_singleton. done.
      * intros j. rewrite elem_of_app, list_elem_of_singleton, Hin, waits_in_sleep by done. naive_solver.
    + destruct (Hs k' s' E) as (H1 & H2 & H3 & H4). repeat (split; [done|]). intros j. cbn [threads].
      rewrite waits_in_sleep, H4 by done. naive_solver.
  - intros j u E Hu. cbn [threads sems] in *. apply list_lookup_insert_Some in E as [(-> & <- & _)|(_ & E)].
    + exists k, c. split; [done|]. by rewrite lookup_insert_eq.
    + destruct (Hp j u E Hu) as (k' & c' & Ec & Hk'). exists k', c'. auto using is_Some_insert_keep.
Qed.

Lemma wf_wake w i t c k s j q u d :
  wf w -> threads w !! i = Some t -> blocked t = false -> i <> j ->
  sems w !! k = Some s -> count s = 0 -> wait_queue s = Z.of_nat j :: q ->
  threads w !! j = Some u -> blocked u = true -> code u = Wait k :: d ->
  wf (mkW (<[k := {| count := 0; wait_queue := q |}]> (sems w)) (mem w)
        (<[j := mkT d (loc u) false]> (<[i := goto c t]> (threads w))) (out w)).
Proof.
  intros Hwf Et Hb Hij Ek H0 Eq Eu Hu Hd.
  pose proof (wf_move w i t (goto c t) (mem w) (out w) Hwf Et Hb Hb) as [Hs Hp].
  assert (Eu' : <[i := goto c t]> (threads w) !! j = Some u) by (by rewrite list_lookup_insert_ne).
  split.
  - intros k' s' E. cbn [sems] in E. unfold sem_ok. cbn [threads] in *.
    apply lookup_insert_Some in E as [[<- <-]|[Hne E]].
    + destruct (Hs k s Ek) as (_ & _ & Hnd & Hin). rewrite Eq in *. apply NoDup_cons in Hnd as [Hj Hnd].
      cbn [count wait_queue]. split; [lia|]. split; [lia|]. split; [done|].
      intros p. rewrite (waits_in_woken _ j u _ k d) by done. rewrite <- Hin, elem_of_cons. naive_solver.
    + destruct (Hs k' s' E) as (H1 & H2 & H3 & H4). repeat (split; [done|]). intros p.
      rewrite (waits_in_woken _ j u _ k d), H4 by done. naive_solver.
  - apply (parked_insert (mkW (sems w) (mem w) (<[i := goto c t]> (threads w)) (out w)));
      [done|apply is_Some_insert_keep|done].
Qed.

Lemma effect_wf i w t x c w' :
  wf w -> threads w !! i = Some t -> blocked t = false -> code t = x :: c -> tidy w x ->
  effect i w t x c w' -> wf w'.
Proof.
  intros Hwf Et Hb Hc Ht He. pose proof Hwf as [Hs Hp]. destruct He; cbn in Ht;
    try (eapply wf_move; done).
  - destruct (Hs _ _ H) as (? & Hq & ?). eapply wf_move_sem; try done; [|lia].
    eapply no_waits; [by apply Hs|]. auto.
  - eapply wf_block; done.
  - destruct (Hs _ _ H) as (? & ? & ?). unfold cnt in Ht. rewrite H in Ht. eapply wf_move_sem; try done; [|lia].
    by eapply no_waits; [apply Hs|].
  - eapply wf_wake; done.
  - eapply wf_move_sem; try done. by apply no_waits_absent.
  - split.
    + intros k' s E. cbn [sems] in E. apply lookup_delete_Some in E as [_ E].
      eapply sem_ok_same; [|by apply Hs]. intros j. by eapply waits_in_insert.
    + intros j u E Hu. cbn [threads sems] in *.
      apply list_lookup_insert_Some in E as [(-> & <- & _)|(_ & E)]; [cbn in Hu; congruence|].
      destruct (Hp j u E Hu) as (k' & d & Ed & [s Es]). exists k', d. split; [done|].
      destruct (decide (k = k')) as [<-|]; [|by rewrite lookup_delete_ne].
      exfalso. apply (no_waits w k s (Hs k s Es) (Ht s Es) (Z.of_nat j)). by exists j, u, d.
  - done.
  - destruct (wf_move w i t (mkT c (ret (length (threads w)) (loc t)) false) (mem w) (out w)
      Hwf Et Hb eq_refl) as [Hs' Hp']. split.
    + intros k s E. eapply sem_ok_same; [|by apply Hs']. intros j. cbn [threads]. by apply waits_in_app.
    + intros j u E Hu. cbn [threads sems] in *. apply lookup_app_Some in E as [E|[_ E]]; [by apply (Hp' j u)|].
      apply list_lookup_singleton_Some in E as [_ <-]. done.
Qed.

(** ** What a step changes *)

Lemma remaining_insert f w sm m o i t t' :
  threads w !! i = Some t ->
  remaining f (mkW sm m (<[i := t']> (threads w)) o) = remaining f w - weight f (code t) + weight f (code t').
Proof. intros E. unfold remaining. cbn [threads]. by rewrite (zsum_insert _ _ _ t). Qed.

Lemma cnt_insert k s sm : cnt k (<[k := s]> sm) = count s.
Proof. unfold cnt. by rewrite lookup_insert_eq. Qed.
Lemma cnt_insert_ne k k' s sm : k <> k' -> cnt k (<[k' := s]> sm) = cnt k sm.
Proof. intros. unfold cnt. by rewrite lookup_insert_ne. Qed.
Lemma cnt_some k s sm : sm !! k = Some s -> cnt k sm = count s.
Proof. unfold cnt. by intros ->. Qed.

Lemma remaining_wake f w sm i t c j u d k :
  threads w !! i = Some t -> threads w !! j = Some u -> i <> j -> code u = Wait k :: d ->
  remaining f (mkW sm (mem w) (<[j := mkT d (loc u) false]> (<[i := goto c t]> (threads w))) (out w))
  = remaining f w - weight f (code t) + weight f c - f (Wait k).
Proof.
  intros Et Eu Hij Hd. unfold remaining. cbn [threads].
  rewrite (zsum_insert _ _ j u) by (by rewrite list_lookup_insert_ne).
  rewrite (zsum_insert _ _ i t) by done. cbn [code goto]. rewrite Hd, weight_cons. cbn [weigh]. lia.
Qed.
Lemma remaining_fork f w i t child ret c :
  threads w !! i = Some t -> code t = Fork child ret :: c ->
  remaining f (mkW (sems w) (mem w) (<[i := mkT c (ret (length (threads w)) (loc t)) false]> (threads w) ++
    [mkT child (loc t) false]) (out w)) = remaining f w - f (Fork child ret).
Proof.
  intros Et Hc. unfold remaining. cbn [threads]. rewrite zsum_app, (zsum_insert _ _ i t), zsum_cons by done.
  cbn [code]. rewrite Hc, weight_cons. rewrite zsum_nil. cbn [weigh]. unfold weight. lia.
Qed.

(** The balance of a semaphore never changes. *)
Lemma effect_balance i w t x c w' k :
  threads w !! i = Some t -> code t = x :: c -> effect i w t x c w' -> x <> Remove k ->
  balance k w' = balance k w.
Proof.
  intros Et Hc He Hk. unfold balance.
  destruct He as [k' c s Es Hp|k' c s Es Hp|k' c s Es Hq|k' c s j q u d Es H0 Hq Hij Eu Hu Hd
    |k' v c Es Hv|k' c|a c l m o Ea|a c Ea|j n body c Hn|j n body c Hn|child ret c|p c u Eu Hu];
    rewrite ?(remaining_wake _ w _ i t c j u d k'), ?(remaining_fork _ w i t child ret c),
      ?(remaining_insert (net k) w _ _ _ i t) by done; cbn [sems code goto sleep_in];
    rewrite ?Hc, ?weight_cons; cbn [weigh net].
  all: try (destruct (Z.eqb_spec k' k) as [->|Hne];
    [rewrite ?cnt_insert, ?(cnt_some _ _ _ Es)|rewrite ?cnt_insert_ne by done]; cbn [count]; try lia).
  all: try lia.
  - unfold cnt. rewrite Es. lia.
  - done.
  - unfold cnt. rewrite lookup_delete_ne by done. lia.
  - rewrite weight_unfold, weight_cons by done. cbn [weigh]. lia.
  - pose proof (weight_done (net k) j n body c Hn) as E. rewrite weight_cons in E. cbn [weigh] in E. lia.
Qed.

(** Weights of memory accesses. *)
Definition acts (g : A -> Z) (x : item) : Z := match x with Act a => g a | _ => 0 end.

Lemma effect_acts i w t x c w' g :
  threads w !! i = Some t -> code t = x :: c -> effect i w t x c w' ->
  (exists a l m o, x = Act a /\ act a (loc t) (mem w) = Some (l, m, o) /\ mem w' = m /\
     out w' = out w ++ o /\ remaining (acts g) w' = remaining (acts g) w - g a) \/
  (mem w' = mem w /\ out w' = out w /\ remaining (acts g) w' = remaining (acts g) w /\
   match x with Act a => act a (loc t) (mem w) = None | _ => True end).
Proof.
  intros Et Hc He.
  destruct He as [k' c s Es Hp|k' c s Es Hp|k' c s Es Hq|k' c s j q u d Es H0 Hq Hij Eu Hu Hd
    |k' v c Es Hv|k' c|a c l m o Ea|a c Ea|j n body c Hn|j n body c Hn|child ret c|p c u Eu Hu];
    rewrite ?(remaining_wake _ w _ i t c j u d k'), ?(remaining_fork _ w i t child ret c),
      ?(remaining_insert (acts g) w _ _ _ i t) by done; cbn [sems mem out code goto sleep_in];
    rewrite ?Hc, ?weight_cons; cbn [weigh acts].
  all: try (right; repeat split; done || lia).
  - left. exists a, l, m, o. repeat split; lia || done.
  - right. rewrite weight_unfold, weight_cons by done. cbn [weigh]. repeat split; lia.
  - pose proof (weight_done (acts g) j n body c Hn) as E. rewrite weight_cons in E. cbn [weigh] in E.
    right. repeat split; lia.
Qed.

(** ** Facts about each process

    [R i fs c l m]: of process [i] with code [c] and private state [l], when [fs]
    tells which processes have finished and the memory is [m].  Process 0 is the
    one that forks. *)
Definition fins (w : world) : list bool := finished <$> threads w.
Definition more_done (fs fs' : list bool) : Prop := Forall2 (fun b b' => b = true -> b' = true) fs fs'.

Record moves (R : nat -> list bool -> list item -> L -> M -> Prop) : Prop := {
  mv_mono i fs fs' c l m : more_done fs fs' -> R i fs c l m -> R i fs' c l m;
  mv_plain i fs x c l m :
    match x with Wait _ | Signal _ | New _ _ | Remove _ => True | _ => False end ->
    R i fs (x :: c) l m -> R i fs c l m;
  mv_join i fs p c l m : R i fs (Join p :: c) l m -> fs !! p l = Some true -> R i fs c l m;
  mv_act i fs a c l m l' m' o :
    R i fs (Act a :: c) l m -> act a l m = Some (l', m', o) -> R i fs c l' m';
  mv_unfold i fs j b body c l m : match b with None => True | Some b => (j < b)%nat end ->
    R i fs (For j b body :: c) l m -> R i fs (body j ++ For (S j) b body :: c) l m;
  mv_leave i fs j b body c l m : (b <= j)%nat -> R i fs (For j (Some b) body :: c) l m -> R i fs c l m;
  mv_fork i fs b child ret c l m : R i fs (Fork child ret :: c) l m ->
    i = 0%nat /\ R i (fs ++ [b]) c (ret (length fs) l) m /\ R (length fs) (fs ++ [b]) child l m;
  mv_more i fs b c l m : i <> 0%nat -> R i fs c l m -> R i (fs ++ [b]) c l m;
}.

Definition each (R : nat -> list bool -> list item -> L -> M -> Prop) (w : world) : Prop :=
  forall j u, threads w !! j = Some u -> R j (fins w) (code u) (loc u) (mem w).

Lemma more_done_refl fs : more_done fs fs.
Proof. unfold more_done. by apply Forall_Forall2_diag, Forall_true. Qed.
Lemma more_done_insert ts i (t t' : thread) :
  ts !! i = Some t -> finished t = false -> more_done (finished <$> ts) (finished <$> <[i := t']> ts).
Proof.
  intros Et Hf. unfold more_done. revert i Et. induction ts as [|u ts IH]; intros [|i] E; try done.
  - injection E as ->. cbn. constructor; [by rewrite Hf|]. apply more_done_refl.
  - cbn. constructor; [done|]. by apply IH.
Qed.
Lemma more_done_trans fs1 fs2 fs3 : more_done fs1 fs2 -> more_done fs2 fs3 -> more_done fs1 fs3.
Proof.
  unfold more_done. intros H1 H2. revert fs3 H2. induction H1; intros fs3 H2; inversion H2; subst; constructor; auto.
Qed.

(** An update of one process, with the others' facts kept for the new memory. *)
Lemma each_insert R w i t sm m' t' o :
  moves R -> each R w -> threads w !! i = Some t -> finished t = false ->
  (forall j u, j <> i -> threads w !! j = Some u ->
     R j (fins w) (code u) (loc u) (mem w) -> R j (fins w) (code u) (loc u) m') ->
  R i (fins w) (code t') (loc t') m' ->
  each R (mkW sm m' (<[i := t']> (threads w)) o).
Proof.
  intros HR Hw Et Hf Hfr Ht' j u E. unfold fins. cbn [threads mem] in *.
  eapply mv_mono; [done|by eapply more_done_insert|].
  apply list_lookup_insert_Some in E as [(-> & <- & _)|(Hne & E)]; [done|]. auto.
Qed.

Lemma effect_each R i w t x c w' :
  moves R -> each R w -> threads w !! i = Some t -> code t = x :: c ->
  (forall a l m o j u, x = Act a -> act a (loc t) (mem w) = Some (l, m, o) -> j <> i ->
     threads w !! j = Some u ->
     R j (fins w) (code u) (loc u) (mem w) -> R j (fins w) (code u) (loc u) m) ->
  effect i w t x c w' -> each R w'.
Proof.
  intros HR Hw Et Hc Hfr He. pose proof (Hw i t Et) as Ht. rewrite Hc in Ht.
  assert (Hf : finished t = false) by (unfold finished; by rewrite Hc).
  destruct He as [k' c s Es Hp|k' c s Es Hp|k' c s Es Hq|k' c s j q u d Es H0 Hq Hij Eu Hu Hd
    |k' v c Es Hv|k' c|a c l m o Ea|a c Ea|j n body c Hn|j n body c Hn|child ret c|p c u Eu Hu].
  all: try (eapply each_insert; [done|done|done|done|done|]; cbn [code loc goto sleep_in]).
  all: try (by eapply (mv_plain R HR); [|exact Ht]; done).
  - by rewrite Hc.
  - intros n v E. unfold fins. cbn [threads mem] in *.
    assert (Eu' : <[i := goto c t]> (threads w) !! j = Some u) by (by rewrite list_lookup_insert_ne).
    eapply mv_mono; [done|eapply more_done_trans;
      [eapply (more_done_insert _ i t); done|eapply (more_done_insert _ j u); [done|unfold finished; by rewrite Hd]]|].
    apply list_lookup_insert_Some in E as [(-> & <- & _)|(Hne & E)].
    + specialize (Hw _ u Eu). rewrite Hd in Hw. cbn [code loc]. by eapply (mv_plain R HR); [|exact Hw].
    + apply list_lookup_insert_Some in E as [(-> & <- & _)|(Hne' & E)]; [|by apply Hw].
      by eapply (mv_plain R HR); [|exact Ht].
  - eapply each_insert; [done..| |by eapply mv_act]. intros j u Hj Eu. by eapply Hfr.
  - done.
  - by apply mv_unfold.
  - by eapply (mv_leave R HR); [|exact Ht].
  - unfold each, fins. cbn [threads mem]. rewrite fmap_app. cbn [fmap list_fmap].
    set (b := finished (mkT child (loc t) false)).
    assert (Hlen : length (threads w) = length (fins w)) by (unfold fins; by rewrite length_fmap).
    destruct (mv_fork R HR i (fins w) b child ret c (loc t) (mem w) Ht) as (H0 & H1 & H2).
    intros j u E. eapply mv_mono; [done|apply Forall2_app; [eapply (more_done_insert _ i t); done|apply more_done_refl]|].
    apply lookup_app_Some in E as [E|[Hl E]].
    + apply list_lookup_insert_Some in E as [(-> & <- & _)|(Hne & E)]; [by rewrite Hlen|].
      apply mv_more; [done|congruence|]. by apply Hw.
    + rewrite length_insert in Hl, E. apply list_lookup_singleton_Some in E as [Hj <-].
      replace j with (length (fins w)) by lia. done.
  - eapply (mv_join R HR); [exact Ht|]. unfold fins. rewrite list_lookup_fmap, Eu. cbn.
    unfold finished. by rewrite Hu.
Qed.

(** ** How long a program runs *)
Fixpoint cost (x : item) : nat :=
  match x with
  | For i (Some n) body =>
      S (list_sum (map (fun j => S (list_sum (map cost (body j)))) (seq i (n - i))))
  | Fork child _ => 2 + list_sum (map cost child)
  | _ => 1
  end.
Definition code_cost (c : list item) : nat := list_sum (map cost c).
Definition thread_cost (t : thread) : Z :=
  2 * Z.of_nat (code_cost (code t)) + (if blocked t then 0 else 1).
(** An upper bound for the number of steps. *)
Definition measure (w : world) : Z := zsum thread_cost (threads w).

Lemma code_cost_cons x c : code_cost (x :: c) = (cost x + code_cost c)%nat.
Proof. done. Qed.
Lemma code_cost_app c d : code_cost (c ++ d) = (code_cost c + code_cost d)%nat.
Proof. unfold code_cost. by rewrite map_app, list_sum_app. Qed.
Lemma measure_nonneg w : 0 <= measure w.
Proof. apply zsum_nonneg. intros t _. unfold thread_cost. destruct (blocked t); lia. Qed.

(** Every step but a failed [compare_exchange] and a round of an endless loop uses
    up some of the bound. *)
Lemma effect_measure i w t x c w' :
  threads w !! i = Some t -> blocked t = false -> code t = x :: c -> effect i w t x c w' ->
  match x with
  | For _ None _ => False
  | Act a => act a (loc t) (mem w) <> None
  | _ => True
  end -> measure w' < measure w.
Proof.
  intros Et Hb Hc He Hx. unfold measure.
  destruct He as [k' c s Es Hp|k' c s Es Hp|k' c s Es Hq|k' c s j q u d Es H0 Hq Hij Eu Hu Hd
    |k' v c Es Hv|k' c|a c l m o Ea|a c Ea|j n body c Hn|j n body c Hn|child ret c|p c u Eu Hu];
    cbn [threads]; rewrite ?zsum_app, ?(zsum_insert _ (<[i:=goto c t]> (threads w)) j u)
      by (by rewrite list_lookup_insert_ne);
    rewrite ?(zsum_insert _ _ i t) by done; unfold thread_cost; cbn [code blocked goto sleep_in];
    rewrite ?zsum_cons, ?Hb, ?Hu, ?Hc, ?Hd, ?code_cost_cons, ?code_cost_app, ?code_cost_cons; cbn [cost blocked code];
    try lia; try done.
  - destruct n as [n|]; [|done]. replace (n - j)%nat with (S (n - S j)) by lia. cbn [seq map list_sum foldr].
    fold (list_sum (map (fun j => S (list_sum (map cost (body j)))) (seq (S j) (n - S j)))).
    unfold code_cost. lia.
  - rewrite zsum_nil. unfold code_cost. lia.
Qed.

(** ** When nothing can move *)
Definition stuck (w : world) : Prop := forall i, step1 i w = None.

Definition stuckb (w : world) : bool :=
  forallb (fun i => match step1 i w with None => true | Some _ => false end) (seq 0 (length (threads w))).
Lemma stuckb_stuck w : stuckb w = true -> stuck w.
Proof.
  unfold stuckb. rewrite List.forallb_forall. intros H i.
  destruct (decide (i < length (threads w))%nat) as [Hi|Hi].
  - specialize (H i ltac:(apply List.in_seq; lia)). by destruct (step1 i w).
  - unfold step1. by rewrite lookup_ge_None_2 by lia.
Qed.

Lemma step1_enabled i w t x c :
  threads w !! i = Some t -> blocked t = false -> code t = x :: c ->
  match x with Join _ => False | _ => True end -> step1 i w <> None.
Proof.
  intros Et Hb Hc Hx. unfold step1. rewrite Et. cbn [mbind option_bind]. rewrite Hb, Hc.
  destruct x as [k|k|k v|k|a|j n body|child ret|p]; try done.
  - by destruct (SemSet.wait _ _ _) as [[] ?].
  - by destruct (SemSet.signal _ _) as [[] ?].
  - by destruct (act _ _ _) as [[[? ?] ?]|].
  - by destruct (match n with None => _ | Some _ => _ end).
Qed.
Lemma step1_join i w t p c u :
  threads w !! i = Some t -> blocked t = false -> code t = Join p :: c ->
  threads w !! p (loc t) = Some u -> code u = [] -> step1 i w <> None.
Proof.
  intros Et Hb Hc Eu Hu. unfold step1. rewrite Et. cbn [mbind option_bind]. rewrite Hb, Hc, Eu.
  cbn [mbind option_bind]. unfold finished. by rewrite Hu.
Qed.

(** In a stuck world, a process that has not finished waits on a semaphore that is
    exhausted, or for a process that has not finished. *)
Lemma stuck_why i w t :
  wf w -> stuck w -> threads w !! i = Some t -> code t <> [] ->
  (exists k c, code t = Wait k :: c /\ blocked t = true /\ cnt k (sems w) = 0 /\ is_Some (sems w !! k)) \/
  (exists p c, code t = Join p :: c /\ blocked t = false /\
     forall u, threads w !! p (loc t) = Some u -> code u <> []).
Proof.
  intros [Hs Hp] Hst Et Hc. destruct (blocked t) eqn:Hb.
  - left. destruct (Hp i t Et Hb) as (k & c & Ec & [s Es]). exists k, c. split; [done|]. split; [done|].
    split; [|by eexists]. rewrite (cnt_some _ _ _ Es). destruct (Hs k s Es) as (Hr & Hq & _ & Hin).
    destruct (decide (0 < count s)) as [H|]; [|lia]. specialize (Hq H). exfalso.
    apply (no_waits w k s (Hs k s Es) Hq (Z.of_nat i)). by exists i, t, c.
  - right. destruct (code t) as [|x c] eqn:Ec; [done|].
    destruct x as [k|k|k v|k|a|j n body|child ret|p];
      try (exfalso; by apply (step1_enabled i w t _ c Et Hb Ec I)).
    exists p, c. split; [done|]. split; [done|]. intros u Eu Hu. by apply (step1_join i w t p c u Et Hb Ec Eu Hu).
Qed.

(** Which semaphores exist. *)
Lemma effect_dom i w t x c w' k :
  effect i w t x c w' -> match x with New _ _ | Remove _ => False | _ => True end ->
  is_Some (sems w' !! k) <-> is_Some (sems w !! k).
Proof.
  intros He Hx. destruct He; try done; cbn [sems];
    (destruct (decide (k0 = k)) as [->|]; [rewrite lookup_insert_eq|by rewrite lookup_insert_ne]);
    split; intros; eauto.
Qed.
(** Other processes than the one that moves keep their code, or are woken. *)
Lemma effect_other i w t x c w' j u :
  effect i w t x c w' -> j <> i -> threads w !! j = Some u ->
  match code u with Wait _ :: _ => False | _ => True end -> threads w' !! j = Some u.
Proof.
  intros He Hj Eu Hu. destruct He; cbn [threads]; try done; try by rewrite list_lookup_insert_ne.
  - destruct (decide (j0 = j)) as [->|].
    + rewrite Eu in H3. injection H3 as ->. rewrite H5 in Hu. done.
    + by rewrite !list_lookup_insert_ne.
  - rewrite lookup_app_l by (rewrite length_insert; by eapply lookup_lt_Some).
    by rewrite list_lookup_insert_ne.
Qed.

(** The process that moves. *)
Lemma effect_self i w t x c w' :
  effect i w t x c w' -> threads w !! i = Some t -> blocked t = false -> code t = x :: c ->
  match x with Wait _ => False | _ => True end ->
  exists t', threads w' !! i = Some t' /\ blocked t' = false /\
    (code t' = c \/ (exists j n body, x = For j n body /\ code t' = body j ++ For (S j) n body :: c) \/
     (exists a, x = Act a /\ act a (loc t) (mem w) = None /\ w' = w)).
Proof.
  intros He Et Hb Hc Hx. assert (i < length (threads w))%nat by (by eapply lookup_lt_Some).
  destruct He; try done; cbn [threads].
  all: try (eexists; rewrite list_lookup_insert_eq by done; split; [reflexivity|]; cbn [blocked code goto]; by eauto 10).
  - eexists. rewrite list_lookup_insert_ne, list_lookup_insert_eq by done.
    split; [reflexivity|]. cbn. eauto.
  - exists t. eauto 10.
  - eexists. rewrite lookup_app_l, list_lookup_insert_eq by (rewrite ?length_insert; done).
    split; [reflexivity|]. cbn. eauto.
Qed.

(** A run is no longer than the bound when each step uses some of it up. *)
Lemma run_bounded (I : world -> Prop) :
  (forall w w', I w -> step w w' -> I w' /\ measure w' < measure w) ->
  forall n w w', I w -> nsteps step n w w' -> Z.of_nat n <= measure w.
Proof.
  intros H n. induction n as [|n IH]; intros w w' Hw Hn; [apply measure_nonneg|].
  inversion Hn as [|? ? w1 ? Hs Hn']; subst. destruct (H w w1 Hw Hs) as [H1 Hm].
  specialize (IH w1 w' H1 Hn'). lia.
Qed.
End invariants.
