(* ===== verification/ForkJoin.v ===== *)
(** * Programs that fork, join and end

    The shape that the [main] functions of [pkg/app/{sem,spin,mq,fish,philo}] share:
    create semaphores, fork [N] children in a loop that stores their numbers in
    [pids], wait for each of them, finish.  The facts about [main] and about the life
    of the semaphores that every such program has are proved once here; an
    application adds what its children do. *)

From stdpp Require Import base numbers list gmap relations.
From S2P Require Import Prelude Bytes Str Sync Threads.

(** ** Lists *)
Lemma suffix_cons_inv' {B} (x : B) c d : suffix (x :: c) d -> suffix c d.
Proof. apply suffix_cons_l. Qed.
Lemma suffix_elem {B} (x : B) c d : suffix (x :: c) d -> x ∈ d.
Proof. intros [k ->]. apply elem_of_app. right. apply list_elem_of_here. Qed.
Lemma suffix_cases {B} (x : B) p l : suffix p (x :: l) -> p = x :: l \/ suffix p l.
Proof. intros [[|y k] E]; [by left|right]. injection E as _ ->. by exists k. Qed.

(** The parts of such a program: the number of children and their code, how [pids]
    is read and written, and the code around the two loops: [pre] creates the
    semaphores, [mid] comes between the forks and the joins, [say i] before join [i]. *)
Record program (A L : Type) : Type := {
  N : nat;
  child : nat -> list (item A L);
  getp : L -> list nat;
  setp : list nat -> L -> L;
  pre : list (item A L);
  mid : list (item A L);
  say : nat -> list (item A L);
  last : list (item A L);
}.
Arguments N {A L} _.
Arguments child {A L} _.
Arguments getp {A L} _.
Arguments setp {A L} _.
Arguments pre {A L} _.
Arguments mid {A L} _.
Arguments say {A L} _.
Arguments last {A L} _.

Section main.
Context {A L M : Type} {AP : App A L M} (P : program A L).
Abbreviation item := (item A L).
Abbreviation thread := (thread A L).
Abbreviation world := (world A L M).

Local Abbreviation N := (N P).
Local Abbreviation child := (child P).
Local Abbreviation getp := (getp P).
Local Abbreviation setp := (setp P).
Local Abbreviation pre := (pre P).
Local Abbreviation mid := (mid P).
Local Abbreviation say := (say P).
Local Abbreviation last := (last P).

Definition fork_one (i : nat) : list item :=
  [Fork (child i) (fun pid l => setp (<[i := pid]> (getp l)) l)].
Definition join_one (i : nat) : list item := say i ++ [Join (fun l => default 0%nat (getp l !! i))].
Definition joining : list item := For 0 (Some N) join_one :: last.
Definition forking : list item := For 0 (Some N) fork_one :: mid ++ joining.
Definition main_code : list item := pre ++ forking.

Definition quiet (x : item) : Prop :=
  match x with
  | Act a => forall l m l' m' o, act a l m = Some (l', m', o) -> getp l' = getp l
  | _ => False
  end.
(** The semaphores that some code creates. *)
Definition keys (c : list item) : list Z := c ≫= (fun x => match x with New k _ => [k] | _ => [] end).

Class ForkJoin : Prop := {
  keys_once : NoDup (keys pre);
  getp_setp ps l : getp (setp ps l) = ps;
  pre_new : Forall (fun x : item => match x with New _ v => 0 <= v < 2 ^ 64 | _ => False end) pre;
  mid_quiet : Forall quiet mid;
  say_quiet i : Forall quiet (say i);
  last_plain : Forall (fun x : item => match x with Remove _ | Act _ => True | _ => False end) last;
}.
Context {FJ : ForkJoin}.

(** The numbers of the children forked so far, and the children waited for. *)
Definition forked (l : L) (n : nat) : Prop := forall i, (i < n)%nat -> getp l !! i = Some (S i).
Definition joined (fs : list bool) (n : nat) : Prop := forall i, (i < n)%nat -> fs !! S i = Some true.

Inductive main_at (fs : list bool) (l : L) : list item -> Prop :=
| at_fork j : (j <= N)%nat -> length fs = S j -> forked l j -> length (getp l) = N ->
    main_at fs l (For j (Some N) fork_one :: mid ++ joining)
| at_fork1 j : (j < N)%nat -> length fs = S j -> forked l j -> length (getp l) = N ->
    main_at fs l (fork_one j ++ For (S j) (Some N) fork_one :: mid ++ joining)
| at_mid x p : suffix (x :: p) mid -> length fs = S N -> forked l N -> main_at fs l (x :: p ++ joining)
| at_join j : (j <= N)%nat -> length fs = S N -> forked l N -> joined fs j ->
    main_at fs l (For j (Some N) join_one :: last)
| at_join1 j x p : (j < N)%nat -> suffix (x :: p) (join_one j) -> length fs = S N -> forked l N -> joined fs j ->
    main_at fs l (x :: p ++ For (S j) (Some N) join_one :: last)
| at_last c : length fs = S N -> joined fs N -> suffix c last -> main_at fs l c.

(** Before the forks: some semaphores are still to be created. *)
Definition main_ok (fs : list bool) (l : L) (c : list item) : Prop :=
  (exists x p, suffix (x :: p) pre /\ c = x :: p ++ forking /\ length fs = 1%nat /\ length (getp l) = N) \/
  main_at fs l c.

Lemma pre_elem x p : suffix (x :: p) pre -> exists k v, x = New k v /\ 0 <= v < 2 ^ 64.
Proof.
  intros H%suffix_elem. pose proof pre_new as Hp. rewrite Forall_forall in Hp. specialize (Hp _ H).
  destruct x; eauto; done.
Qed.
Lemma last_elem x p : suffix (x :: p) last -> match x with Remove _ | Act _ => True | _ => False end.
Proof. intros H%suffix_elem. pose proof last_plain as Hp. rewrite Forall_forall in Hp. by specialize (Hp _ H). Qed.
Lemma mid_elem x p : suffix (x :: p) mid -> quiet x.
Proof. intros H%suffix_elem. pose proof mid_quiet as Hp. rewrite Forall_forall in Hp. by specialize (Hp _ H). Qed.
(** A suffix of [join_one]: what is said, then the join. *)
Lemma join_elem j x p : suffix (x :: p) (join_one j) ->
  (quiet x /\ exists y q, p = y :: q) \/ (x = Join (fun l => default 0%nat (getp l !! j)) /\ p = []).
Proof.
  unfold join_one. intros [k E]. pose proof (say_quiet j) as Hq.
  destruct (decide (p = [])) as [->|Hp].
  - right. apply app_inj_tail in E as [_ <-]. done.
  - left. destruct (exists_last Hp) as (p' & y & ->).
    rewrite app_comm_cons, app_assoc in E. apply app_inj_tail in E as [E _].
    split; [|by destruct p'; eauto]. rewrite E, Forall_app in Hq. destruct Hq as [_ Hq]. by inversion Hq.
Qed.

Ltac main_cases Hm :=
  inversion Hm as [j Hj Hl Hf Hp Ec|j Hj Hl Hf Hp Ec|x' p' Hs Hl Hf Ec|j Hj Hl Hf Hjo Ec|j x' p' Hj Hs Hl Hf Hjo Ec
    |d Hl Hjo Hsuf Ec]; subst; clear Hm.

Lemma joined_mono fs fs' n : more_done fs fs' -> joined fs n -> joined fs' n.
Proof.
  intros H Hj i Hi. specialize (Hj i Hi).
  destruct (Forall2_lookup_l _ _ _ _ _ H Hj) as (b & Eb & Hb). by rewrite Eb, Hb.
Qed.
Lemma main_mono fs fs' l c : more_done fs fs' -> main_ok fs l c -> main_ok fs' l c.
Proof.
  intros H. pose proof (Forall2_length _ _ _ H) as Hl. unfold main_ok. rewrite Hl.
  intros [?|Hm]; [by left|right]. destruct Hm; rewrite Hl in *; econstructor; eauto using joined_mono.
Qed.
Lemma forked_insert l j :
  forked l j -> length (getp l) = N -> (j < N)%nat -> forked (setp (<[j := S j]> (getp l)) l) (S j).
Proof.
  intros Hf Hl Hj i Hi. rewrite getp_setp. destruct (decide (i = j)) as [->|].
  - apply list_lookup_insert_eq. lia.
  - rewrite list_lookup_insert_ne by done. apply Hf. lia.
Qed.
Lemma forked_same l l' n : getp l' = getp l -> forked l n -> forked l' n.
Proof. unfold forked. by intros ->. Qed.

(** The start of the forks, of the joins and of the end. *)
Lemma forking_ok fs l : length fs = 1%nat -> length (getp l) = N -> main_at fs l forking.
Proof. intros. apply at_fork; [lia|done| |done]. intros i Hi. lia. Qed.
Lemma mid_ok fs l p : length fs = S N -> forked l N -> suffix p mid -> main_at fs l (p ++ joining).
Proof.
  intros. destruct p as [|x p]; [|by apply at_mid]. apply at_join; [lia|done|done|]. intros i Hi. lia.
Qed.

(** The operation that comes next in [main]. *)
Lemma main_new fs l c k v : main_ok fs l (New k v :: c) ->
  0 <= v < 2 ^ 64 /\ main_ok fs l c /\ length fs = 1%nat /\
  exists p, suffix (New k v :: p) pre /\ c = p ++ forking.
Proof.
  intros [(x & p & Hp & [= <- ->] & Hl & Hpid)|Hm].
  - split; [by apply pre_elem in Hp as (? & ? & [= <- <-] & ?)|]. split; [|by eauto].
    destruct p as [|y p]; [right; by apply forking_ok|]. left. exists y, p. eauto using suffix_cons_inv'.
  - exfalso. main_cases Hm; try done.
    + by apply mid_elem in Hs.
    + by apply join_elem in Hs as [[? _]|[? _]].
    + by apply last_elem in Hsuf.
Qed.
Lemma main_remove fs l c k : main_ok fs l (Remove k :: c) -> suffix (Remove k :: c) last /\ length fs = S N /\ joined fs N.
Proof.
  intros [(x & p & Hp & [= <- ->] & _)|Hm].
  - by apply pre_elem in Hp as (? & ? & ? & _).
  - main_cases Hm; try done.
    + by apply mid_elem in Hs.
    + by apply join_elem in Hs as [[? _]|[? _]].
Qed.
Lemma main_no_wait fs l x c :
  main_ok fs l (x :: c) -> match x with Wait _ | Signal _ | For _ None _ => False | _ => True end.
Proof.
  intros [(y & p & Hp & [= <- ->] & _)|Hm].
  - by apply pre_elem in Hp as (? & ? & -> & _).
  - main_cases Hm; try done.
    + apply mid_elem in Hs. by destruct x.
    + apply join_elem in Hs as [[Hq _]|[-> _]]; [by destruct x|done].
    + apply last_elem in Hsuf. by destruct x.
Qed.
Lemma main_pass fs l c x :
  match x with Wait _ | Signal _ | New _ _ | Remove _ => True | _ => False end ->
  main_ok fs l (x :: c) -> main_ok fs l c.
Proof.
  intros Hx Hm. destruct x as [| |k v|k| | | |]; try done.
  - by apply main_no_wait in Hm.
  - by apply main_no_wait in Hm.
  - by apply main_new in Hm as (_ & ? & _).
  - apply main_remove in Hm as (Hs & Hl & Hj). right. apply at_last; [done|done|by eapply suffix_cons_inv'].
Qed.
(** An access in [main] is said on the way, or belongs to its end. *)
Lemma main_access fs l c a l' m m' o :
  main_ok fs l (Act a :: c) -> act a l m = Some (l', m', o) -> main_ok fs l' c.
Proof.
  intros [(x & p & Hp & [= <- ->] & _)|Hm] Ea; [by apply pre_elem in Hp as (? & ? & ? & _)|].
  right. main_cases Hm; try done.
  - apply mid_ok; [done| |by eapply suffix_cons_inv']. apply mid_elem in Hs. by eapply forked_same, Hf; eapply Hs.
  - pose proof (join_elem _ _ _ Hs) as [[Hq (y & q & ->)]|[? _]]; [|done].
    apply at_join1; [done|by eapply suffix_cons_inv'|done| |done]. by eapply forked_same, Hf; eapply Hq.
  - apply at_last; eauto using suffix_cons_inv'.
Qed.
Lemma main_act_kind fs l c a : main_ok fs l (Act a :: c) ->
  Act a ∈ mid \/ (exists i, Act a ∈ say i) \/ suffix (Act a :: c) last.
Proof.
  intros [(x & p & Hp & [= <- ->] & _)|Hm]; [by apply pre_elem in Hp as (? & ? & ? & _)|].
  main_cases Hm; try done.
  - left. by eapply suffix_elem.
  - right; left. exists j. apply suffix_elem in Hs. unfold join_one in Hs.
    apply elem_of_app in Hs as [|Hs]; [done|]. by apply list_elem_of_singleton in Hs.
  - auto.
Qed.
Lemma main_join fs l c p : main_ok fs l (Join p :: c) ->
  (fs !! p l = Some true -> main_ok fs l c) /\ exists n, p l = S n /\ (S n < length fs)%nat.
Proof.
  intros [(x & q & Hq & [= <- ->] & _)|Hm]; [by apply pre_elem in Hq as (? & ? & ? & _)|].
  main_cases Hm; try done.
  - by apply mid_elem in Hs.
  - apply join_elem in Hs as [[? _]|[[= ->] ->]]; [done|]. rewrite (Hf j Hj). split.
    + intros Ep. right. apply at_join; [lia|done|done|]. intros i Hi.
      destruct (decide (i = j)) as [->|]; [done|apply Hjo; lia].
    + exists j. rewrite Hl. split; [done|lia].
  - by apply last_elem in Hsuf.
Qed.
Lemma main_join_all fs l c p : main_ok fs l (Join p :: c) -> length fs = S N.
Proof.
  intros [(x & q & Hq & [= <- ->] & _)|Hm]; [by apply pre_elem in Hq as (? & ? & ? & _)|]. by main_cases Hm.
Qed.
Lemma main_loop fs l c n b body :
  match b with None => True | Some b => (n < b)%nat end ->
  main_ok fs l (For n b body :: c) -> main_ok fs l (body n ++ For (S n) b body :: c).
Proof.
  intros Hb [(x & q & Hq & [= <- ->] & _)|Hm]; [by apply pre_elem in Hq as (? & ? & ? & _)|]. right.
  main_cases Hm; try done.
  - by apply at_fork1.
  - by apply mid_elem in Hs.
  - destruct (join_one n) as [|x p] eqn:E; [by destruct (app_cons_not_nil _ _ _ (eq_sym E))|].
    apply at_join1; try done. by rewrite E.
  - by apply join_elem in Hs as [[? _]|[? _]].
  - by apply last_elem in Hsuf.
Qed.
Lemma main_leave fs l c n b body :
  (b <= n)%nat -> main_ok fs l (For n (Some b) body :: c) -> main_ok fs l c.
Proof.
  intros Hb [(x & q & Hq & [= <- ->] & _)|Hm]; [by apply pre_elem in Hq as (? & ? & ? & _)|]. right.
  main_cases Hm; try done.
  - assert (n = N) as -> by lia. by apply mid_ok.
  - by apply mid_elem in Hs.
  - assert (n = N) as -> by lia. by apply at_last.
  - by apply join_elem in Hs as [[? _]|[? _]].
  - by apply last_elem in Hsuf.
Qed.
Lemma main_fork fs l c ch ret b : main_ok fs l (Fork ch ret :: c) ->
  exists j, (j < N)%nat /\ length fs = S j /\ ch = child j /\ main_ok (fs ++ [b]) (ret (length fs) l) c.
Proof.
  intros [(x & q & Hq & [= <- ->] & _)|Hm]; [by apply pre_elem in Hq as (? & ? & ? & _)|].
  main_cases Hm; try done.
  - exists j. repeat (split; [done|]). right. rewrite Hl. apply at_fork; [lia| |by apply forked_insert|].
    + rewrite length_app, Hl. cbn. lia.
    + by rewrite getp_setp, length_insert.
  - by apply mid_elem in Hs.
  - by apply join_elem in Hs as [[? _]|[? _]].
  - by apply last_elem in Hsuf.
Qed.

(** ** The children *)
Context (Cok : nat -> list item -> L -> M -> Prop).
Definition proc_ok (i : nat) (fs : list bool) (c : list item) (l : L) (m : M) : Prop :=
  if decide (i = 0%nat) then main_ok fs l c else Cok (pred i) c l m.

Class ChildMoves : Prop := {
  ch_start j l m : (j < N)%nat -> Cok j (child j) l m;
  ch_pass j x c l m : match x with Wait _ | Signal _ => True | _ => False end ->
    Cok j (x :: c) l m -> Cok j c l m;
  ch_act j a c l m l' m' o : Cok j (Act a :: c) l m -> act a l m = Some (l', m', o) -> Cok j c l' m';
  ch_unfold j i b body c l m : match b with None => True | Some b => (i < b)%nat end ->
    Cok j (For i b body :: c) l m -> Cok j (body i ++ For (S i) b body :: c) l m;
  ch_leave j i b body c l m : (b <= i)%nat -> Cok j (For i (Some b) body :: c) l m -> Cok j c l m;
  ch_only j x c l m : Cok j (x :: c) l m ->
    match x with
    | New _ _ | Remove _ | Fork _ _ | Join _ => False
    | Wait k | Signal k => k ∈ keys pre
    | _ => True
    end;
}.
Context {CM : ChildMoves}.

Lemma proc_moves : moves proc_ok.
Proof.
  unfold proc_ok. constructor; intros i.
  - intros fs fs' c l m Hd. case_decide; [by apply main_mono|done].
  - intros fs x c l m Hx. case_decide; [by apply main_pass|]. intros Hc. pose proof (ch_only _ _ _ _ _ Hc).
    eapply ch_pass; [|done]. by destruct x.
  - intros fs p c l m. case_decide; [|by intros Hc%ch_only]. intros Hm Hp. by apply main_join in Hm as [? _]; auto.
  - intros fs a c l m l' m' o. case_decide; [apply main_access|apply ch_act].
  - intros fs j b body c l m Hb. case_decide; [by apply main_loop|by apply ch_unfold].
  - intros fs j b body c l m Hb. case_decide; [by apply main_leave|by apply ch_leave].
  - intros fs b ch ret c l m. case_decide as Hi; [|by intros Hc%ch_only].
    intros H. split; [done|]. destruct (main_fork fs l c ch ret b H) as (j & Hj & Hl & -> & H').
    split; [done|]. rewrite decide_False by lia. rewrite Hl. by apply ch_start.
  - intros fs b c l m Hi. by case_decide.
Qed.

Lemma each_main w t0 : each proc_ok w -> threads w !! 0%nat = Some t0 -> main_ok (fins w) (loc t0) (code t0).
Proof. intros He Et. pose proof (He _ _ Et) as H. unfold proc_ok in H. by rewrite decide_True in H. Qed.
Lemma each_child w i t : each proc_ok w -> threads w !! i = Some t -> i <> 0%nat -> Cok (pred i) (code t) (loc t) (mem w).
Proof. intros He Et Hi. pose proof (He _ _ Et) as H. unfold proc_ok in H. by rewrite decide_False in H. Qed.

(** At its end [main] has seen all children finish. *)
Lemma main_done w t0 : each proc_ok w -> threads w !! 0%nat = Some t0 -> suffix (code t0) last ->
  length (threads w) = S N /\ forall i t, i <> 0%nat -> threads w !! i = Some t -> code t = [].
Proof.
  intros He Et Hs. pose proof (each_main w t0 He Et) as H0.
  assert (length (fins w) = S N /\ joined (fins w) N) as [Hl Hj].
  { destruct Hs as [k Hk%(f_equal length)]. rewrite length_app in Hk.
    destruct H0 as [(x & p & Hp & E & _)|Hm].
    - rewrite E in Hk. unfold forking, joining in Hk. cbn [length app] in Hk. rewrite !length_app in Hk. cbn [length] in Hk.
      rewrite length_app in Hk. cbn [length] in Hk. lia.
    - main_cases Hm; try done; exfalso; rewrite <- Ec in Hk; unfold fork_one, joining in Hk; cbn [length app] in Hk;
        rewrite ?length_app in Hk; cbn [length] in Hk; lia. }
  unfold fins in Hl. rewrite length_fmap in Hl. split; [done|]. intros i t Hi E.
  assert (i < S N)%nat by (rewrite <- Hl; by eapply lookup_lt_Some).
  specialize (Hj (pred i) ltac:(lia)). replace (S (pred i)) with i in Hj by lia.
  unfold fins in Hj. rewrite list_lookup_fmap, E in Hj. cbn in Hj. unfold finished in Hj. by destruct (code t).
Qed.

(** ** Weights *)
Section main_weight.
Variable f : item -> Z.
Hypothesis f_plain : forall x, match x with Fork _ _ | Join _ | Remove _ => True | _ => False end -> f x = 0.
Hypothesis f_own : forall x, x ∈ mid \/ (exists i, x ∈ say i) \/ x ∈ last -> weigh f x = 0.

Lemma zero_weight c : (forall x, x ∈ c -> weigh f x = 0) -> weight f c = 0.
Proof. intros H. unfold weight. rewrite (zsum_const _ _ 0); [lia|done]. Qed.
Lemma suffix_weight c d : (forall x, x ∈ d -> weigh f x = 0) -> suffix c d -> weight f c = 0.
Proof. intros H [k ->]. apply zero_weight. intros x Hx. apply H, elem_of_app. by right. Qed.
Lemma join_one_weight i x : x ∈ join_one i -> weigh f x = 0.
Proof.
  unfold join_one. intros [H|H%list_elem_of_singleton]%elem_of_app; [eauto|]. subst. cbn [weigh]. by apply f_plain.
Qed.
Lemma weigh_forks j : weigh f (For j (Some N) fork_one) =
  zsum (fun i => weight f (child i)) (seq j (N - j)).
Proof.
  cbn [weigh]. generalize (N - j)%nat as n. intros n. revert j. induction n as [|n IH]; intros j; [done|].
  cbn [seq]. rewrite !zsum_cons, IH. unfold fork_one. rewrite zsum_cons, zsum_nil. cbn [weigh].
  rewrite f_plain by done. unfold weight. lia.
Qed.
Lemma weigh_joins j : weigh f (For j (Some N) join_one) = 0.
Proof.
  cbn [weigh]. rewrite (zsum_const _ _ 0); [lia|]. intros i _. apply zero_weight. apply join_one_weight.
Qed.
Lemma joining_weight : weight f joining = 0.
Proof. unfold joining. rewrite weight_cons, weigh_joins, zero_weight; [done|]. intros x Hx. apply f_own. auto. Qed.

(** What [main] weighs: the children still to fork. *)
Lemma main_at_weight fs l c : main_at fs l c ->
  exists j, weight f c = zsum (fun i => weight f (child i)) (seq j (N - j)) /\ (length fs <= S j)%nat.
Proof.
  assert (Hl0 : weight f last = 0) by (apply zero_weight; intros; apply f_own; auto).
  assert (Hm0 : weight f mid = 0) by (apply zero_weight; intros; apply f_own; auto).
  intros Hm. main_cases Hm.
  - exists j. rewrite weight_cons, weight_app, weigh_forks, joining_weight. split; lia.
  - exists j. unfold fork_one at 1. cbn [app]. rewrite !weight_cons, weight_app, weigh_forks, joining_weight.
    cbn [weigh]. rewrite f_plain by done. replace (N - j)%nat with (S (N - S j)) by lia. cbn [seq]. rewrite zsum_cons.
    unfold weight in *. split; lia.
  - exists N. rewrite Nat.sub_diag. split; [|lia]. rewrite app_comm_cons, weight_app, joining_weight.
    rewrite (suffix_weight (x' :: p') mid); [done|auto|done].
  - exists N. rewrite Nat.sub_diag. split; [|lia]. rewrite weight_cons, weigh_joins, Hl0. done.
  - exists N. rewrite Nat.sub_diag. split; [|lia].
    rewrite app_comm_cons, weight_app, (suffix_weight (x' :: p') (join_one j));
      [by rewrite weight_cons, weigh_joins, Hl0|apply join_one_weight|done].
  - exists N. rewrite Nat.sub_diag. split; [|lia]. rewrite (suffix_weight c last); [done|auto|done].
Qed.
End main_weight.

(** ** The life of the semaphores *)
Definition starts_new (c : list item) : Prop := match c with New _ _ :: _ => True | _ => False end.

Inductive life (bal : Z -> Z) (w : world) (t0 : thread) : Prop :=
| creating k v done p : pre = done ++ New k v :: p -> code t0 = New k v :: p ++ forking ->
    length (threads w) = 1%nat -> (forall k', is_Some (sems w !! k') <-> k' ∈ keys done) ->
    (forall k', k' ∈ keys pre -> balance k' w = bal k') -> life bal w t0
| running : ~ starts_new (code t0) -> (forall k, k ∈ keys pre -> is_Some (sems w !! k)) ->
    (forall k', k' ∈ keys pre -> balance k' w = bal k') -> life bal w t0
| ending : suffix (code t0) last -> code t0 <> last -> life bal w t0.

Definition lives (bal : Z -> Z) (w : world) : Prop :=
  exists t0, threads w !! 0%nat = Some t0 /\ blocked t0 = false /\ life bal w t0.
(** While the balances hold, no count overflows. *)
Definition room (bal : Z -> Z) (w : world) : Prop :=
  (forall k, k ∈ keys pre -> balance k w = bal k) -> forall k, k ∈ keys pre -> cnt k (sems w) + 1 < 2 ^ 64.

(** While a child runs, the semaphores exist and are balanced. *)
Lemma child_running bal w i t : each proc_ok w -> lives bal w ->
  threads w !! i = Some t -> i <> 0%nat -> code t <> [] ->
  exists t0, threads w !! 0%nat = Some t0 /\ blocked t0 = false /\ ~ starts_new (code t0) /\
    (forall k, k ∈ keys pre -> is_Some (sems w !! k)) /\ (forall k', k' ∈ keys pre -> balance k' w = bal k').
Proof.
  intros He (t0 & Et0 & Hb & Hl) Et Hi Hne. exists t0. split; [done|]. split; [done|].
  destruct Hl as [k v d p Hp Hc Hlen _ _|? ? ?|Hs _]; [|done|].
  - apply lookup_lt_Some in Et. lia.
  - destruct (main_done w t0 He Et0 Hs) as [_ Hd]. by destruct Hne; eapply Hd.
Qed.

Lemma life_tidy bal w i t x c : wf w -> each proc_ok w -> lives bal w -> room bal w ->
  threads w !! i = Some t -> code t = x :: c -> tidy w x.
Proof.
  intros Hwf He Hl Hroom Et Hc. destruct (decide (i = 0%nat)) as [->|Hi].
  - pose proof (each_main w t He Et) as Hm. rewrite Hc in Hm.
    pose proof (main_no_wait _ _ _ _ Hm) as Hx. destruct x as [| |k v|k| | | |]; try done; cbn.
    + destruct (main_new _ _ _ _ _ Hm) as (Hv & _). split; [|done].
      destruct Hl as (t0 & Et0 & _ & Hl). rewrite Et in Et0. injection Et0 as <-.
      destruct Hl as [k' v' d p Hp Hc' _ Hk _|Hn|Hs _]; rewrite ?Hc in *; [|by destruct Hn|by apply last_elem in Hs].
      injection Hc' as <- <- _. destruct (sems w !! k) as [s|] eqn:E; [|done]. exfalso.
      assert (k ∈ keys d) as Hin by (apply Hk; by rewrite E).
      pose proof keys_once as Hnd. rewrite Hp in Hnd. unfold keys in Hnd. rewrite bind_app, bind_cons in Hnd.
      apply NoDup_app in Hnd as (_ & Hnd & _). apply (Hnd k Hin). apply elem_of_app. left. by apply list_elem_of_singleton.
    + destruct (main_remove _ _ _ _ Hm) as (Hs & _ & _). intros s Es.
      destruct Hwf as [Hsem _]. destruct (Hsem _ _ Es) as (_ & _ & _ & Hin).
      destruct (wait_queue s) as [|p q] eqn:Eq; [done|].
      destruct (proj1 (Hin p) (list_elem_of_here _ _)) as (j & u & d & -> & Eu & Hu & Hd).
      destruct (main_done w t He Et) as [_ Hfin]; [by rewrite Hc|].
      destruct (decide (j = 0%nat)) as [->|Hj]; [congruence|]. rewrite (Hfin j u Hj Eu) in Hd. done.
  - destruct (child_running bal w i t He Hl Et Hi) as (_ & _ & _ & _ & Hk & Hbal); [by rewrite Hc|].
    pose proof (each_child w i t He Et Hi) as Hok. rewrite Hc in Hok. apply ch_only in Hok.
    destruct x; try done; cbn; auto.
Qed.

Lemma life_child bal w i t x c w' :
  each proc_ok w -> lives bal w -> threads w !! i = Some t -> code t = x :: c -> i <> 0%nat ->
  effect i w t x c w' -> lives bal w'.
Proof.
  intros He Hl Et Hc Hi Hef.
  destruct (child_running bal w i t He Hl Et Hi) as (t0 & Et0 & Hb0 & Hn & Hk & Hbal); [by rewrite Hc|].
  pose proof (each_child w i t He Et Hi) as Hok. rewrite Hc in Hok. apply ch_only in Hok as Hx.
  exists t0. split; [|split; [done|]].
  - eapply effect_other; [done|done|done|]. pose proof (each_main w t0 He Et0) as Hm.
    destruct (code t0) as [|y d]; [done|]. apply main_no_wait in Hm. by destruct y.
  - apply running; [done|..].
    + intros k Hin. rewrite (effect_dom _ _ _ _ _ _ k Hef) by (by destruct x). auto.
    + intros k Hin. rewrite (effect_balance _ _ _ _ _ _ k Et Hc Hef); [auto|]. by intros ->.
Qed.

Lemma not_new x : x ∈ mid \/ (exists i, x ∈ join_one i) \/ x ∈ last -> match x with New _ _ => False | _ => True end.
Proof.
  pose proof mid_quiet as H1. pose proof last_plain as H2. rewrite Forall_forall in H1, H2.
  intros [H%H1|[[i H]|H%H2]]; [by destruct x| |by destruct x].
  unfold join_one in H. pose proof (say_quiet i) as H3. rewrite Forall_forall in H3.
  apply elem_of_app in H as [H%H3|H%list_elem_of_singleton]; [by destruct x|by subst].
Qed.
Lemma not_starts_new p d q : (forall x, x ∈ d -> match x with New _ _ => False | _ => True end) ->
  suffix p d -> ~ starts_new q -> ~ starts_new (p ++ q).
Proof.
  intros H Hs Hq. destruct p as [|x p]; [done|]. apply suffix_elem in Hs. specialize (H x Hs).
  destruct x; done || by intros [].
Qed.
Lemma main_at_next fs l x c : main_at fs l (x :: c) ->
  ~ starts_new c /\ forall j n body, x = For j n body -> ~ starts_new (body j ++ For (S j) n body :: c).
Proof.
  assert (Hjo0 : ~ starts_new joining) by (by intros []).
  assert (Hla0 : ~ starts_new last).
  { rewrite <- (app_nil_r last). eapply (not_starts_new last last); [intros; apply not_new; auto|done|by intros []]. }
  intros Hm. main_cases Hm.
  - split; [eapply (not_starts_new mid mid); [intros; apply not_new; auto|done|done]|].
    intros ? ? ? [= -> <- <-]. by intros [].
  - split; [by intros []|]. done.
  - split; [eapply (not_starts_new p' mid); [intros; apply not_new; auto|by eapply suffix_cons_inv'|done]|].
    intros ? ? ? ->. by apply mid_elem in Hs.
  - split; [done|]. intros ? ? ? [= -> <- <-].
    eapply (not_starts_new _ (join_one _)); [intros; apply not_new; eauto|done|by intros []].
  - split; [eapply (not_starts_new p' (join_one j)); [intros; apply not_new; eauto|by eapply suffix_cons_inv'|by intros []]|].
    intros ? ? ? ->. by apply join_elem in Hs as [[? _]|[? _]].
  - split.
    + rewrite <- (app_nil_r c). eapply (not_starts_new c last); [intros; apply not_new; auto|by eapply suffix_cons_inv'|by intros []].
    + intros ? ? ? ->. by apply last_elem in Hsuf.
Qed.

Lemma life_main bal w t x c w' :
  each proc_ok w -> each proc_ok w' -> lives bal w -> threads w !! 0%nat = Some t -> blocked t = false ->
  code t = x :: c -> effect 0 w t x c w' -> lives bal w'.
Proof.
  intros He He' (t0 & Et0 & _ & Hl) Et Hb Hc Hef. rewrite Et in Et0. injection Et0 as <-.
  pose proof (each_main w t He Et) as Hm. rewrite Hc in Hm. pose proof (main_no_wait _ _ _ _ Hm) as Hx.
  destruct (effect_self _ _ _ _ _ _ Hef Et Hb Hc) as (t' & Et' & Hb' & Hc'); [by destruct x|].
  exists t'. split; [done|]. split; [done|].
  destruct Hl as [k v d p Hp Hc1 Hlen Hk Hbal|Hn Hk Hbal|Hs Hne].
  - rewrite Hc in Hc1. injection Hc1 as -> ->.
    assert (Hbal' : forall k', k' ∈ keys pre -> balance k' w' = bal k')
      by (intros k' Hk''; rewrite (effect_balance _ _ _ _ _ _ k' Et Hc Hef); [auto|done]).
    destruct Hc' as [Hc'|[(? & ? & ? & [=] & _)|(? & [=] & _)]].
    assert (Hk' : forall k', is_Some (sems w' !! k') <-> k' ∈ keys (d ++ [New k v])).
    { inversion Hef; subst. intros k'. cbn [sems]. unfold keys. rewrite bind_app, elem_of_app.
      destruct (decide (k = k')) as [->|Hne].
      - rewrite lookup_insert_eq. split; [|by eauto]. intros _. right. apply list_elem_of_here.
      - rewrite lookup_insert_ne, Hk by done. split; [by left|]. intros [|Hin]; [done|].
        cbn in Hin. by apply list_elem_of_singleton in Hin as ->. }
    destruct p as [|y p].
    + apply running; [rewrite Hc'; by intros []| |done]. intros k'. rewrite Hp. apply Hk'.
    + destruct (pre_elem y p) as (k2 & v2 & -> & _); [exists (d ++ [New k v]); by rewrite Hp, <- app_assoc|].
      eapply (creating _ _ _ k2 v2 (d ++ [New k v]) p); [by rewrite Hp, <- app_assoc|done| |done|done].
      inversion Hef; subst. cbn [threads]. by rewrite length_insert.
  - assert (Hrem : (exists k, x = Remove k) \/ forall k, x <> Remove k) by (destruct x; eauto).
    destruct Hrem as [[k ->]|Hnr].
    { apply ending; destruct (main_remove _ _ _ _ Hm) as (Hs & _);
        destruct Hc' as [->|[(? & ? & ? & [=] & _)|(? & [=] & _)]].
      - by eapply suffix_cons_inv'.
      - intros ->. destruct Hs as [q Hq%(f_equal length)]. rewrite length_app in Hq. cbn in Hq. lia. }
    assert (Hnew : forall k v, x <> New k v) by (intros k v ->; apply Hn; by rewrite Hc).
    assert (Hsem : forall k, k ∈ keys pre -> is_Some (sems w' !! k)).
    { intros k Hin. rewrite (effect_dom _ _ _ _ _ _ k Hef); [by apply Hk|].
      destruct x; try done; [by eapply Hnew|by eapply Hnr]. }
    assert (Hbal' : forall k', k' ∈ keys pre -> balance k' w' = bal k')
      by (intros k' Hk''; rewrite (effect_balance _ _ _ _ _ _ k' Et Hc Hef) by (apply Hnr); auto).
    apply running; [|done|done].
    destruct Hm as [(y & p & Hp & [= <- ->] & _)|Hm].
    { apply pre_elem in Hp as (k & v & -> & _). by destruct (Hnew k v). }
    destruct (main_at_next _ _ _ _ Hm) as [H1 H2].
    destruct Hc' as [->|[(j & n & body & -> & ->)|(a & -> & _ & ->)]]; [done|by apply H2|].
    rewrite Et in Et'. injection Et' as <-. done.
  - rewrite Hc in Hs, Hne. apply last_elem in Hs as Hk.
    destruct Hc' as [Hc'|[(j & n & body & -> & Hc')|(a & _ & _ & ->)]]; [|done|].
    + apply ending; rewrite Hc'; [by eapply suffix_cons_inv'|]. intros ->.
      destruct Hs as [q Hq%(f_equal length)]. rewrite length_app in Hq. cbn in Hq. lia.
    + rewrite Et in Et'. injection Et' as <-. apply ending; by rewrite Hc.
Qed.

(** One step of the whole program: what an application has to add is what its
    accesses do to the facts about the other children. *)
Lemma life_step bal w w' : wf w -> each proc_ok w -> lives bal w -> room bal w -> step w w' ->
  exists i t x c, threads w !! i = Some t /\ blocked t = false /\ code t = x :: c /\ effect i w t x c w' /\
    wf w' /\ (each proc_ok w' -> lives bal w').
Proof.
  intros Hwf He Hl Hr [i Es]. destruct (step_effect i w w' Hwf Es) as (t & x & c & Et & Hb & Hc & Ht & Hef).
  { intros t x c. by apply (life_tidy bal). }
  exists i, t, x, c. repeat (split; [done|]). split; [by eapply effect_wf|]. intros He'.
  destruct (decide (i = 0%nat)) as [->|Hi]; 
    [exact (life_main bal w t x c w' He He' Hl Et Hb Hc Hef)|exact (life_child bal w i t x c w' He Hl Et Hc Hi Hef)].
Qed.
(** When the children are done, [main] can go on to its end. *)
Lemma stuck_main w t : wf w -> each proc_ok w -> stuck w -> threads w !! 0%nat = Some t ->
  (forall i u, i <> 0%nat -> threads w !! i = Some u -> code u = []) -> code t = [].
Proof.
  intros Hwf He Hst Et Hd. destruct (decide (code t = [])) as [|Hne]; [done|exfalso].
  pose proof (each_main w t He Et) as Hm.
  destruct (stuck_why 0 w t Hwf Hst Et Hne) as [(k & c & Hc & _)|(p & c & Hc & _ & Hj)]; rewrite Hc in Hm.
  - by apply main_no_wait in Hm.
  - destruct (main_join _ _ _ _ Hm) as (_ & n & Hp & Hn). unfold fins in Hn. rewrite length_fmap in Hn.
    destruct (lookup_lt_is_Some_2 (threads w) (S n) Hn) as [u Eu].
    apply (Hj u); [by rewrite Hp|]. by apply (Hd (S n) u).
Qed.

(** ** Programs that print one result, last *)
Class Prints (pr : A) : Prop := {
  last_print : exists rm, last = rm ++ [Act pr] /\
    Forall (fun x : item => match x with Remove _ => True | _ => False end) rm;
  said_silent a l m l' m' o : Act a ∈ mid \/ (exists i, Act a ∈ say i) -> act a l m = Some (l', m', o) -> o = [];
}.
Context (pr : A) {PR : Prints pr}.

Lemma main_acts fs l a c : main_ok fs l (Act a :: c) ->
  (c <> [] /\ (Act a ∈ mid \/ exists i, Act a ∈ say i)) \/ (a = pr /\ c = []).
Proof.
  intros Hm. destruct last_print as (rm & El & Hrm).
  destruct Hm as [(x & p & Hx & [= <- ->] & _)|Hm]; [by apply pre_elem in Hx as (? & ? & ? & _)|].
  main_cases Hm; try done.
  - left. split; [by destruct p'|]. left. by eapply suffix_elem.
  - left. split; [by destruct p'|]. right. exists j. apply suffix_elem in Hs. unfold join_one in Hs.
    apply elem_of_app in Hs as [|Hs]; [done|]. by apply list_elem_of_singleton in Hs.
  - right. rewrite El in Hsuf. destruct Hsuf as [k Hk]. destruct (decide (c = [])) as [->|Hc0].
    + by apply app_inj_tail in Hk as [_ [= <-]].
    + exfalso. destruct (exists_last Hc0) as (c' & y & ->). rewrite app_comm_cons, app_assoc in Hk.
      apply app_inj_tail in Hk as [-> _]. apply Forall_app in Hrm as [_ Hrm]. by inversion Hrm.
Qed.
Lemma main_one fs l x : main_ok fs l [x] -> x = Act pr.
Proof.
  destruct last_print as (rm & El & _). intros [(y & p & Hx & E & _)|Hm]; [by destruct p|].
  main_cases Hm; [exfalso; by destruct mid|by destruct p'|exfalso; rewrite El in *; by destruct rm|by destruct p'|].
  rewrite El in Hsuf. destruct Hsuf as [k Hk]. by apply app_inj_tail in Hk as [_ [= ->]].
Qed.

(** [res] is what has been printed once [main] has ended, and nothing before. *)
Definition printed (res : list Z) (w : world) : Prop :=
  exists t0, threads w !! 0%nat = Some t0 /\ out w = if finished t0 then res else [].
Lemma printed_step res i w t x c w' : each proc_ok w -> printed res w ->
  threads w !! i = Some t -> blocked t = false -> code t = x :: c ->
  (forall a l m o, i <> 0%nat -> x = Act a -> act a (loc t) (mem w) = Some (l, m, o) -> o = []) ->
  (forall l m o, i = 0%nat -> suffix (code t) last -> act pr (loc t) (mem w) = Some (l, m, o) -> o = res) ->
  effect i w t x c w' -> printed res w'.
Proof.
  intros He (t0 & Et0 & Ho) Et Hb Hc Hsil Hres Hef.
  pose proof (effect_acts i w t x c w' (fun _ => 0) Et Hc Hef) as Ha. destruct (decide (i = 0%nat)) as [->|Hi].
  - rewrite Et0 in Et. injection Et as ->. pose proof (each_main w t He Et0) as Hm. rewrite Hc in Hm.
    pose proof (main_no_wait _ _ _ _ Hm) as Hx. unfold finished in Ho. rewrite Hc in Ho.
    destruct (effect_self _ _ _ _ _ _ Hef Et0 Hb Hc) as (t' & Et' & _ & Hc'); [by destruct x|].
    exists t'. split; [done|]. unfold finished.
    destruct Hc' as [Hc'|[(j & n & body & -> & Hc')|(a & _ & _ & ->)]].
    + rewrite Hc'. destruct Ha as [(a & l & m & o & -> & Ea & _ & -> & _)|(_ & -> & _ & Ha)]; rewrite Ho.
      * destruct (main_acts _ _ _ _ Hm) as [[Hne Hsaid]|[-> ->]].
        -- rewrite (said_silent _ _ _ _ _ _ Hsaid Ea). by destruct c.
        -- rewrite (Hres _ _ _ eq_refl ltac:(rewrite Hc; destruct last_print as (rm & -> & _); by apply suffix_app_r) Ea).
           by rewrite app_nil_l.
      * destruct c as [|y c]; [exfalso|done]. pose proof (main_one _ _ _ Hm) as ->.
        inversion Hef; subst; congruence.
    + rewrite Hc'. destruct Ha as [(? & ? & ? & ? & [=] & _)|(_ & -> & _)]. rewrite Ho. by destruct (body j).
    + rewrite Et0 in Et'. injection Et' as <-. by rewrite Hc.
  - exists t0. split.
    + eapply effect_other; [done|done|done|]. pose proof (each_main w t0 He Et0) as H0.
      destruct (code t0) as [|y d]; [done|]. apply main_no_wait in H0. by destruct y.
    + destruct Ha as [(a & l & m & o & -> & Ea & _ & -> & _)|(_ & -> & _)]; [|done].
      rewrite (Hsil _ _ _ _ Hi eq_refl Ea). by rewrite app_nil_r.
Qed.
End main.

(** ** Children that repeat a body

    Many children are one loop over a straight line of operations.  Such a child is at
    operation [q] of the round before round [j]; [I j q] is what it knows there. *)
Section looping.
Context {A L M : Type} {AP : App A L M}.
Abbreviation item := (item A L).
Context (body : nat -> list item) (rounds : option nat) (len : nat) (ks : list Z)
  (I : nat -> nat -> L -> M -> Prop).

Class Looping : Prop := {
  loop_len j : length (body j) = len;
  loop_plain j q x : body j !! q = Some x ->
    match x with Wait k | Signal k => k ∈ ks | Act _ => True | _ => False end;
  loop_start l m : I 0 len l m;
  loop_again j l m : I j len l m -> I (S j) 0 l m;
  loop_pass j q x l m : body (pred j) !! q = Some x ->
    match x with Act _ => False | _ => True end -> I j q l m -> I j (S q) l m;
  loop_act j q a l m l' m' o : body (pred j) !! q = Some (Act a) -> I j q l m ->
    act a l m = Some (l', m', o) -> I j (S q) l' m';
}.
Context {LP : Looping}.

Definition loop_code : list item := [For 0 rounds body].
Definition loop_at (c : list item) (j q : nat) : Prop :=
  (q <= len)%nat /\ match rounds with Some n => (j <= n)%nat | None => True end /\
  (j = 0%nat -> q = len) /\ c = drop q (body (pred j)) ++ [For j rounds body].
Definition loop_ok (c : list item) (l : L) (m : M) : Prop :=
  c = [] \/ exists j q, loop_at c j q /\ I j q l m.

Lemma loop_head c j q : loop_at c j q ->
  if decide (q = len) then c = [For j rounds body]
  else exists x d, c = x :: d /\ body (pred j) !! q = Some x /\ loop_at d j (S q).
Proof.
  intros (Hq & Hj & H0 & E). case_decide as H.
  - subst q. by rewrite <- (loop_len (pred j)), drop_all in E.
  - destruct (lookup_lt_is_Some_2 (body (pred j)) q) as [y Ey]; [rewrite loop_len; lia|].
    rewrite (drop_S _ y q Ey) in E. exists y. eexists. split; [exact E|]. split; [done|].
    split; [lia|]. split; [done|]. split; [intros ->; lia|done].
Qed.

(** The next operation of a round, or its end. *)
Lemma loop_next x c j q : loop_at (x :: c) j q ->
  (x = For j rounds body /\ c = [] /\ q = len) \/ (body (pred j) !! q = Some x /\ loop_at c j (S q)).
Proof.
  intros H. apply loop_head in H. case_decide; [left; by injection H as -> ->|right].
  by destruct H as (y & d & [= <- <-] & Hy & H').
Qed.
Lemma loop_ok_start l m : loop_ok loop_code l m.
Proof.
  right. exists 0%nat, len. split; [|apply loop_start]. split; [done|].
  split; [destruct rounds; lia || done|]. split; [done|].
  unfold loop_code. by rewrite <- (loop_len (pred 0)), drop_all.
Qed.
Lemma loop_only x c l m : loop_ok (x :: c) l m ->
  match x with
  | New _ _ | Remove _ | Fork _ _ | Join _ => False
  | Wait k | Signal k => k ∈ ks
  | _ => True
  end.
Proof.
  intros [?|(j & q & H & _)]; [done|]. apply loop_head in H. case_decide; [by injection H as -> ->|].
  destruct H as (y & d & [= <- <-] & Hy & _). apply loop_plain in Hy. by destruct x.
Qed.
Lemma loop_ok_pass x c l m : match x with Wait _ | Signal _ => True | _ => False end ->
  loop_ok (x :: c) l m -> loop_ok c l m.
Proof.
  intros Hx [?|(j & q & H & HI)]; [done|]. right. exists j, (S q). apply loop_head in H.
  case_decide; [by injection H as -> ->|]. destruct H as (y & d & [= <- <-] & Hy & H').
  split; [done|]. eapply loop_pass; [done|by destruct x|done].
Qed.
Lemma loop_ok_act a c l m l' m' o :
  loop_ok (Act a :: c) l m -> act a l m = Some (l', m', o) -> loop_ok c l' m'.
Proof.
  intros [?|(j & q & H & HI)] Ea; [done|]. right. exists j, (S q). apply loop_head in H.
  case_decide; [done|]. destruct H as (y & d & [= <- <-] & Hy & H'). split; [done|]. by eapply loop_act.
Qed.
Lemma loop_ok_unfold i b bd c l m : match b with None => True | Some b => (i < b)%nat end ->
  loop_ok (For i b bd :: c) l m -> loop_ok (bd i ++ For (S i) b bd :: c) l m.
Proof.
  intros Hb [?|(j & q & H & HI)]; [done|]. right. pose proof H as (_ & Hj & _). apply loop_head in H. case_decide as Hq.
  - injection H as -> -> -> ->. exists (S j), 0%nat. split; [|apply loop_again; by subst].
    split; [lia|]. split; [by destruct rounds|]. split; [done|]. done.
  - destruct H as (y & d & [= <- <-] & Hy & _). by apply loop_plain in Hy.
Qed.
Lemma loop_ok_leave i b bd c l m : (b <= i)%nat -> loop_ok (For i (Some b) bd :: c) l m -> loop_ok c l m.
Proof.
  intros Hb [?|(j & q & H & HI)]; [done|]. left. apply loop_head in H. case_decide; [by injection H as _ _ _ ?|].
  destruct H as (y & d & [= <- <-] & Hy & _). by apply loop_plain in Hy.
Qed.

(** What a loop weighs. *)
Lemma loop_weight f c j q v n : rounds = Some n -> loop_at c j q -> (forall j, weight f (body j) = v) ->
  weight f c = weight f (drop q (body (pred j))) + Z.of_nat (n - j) * v.
Proof.
  intros Hr (_ & _ & _ & ->) Hv. rewrite weight_app, weight_cons, weight_nil. cbn [weigh]. rewrite Hr.
  rewrite (zsum_const _ _ v), length_seq; [lia|]. intros i _. apply Hv.
Qed.
Lemma loop_code_weight f v n : rounds = Some n -> (forall j, weight f (body j) = v) ->
  weight f loop_code = Z.of_nat n * v.
Proof.
  intros Hr Hv. unfold loop_code. rewrite weight_cons, weight_nil. cbn [weigh]. rewrite Hr.
  rewrite (zsum_const _ _ v), length_seq; [|intros i _; apply Hv]. rewrite Nat.sub_0_r. lia.
Qed.
End looping.
