(* ===== verification/Counter.v ===== *)
(** * The counter programs [app/sem] and [app/spin]

    Models [pkg/app/sem/src/main.rs], [pkg/app/spin/src/main.rs] and the locks of
    [pkg/lib/src/sync.rs]: eight processes increment a shared counter 100 times
    each, inside a critical section guarded by a semaphore or by a spin lock.
    Each access to memory is a step of its own, so that without the lock updates
    would be lost. *)

From stdpp Require Import base numbers list gmap relations.
From S2P Require Import Prelude Bytes Str Sync Threads ForkJoin.

(** ** Locks ([lib/src/sync.rs]) *)
Module SpinLock.
Definition new : bool := false.
(** One round of [acquire]: [compare_exchange(false, true)]; on failure the loop
    goes on. *)
Definition acquire (bolt : bool) : option bool := if bolt then None else Some true.
Definition release (bolt : bool) : bool := false.
End SpinLock.

(** [Semaphore { key }] and its calls. *)
Module LibSem.
Section calls.
Context {A L : Type}.
Definition new (key : Z) : Z := key.
Definition init (sem value : Z) : item A L := New sem value.
Definition remove (sem : Z) : item A L := Remove sem.
Definition wait (sem : Z) : item A L := Wait sem.
Definition signal (sem : Z) : item A L := Signal sem.
End calls.
End LibSem.

(** ** Memory *)

(** The accesses to memory, the delays and the output. *)
Inductive access : Type :=
| CompareExchange | StoreBolt
| Delay | LoadCounter | AddOne | StoreCounter
| Println | PrintCounter.
Global Instance access_eq_dec : EqDecision access.
Proof. solve_decision. Defined.

(** [COUNTER] and [SPINLOCK] are shared; [val] of [inc_counter] and [pids] of
    [main] are on the stack, which a child gets a copy of. *)
Record Shared : Type := mkS { COUNTER : Z; bolt : bool }.
Record Private : Type := mkP { val : Z; pids : list nat }.

(** [val += 1] on [isize]. *)
Definition isize_add (x y : Z) : Z := as_isize (as_usize (x + y)).

(** Of the output only the result is kept, as a number. *)
Global Instance counter_app : App access Private Shared := fun a l m =>
  match a with
  | CompareExchange => b ← SpinLock.acquire (bolt m); Some (l, mkS (COUNTER m) b, [])
  | StoreBolt => Some (l, mkS (COUNTER m) (SpinLock.release (bolt m)), [])
  | Delay | Println => Some (l, m, [])
  | LoadCounter => Some (mkP (COUNTER m) (pids l), m, [])
  | AddOne => Some (mkP (isize_add (val l) 1) (pids l), m, [])
  | StoreCounter => Some (l, mkS (val l) (bolt m), [])
  | PrintCounter => Some (l, m, [COUNTER m])
  end.

(** ** The programs *)
Definition THREAD_COUNT : nat := 8.
Abbreviation citem := (item access Private).

Definition inc_counter : list citem :=
  [Act Delay; Act LoadCounter; Act Delay; Act AddOne; Act Delay; Act StoreCounter].

Section main.
Variables lock unlock : citem.
(** One round of [do_counter_inc], and the whole loop. *)
Definition guarded : list citem := lock :: inc_counter ++ [unlock].
Definition do_counter_inc : list citem := [For 0 (Some 100%nat) (fun _ => guarded)].
(** [main]: fork, print, wait for each child, end. *)
Variables setup finish : list citem.
Definition counter : program access Private := {|
  N := THREAD_COUNT; child := fun _ => do_counter_inc;
  getp := pids; setp := fun ps l => mkP (val l) ps;
  pre := setup; mid := [Act Println]; say := fun _ => [Act Println]; last := finish |}.
End main.

Definition SEM : Z := LibSem.new 0.
Definition sem_pre : list citem := [LibSem.init SEM 1].
Definition sem_last : list citem := [LibSem.remove SEM; Act PrintCounter].
Definition sem_app : program access Private := counter (LibSem.wait SEM) (LibSem.signal SEM) sem_pre sem_last.
Definition spin_last : list citem := [Act PrintCounter].
Definition spin_app : program access Private := counter (Act CompareExchange) (Act StoreBolt) [] spin_last.

Definition start (p : program access Private) : world access Private Shared :=
  mkW SemSet.new (mkS 0 SpinLock.new) [mkT (main_code p) (mkP 0 (replicate THREAD_COUNT 0%nat)) false] [].

(** ** Where a process is *)

(** What the proofs use of a lock: its two operations, those before the forks and
    after the joins. *)
Class Guard (lock unlock : citem) (pre last : list citem) : Prop := {
  lock_plain : match lock with Wait k => k ∈ keys pre | Act _ => True | _ => False end;
  unlock_plain : match unlock with Signal k => k ∈ keys pre | Act _ => True | _ => False end;
  guard_last : exists rm, last = rm ++ [Act PrintCounter] /\
    Forall (fun x : citem => match x with Remove _ => True | _ => False end) rm;
  guard_keys : NoDup (keys pre);
  guard_pre : Forall (fun x : citem => match x with New _ v => 0 <= v < 2 ^ 64 | _ => False end) pre;
}.
(** A weight that tells who holds the lock. *)
Class Held (lock unlock : citem) (pre : list citem) (h : citem -> Z) : Prop := {
  h_lock : h lock = 1;
  h_unlock : h unlock = -1;
  h_act a : match a with CompareExchange | StoreBolt => False | _ => True end -> h (Act a) = 0;
  h_plain x : match x with Fork _ _ | Join _ | Remove _ => True | _ => False end -> h x = 0;
  h_pre p : suffix p pre -> weight h p <= 0;
}.

Section shapes.
Context (lock unlock : citem) (pre last : list citem) {G : Guard lock unlock pre last}.
Abbreviation cworld := (world access Private Shared).

(** A child [q] operations into the round before round [j]; from the load on, the
    private value follows the counter. *)
Definition child_at (c : list citem) (l : Private) (m : Shared) (j q : nat) : Prop :=
  (j <= 100)%nat /\ (q <= 8)%nat /\
  c = drop q (guarded lock unlock) ++ [For j (Some 100%nat) (fun _ => guarded lock unlock)] /\
  (q = 3 \/ q = 4 -> val l = COUNTER m)%nat /\
  (q = 5 \/ q = 6 -> val l = isize_add (COUNTER m) 1)%nat.
Definition child_ok (c : list citem) (l : Private) (m : Shared) : Prop :=
  c = [] \/ exists j q, child_at c l m j q.

(** The successor of a place in a round. *)
Lemma child_next x c l m l' m' j q :
  child_at (x :: c) l m j q -> (q < 8)%nat ->
  (q = 2 -> val l' = COUNTER m')%nat -> (q = 3 -> val l' = COUNTER m')%nat ->
  (q = 4 -> val l' = isize_add (COUNTER m') 1)%nat -> (q = 5 -> val l' = isize_add (COUNTER m') 1)%nat ->
  child_at c l' m' j (S q).
Proof.
  intros (Hj & Hq & E & _) H8 H2 H3 H4 H5. split; [done|]. split; [lia|].
  split; [|split; intros [|]; lia || auto].
  destruct (lookup_lt_is_Some_2 (guarded lock unlock) q) as [y Ey]; [cbn; lia|].
  rewrite (drop_S _ y q Ey) in E. cbn in E. injection E as -> ->. done.
Qed.

Lemma child_head c l m j q :
  child_at c l m j q ->
  if decide (q = 8%nat) then c = [For j (Some 100%nat) (fun _ => guarded lock unlock)]
  else exists x d, c = x :: d /\ guarded lock unlock !! q = Some x.
Proof.
  intros (Hj & Hq & E & _). case_decide as H; [by subst|].
  destruct (lookup_lt_is_Some_2 (guarded lock unlock) q) as [y Ey]; [cbn; lia|].
  rewrite (drop_S _ y q Ey) in E. exists y. eexists. by split; [exact E|].
Qed.

Lemma guarded_plain q x :
  guarded lock unlock !! q = Some x -> match x with Wait k | Signal k => k ∈ keys pre | Act _ => True | _ => False end.
Proof.
  intros Hy. pose proof lock_plain as H1. pose proof unlock_plain as H2.
  do 8 (destruct q as [|q]; [cbn in Hy; injection Hy as <-; first [done|by destruct lock|by destruct unlock]|]). done.
Qed.

(** Passing an operation that is no access. *)
Lemma child_pass x c l m :
  match x with Act _ | For _ _ _ => False | _ => True end -> child_ok (x :: c) l m -> child_ok c l m.
Proof.
  intros Hx [?|(j & q & H)]; [done|]. right. exists j, (S q).
  pose proof (child_head _ _ _ _ _ H) as Hd0. case_decide as H8; [by injection Hd0 as -> ->|].
  destruct Hd0 as (y & d & [= <- <-] & Hy). pose proof H as (_ & Hq & _).
  apply (child_next x c l m l m j q H ltac:(lia)); intros ->; cbn in Hy; by injection Hy as <-.
Qed.
Lemma child_access a c l m l' m' o :
  child_ok (Act a :: c) l m -> act a l m = Some (l', m', o) -> child_ok c l' m'.
Proof.
  intros [?|(j & q & H)] Ea; [done|]. right. exists j, (S q).
  pose proof (child_head _ _ _ _ _ H) as Hd0. case_decide as H8; [by injection Hd0|].
  destruct Hd0 as (y & d & [= <- <-] & Hy). pose proof H as (_ & Hq & _ & H34 & H56).
  apply (child_next _ c l m l' m' j q H ltac:(lia)); intros ->; cbn in Hy; injection Hy as <-;
    cbn in Ea; injection Ea as <- <- <-; cbn [val]; auto. by rewrite H34 by auto.
Qed.
Lemma child_loop j b body c l m :
  match b with None => True | Some b => (j < b)%nat end ->
  child_ok (For j b body :: c) l m -> child_ok (body j ++ For (S j) b body :: c) l m.
Proof.
  intros Hb [?|(i & q & H)]; [done|]. right.
  pose proof (child_head _ _ _ _ _ H) as Hd0. case_decide as H8.
  - injection Hd0 as -> -> -> ->. exists (S i), 0%nat. destruct H as (Hi & _). split; [lia|]. split; [lia|].
    split; [done|]. split; intros [|]; lia.
  - destruct Hd0 as (y & d & [= <- <-] & Hy). by apply guarded_plain in Hy.
Qed.
Lemma child_leave j b body c l m :
  child_ok (For j (Some b) body :: c) l m -> (b <= j)%nat -> child_ok c l m.
Proof.
  intros [?|(i & q & H)] Hb; [done|]. left.
  pose proof (child_head _ _ _ _ _ H) as Hd0. case_decide as H8; [by injection Hd0 as -> -> -> ->|].
  destruct Hd0 as (y & d & [= <- <-] & Hy). by apply guarded_plain in Hy.
Qed.
Lemma child_only x c l m :
  child_ok (x :: c) l m -> match x with
    | New _ _ | Remove _ | Fork _ _ | Join _ => False
    | Wait k | Signal k => k ∈ keys pre
    | _ => True
    end.
Proof.
  intros [?|(i & q & H)]; [done|].
  pose proof (child_head _ _ _ _ _ H) as Hd0. case_decide as H8; [by injection Hd0 as -> ->|].
  destruct Hd0 as (y & d & [= <- <-] & Hy). apply guarded_plain in Hy. by destruct x.
Qed.


Local Abbreviation prog := (counter lock unlock pre last).
Global Instance counter_fork_join : ForkJoin prog.
Proof.
  constructor; [apply guard_keys|done|apply guard_pre|repeat constructor; by intros ? ? ? ? ? [= <- <- <-]
    |intros; repeat constructor; by intros ? ? ? ? ? [= <- <- <-]|].
  destruct guard_last as (rm & -> & H). apply Forall_app. split; [|by repeat constructor].
  eapply Forall_impl; [done|]. by intros [].
Qed.
Global Instance counter_prints : Prints prog PrintCounter.
Proof.
  constructor; [apply guard_last|]. intros a l m l' m' o Ha.
  assert (a = Println) as -> by (by destruct Ha as [H%list_elem_of_singleton|[i H%list_elem_of_singleton]]; injection H).
  by intros [= <- <- <-].
Qed.
Lemma counter_main_acts fs l a c : main_ok prog fs l (Act a :: c) -> a = Println \/ a = PrintCounter.
Proof.
  intros Hm. destruct (main_acts prog PrintCounter _ _ _ _ Hm) as [[_ [H|[i H]]]|[-> _]]; [left..|by right].
  - by apply list_elem_of_singleton in H as [= ->].
  - by apply list_elem_of_singleton in H as [= ->].
Qed.
Global Instance counter_children : ChildMoves prog (fun _ => child_ok).
Proof.
  constructor.
  - intros j l m _. right. exists 0%nat, 8%nat. split; [lia|]. split; [lia|]. split; [done|]. split; intros [|]; lia.
  - intros _ x c l m Hx. apply child_pass. by destruct x.
  - intros _. apply child_access.
  - intros _. apply child_loop.
  - intros _ i b body c l m Hb H. by eapply child_leave.
  - intros _. apply child_only.
Qed.

Definition cproc : nat -> list bool -> list citem -> Private -> Shared -> Prop := proc_ok prog (fun _ => child_ok).

(** ** Mutual exclusion

    [h] weighs the lock: a process between [lock] and [unlock] weighs -1. *)
Context (h : citem -> Z) {Hh : Held lock unlock pre h}.

Definition inside (q : nat) : bool := (1 <=? q)%nat && (q <=? 7)%nat.

Lemma weigh_lock : weigh h lock = 1.
Proof. pose proof h_lock as H1. pose proof lock_plain as H2. by destruct lock. Qed.
Lemma weigh_unlock : weigh h unlock = -1.
Proof. pose proof h_unlock as H1. pose proof unlock_plain as H2. by destruct unlock. Qed.
Lemma round_weight q : (q <= 8)%nat -> weight h (drop q (guarded lock unlock)) = if inside q then -1 else 0.
Proof.
  intros Hq. assert (Ha : weight h inc_counter = 0) by (unfold weight; cbn; by rewrite !h_act).
  do 9 (destruct q as [|q]; [unfold guarded; cbn [drop app inc_counter]; rewrite ?weight_cons, ?weigh_lock, ?weigh_unlock;
    cbn [weigh]; rewrite ?h_act by done; done|]). lia.
Qed.
Lemma rounds_weight f (body : list citem) j n :
  zsum (weigh f) body = 0 -> weigh f (For j (Some n) (fun _ => body)) = 0.
Proof. intros H. cbn [weigh]. rewrite H. apply zsum_zero. Qed.
Lemma child_weight c l m j q : child_at c l m j q -> weight h c = if inside q then -1 else 0.
Proof.
  intros (_ & Hq & -> & _). rewrite weight_app, round_weight by done.
  rewrite weight_cons, rounds_weight by (apply (round_weight 0); lia). cbn. lia.
Qed.


(** What [main] does itself weighs nothing. *)
Lemma own_weight f : (forall a, a = Println \/ a = PrintCounter -> f (Act a) = 0) -> (forall k, f (Remove k) = 0) ->
  forall x : citem, x ∈ mid prog \/ (exists i : nat, x ∈ say prog i) \/ x ∈ last -> weigh f x = 0.
Proof.
  intros Ha Hr x [H%list_elem_of_singleton|[[i H%list_elem_of_singleton]|H]]; [subst; cbn [weigh]; auto..|].
  destruct guard_last as (rm & E & Hrm). rewrite E in H. rewrite Forall_forall in Hrm.
  apply elem_of_app in H as [H%Hrm|H%list_elem_of_singleton]; [destruct x; try done|subst]; cbn; auto.
Qed.
Lemma do_counter_weight : weight h (do_counter_inc lock unlock) = 0.
Proof. unfold do_counter_inc. by rewrite weight_cons, rounds_weight by (apply (round_weight 0); lia). Qed.
Lemma main_held fs l c : main_ok prog fs l c -> exists p, suffix p pre /\ weight h c = weight h p /\ (p = [] \/ starts_new c).
Proof.
  assert (Hp : forall x : citem, match x with Fork _ _ | Join _ | Remove _ => True | _ => False end -> h x = 0) by apply h_plain.
  assert (Ho := own_weight h ltac:(intros a [->| ->]; by apply h_act) ltac:(intros; by apply h_plain)).
  assert (Hat : forall fs l c, main_at prog fs l c -> weight h c = 0).
  { clear fs l c. intros fs l c Hm. destruct (main_at_weight prog h Hp Ho _ _ _ Hm) as (j & -> & _).
    rewrite (zsum_const _ _ 0); [lia|]. intros i _. apply do_counter_weight. }
  intros [(x & p & Hx & -> & Hl & Hq)|Hm].
  - exists (x :: p). split; [done|]. split; [|right; by destruct (pre_elem prog _ _ Hx) as (? & ? & -> & _)].
    rewrite app_comm_cons, weight_app, (Hat fs l (forking prog)), Z.add_0_r; [done|]. by apply forking_ok.
  - exists []. split; [apply suffix_nil|]. split; [by rewrite (Hat _ _ _ Hm)|by left].
Qed.

Lemma held_nonneg i fs c l m : cproc i fs c l m -> 0 <= - weight h c.
Proof.
  unfold cproc, proc_ok. case_decide.
  - intros Hm. destruct (main_held _ _ _ Hm) as (p & Hp & -> & _). pose proof (h_pre p Hp). lia.
  - intros [->|(j & q & Hc)]; [done|]. rewrite (child_weight _ _ _ _ _ Hc). by destruct (inside q).
Qed.

(** At most one process holds the lock. *)
Definition exclusive (w : cworld) : Prop :=
  zsum (fun t => - weight h (code t)) (threads w) <= 1.
Lemma one_inside w i j t u qi qj ji jj :
  each cproc w -> exclusive w -> threads w !! i = Some t -> threads w !! j = Some u ->
  child_at (code t) (loc t) (mem w) ji qi -> child_at (code u) (loc u) (mem w) jj qj ->
  inside qi = true -> inside qj = true -> i = j.
Proof.
  intros He Hx Et Eu Ht Hu Hi Hj. destruct (decide (i = j)) as [|Hne]; [done|exfalso].
  pose proof (zsum_ge_two (fun t => - weight h (code t)) (threads w) i j t u) as H. cbv beta in H.
  rewrite (child_weight _ _ _ _ _ Ht), (child_weight _ _ _ _ _ Hu), Hi, Hj in H.
  unfold exclusive in Hx. assert (-(-1) + -(-1) <= 1); [|lia]. etrans; [apply H; try done|done].
  intros y [n Ey]%list_elem_of_lookup. by eapply held_nonneg, He.
Qed.

(** A process is inside [inc_counter], between the lock and the unlock. *)
Definition in_section (t : thread access Private) : Prop :=
  exists q j, (1 <= q <= 6)%nat /\
    code t = drop q (guarded lock unlock) ++ [For j (Some 100%nat) (fun _ => guarded lock unlock)].
Lemma section_inside c l m : child_ok c l m ->
  (exists q j, (1 <= q <= 6)%nat /\
    c = drop q (guarded lock unlock) ++ [For j (Some 100%nat) (fun _ => guarded lock unlock)]) ->
  exists j q, child_at c l m j q /\ inside q = true.
Proof.
  intros [->|(j & q & H)] (q' & j' & Hq' & E).
  - apply (f_equal length) in E. rewrite length_app in E. cbn in E. lia.
  - exists j, q. split; [done|]. destruct H as (_ & Hq & E' & _). rewrite E in E'.
    apply (f_equal length) in E'. rewrite !length_app, !length_drop in E'. cbn [length guarded inc_counter app] in E'.
    unfold inside. destruct (Nat.leb_spec 1 q), (Nat.leb_spec q 7); try done; lia.
Qed.
Lemma one_in_section w i j t u :
  each cproc w -> exclusive w -> threads w !! i = Some t -> threads w !! j = Some u ->
  i <> 0%nat -> j <> 0%nat -> in_section t -> in_section u -> i = j.
Proof.
  intros He Hx Et Eu Hi Hj Ht Hu.
  pose proof (He i t Et) as H1. pose proof (He j u Eu) as H2. unfold cproc, proc_ok in H1, H2.
  rewrite decide_False in H1 by done. rewrite decide_False in H2 by done.
  destruct (section_inside _ _ _ H1 Ht) as (? & ? & ? & ?). destruct (section_inside _ _ _ H2 Hu) as (? & ? & ? & ?).
  by eapply (one_inside w i j t u).
Qed.

(** ** The counter *)
Definition stores (a : access) : Z := match a with StoreCounter => 1 | _ => 0 end.
Definition counted (w : cworld) : Prop :=
  0 <= COUNTER (mem w) /\ COUNTER (mem w) + remaining (acts stores) w = 800.

Lemma guarded_store q : guarded lock unlock !! q = Some (Act StoreCounter) -> q = 6%nat.
Proof.
  intros H. pose proof (h_act StoreCounter I) as H0. pose proof h_lock as H1. pose proof h_unlock as H2.
  do 8 (destruct q as [|q]; [cbn in H; first [done|injection H as H; rewrite H in *; lia]|]). done.
Qed.
Lemma child_store c l m :
  child_ok (Act StoreCounter :: c) l m -> exists j, child_at (Act StoreCounter :: c) l m j 6.
Proof.
  intros [?|(j & q & H)]; [done|]. exists j. pose proof (child_head _ _ _ _ _ H) as Hd0.
  case_decide; [by injection Hd0|]. destruct Hd0 as (y & d & [= <- <-] & Hy).
  by apply guarded_store in Hy as ->.
Qed.
Lemma act_keeps_counter a l m l' m' o :
  act a l m = Some (l', m', o) -> a <> StoreCounter -> COUNTER m' = COUNTER m.
Proof.
  destruct a; cbn; intros E Ha; try (injection E as <- <- <-); try done.
  destruct (bolt m); [done|]. by injection E as <- <- <-.
Qed.
Lemma child_frame c l m m' : COUNTER m' = COUNTER m -> child_ok c l m -> child_ok c l m'.
Proof. intros E. unfold child_ok, child_at. by rewrite E. Qed.

Lemma round_stores q : (q <= 8)%nat ->
  weight (acts stores) (drop q (guarded lock unlock)) = if (q <=? 6)%nat then 1 else 0.
Proof.
  intros Hq. assert (weigh (acts stores) lock = 0 /\ weigh (acts stores) unlock = 0) as [E1 E2].
  { pose proof (h_act StoreCounter I) as H0. pose proof h_lock as H1. pose proof h_unlock as H2.
    pose proof lock_plain as H3. pose proof unlock_plain as H4.
    split; [destruct lock as [| | | |[]| | |]|destruct unlock as [| | | |[]| | |]]; try done; lia. }
  do 9 (destruct q as [|q]; [unfold guarded; cbn [drop app inc_counter]; rewrite ?weight_cons, ?E1, ?E2; done|]). lia.
Qed.
Lemma rounds_stores j : (j <= 100)%nat ->
  weigh (acts stores) (For j (Some 100%nat) (fun _ => guarded lock unlock)) = 100 - Z.of_nat j.
Proof.
  intros Hj. cbn [weigh]. rewrite (zsum_const _ _ 1), length_seq; [lia|]. intros _ _.
  apply (round_stores 0). lia.
Qed.

Lemma do_counter_stores : weight (acts stores) (do_counter_inc lock unlock) = 100.
Proof. unfold do_counter_inc. by rewrite weight_cons, rounds_stores, weight_nil by lia. Qed.
Lemma pre_stores p : suffix p pre -> weight (acts stores) p = 0.
Proof.
  intros [k E]. apply zero_weight. intros x Hx. pose proof guard_pre as Hg. rewrite E, Forall_app in Hg.
  destruct Hg as [_ Hg]. rewrite Forall_forall in Hg. specialize (Hg x Hx). by destruct x.
Qed.
Lemma stores_nonneg i fs c l m : cproc i fs c l m -> 0 <= weight (acts stores) c.
Proof.
  unfold cproc, proc_ok. case_decide.
  - assert (Hat : forall fs l c, main_at prog fs l c -> 0 <= weight (acts stores) c).
    { clear -G Hh. intros fs l c Hm. destruct (main_at_weight prog (acts stores)) with (fs := fs) (l := l) (c := c) as (j & -> & _); [..|done|].
      - by intros [].
      - apply own_weight; [|done]. by intros a [->| ->].
      - apply zsum_nonneg. intros i _. change (child prog i) with (do_counter_inc lock unlock). by rewrite do_counter_stores. }
    intros [(x & p & Hx & -> & Hl & Hq)|Hm]; [|by eapply Hat].
    rewrite app_comm_cons, weight_app, pre_stores by done. rewrite Z.add_0_l. apply (Hat fs l). by apply forking_ok.
  - intros [->|(j & q & Hj & Hq & -> & _)]; [done|].
    rewrite weight_app, round_stores, weight_cons, rounds_stores, weight_nil by done.
    destruct (q <=? 6)%nat; lia.
Qed.

Lemma counter_step i w t x c w' :
  each cproc w -> exclusive w -> counted w -> threads w !! i = Some t -> code t = x :: c ->
  effect i w t x c w' -> each cproc w' /\ counted w'.
Proof.
  intros He Hx [H0 Hsum] Et Hc Hef.
  assert (He' : each cproc w').
  { eapply (effect_each cproc); [exact (proc_moves prog (fun _ => child_ok))|done..| |done]. intros a l m o j u -> Ea Hj Eu.
    unfold cproc, proc_ok. case_decide as Hj0; [done|].
    destruct (decide (a = StoreCounter)) as [->|Ha]; [|by apply child_frame; eapply act_keeps_counter].
    intros [Hu|(jj & qq & Hu)]; [by left|right; exists jj, qq].
    pose proof (He i t Et) as Ht. rewrite Hc in Ht. unfold cproc, proc_ok in Ht. case_decide; [by apply counter_main_acts in Ht as [?|?]|].
    apply child_store in Ht as [ji Ht]. rewrite <- Hc in Ht.
    assert (inside qq = false) as Hin.
    { destruct (inside qq) eqn:Hin; [|done]. by destruct Hj; eapply one_inside. }
    destruct Hu as (? & ? & ? & _). repeat (split; [done|]).
    unfold inside in Hin. destruct (Nat.leb_spec 1 qq), (Nat.leb_spec qq 7); try done; split; intros [|]; lia. }
  split; [done|].
  assert (Hn : 0 <= remaining (acts stores) w').
  { apply zsum_nonneg. intros u [n Eu]%list_elem_of_lookup. by eapply stores_nonneg, He'. }
  destruct (effect_acts i w t x c w' stores Et Hc Hef) as [(a & l & m & o & -> & Ea & Em & _ & Er)|(Em & _ & Er & _)].
  - unfold counted. rewrite Em, Er. destruct (decide (a = StoreCounter)) as [->|Ha].
    + pose proof (He i t Et) as Ht. rewrite Hc in Ht. unfold cproc, proc_ok in Ht. case_decide; [by apply counter_main_acts in Ht as [?|?]|].
      apply child_store in Ht as [ji (_ & _ & _ & _ & Hv)]. cbn in Ea. injection Ea as <- <- <-.
      cbn [COUNTER stores] in *. rewrite Hv by auto. unfold isize_add. rewrite as_isize_usize by lia. lia.
    + rewrite (act_keeps_counter _ _ _ _ _ _ Ea Ha). assert (stores a = 0) as -> by (by destruct a). lia.
  - unfold counted. rewrite Em, Er. done.
Qed.

(** What comes next for a process that is not the first. *)
Lemma child_next_op i fs x c l m :
  i <> 0%nat -> cproc i fs (x :: c) l m ->
  x = lock \/ x = unlock \/ (exists j, x = For j (Some 100%nat) (fun _ => guarded lock unlock)) \/
  exists a, x = Act a /\ (a = Delay \/ a = LoadCounter \/ a = AddOne \/ a = StoreCounter).
Proof.
  intros Hi. unfold cproc, proc_ok. rewrite decide_False by done. intros [?|(j & q & H)]; [done|].
  pose proof (child_head _ _ _ _ _ H) as Hd0. case_decide; [injection Hd0 as -> ->; eauto|].
  destruct Hd0 as (y & d & [= <- <-] & Hy). destruct H as (_ & Hq & _).
  do 8 (destruct q as [|q]; [cbn in Hy; injection Hy as <-; eauto 12|]). lia.
Qed.
(** Who holds the lock is past it. *)
Lemma holder_past i fs c l m :
  i <> 0%nat -> cproc i fs c l m -> 0 < - weight h c ->
  exists x d, c = x :: d /\ (x = unlock \/
    exists a, x = Act a /\ (a = Delay \/ a = LoadCounter \/ a = AddOne \/ a = StoreCounter)).
Proof.
  intros Hi. unfold cproc, proc_ok. rewrite decide_False by done. intros [->|(j & q & H)] Hw; [done|].
  rewrite (child_weight _ _ _ _ _ H) in Hw. destruct (inside q) eqn:Hin; [|done].
  pose proof (child_head _ _ _ _ _ H) as Hd0. case_decide; [by subst|].
  destruct Hd0 as (x & d & -> & Hy). exists x, d. split; [done|]. destruct H as (_ & Hq & _).
  do 8 (destruct q as [|q]; [cbn in Hin, Hy; injection Hy as <-; try done; eauto 12|]). lia.
Qed.

(** ** The whole program *)
Definition counter_inv (bal : Z -> Z) (w : cworld) : Prop :=
  wf w /\ each cproc w /\ lives prog bal w /\ counted w /\ printed [800] w.

(** Once the children have finished, the counter is complete. *)
Lemma counter_total w t0 : each cproc w -> counted w -> threads w !! 0%nat = Some t0 ->
  suffix (code t0) last -> COUNTER (mem w) = 800.
Proof.
  intros He [_ Hc] Et Hs. destruct (main_done prog _ w t0 He Et Hs) as [_ Hd].
  assert (remaining (acts stores) w = 0) as H; [|lia].
  unfold remaining. rewrite (zsum_const _ _ 0); [lia|]. intros t [i Ei]%list_elem_of_lookup.
  destruct (decide (i = 0%nat)) as [->|Hi]; [|by rewrite (Hd i t Hi Ei)].
  rewrite Et in Ei. injection Ei as <-. eapply suffix_weight; [|done].
  intros x Hx. apply own_weight; [by intros a [->| ->]|done|auto].
Qed.

Lemma child_silent i fs a c l (m : Shared) l' m' o :
  i <> 0%nat -> cproc i fs (Act a :: c) l m -> act a l m = Some (l', m', o) -> o = [].
Proof.
  intros Hi Hok. destruct a; cbn; try (by intros [= <- <- <-]).
  - destruct (bolt m); [done|]. by intros [= <- <- <-].
  - exfalso. pose proof (h_act PrintCounter I) as H0. pose proof h_lock as H1. pose proof h_unlock as H2.
    destruct (child_next_op _ _ _ _ _ _ Hi Hok) as [E|[E|[[? E]|(b & [= <-] & Hb)]]]; [rewrite <- E in *; lia..|done|].
    by destruct Hb as [|[|[|]]].
Qed.
Lemma counter_inv_step bal w w' : counter_inv bal w -> exclusive w -> room prog bal w -> step w w' ->
  counter_inv bal w' /\ exists i t x c, threads w !! i = Some t /\ blocked t = false /\ code t = x :: c /\ effect i w t x c w'.
Proof.
  intros (Hwf & He & Hl & Hcnt & Hpr) Hx Hr Hs.
  destruct (life_step prog _ bal w w' Hwf He Hl Hr Hs) as (i & t & x & c & Et & Hb & Hc & Hef & Hwf' & Hl').
  destruct (counter_step i w t x c w' He Hx Hcnt Et Hc Hef) as [He' Hcnt'].
  split; [|by exists i, t, x, c]. split; [done|]. split; [done|]. split; [by apply Hl'|]. split; [done|].
  apply (printed_step prog _ PrintCounter [800] i w t x c w' He Hpr Et Hb Hc); [| |done].
  - intros a l m o Hi -> Ea. pose proof (He i t Et) as Hok. rewrite Hc in Hok. by eapply child_silent.
  - intros l m o -> Hsuf [= <- <- <-]. f_equal. by eapply counter_total.
Qed.

(** [stuck_why] for a child: it is held up by the lock, or it can move. *)
Lemma counter_stuck_child w i t : wf w -> each cproc w -> stuck w ->
  threads w !! i = Some t -> i <> 0%nat -> code t <> [] ->
  exists k c, code t = Wait k :: c /\ lock = Wait k /\ cnt k (sems w) = 0.
Proof.
  intros Hwf He Hst Et Hi Hne. pose proof (He i t Et) as Hok.
  destruct (stuck_why i w t Hwf Hst Et Hne) as [(k & c & Hc & _ & H0 & _)|(p & c & Hc & _)]; rewrite Hc in Hok.
  - exists k, c. split; [done|]. split; [|done]. pose proof unlock_plain as Hu.
    destruct (child_next_op _ _ _ _ _ _ Hi Hok) as [E|[E|[[? E]|(? & E & _)]]]; try done. by rewrite <- E in Hu.
  - destruct (child_next_op _ _ _ _ _ _ Hi Hok) as [E|[E|[[? E]|(? & E & _)]]]; try done.
    + pose proof lock_plain as Hu. by rewrite <- E in Hu.
    + pose proof unlock_plain as Hu. by rewrite <- E in Hu.
Qed.
(** The end. *)
Lemma counter_ended bal w : counter_inv bal w -> Forall (fun t => code t = []) (threads w) ->
  length (threads w) = 9%nat /\ COUNTER (mem w) = 800 /\ out w = [800].
Proof.
  intros (_ & He & _ & Hcnt & t0 & Et0 & Ho) Hd. rewrite Forall_forall in Hd.
  pose proof (Hd t0 (list_elem_of_lookup_2 _ _ _ Et0)) as Hc0.
  assert (suffix (code t0) last) as Hs by (rewrite Hc0; apply suffix_nil).
  split; [apply (main_done prog _ w t0 He Et0 Hs)|]. split; [by eapply counter_total|].
  rewrite Ho. unfold finished. by rewrite Hc0.
Qed.
End shapes.

(** ** [app/sem] *)
Global Instance sem_guard : Guard (LibSem.wait SEM) (LibSem.signal SEM) sem_pre sem_last.
Proof.
  constructor; try (by apply list_elem_of_here).
  - exists [Remove SEM]. split; [done|]. by repeat constructor.
  - apply NoDup_singleton.
  - by repeat constructor.
Qed.
Global Instance sem_held : Held (LibSem.wait SEM) (LibSem.signal SEM) sem_pre (net SEM).
Proof.
  constructor; try done.
  - by intros x; destruct x.
  - intros p Hp. apply suffix_cases in Hp as [->|Hp%suffix_nil_inv]; [done|by subst].
Qed.
Abbreviation sem_ok := (cproc (LibSem.wait SEM) (LibSem.signal SEM) sem_pre sem_last).
Definition sem_inv (w : world access Private Shared) : Prop :=
  counter_inv (LibSem.wait SEM) (LibSem.signal SEM) sem_pre sem_last (fun _ => 1) w.

Lemma sem_exclusive w : sem_inv w -> exclusive (net SEM) w.
Proof.
  intros (Hwf & He & (t0 & Et & _ & Hl) & _). unfold exclusive. pose proof (cnt_nonneg w SEM Hwf).
  assert (Hb : balance SEM w = 1 -> zsum (fun t => - weight (net SEM) (code t)) (threads w) <= 1).
  { rewrite held_sum. unfold balance. lia. }
  destruct Hl as [? ? ? ? ? ? ? ? Hbal|? ? Hbal|Hs _]; [apply Hb, Hbal, list_elem_of_here..|].
  destruct (main_done sem_app _ w t0 He Et Hs) as [_ Hd]. rewrite (zsum_const _ _ 0); [lia|].
  intros t [i Ei]%list_elem_of_lookup. destruct (decide (i = 0%nat)) as [->|Hi]; [|by rewrite (Hd i t Hi Ei)].
  rewrite Et in Ei. injection Ei as <-. rewrite (suffix_weight (net SEM) _ sem_last); [done| |done].
  intros x Hx. apply list_elem_of_lookup in Hx as [[|[|]] [= <-]]; done.
Qed.
Lemma sem_room w : sem_inv w -> room sem_app (fun _ => 1) w.
Proof.
  intros (Hwf & He & _) Hbal k ->%list_elem_of_singleton. specialize (Hbal SEM (list_elem_of_here _ _)). unfold balance in Hbal. cbn in Hbal.
  assert (0 <= - remaining (net SEM) w); [|lia]. rewrite <- held_sum. apply zsum_nonneg.
  intros u [n Eu]%list_elem_of_lookup. exact (held_nonneg _ _ _ _ (net SEM) _ _ _ _ _ (He _ _ Eu)).
Qed.

(** No operation of the program fails to use up some of the bound. *)
Lemma sem_step w w' : sem_inv w -> step w w' -> sem_inv w' /\ measure w' < measure w.
Proof.
  intros Hinv Hs. destruct (counter_inv_step _ _ _ _ (net SEM) _ w w' Hinv (sem_exclusive w Hinv) (sem_room w Hinv) Hs)
    as [Hinv' (i & t & x & c & Et & Hb & Hc & Hef)]. split; [done|].
  eapply effect_measure; [done..|]. destruct Hinv as (_ & He & _). destruct (decide (i = 0%nat)) as [->|Hi].
  - pose proof (each_main sem_app _ w t He Et) as Hm. rewrite Hc in Hm.
    pose proof (main_no_wait sem_app _ _ _ _ Hm) as Hx. destruct x as [| | | |a|j [] body| |]; try done.
    by destruct (counter_main_acts _ _ _ _ _ _ _ _ Hm) as [->| ->].
  - pose proof (He i t Et) as Hok. rewrite Hc in Hok.
    destruct (child_next_op _ _ _ _ _ _ _ _ _ _ Hi Hok) as [->|[->|[[? ->]|(? & -> & Ha)]]]; try done.
    by destruct Ha as [->|[->|[->| ->]]].
Qed.

(** A world of [app/sem] that cannot move is one in which every process is done. *)
Lemma sem_stuck w : sem_inv w -> stuck w -> Forall (fun t => code t = []) (threads w).
Proof.
  intros Hinv Hst. pose proof Hinv as (Hwf & He & Hl & _).
  assert (Hchild : forall i t, i <> 0%nat -> threads w !! i = Some t -> code t = []).
  { intros i t Hi Et. destruct (decide (code t = [])) as [|Hne]; [done|exfalso].
    destruct (child_running sem_app _ _ w i t He Hl Et Hi Hne) as (t0 & Et0 & _ & Hn & _ & Hbal).
    destruct (counter_stuck_child _ _ _ _ w i t Hwf He Hst Et Hi Hne) as (k & c & _ & [= <-] & H0).
    assert (0 < zsum (fun t => - weight (net SEM) (code t)) (threads w)) as Hpos.
    { rewrite held_sum. specialize (Hbal SEM (list_elem_of_here _ _)). unfold balance in Hbal. cbn in Hbal. lia. }
    apply zsum_pos in Hpos as (j & u & Eu & Hu). destruct (decide (j = 0%nat)) as [->|Hj].
    { rewrite Et0 in Eu. injection Eu as <-.
      destruct (main_held _ _ _ _ (net SEM) _ _ _ (each_main sem_app _ w t0 He Et0)) as (p & _ & E & [->|?]); [|done].
      rewrite E in Hu. done. }
    destruct (holder_past _ _ _ _ (net SEM) _ _ _ _ _ Hj (He j u Eu) Hu) as (x & d & Ex & Hx).
    destruct (counter_stuck_child _ _ _ _ w j u Hwf He Hst Eu Hj) as (k' & c' & Ec & _); [by rewrite Ex|].
    rewrite Ec in Ex. injection Ex as <- <-. by destruct Hx as [|(? & ? & _)]. }
  destruct Hl as (t0 & Et0 & _). apply Forall_forall. intros t [i Ei]%list_elem_of_lookup.
  destruct (decide (i = 0%nat)) as [->|Hi]; [|by eapply Hchild].
  by apply (stuck_main sem_app _ w t Hwf He Hst Ei).
Qed.

Lemma start_ok lock unlock pre last `{Guard lock unlock pre last} :
  each (cproc lock unlock pre last) (start (counter lock unlock pre last)).
Proof.
  intros [|j] u E; [|done]. injection E as <-. unfold cproc, proc_ok. rewrite decide_True by done. cbn [code loc].
  unfold main_code. destruct (ForkJoin.pre _) as [|x p] eqn:Ep.
  - right. by apply forking_ok.
  - left. exists x, p. rewrite Ep. done.
Qed.
Lemma sem_start_inv : sem_inv (start sem_app).
Proof.
  split; [|split; [|split; [|split]]].
  - split; [done|]. intros [|i] t E Hb; [by injection E as <-|done].
  - apply start_ok, _.
  - eexists. split; [done|]. split; [done|].
    eapply (creating _ _ _ _ SEM 1 [] []); [done|done|done| |].
    + intros k. split; [by intros [? ?]|by intros ?%not_elem_of_nil].
    + by intros k ->%list_elem_of_singleton.
  - split; [done|]. by vm_compute.
  - eexists. split; [done|]. done.
Qed.

(** C13: [app/sem] counts to 800 under every schedule.  From any reachable state, runs
    are finite (the bound is explicit); at most one process is inside the critical
    section; and when nothing can move any more, all nine processes have ended,
    [COUNTER] is 800 and that is what [main] printed.  So the program cannot
    deadlock and loses no update. *)
Theorem sem_counter_total w : rtc step (start sem_app) w ->
  (forall n w', nsteps step n w w' -> Z.of_nat n <= measure w) /\
  (forall i j t u, threads w !! i = Some t -> threads w !! j = Some u -> i <> 0%nat -> j <> 0%nat ->
     in_section (LibSem.wait SEM) (LibSem.signal SEM) t ->
     in_section (LibSem.wait SEM) (LibSem.signal SEM) u -> i = j) /\
  (stuck w -> Forall (fun t => code t = []) (threads w) /\
     length (threads w) = 9%nat /\ COUNTER (mem w) = 800 /\ out w = [800]).
Proof.
  intros Hr. assert (Hinv : sem_inv w).
  { eapply rtc_inv; [apply sem_start_inv| |done]. intros w1 w2 H1 H2. by destruct (sem_step w1 w2 H1 H2). }
  split; [|split].
  - intros n w' Hn. eapply run_bounded; [|done|done]. apply sem_step.
  - intros i j t u Et Eu Hi Hj Ht Hu. pose proof Hinv as (_ & He & _).
    exact (one_in_section _ _ _ _ (net SEM) w i j t u He (sem_exclusive w Hinv) Et Eu Hi Hj Ht Hu).
  - intros Hst. pose proof (sem_stuck w Hinv Hst) as Hd. split; [done|].
    exact (counter_ended _ _ _ _ _ w Hinv Hd).
Qed.

(** A schedule: [main] forks, the children run one after the other, [main] ends. *)
Definition in_turn (n : nat) : list nat :=
  repeat 0%nat 30 ++ concat (map (fun i => repeat i n) (seq 1 8)) ++ repeat 0%nat 30.

Lemma sem_counter_total_witness :
  let w := run (in_turn 1000) (start sem_app) in
  length (threads w) = 9%nat /\ COUNTER (mem w) = 800 /\ out w = [800].
Proof.
  intros w. destruct (sem_counter_total w) as (_ & _ & H); [apply run_steps|].
  destruct H as (_ & H); [|exact H]. apply stuckb_stuck. vm_compute; reflexivity.
Defined.

(** ** [app/spin] *)
Definition bolts (a : access) : Z := match a with CompareExchange => 1 | StoreBolt => -1 | _ => 0 end.
Global Instance spin_guard : Guard (Act CompareExchange) (Act StoreBolt) [] spin_last.
Proof. constructor; try done; [by exists []|by constructor]. Qed.
Global Instance spin_held : Held (Act CompareExchange) (Act StoreBolt) [] (acts bolts).
Proof.
  constructor; try done.
  - by intros [].
  - by intros [].
  - by intros p ->%suffix_nil_inv.
Qed.
Abbreviation spin_ok := (cproc (Act CompareExchange) (Act StoreBolt) [] spin_last).
Definition spin_inv (w : world access Private Shared) : Prop :=
  counter_inv (Act CompareExchange) (Act StoreBolt) [] spin_last (fun _ => 0) w /\
  Z.b2z (bolt (mem w)) + remaining (acts bolts) w = 0.

(** No process uses a semaphore. *)
Lemma spin_next w i t x c : each spin_ok w -> threads w !! i = Some t -> code t = x :: c ->
  match x with Wait _ | Signal _ | For _ None _ => False | _ => True end.
Proof.
  intros He Et Hc. destruct (decide (i = 0%nat)) as [->|Hi].
  - pose proof (each_main spin_app _ w t He Et) as Hm. rewrite Hc in Hm. exact (main_no_wait spin_app _ _ _ _ Hm).
  - pose proof (He i t Et) as Hok. rewrite Hc in Hok.
    by destruct (child_next_op _ _ _ _ _ _ _ _ _ _ Hi Hok) as [->|[->|[[? ->]|(? & -> & _)]]].
Qed.
Lemma spin_awake w i t : spin_inv w -> threads w !! i = Some t -> blocked t = false.
Proof.
  intros [((_ & Hp) & He & _) _] Et. destruct (blocked t) eqn:Hb; [|done].
  destruct (Hp i t Et Hb) as (k & c & Hc & _). by pose proof (spin_next w i t _ _ He Et Hc).
Qed.
Lemma spin_exclusive w : spin_inv w -> exclusive (acts bolts) w.
Proof. intros [_ Hb]. unfold exclusive. rewrite held_sum. destruct (bolt (mem w)); cbn in Hb; lia. Qed.

Lemma held_sum_nonneg w : each spin_ok w -> remaining (acts bolts) w <= 0.
Proof.
  intros He. assert (0 <= - remaining (acts bolts) w); [|lia]. rewrite <- held_sum. apply zsum_nonneg.
  intros u [n Eu]%list_elem_of_lookup. exact (held_nonneg _ _ _ _ (acts bolts) _ _ _ _ _ (He _ _ Eu)).
Qed.

Lemma spin_lock_step i w t x c w' :
  each spin_ok w' -> Z.b2z (bolt (mem w)) + remaining (acts bolts) w = 0 ->
  threads w !! i = Some t -> code t = x :: c -> effect i w t x c w' ->
  Z.b2z (bolt (mem w')) + remaining (acts bolts) w' = 0.
Proof.
  intros He' Hb Et Hc Hef. pose proof (held_sum_nonneg w' He') as Hn.
  destruct (effect_acts i w t x c w' bolts Et Hc Hef) as [(a & l & m & o & _ & Ea & -> & _ & Er)|(-> & _ & -> & _)]; [|done].
  rewrite Er in *. destruct a; cbn in Ea; try (injection Ea as <- <- <-); cbn [bolts bolt] in *; try lia.
  - destruct (bolt (mem w)); [done|]. injection Ea as <- <- <-. cbn in *. lia.
  - destruct (bolt (mem w)); cbn in *; lia.
Qed.

Lemma spin_step w w' : spin_inv w -> step w w' ->
  spin_inv w' /\ exists i t x c, threads w !! i = Some t /\ blocked t = false /\ code t = x :: c /\ effect i w t x c w'.
Proof.
  intros [Hinv Hb] Hs.
  destruct (counter_inv_step _ _ _ _ (acts bolts) _ w w' Hinv (spin_exclusive w (conj Hinv Hb))
    ltac:(by intros ? ? ?%not_elem_of_nil) Hs) as [Hinv' (i & t & x & c & Et & Hbl & Hc & Hef)].
  split; [split; [done|]|by exists i, t, x, c]. pose proof Hinv' as (_ & He' & _). by eapply spin_lock_step.
Qed.

(** An enabled step that is no failed exchange brings the end nearer. *)
Lemma spin_enabled w i t x c :
  spin_inv w -> threads w !! i = Some t -> code t = x :: c -> step1 i w <> None ->
  match x with Act a => act a (loc t) (mem w) <> None | _ => True end ->
  exists w', step w w' /\ measure w' < measure w.
Proof.
  intros Hinv Et Hc Hs Ha. destruct (step1 i w) as [w'|] eqn:Es; [|done]. exists w'. split; [by exists i|].
  pose proof Hinv as [(Hwf & He & Hl & _) _].
  destruct (step_effect i w w' Hwf Es) as (t1 & x1 & c1 & Et1 & Hb & Hc1 & _ & Hef).
  { intros t1 x1 c1. apply (life_tidy spin_app _ (fun _ => 0) w i t1 x1 c1 Hwf He Hl). by intros ? ? ?%not_elem_of_nil. }
  rewrite Et in Et1. injection Et1 as <-. rewrite Hc in Hc1. injection Hc1 as <- <-.
  eapply effect_measure; [done..|]. pose proof (spin_next w i t x c He Et Hc). destruct x as [| | | | |? [] ?| |]; done.
Qed.
Lemma spin_progress w i t :
  spin_inv w -> threads w !! i = Some t -> code t <> [] ->
  exists w', step w w' /\ measure w' < measure w.
Proof.
  intros Hinv Et Hne. pose proof Hinv as [(Hwf & He & _) Hb].
  assert (Hrun : forall j u x d, threads w !! j = Some u -> code u = x :: d ->
    match x with Join _ => False | Act a => act a (loc u) (mem w) <> None | _ => True end ->
    exists w', step w w' /\ measure w' < measure w).
  { intros j u x d Eu Hd Hx. eapply spin_enabled; [done..| |by destruct x].
    eapply step1_enabled; [done|by eapply spin_awake|done|by destruct x]. }
  assert (Hchild : forall j u, j <> 0%nat -> threads w !! j = Some u -> code u <> [] ->
    exists w', step w w' /\ measure w' < measure w).
  { intros j u Hj Eu Hu. destruct (bolt (mem w)) eqn:Hbolt.
    - assert (0 < zsum (fun t => - weight (acts bolts) (code t)) (threads w)) as Hpos
        by (rewrite held_sum; cbn in Hb; lia).
      apply zsum_pos in Hpos as (n & v & Ev & Hv). destruct (decide (n = 0%nat)) as [->|Hn].
      { exfalso. destruct (main_held _ _ _ _ (acts bolts) _ _ _ (each_main spin_app _ w v He Ev)) as (p & Hp & E & _).
        apply suffix_nil_inv in Hp as ->. rewrite E in Hv. done. }
      destruct (holder_past _ _ _ _ (acts bolts) _ _ _ _ _ Hn (He n v Ev) Hv) as (x & d & Ex & Hx).
      apply (Hrun n v x d Ev Ex). destruct Hx as [->|(a & -> & [->|[->|[->| ->]]])]; done.
    - destruct (code u) as [|x d] eqn:Ed; [done|]. apply (Hrun j u x d Eu Ed).
      pose proof (He j u Eu) as Hok. rewrite Ed in Hok.
      destruct (child_next_op _ _ _ _ _ _ _ _ _ _ Hj Hok) as [->|[->|[[? ->]|(a & -> & [->|[->|[->| ->]]])]]]; try done.
      cbn. by rewrite Hbolt. }
  destruct (decide (i = 0%nat)) as [->|Hi]; [|by eapply Hchild].
  destruct (code t) as [|x c] eqn:Hc; [done|]. pose proof (each_main spin_app _ w t He Et) as Hm. rewrite Hc in Hm.
  destruct x as [| | | |a| | |p]; try (by apply (Hrun 0%nat t _ c Et Hc)).
  - apply (Hrun 0%nat t _ c Et Hc). by destruct (counter_main_acts _ _ _ _ _ _ _ _ Hm) as [->| ->].
  - destruct (main_join spin_app _ _ _ _ Hm) as (_ & n & Hp & Hn). unfold fins in Hn. rewrite length_fmap in Hn.
    destruct (lookup_lt_is_Some_2 (threads w) (S n) Hn) as [u Eu].
    destruct (decide (code u = [])) as [Hu|Hu]; [|by apply (Hchild (S n) u)].
    apply (spin_enabled w 0%nat t (Join p) c Hinv Et Hc); [|done].
    apply (step1_join 0%nat w t p c u Et (spin_awake w _ t Hinv Et) Hc); [by rewrite Hp|done].
Qed.

Lemma spin_start_inv : spin_inv (start spin_app).
Proof.
  split; [split; [|split; [|split; [|split]]]|].
  - split; [done|]. intros [|i] t E Hb; [by injection E as <-|done].
  - apply start_ok, _.
  - eexists. split; [done|]. split; [done|]. apply running; [by intros []|by intros ? ?%not_elem_of_nil..].
  - split; [done|]. by vm_compute.
  - eexists. split; [done|]. done.
  - by vm_compute.
Qed.

(** From every state the program can still end. *)
Lemma spin_can_end (n : nat) : forall w, spin_inv w -> measure w < Z.of_nat n ->
  exists w', rtc step w w' /\ spin_inv w' /\ Forall (fun t => code t = []) (threads w').
Proof.
  induction n as [|n IH]; intros w Hinv Hn; [pose proof (measure_nonneg w); lia|].
  destruct (decide (Forall (fun t => code t = []) (threads w))) as [Hd|Hd]; [by exists w|].
  apply not_Forall_Exists in Hd; [|apply _]. apply Exists_exists in Hd as (t & [i Et]%list_elem_of_lookup & Ht).
  destruct (spin_progress w i t Hinv Et Ht) as (w1 & Hs & Hm).
  destruct (IH w1 (proj1 (spin_step w w1 Hinv Hs)) ltac:(lia)) as (w' & Hr & Hw'). exists w'. split; [by eapply rtc_l|done].
Qed.

(** C24: [app/spin] under every schedule.  In every reachable state at most one
    process is inside the critical section; when all processes have ended there are
    nine of them, [COUNTER] is 800 and that is what was printed; and from every
    reachable state the program can still run to its end, so that a process that
    spins only has to be scheduled often enough. *)
Theorem spin_counter w : rtc step (start spin_app) w ->
  (forall i j t u, threads w !! i = Some t -> threads w !! j = Some u -> i <> 0%nat -> j <> 0%nat ->
     in_section (Act CompareExchange) (Act StoreBolt) t ->
     in_section (Act CompareExchange) (Act StoreBolt) u -> i = j) /\
  (Forall (fun t => code t = []) (threads w) ->
     length (threads w) = 9%nat /\ COUNTER (mem w) = 800 /\ out w = [800]) /\
  (exists w', rtc step w w' /\ Forall (fun t => code t = []) (threads w')).
Proof.
  intros Hr. assert (Hinv : spin_inv w).
  { eapply rtc_inv; [apply spin_start_inv| |done]. intros w1 w2 H1 H2. by destruct (spin_step w1 w2 H1 H2). }
  pose proof Hinv as [Hc _]. pose proof Hc as (_ & He & _). split; [|split].
  - intros i j t u Et Eu Hi Hj Ht Hu.
    exact (one_in_section _ _ _ _ (acts bolts) w i j t u He (spin_exclusive w Hinv) Et Eu Hi Hj Ht Hu).
  - intros Hd. exact (counter_ended _ _ _ _ _ w Hc Hd).
  - destruct (spin_can_end (Z.to_nat (measure w + 1)) w Hinv) as (w' & H1 & _ & H2); [pose proof (measure_nonneg w); lia|].
    by exists w'.
Qed.

Lemma spin_counter_witness :
  let w := run (in_turn 1000) (start spin_app) in
  length (threads w) = 9%nat /\ COUNTER (mem w) = 800 /\ out w = [800].
Proof.
  intros w. destruct (spin_counter w) as (_ & H & _); [apply run_steps|]. apply H.
  apply (bool_decide_unpack _). vm_compute; exact I.
Defined.
