(* ===== verification/MessageQueue.v ===== *)
(** * The message queue [app/mq]

    Models [pkg/app/mq/src/main.rs]: eight writers and eight readers share a ring of
    eleven slots, with [EMPTY] and [FULL] counting the free slots and the messages and
    [WRITE_MUTEX] around each access to the ring.  Every load and store of [MQ] is a
    step of its own. *)

From stdpp Require Import base numbers list gmap relations.
From S2P Require Import Prelude Bytes Str Sync Threads ForkJoin Counter.

Definition MQ_THREADS : nat := 16.
Definition MAX_MESSAGE_COUNT : nat := 10.
Definition MQ_SIZE : Z := Z.of_nat MAX_MESSAGE_COUNT + 1.

(** [struct MessageQueue], and the registers and [pids] of a process. *)
Record MQ : Type := mkMQ { queue : list Z; head : Z; tail : Z }.
Record Frame : Type := mkF { idx : Z; mq_pids : list nat }.

Definition EMPTY : Z := LibSem.new 0.
Definition FULL : Z := LibSem.new 1.
Definition WRITE_MUTEX : Z := LibSem.new 2.

Inductive mq_access : Type :=
| LoadTail | StoreAt (message : Z) | StoreTail
| LoadHead | ClearAt | StoreHead
| Say | PrintQueue.
Global Instance mq_access_eq_dec : EqDecision mq_access.
Proof. solve_decision. Defined.

(** [queue[idx] = v] with the bounds check; a process does not get past a panic. *)
Definition store_slot (i v : Z) (m : MQ) : option MQ :=
  if (0 <=? i) && (i <? MQ_SIZE) then Some (mkMQ (<[Z.to_nat i := v]> (queue m)) (head m) (tail m)) else None.

(** Of the output, only the queue at the end is kept. *)
Global Instance mq_app : App mq_access Frame MQ := fun a l m =>
  match a with
  | LoadTail => Some (mkF (tail m) (mq_pids l), m, [])
  | StoreAt msg => m' ← store_slot (idx l) msg m; Some (l, m', [])
  | StoreTail => Some (l, mkMQ (queue m) (head m) (u64 (idx l + 1) mod MQ_SIZE), [])
  | LoadHead => Some (mkF (head m) (mq_pids l), m, [])
  | ClearAt => m' ← store_slot (idx l) 0 m; Some (l, m', [])
  | StoreHead => Some (l, mkMQ (queue m) (u64 (idx l + 1) mod MQ_SIZE) (tail m), [])
  | Say => Some (l, m, [])
  | PrintQueue => Some (l, m, queue m)
  end.

(** ** The program *)
Abbreviation mitem := (item mq_access Frame).

Definition write_message (message : Z) : list mitem :=
  [LibSem.wait EMPTY; LibSem.wait WRITE_MUTEX;
   Act LoadTail; Act (StoreAt message);
   Act LoadTail; Act StoreTail;
   LibSem.signal WRITE_MUTEX; LibSem.signal FULL].
Definition read_message : list mitem :=
  [LibSem.wait FULL; LibSem.wait WRITE_MUTEX;
   Act LoadHead; Act ClearAt;
   Act LoadHead; Act StoreHead;
   LibSem.signal WRITE_MUTEX; LibSem.signal EMPTY].

(** Round [j] of child [i]: the first half writes, the other half reads. *)
Definition mq_round (i j : nat) : list mitem :=
  if (i <? MQ_THREADS / 2)%nat then write_message (Z.of_nat (i + j)) else read_message.
Definition mq_program : program mq_access Frame := {|
  N := MQ_THREADS; child := fun i => loop_code (mq_round i) (Some MAX_MESSAGE_COUNT);
  getp := mq_pids; setp := fun ps l => mkF (idx l) ps;
  pre := [LibSem.init EMPTY (Z.of_nat MAX_MESSAGE_COUNT); LibSem.init FULL 0; LibSem.init WRITE_MUTEX 1];
  mid := [Act Say]; say := fun _ => [Act Say]; last := [Act PrintQueue] |}.

Definition mq_start : world mq_access Frame MQ :=
  mkW SemSet.new (mkMQ (replicate 11 0) 0 0)
    [mkT (main_code mq_program) (mkF 0 (replicate MQ_THREADS 0%nat)) false] [].

(** ** Where a process is *)
Definition is_writer (i : nat) : bool := (i <? 8)%nat.
Definition cursor (i : nat) (m : MQ) : Z := if is_writer i then tail m else head m.
(** After a load, the register has the cursor; a reader has cleared its slot. *)
Definition mq_know (i j q : nat) (l : Frame) (m : MQ) : Prop :=
  ((q = 3 \/ q = 5)%nat -> idx l = cursor i m) /\
  (is_writer i = false -> (q = 4 \/ q = 5)%nat -> default 0 (queue m !! Z.to_nat (head m)) = 0).
Definition mq_keys : list Z := [EMPTY; FULL; WRITE_MUTEX].

Global Instance mq_fork_join : ForkJoin mq_program.
Proof.
  constructor.
  - apply (bool_decide_unpack _). by vm_compute.
  - done.
  - by repeat constructor.
  - repeat constructor. by intros ? ? ? ? ? [= <- <- <-].
  - intros i. repeat constructor. by intros ? ? ? ? ? [= <- <- <-].
  - by repeat constructor.
Qed.

Lemma mq_round_cases i j : mq_round i j = if is_writer i then write_message (Z.of_nat (i + j)) else read_message.
Proof. done. Qed.

(** Take the eight operations of a round one by one. *)
Ltac mq_ops q H := do 8 (destruct q as [|q]; [cbn in H; injection H as H; try subst|]).

Global Instance mq_looping i : Looping (mq_round i) 8 mq_keys (mq_know i).
Proof.
  constructor; unfold mq_know.
  - intros j. rewrite mq_round_cases. by destruct (is_writer i).
  - intros j q x. rewrite mq_round_cases. intros H.
    destruct (is_writer i); (do 8 (destruct q as [|q]; [cbn in H; injection H as <-; done || (cbn; set_solver)|])); done.
  - intros l m. split; [intros [|]; lia|intros _ [|]; lia].
  - intros j l m _. split; [intros [|]; lia|intros _ [|]; lia].
  - intros j q x l m. rewrite mq_round_cases. intros H Hx [H1 H2].
    destruct (is_writer i); (split; [intros [[= ->]|[= ->]]|intros Hw [[= ->]|[= ->]]]; try done; cbn in H; by injection H as <-).
  - intros j q a l m l' m' o. rewrite mq_round_cases. unfold cursor. intros H [H1 H2] Ea.
    destruct (is_writer i); (split; [intros Hq|intros Hw Hq]; try done; destruct Hq as [[= ->]|[= ->]]; cbn in H;
      injection H as <-; try (by injection Ea as <- <- <-)).
    + cbn in Ea. unfold store_slot in Ea. destruct ((0 <=? idx l) && (idx l <? MQ_SIZE)); [|done].
      injection Ea as <- <- <-. cbn [queue head]. rewrite <- H1 by auto.
      destruct (decide (Z.to_nat (idx l) < length (queue m))%nat).
      * by rewrite list_lookup_insert_eq.
      * rewrite lookup_ge_None_2; [done|]. rewrite length_insert. lia.
    + injection Ea as <- <- <-. apply H2; auto.
Qed.
Definition mq_child (i : nat) : list mitem -> Frame -> MQ -> Prop :=
  loop_ok (mq_round i) (Some MAX_MESSAGE_COUNT) 8 (mq_know i).
Global Instance mq_children : ChildMoves mq_program mq_child.
Proof.
  constructor; unfold mq_child.
  - intros j l m _. exact (loop_ok_start (mq_round j) _ 8 mq_keys (mq_know j) l m).
  - intros j. exact (loop_ok_pass (mq_round j) _ 8 mq_keys (mq_know j)).
  - intros j. exact (loop_ok_act (mq_round j) _ 8 mq_keys (mq_know j)).
  - intros j. exact (loop_ok_unfold (mq_round j) _ 8 mq_keys (mq_know j)).
  - intros j. exact (loop_ok_leave (mq_round j) _ 8 mq_keys (mq_know j)).
  - intros j. exact (loop_only (mq_round j) _ 8 mq_keys (mq_know j)).
Qed.
Definition mq_proc : nat -> list bool -> list mitem -> Frame -> MQ -> Prop := proc_ok mq_program mq_child.

(** ** Weights *)
Definition tails (a : mq_access) : Z := match a with StoreTail => 1 | _ => 0 end.
Definition heads (a : mq_access) : Z := match a with StoreHead => 1 | _ => 0 end.

(** What the rest of a round weighs, at operation [q]. *)
Definition rest (wr : bool) (f : mitem -> Z) (q : nat) : Z :=
  weight f (drop q (if wr then write_message 0 else read_message)).
Lemma rest_weight f i j q : (forall m m', f (Act (StoreAt m)) = f (Act (StoreAt m'))) ->
  weight f (drop q (mq_round i j)) = rest (is_writer i) f q.
Proof.
  intros Hf. rewrite mq_round_cases. unfold rest. destruct (is_writer i); [|done].
  do 9 (destruct q as [|q]; [unfold weight, zsum; cbn; by rewrite ?(Hf (Z.of_nat (i + j)) 0)|]). done.
Qed.

(** The place of a child, with its weights; a finished child is after its last round. *)
Lemma child_weights i c l m : mq_child i c l m -> exists j q, (j <= 10)%nat /\ (q <= 8)%nat /\
  ((c = [] /\ j = 10%nat /\ q = 8%nat) \/ (loop_at (mq_round i) (Some MAX_MESSAGE_COUNT) 8 c j q /\ mq_know i j q l m)) /\
  forall f, (forall m m', f (Act (StoreAt m)) = f (Act (StoreAt m'))) ->
    weight f c = rest (is_writer i) f q + Z.of_nat (10 - j) * rest (is_writer i) f 0.
Proof.
  intros [->|(j & q & H & HI)].
  - exists 10%nat, 8%nat. split; [lia|]. split; [lia|]. split; [by left|]. intros f Hf.
    rewrite <- (rest_weight f i 0 8 Hf), weight_nil. cbn [Nat.sub]. rewrite mq_round_cases. by destruct (is_writer i).
  - exists j, q. pose proof H as (Hq & Hj & _). split; [exact Hj|]. split; [done|]. split; [by right|]. intros f Hf.
    rewrite (loop_weight (mq_round i) _ 8 f c j q (rest (is_writer i) f 0) MAX_MESSAGE_COUNT eq_refl H).
    + by rewrite rest_weight.
    + intros k. by rewrite <- (rest_weight f i k 0 Hf).
Qed.

(** A weight that no operation of [main] has, and that is never positive in the rest
    of a round. *)
Class Light (f : mitem -> Z) : Prop := {
  light_msg m m' : f (Act (StoreAt m)) = f (Act (StoreAt m'));
  light_main x : match x with Fork _ _ | Join _ | Remove _ | Act Say | Act PrintQueue => True | _ => False end -> f x = 0;
  light_rest wr q : (q <= 8)%nat -> rest wr f q <= 0;
  light_pre p : suffix p (pre mq_program) -> weight f p <= 0;
}.
Lemma child_code_weight f i : (forall m m', f (Act (StoreAt m)) = f (Act (StoreAt m'))) ->
  weight f (child mq_program i) = 10 * rest (is_writer i) f 0.
Proof.
  intros Hf. change (child mq_program i) with (loop_code (mq_round i) (Some MAX_MESSAGE_COUNT)).
  rewrite (loop_code_weight (mq_round i) _ f (rest (is_writer i) f 0) MAX_MESSAGE_COUNT eq_refl); [done|].
  intros k. by rewrite <- (rest_weight f i k 0 Hf).
Qed.
Lemma mq_own f : (forall x, match x with Act Say | Act PrintQueue => True | _ => False end -> f x = 0) ->
  forall x : mitem, x ∈ mid mq_program \/ (exists i : nat, x ∈ say mq_program i) \/ x ∈ last mq_program -> weigh f x = 0.
Proof. intros Hf x [H%list_elem_of_singleton|[[i H%list_elem_of_singleton]|H%list_elem_of_singleton]]; subst; cbn; by apply Hf. Qed.

Lemma main_at_light f `{Light f} fs l c : main_at mq_program fs l c -> weight f c <= 0.
Proof.
  intros Hm. destruct (main_at_weight mq_program f) with (fs := fs) (l := l) (c := c) as (j & -> & _); [..|done|].
  - intros x Hx. apply light_main. by destruct x.
  - apply mq_own. intros x Hx. apply light_main. by destruct x as [| | | |[]| | |].
  - rewrite <- (zsum_zero (seq j (N mq_program - j))). apply zsum_le. intros i _.
    rewrite child_code_weight by apply light_msg. pose proof (light_rest (is_writer i) 0 ltac:(lia)). lia.
Qed.
Lemma proc_light f `{Light f} i fs c l m : mq_proc i fs c l m -> weight f c <= 0.
Proof.
  unfold mq_proc, proc_ok. case_decide.
  - intros [(x & p & Hx & -> & Hl & Hq)|Hm]; [|by eapply main_at_light].
    rewrite app_comm_cons, weight_app. pose proof (light_pre _ Hx).
    assert (weight f (forking mq_program) <= 0); [|lia]. apply (main_at_light f fs l). by apply forking_ok.
  - intros Hc. destruct (child_weights _ _ _ _ Hc) as (j & q & _ & Hq & _ & Hw). rewrite Hw by apply light_msg.
    pose proof (light_rest (is_writer (pred i)) q Hq). pose proof (light_rest (is_writer (pred i)) 0 ltac:(lia)). nia.
Qed.
Lemma remaining_light f `{Light f} w : each mq_proc w -> remaining f w <= 0.
Proof.
  intros He. rewrite <- (zsum_zero (threads w)). apply zsum_le. intros t [i Ei]%list_elem_of_lookup.
  eapply proc_light; [done|by eapply He].
Qed.

(** Messages that a process may still write and that are not yet waited for, and the
    same for reads. *)
Definition ahead_w (x : mitem) : Z := net EMPTY x + (acts heads x + acts (fun a => - tails a) x).
Definition ahead_r (x : mitem) : Z := net FULL x + (acts tails x + acts (fun a => - heads a) x).
Ltac light := constructor; [done|by intros [| | | |[]| | |]|
  intros [] q Hq; do 9 (destruct q as [|q]; [by vm_compute|]); lia|
  intros p Hp; do 3 (apply suffix_cases in Hp as [->|Hp]; [by vm_compute|]); by apply suffix_nil_inv in Hp as ->].
Global Instance ahead_w_light : Light ahead_w.
Proof. light. Qed.
Global Instance ahead_r_light : Light ahead_r.
Proof. light. Qed.
Global Instance mutex_light : Light (net WRITE_MUTEX).
Proof. light. Qed.
Global Instance tails_light : Light (acts (fun a => - tails a)).
Proof. light. Qed.
Global Instance heads_light : Light (acts (fun a => - heads a)).
Proof. light. Qed.

Abbreviation mworld := (world mq_access Frame MQ).
Lemma ahead_w_sum (w : mworld) : remaining ahead_w w = remaining (net EMPTY) w + remaining (acts heads) w - remaining (acts tails) w.
Proof.
  unfold ahead_w. rewrite !remaining_add, (remaining_opp (acts tails) (acts (fun a => - tails a))); [lia|]. by intros [].
Qed.
Lemma ahead_r_sum (w : mworld) : remaining ahead_r w = remaining (net FULL) w + remaining (acts tails) w - remaining (acts heads) w.
Proof.
  unfold ahead_r. rewrite !remaining_add, (remaining_opp (acts heads) (acts (fun a => - heads a))); [lia|]. by intros [].
Qed.
Lemma tails_nonneg w : each mq_proc w -> 0 <= remaining (acts tails) w.
Proof.
  intros He. pose proof (remaining_light (acts (fun a => - tails a)) w He) as H.
  rewrite (remaining_opp (acts tails)) in H; [lia|]. by intros [].
Qed.
Lemma heads_nonneg w : each mq_proc w -> 0 <= remaining (acts heads) w.
Proof.
  intros He. pose proof (remaining_light (acts (fun a => - heads a)) w He) as H.
  rewrite (remaining_opp (acts heads)) in H; [lia|]. by intros [].
Qed.

(** ** The ring

    [80 - T] messages have been written and [80 - H] read, where [T] and [H] are the
    cursor updates still to come. *)
Definition to_write (w : world mq_access Frame MQ) : Z := remaining (acts tails) w.
Definition to_read (w : world mq_access Frame MQ) : Z := remaining (acts heads) w.
Definition mq_bal (k : Z) : Z := if k =? EMPTY then 10 else if k =? FULL then 0 else 1.

(** There are at most ten unread messages, and at least one after [FULL.wait()]. *)
Lemma mq_window w : wf w -> each mq_proc w -> (forall k, k ∈ mq_keys -> balance k w = mq_bal k) ->
  0 <= - remaining ahead_r w <= to_read w - to_write w /\ to_read w - to_write w <= 10.
Proof.
  intros Hwf He Hb. pose proof (remaining_light ahead_w w He) as H1. pose proof (remaining_light ahead_r w He) as H2.
  pose proof (Hb EMPTY ltac:(set_solver)) as HE. pose proof (Hb FULL ltac:(set_solver)) as HF.
  rewrite ahead_w_sum in H1. pose proof (ahead_r_sum w) as E. unfold balance, mq_bal in HE, HF. cbn in HE, HF.
  pose proof (cnt_nonneg w EMPTY Hwf). pose proof (cnt_nonneg w FULL Hwf). unfold to_read, to_write. lia.
Qed.

(** Who is inside the mutex. *)
Definition mq_inside (q : nat) : bool := (2 <=? q)%nat && (q <=? 6)%nat.
Lemma mutex_rest wr q : (q <= 8)%nat -> rest wr (net WRITE_MUTEX) q = if mq_inside q then -1 else 0.
Proof. intros Hq. destruct wr; do 9 (destruct q as [|q]; [by vm_compute|]); lia. Qed.
Definition at_op (i : nat) (t : thread mq_access Frame) (q : nat) : Prop :=
  exists j, loop_at (mq_round (pred i)) (Some MAX_MESSAGE_COUNT) 8 (code t) j q.
Lemma at_op_weight i t q f : at_op i t q -> (forall m m', f (Act (StoreAt m)) = f (Act (StoreAt m'))) ->
  exists k : nat, weight f (code t) = rest (is_writer (pred i)) f q + Z.of_nat k * rest (is_writer (pred i)) f 0.
Proof.
  intros [j H] Hf. exists (10 - j)%nat.
  rewrite (loop_weight _ _ 8 f _ j q (rest (is_writer (pred i)) f 0) MAX_MESSAGE_COUNT eq_refl H).
  - by rewrite rest_weight.
  - intros k. by rewrite <- (rest_weight f (pred i) k 0 Hf).
Qed.
Lemma at_op_unique i t q q' : at_op i t q -> at_op i t q' -> q = q'.
Proof.
  intros [j (Hq & _ & _ & E)] [j' (Hq' & _ & _ & E')]. rewrite E in E'. apply (f_equal length) in E'.
  rewrite !length_app, !length_drop, !(loop_len (mq_round (pred i)) 8 mq_keys (mq_know (pred i))) in E'. cbn in E'. lia.
Qed.
Definition mq_exclusive (w : world mq_access Frame MQ) : Prop := - remaining (net WRITE_MUTEX) w <= 1.
Lemma mq_one_inside w i j t u qi qj :
  each mq_proc w -> mq_exclusive w -> threads w !! i = Some t -> threads w !! j = Some u ->
  at_op i t qi -> at_op j u qj -> mq_inside qi = true -> mq_inside qj = true -> i = j.
Proof.
  intros He Hx Et Eu Ht Hu Hi Hj. destruct (decide (i = j)) as [|Hne]; [done|exfalso].
  assert (Hw : forall i t q, at_op i t q -> mq_inside q = true -> - weight (net WRITE_MUTEX) (code t) = 1).
  { intros n v q Hv Hq. destruct (at_op_weight n v q (net WRITE_MUTEX) Hv ltac:(done)) as [k ->].
    destruct Hv as [jj (Hq8 & _)]. rewrite !mutex_rest, Hq by lia. cbn. lia. }
  pose proof (zsum_ge_two (fun t => - weight (net WRITE_MUTEX) (code t)) (threads w) i j t u) as H. cbv beta in H.
  rewrite (Hw i t qi Ht Hi), (Hw j u qj Hu Hj) in H. unfold mq_exclusive in Hx.
  rewrite held_sum in H. assert (1 + 1 <= 1); [|lia]. etrans; [apply H; try done|done].
  intros y [n Ey]%list_elem_of_lookup. pose proof (proc_light (net WRITE_MUTEX) _ _ _ _ _ (He n y Ey)). lia.
Qed.

(** A writer has stored its message but not yet moved the tail. *)
Definition storing (w : mworld) : Prop :=
  exists i t q, i <> 0%nat /\ threads w !! i = Some t /\ is_writer (pred i) = true /\ at_op i t q /\ (q = 4 \/ q = 5)%nat.
(** A slot that is not empty holds an unread message, or the one being stored. *)
Definition slots_ok (w : mworld) : Prop :=
  forall s, 0 <= s < 11 -> default 0 (queue (mem w) !! Z.to_nat s) <> 0 ->
    (exists n, 80 - to_read w <= n < 80 - to_write w /\ s = n mod 11) \/ (s = tail (mem w) /\ storing w).
Definition ring_ok (w : mworld) : Prop :=
  length (queue (mem w)) = 11%nat /\ tail (mem w) = (80 - to_write w) mod 11 /\
  head (mem w) = (80 - to_read w) mod 11 /\ slots_ok w.
Definition mq_inv (w : mworld) : Prop :=
  wf w /\ each mq_proc w /\ lives mq_program mq_bal w /\ ring_ok w /\ printed (replicate 11 0) w.

(** The accesses of a child and where they are. *)
Lemma child_act i w t a c : each mq_proc w -> threads w !! i = Some t -> i <> 0%nat -> code t = Act a :: c ->
  exists q, at_op i t q /\ (q <= 7)%nat /\
    (forall t' : thread mq_access Frame, code t' = c -> at_op i t' (S q)) /\
    ((q = 3 \/ q = 5)%nat -> idx (loc t) = cursor (pred i) (mem w)) /\
    (is_writer (pred i) = false -> (q = 4 \/ q = 5)%nat ->
       default 0 (queue (mem w) !! Z.to_nat (head (mem w))) = 0) /\
    match a with
    | LoadTail => is_writer (pred i) = true /\ (q = 2 \/ q = 4)%nat
    | StoreAt _ => is_writer (pred i) = true /\ q = 3%nat
    | StoreTail => is_writer (pred i) = true /\ q = 5%nat
    | LoadHead => is_writer (pred i) = false /\ (q = 2 \/ q = 4)%nat
    | ClearAt => is_writer (pred i) = false /\ q = 3%nat
    | StoreHead => is_writer (pred i) = false /\ q = 5%nat
    | Say | PrintQueue => False
    end.
Proof.
  intros He Et Hi Hc. pose proof (each_child mq_program _ w i t He Et Hi) as Hok. rewrite Hc in Hok.
  destruct Hok as [?|(j & q & H & [H1 H2])]; [done|]. pose proof H as (Hq & _).
  pose proof (loop_head _ _ 8 mq_keys (mq_know (pred i)) _ _ _ H) as Hh. case_decide; [done|].
  destruct Hh as (y & d & [= <- <-] & Hy & H'). exists q. split; [exists j; by rewrite Hc|]. split; [lia|].
  split; [intros t' Ht'; exists j; by rewrite Ht'|]. split; [done|]. split; [done|].
  rewrite mq_round_cases in Hy. destruct (is_writer (pred i));
    do 8 (destruct q as [|q]; [cbn in Hy; injection Hy as Hy; try done; subst a; auto|]); lia.
Qed.
Global Instance mq_prints : Prints mq_program PrintQueue.
Proof.
  constructor; [by exists []|]. intros a l m l' m' o Ha.
  assert (a = Say) as -> by (by destruct Ha as [H%list_elem_of_singleton|[i H%list_elem_of_singleton]]; injection H).
  by intros [= <- <- <-].
Qed.
Lemma mq_main_acts fs l a c : main_ok mq_program fs l (Act a :: c) -> a = Say \/ a = PrintQueue.
Proof.
  intros Hm. destruct (main_acts mq_program PrintQueue _ _ _ _ Hm) as [[_ [H|[i H]]]|[-> _]]; [left..|by right].
  - by apply list_elem_of_singleton in H as [= ->].
  - by apply list_elem_of_singleton in H as [= ->].
Qed.

Definition stores (a : mq_access) : bool := match a with StoreAt _ | ClearAt | StoreTail | StoreHead => true | _ => false end.
Lemma act_load a l m l' m' o : act a l m = Some (l', m', o) -> stores a = false -> m' = m.
Proof. destruct a; cbn; intros E Ha; try done; by injection E as <- <- <-. Qed.

Lemma mq_each_step i w t x c w' : each mq_proc w -> mq_exclusive w -> threads w !! i = Some t -> code t = x :: c ->
  effect i w t x c w' -> each mq_proc w'.
Proof.
  intros He Hx Et Hc Hef. eapply (effect_each mq_proc); [exact (proc_moves mq_program mq_child)|done..| |done].
  intros a l m o j u -> Ea Hj Eu. unfold mq_proc, proc_ok. case_decide as Hj0; [done|].
  destruct (stores a) eqn:Hs; [|by rewrite (act_load _ _ _ _ _ _ Ea Hs)].
  assert (Hi : i <> 0%nat).
  { intros ->. pose proof (each_main mq_program _ w t He Et) as Hm. rewrite Hc in Hm.
    by destruct (mq_main_acts _ _ _ _ Hm) as [->| ->]. }
  destruct (child_act i w t a c He Et Hi Hc) as (q & Hq & _ & _ & _ & _ & Ha).
  assert (mq_inside q = true) as Hin by (destruct a; try done; by destruct Ha as [_ ->]).
  intros [->|(jj & qq & Hu & HI)]; [by left|right; exists jj, qq]. split; [done|].
  assert (mq_inside qq = false) as Hout.
  { destruct (mq_inside qq) eqn:Hqq; [|done]. destruct Hj. eapply (mq_one_inside w j i); [done..| |done|done|done].
    by exists jj. }
  unfold mq_inside in Hout. destruct (Nat.leb_spec 2 qq), (Nat.leb_spec qq 6); try done;
    (split; [intros [|]; lia|intros _ [|]; lia]).
Qed.

(** ** The ring under one step *)
Lemma slot_insert (q : list Z) i s v : length q = 11%nat -> 0 <= i < 11 -> 0 <= s < 11 ->
  default 0 (<[Z.to_nat i := v]> q !! Z.to_nat s) = if decide (s = i) then v else default 0 (q !! Z.to_nat s).
Proof.
  intros Hl Hi Hs. case_decide as H.
  - subst. by rewrite list_lookup_insert_eq by lia.
  - by rewrite list_lookup_insert_ne by lia.
Qed.
Lemma store_slot_in i v m : 0 <= i < 11 -> store_slot i v m = Some (mkMQ (<[Z.to_nat i := v]> (queue m)) (head m) (tail m)).
Proof.
  intros Hi. unfold store_slot, MQ_SIZE, MAX_MESSAGE_COUNT.
  destruct (Z.leb_spec 0 i), (Z.ltb_spec i (Z.of_nat 10 + 1)); done || lia.
Qed.
(** Moving a cursor. *)
Lemma cursor_next n : u64 (n mod 11 + 1) mod MQ_SIZE = (n + 1) mod 11.
Proof.
  pose proof (Z.mod_pos_bound n 11 ltac:(lia)). unfold u64, wrap. rewrite (Z.mod_small _ (2 ^ 64)) by lia.
  change MQ_SIZE with 11. apply Zplus_mod_idemp_l.
Qed.

(** Who stores a message goes on storing it, but for the move of the tail. *)
Lemma storing_step i w t x c w' : each mq_proc w -> threads w !! i = Some t -> blocked t = false -> code t = x :: c ->
  effect i w t x c w' -> x <> Act StoreTail -> storing w -> storing w'.
Proof.
  intros He Et Hb Hc Hef Hx (j & u & q & Hj & Eu & Hw & [jj Hq] & H45).
  pose proof (loop_head _ _ 8 mq_keys (mq_know (pred j)) _ _ _ Hq) as Hh. case_decide; [lia|].
  destruct Hh as (y & d & Hd & Hy & H'). rewrite mq_round_cases, Hw in Hy.
  destruct (decide (j = i)) as [->|Hji].
  - rewrite Et in Eu. injection Eu as <-. rewrite Hc in Hd. injection Hd as <- <-.
    destruct (effect_self _ _ _ _ _ _ Hef Et Hb Hc) as (t' & Et' & _ & Hc').
    { by destruct H45 as [->| ->]; cbn in Hy; injection Hy as <-. }
    destruct H45 as [->| ->]; cbn in Hy; injection Hy as <-; [|done].
    destruct Hc' as [Hc'|[(? & ? & ? & [=] & _)|(a & [= <-] & Ha & _)]]; [|done].
    exists i, t', 5%nat. split; [done|]. split; [done|]. split; [done|]. split; [|auto]. exists jj. by rewrite Hc'.
  - exists j, u, q. split; [done|]. split; [|split; [done|split; [by exists jj|done]]].
    eapply effect_other; [done|done|done|]. rewrite Hd.
    by destruct H45 as [->| ->]; cbn in Hy; injection Hy as <-.
Qed.

(** The process that makes an access. *)
Lemma mq_actor i w t a c : each mq_proc w -> threads w !! i = Some t -> code t = Act a :: c ->
  a <> Say -> a <> PrintQueue -> i <> 0%nat.
Proof.
  intros He Et Hc H1 H2 ->. pose proof (each_main mq_program _ w t He Et) as Hm. rewrite Hc in Hm.
  by destruct (mq_main_acts _ _ _ _ Hm) as [->| ->].
Qed.

(** Steps that leave the ring alone. *)
Lemma ring_same w w' : ring_ok w -> mem w' = mem w -> to_read w' = to_read w -> to_write w' = to_write w ->
  (storing w -> storing w') -> ring_ok w'.
Proof.
  intros (Hlen & Htl & Hhd & Hsl) Em Er Ew Hst. unfold ring_ok, slots_ok. rewrite Em, Er, Ew. repeat (split; [done|]).
  intros s Hs Hne. destruct (Hsl s Hs Hne) as [?|[? ?]]; auto.
Qed.
(** A store into slot [k]: it is the tail and its writer is now storing, or it is zero. *)
Lemma ring_store w w' k v : ring_ok w -> 0 <= k < 11 ->
  mem w' = mkMQ (<[Z.to_nat k := v]> (queue (mem w))) (head (mem w)) (tail (mem w)) ->
  to_read w' = to_read w -> to_write w' = to_write w -> (storing w -> storing w') ->
  (v <> 0 -> k = tail (mem w) /\ storing w') -> ring_ok w'.
Proof.
  intros (Hlen & Htl & Hhd & Hsl) Hk Em Er Ew Hst Hv. unfold ring_ok, slots_ok. rewrite Em, Er, Ew. cbn [queue head tail].
  rewrite length_insert. repeat (split; [done|]). intros s Hs. rewrite slot_insert by done. case_decide as Hsk; intros Hne.
  - subst. right. auto.
  - destruct (Hsl s Hs Hne) as [?|[? ?]]; auto.
Qed.
(** The tail moves over the message that has been stored. *)
Lemma ring_tail w w' : ring_ok w -> mem w' = mkMQ (queue (mem w)) (head (mem w)) (u64 (tail (mem w) + 1) mod MQ_SIZE) ->
  to_read w' = to_read w -> to_write w' = to_write w - 1 -> to_write w <= to_read w -> ring_ok w'.
Proof.
  intros (Hlen & Htl & Hhd & Hsl) Em Er Ew Hle. unfold ring_ok, slots_ok. rewrite Em, Er, Ew. cbn [queue head tail].
  rewrite Htl, cursor_next. split; [done|]. split; [f_equal; lia|]. split; [done|].
  intros s Hs Hne. left. destruct (Hsl s Hs Hne) as [(n & Hn & ->)|[-> _]].
  - exists n. split; [lia|done].
  - exists (80 - to_write w). split; [lia|done].
Qed.
(** The head moves over a slot that has been cleared. *)
Lemma ring_head w w' : ring_ok w -> mem w' = mkMQ (queue (mem w)) (u64 (head (mem w) + 1) mod MQ_SIZE) (tail (mem w)) ->
  to_read w' = to_read w - 1 -> to_write w' = to_write w -> (storing w -> storing w') ->
  default 0 (queue (mem w) !! Z.to_nat (head (mem w))) = 0 -> ring_ok w'.
Proof.
  intros (Hlen & Htl & Hhd & Hsl) Em Er Ew Hst H0. unfold ring_ok, slots_ok. rewrite Em, Er, Ew. cbn [queue head tail].
  rewrite Hhd, cursor_next in *. split; [done|]. split; [done|]. split; [f_equal; lia|].
  intros s Hs Hne. destruct (Hsl s Hs Hne) as [(n & Hn & ->)|[? ?]]; [left|by auto].
  exists n. split; [|done]. destruct (decide (n = 80 - to_read w)) as [->|]; [done|lia].
Qed.

Lemma cursor_range w i : ring_ok w -> 0 <= cursor i (mem w) < 11.
Proof. intros (_ & Ht & Hh & _). unfold cursor. destruct (is_writer i); rewrite ?Ht, ?Hh; apply Z.mod_pos_bound; lia. Qed.

Lemma ring_access i w t a c w' l m o : each mq_proc w -> ring_ok w -> to_write w <= to_read w ->
  threads w !! i = Some t -> i <> 0%nat -> blocked t = false -> code t = Act a :: c -> effect i w t (Act a) c w' ->
  act a (loc t) (mem w) = Some (l, m, o) -> mem w' = m ->
  to_read w' = to_read w - heads a -> to_write w' = to_write w - tails a -> ring_ok w'.
Proof.
  intros He Hring Hle Et Hi Hb Hc Hef Ea Em Er Ew.
  pose proof (storing_step i w t _ c w' He Et Hb Hc Hef) as Hst.
  pose proof (cursor_range w (pred i) Hring) as Hcur.
  destruct (child_act i w t a c He Et Hi Hc) as (q & Hq & Hq7 & Hnext & Hidx & Hclr & Ha).
  unfold cursor in *. destruct a; cbn [heads tails] in *; rewrite ?Z.sub_0_r in *; try done.
  - injection Ea as <- <- <-. apply (ring_same w); auto.
  - destruct Ha as [Hw ->]. rewrite Hw in *. cbn in Ea. rewrite Hidx, store_slot_in in Ea by auto.
    injection Ea as <- <- <-. eapply (ring_store w); eauto. intros _. split; [done|].
    destruct (effect_self _ _ _ _ _ _ Hef Et Hb Hc I) as (t' & Et' & _ & Hc').
    destruct Hc' as [Hc'|[(? & ? & ? & [=] & _)|(a & [= <-] & Ha & _)]].
    + exists i, t', 4%nat. repeat (split; [done|]). split; [by apply Hnext|auto].
    + cbn in Ha. by rewrite Hidx, store_slot_in in Ha by auto.
  - destruct Ha as [Hw ->]. rewrite Hw in *. injection Ea as <- <- <-. rewrite Hidx in Em by auto. by apply (ring_tail w).
  - injection Ea as <- <- <-. apply (ring_same w); auto.
  - destruct Ha as [Hw ->]. rewrite Hw in *. cbn in Ea. rewrite Hidx, store_slot_in in Ea by auto.
    injection Ea as <- <- <-. by eapply (ring_store w); eauto.
  - destruct Ha as [Hw ->]. rewrite Hw in *. injection Ea as <- <- <-. rewrite Hidx in Em by auto.
    apply (ring_head w); auto.
Qed.

(** No access of the program fails. *)
Lemma mq_no_panic i w t a c : each mq_proc w -> ring_ok w -> threads w !! i = Some t -> code t = Act a :: c ->
  act a (loc t) (mem w) <> None.
Proof.
  intros He Hring Et Hc. destruct a; try done; cbn.
  all: pose proof (mq_actor i w t _ c He Et Hc ltac:(done) ltac:(done)) as Hi.
  all: destruct (child_act i w t _ c He Et Hi Hc) as (q & _ & _ & _ & Hidx & _ & Hw & ->).
  all: pose proof (cursor_range w (pred i) Hring) as Hcur.
  all: by rewrite Hidx, store_slot_in by auto.
Qed.

Lemma ring_step i w t x c w' : each mq_proc w -> ring_ok w -> (i <> 0%nat -> to_write w <= to_read w) ->
  threads w !! i = Some t -> blocked t = false -> code t = x :: c -> effect i w t x c w' -> ring_ok w'.
Proof.
  intros He Hring Hle Et Hb Hc Hef.
  destruct (effect_acts i w t x c w' heads Et Hc Hef) as [(a & l & m & o & -> & Ea & Em & _ & Er)|(Em & _ & Er & Hn)];
    destruct (effect_acts i w t _ c w' tails Et Hc Hef) as [(a' & ? & ? & ? & E & Ea' & _ & _ & Ew)|(_ & _ & Ew & Hn')].
  - injection E as <-. destruct (decide (i = 0%nat)) as [->|Hi]; [|exact (ring_access i w t a c w' l m o He Hring (Hle Hi) Et Hi Hb Hc Hef Ea Em Er Ew)].
    pose proof (each_main mq_program _ w t He Et) as Hm. rewrite Hc in Hm.
    pose proof (mq_main_acts _ _ _ _ Hm) as Ha.
    assert (heads a = 0 /\ tails a = 0 /\ m = mem w) as (E1 & E2 & ->)
      by (destruct Ha as [->| ->]; by injection Ea as <- <- <-).
    apply (ring_same w); [done|done|unfold to_read; lia|unfold to_write; lia|].
    eapply storing_step; eauto. by destruct Ha as [->| ->].
  - by rewrite Ea in Hn'.
  - subst. by rewrite Ea' in Hn.
  - apply (ring_same w); try done. intros Hst. eapply storing_step; eauto. by intros ->.
Qed.

(** ** The whole program *)
Definition all_done (w : mworld) : Prop := Forall (fun t => code t = []) (threads w).

(** Without work left nothing weighs anything. *)
Lemma done_weight f w : all_done w -> remaining f w = 0.
Proof.
  intros Hd. unfold remaining. rewrite (zsum_const _ _ 0); [lia|]. intros t Ht.
  unfold all_done in Hd. rewrite Forall_forall in Hd. by rewrite (Hd t Ht).
Qed.
(** The semaphores are balanced as long as there is work left. *)
Lemma mq_balanced w : each mq_proc w -> lives mq_program mq_bal w ->
  (forall k, k ∈ mq_keys -> balance k w = mq_bal k) \/ all_done w.
Proof.
  intros He (t0 & Et & _ & Hl). destruct Hl as [? ? ? ? ? ? ? ? Hbal|? ? Hbal|Hs Hne]; [by left..|right].
  destruct (main_done mq_program _ w t0 He Et Hs) as [_ Hd]. apply Forall_forall. intros t [i Ei]%list_elem_of_lookup.
  destruct (decide (i = 0%nat)) as [->|Hi]; [|by eapply Hd]. rewrite Et in Ei. injection Ei as <-.
  apply suffix_cases in Hs as [?|Hs%suffix_nil_inv]; done.
Qed.
Lemma mq_excl w : mq_inv w -> mq_exclusive w.
Proof.
  intros (Hwf & He & Hl & _). unfold mq_exclusive. destruct (mq_balanced w He Hl) as [Hb|Hd].
  - specialize (Hb WRITE_MUTEX ltac:(set_solver)). pose proof (cnt_nonneg w WRITE_MUTEX Hwf).
    unfold balance, mq_bal in Hb. cbn in Hb. lia.
  - rewrite done_weight by done. lia.
Qed.
Lemma mq_read_after_write w : mq_inv w -> to_write w <= to_read w /\ to_read w - to_write w <= 10.
Proof.
  intros (Hwf & He & Hl & _). destruct (mq_balanced w He Hl) as [Hb|Hd].
  - pose proof (mq_window w Hwf He Hb). lia.
  - unfold to_write, to_read. rewrite !done_weight by done. lia.
Qed.
Lemma mq_room w : mq_inv w -> room mq_program mq_bal w.
Proof.
  intros Hinv Hb k Hk. pose proof (mq_read_after_write w Hinv) as Hw. destruct Hinv as (Hwf & He & _).
  specialize (Hb k Hk). unfold balance in Hb. unfold to_write, to_read in Hw.
  pose proof (remaining_light ahead_w w He) as H1. pose proof (remaining_light ahead_r w He) as H2.
  pose proof (remaining_light (net WRITE_MUTEX) w He) as H3. rewrite ahead_w_sum in H1. rewrite ahead_r_sum in H2.
  change (k ∈ mq_keys) in Hk.
  assert (cnt k (sems w) <= 10); [|lia]. unfold mq_keys in Hk. rewrite !elem_of_cons in Hk.
  destruct Hk as [->|[->|[->|[]%not_elem_of_nil]]]; cbn in Hb; lia.
Qed.

(** What [main] prints at its end. *)
Lemma mq_final w : ring_ok w -> (forall i t, i <> 0%nat -> threads w !! i = Some t -> code t = []) ->
  to_write w = 0 -> to_read w = 0 -> queue (mem w) = replicate 11 0 /\ head (mem w) = 3 /\ tail (mem w) = 3.
Proof.
  intros (Hlen & Ht & Hh & Hsl) Hd HT HH. rewrite HT in *. rewrite HH in *. split; [|by rewrite Ht, Hh].
  symmetry. apply replicate_as_elem_of. split; [done|]. intros v [n En]%list_elem_of_lookup.
  destruct (decide (v = 0)) as [|Hv]; [done|exfalso]. pose proof (lookup_lt_Some _ _ _ En).
  destruct (Hsl (Z.of_nat n) ltac:(lia)) as [(m & Hm & _)|[_ Hst]].
  - by rewrite Nat2Z.id, En.
  - lia.
  - destruct Hst as (i & t & q & Hi & Et & _ & [j (_ & _ & _ & Hc)] & _). rewrite (Hd i t Hi Et) in Hc.
    by destruct (drop q (mq_round (pred i) (pred j))).
Qed.
Lemma mq_end w t0 : each mq_proc w -> ring_ok w -> threads w !! 0%nat = Some t0 -> suffix (code t0) (last mq_program) ->
  queue (mem w) = replicate 11 0 /\ head (mem w) = 3 /\ tail (mem w) = 3.
Proof.
  intros He Hring Et Hs. destruct (main_done mq_program _ w t0 He Et Hs) as [_ Hd].
  assert (H0 : forall g, g PrintQueue = 0 -> remaining (acts g) w = 0).
  { intros g Hg. unfold remaining. rewrite (zsum_const _ _ 0); [lia|]. intros t [i Ei]%list_elem_of_lookup.
    destruct (decide (i = 0%nat)) as [->|Hi]; [|by rewrite (Hd i t Hi Ei)].
    rewrite Et in Ei. injection Ei as <-. eapply suffix_weight; [|done]. intros x ->%list_elem_of_singleton. cbn. lia. }
  apply mq_final; [done|done|by apply H0..].
Qed.

Lemma mq_step w w' : mq_inv w -> step w w' -> mq_inv w' /\ measure w' < measure w.
Proof.
  intros Hinv Hs. pose proof (mq_excl w Hinv) as Hx. pose proof (mq_read_after_write w Hinv) as [Hle _].
  pose proof (mq_room w Hinv) as Hroom. destruct Hinv as (Hwf & He & Hl & Hring & Hpr).
  destruct (life_step mq_program _ mq_bal w w' Hwf He Hl Hroom Hs) as (i & t & x & c & Et & Hb & Hc & Hef & Hwf' & Hl').
  pose proof (mq_each_step i w t x c w' He Hx Et Hc Hef) as He'.
  split; [split; [done|split; [done|split; [by apply Hl'|split]]]|].
  - exact (ring_step i w t x c w' He Hring (fun _ => Hle) Et Hb Hc Hef).
  - apply (printed_step mq_program _ PrintQueue _ i w t x c w' He Hpr Et Hb Hc); [| |done].
    + intros a l m o Hi -> Ea. destruct (child_act i w t a c He Et Hi Hc) as (q & _ & _ & _ & _ & _ & Ha).
      destruct a; try done; cbn in Ea; try (by injection Ea as <- <- <-);
        destruct (store_slot _ _ _); [|done|..|done]; by injection Ea as <- <- <-.
    + intros l m o -> Hsuf [= <- <- <-]. by apply (mq_end w t).
  - eapply effect_measure; [done..|]. destruct x as [| | | |a|j [] body| |]; try done.
    + by eapply mq_no_panic.
    + destruct (decide (i = 0%nat)) as [->|Hi].
      * pose proof (each_main mq_program _ w t He Et) as Hm. rewrite Hc in Hm. by apply (main_no_wait mq_program) in Hm.
      * pose proof (each_child mq_program _ w i t He Et Hi) as Hok. rewrite Hc in Hok.
        destruct Hok as [?|(jj & q & H & _)]; [done|].
        pose proof (loop_head _ _ 8 mq_keys (mq_know (pred i)) _ _ _ H) as Hh. case_decide; [done|].
        destruct Hh as (y & d & [= <- <-] & Hy & _).
        by apply (loop_plain (mq_round (pred i)) 8 mq_keys (mq_know (pred i))) in Hy.
Qed.

(** ** No deadlock *)

(** A child that cannot move waits, in front of a round or for the mutex. *)
Definition waits_for (i q : nat) : Z :=
  if (q =? 0)%nat then (if is_writer i then EMPTY else FULL) else WRITE_MUTEX.
Lemma mq_stuck_child w i t : wf w -> each mq_proc w -> stuck w ->
  threads w !! i = Some t -> i <> 0%nat -> code t <> [] ->
  exists q, at_op i t q /\ (q <= 1)%nat /\ cnt (waits_for (pred i) q) (sems w) = 0.
Proof.
  intros Hwf He Hst Et Hi Hne. pose proof (each_child mq_program _ w i t He Et Hi) as Hok.
  destruct Hok as [?|(j & q & H & _)]; [done|]. exists q. split; [by exists j|].
  pose proof (loop_head _ _ 8 mq_keys (mq_know (pred i)) _ _ _ H) as Hh. pose proof H as (Hq8 & _).
  destruct (stuck_why i w t Hwf Hst Et Hne) as [(k & c & Hc & _ & H0 & _)|(p & c & Hc & _)];
    rewrite Hc in Hh; case_decide; try done; destruct Hh as (y & d & [= <- <-] & Hy & _); rewrite mq_round_cases in Hy;
    unfold waits_for; destruct (is_writer (pred i));
    do 8 (destruct q as [|q]; [cbn in Hy; injection Hy as Hy; try done; (subst; split; [lia|done])|]); lia.
Qed.
(** Somebody who holds the mutex can move. *)
Lemma mq_holder w i t : each mq_proc w -> threads w !! i = Some t -> i <> 0%nat ->
  0 < - weight (net WRITE_MUTEX) (code t) -> exists q, at_op i t q /\ (2 <= q <= 6)%nat.
Proof.
  intros He Et Hi Hw. pose proof (each_child mq_program _ w i t He Et Hi) as Hok.
  destruct Hok as [E|(j & q & H & _)]; [by rewrite E in Hw|]. exists q. split; [by exists j|]. pose proof H as (Hq & _).
  destruct (at_op_weight i t q (net WRITE_MUTEX)) as [k E]; [by exists j|done|]. rewrite E, !mutex_rest in Hw by lia.
  change (mq_inside 0) with false in Hw. unfold mq_inside in Hw.
  destruct (Nat.leb_spec 2 q), (Nat.leb_spec q 6); cbn [andb] in Hw; lia.
Qed.
(** Once all are forked, [main] has nothing that weighs. *)
Lemma mq_main_weight f w t0 :
  (forall x : mitem, match x with Fork _ _ | Join _ | Remove _ | Act Say | Act PrintQueue => True | _ => False end -> f x = 0) ->
  each mq_proc w -> stuck w -> wf w -> threads w !! 0%nat = Some t0 -> weight f (code t0) = 0.
Proof.
  intros Hf He Hst Hwf Et. pose proof (each_main mq_program _ w t0 He Et) as Hm.
  destruct (decide (code t0 = [])) as [->|Hne]; [done|].
  destruct (stuck_why 0 w t0 Hwf Hst Et Hne) as [(k & c & Hc & _)|(p & c & Hc & _)]; rewrite Hc in *.
  - by apply (main_no_wait mq_program) in Hm.
  - pose proof (main_join_all mq_program _ _ _ _ Hm) as Hl.
    destruct Hm as [(x & q & Hq & [= <- ->] & _)|Hm]; [by apply (pre_elem mq_program) in Hq as (? & ? & ? & _)|].
    destruct (main_at_weight mq_program f) with (fs := fins w) (l := loc t0) (c := Join p :: c) as (j & -> & Hj); [..|done|].
    + intros x Hx. apply Hf. by destruct x.
    + apply mq_own. intros x Hx. apply Hf. by destruct x as [| | | |[]| | |].
    + replace (N mq_program - j)%nat with 0%nat by lia. done.
Qed.
(** A weight that vanishes for every process of a stuck world. *)
Lemma stuck_zero f w : 
  (forall x : mitem, match x with Fork _ _ | Join _ | Remove _ | Act Say | Act PrintQueue => True | _ => False end -> f x = 0) ->
  each mq_proc w -> stuck w -> wf w ->
  (forall i t, threads w !! i = Some t -> i <> 0%nat -> weight f (code t) = 0) -> remaining f w = 0.
Proof.
  intros Hf He Hst Hwf Hc. unfold remaining. rewrite (zsum_const _ _ 0); [lia|]. intros t [i Ei]%list_elem_of_lookup.
  destruct (decide (i = 0%nat)) as [->|Hi]; [by eapply mq_main_weight|by eapply Hc].
Qed.

Lemma rest_heads wr q : (q <= 8)%nat -> rest wr (acts heads) q = if wr then 0 else if (q <=? 5)%nat then 1 else 0.
Proof. intros Hq. destruct wr; do 9 (destruct q as [|q]; [by vm_compute|]); lia. Qed.
Lemma rest_tails wr q : (q <= 8)%nat -> rest wr (acts tails) q = if wr then (if (q <=? 5)%nat then 1 else 0) else 0.
Proof. intros Hq. destruct wr; do 9 (destruct q as [|q]; [by vm_compute|]); lia. Qed.

(** The mutex is free when nothing can move. *)
Lemma mq_stuck_mutex w : mq_inv w -> stuck w -> 
  (forall k, k ∈ mq_keys -> balance k w = mq_bal k) -> 0 < cnt WRITE_MUTEX (sems w).
Proof.
  intros (Hwf & He & _) Hst Hb. specialize (Hb WRITE_MUTEX ltac:(set_solver)). unfold balance in Hb. cbn in Hb.
  rewrite (stuck_zero (net WRITE_MUTEX) w) in Hb; [lia|by intros [| | | |[]| | |]|done..|]. intros i t Et Hi.
  pose proof (proc_light (net WRITE_MUTEX) _ _ _ _ _ (He i t Et)) as Hle.
  destruct (decide (0 < - weight (net WRITE_MUTEX) (code t))) as [Hp|]; [exfalso|lia].
  destruct (mq_holder w i t He Et Hi Hp) as (q & Hq & H26).
  destruct (mq_stuck_child w i t Hwf He Hst Et Hi) as (q' & Hq' & H1 & _).
  { intros E. by rewrite E in Hp. }
  pose proof (at_op_unique i t q q' Hq Hq'). lia.
Qed.
(** So every process that is left stands in front of a round. *)
Lemma mq_stuck_front w i t : mq_inv w -> stuck w -> threads w !! i = Some t -> i <> 0%nat -> code t <> [] ->
  (forall k, k ∈ mq_keys -> balance k w = mq_bal k) ->
  at_op i t 0 /\ cnt (if is_writer (pred i) then EMPTY else FULL) (sems w) = 0.
Proof.
  intros Hinv Hst Et Hi Hne Hb. pose proof (mq_stuck_mutex w Hinv Hst Hb). destruct Hinv as (Hwf & He & _).
  destruct (mq_stuck_child w i t Hwf He Hst Et Hi Hne) as (q & Hq & H1 & H0).
  destruct q as [|[|]]; [done| |lia]. unfold waits_for in H0. cbn [Nat.eqb] in H0. lia.
Qed.
Lemma mq_stuck_counts w : mq_inv w -> stuck w -> (forall k, k ∈ mq_keys -> balance k w = mq_bal k) ->
  cnt EMPTY (sems w) = 10 + to_write w - to_read w /\ cnt FULL (sems w) = to_read w - to_write w.
Proof.
  intros Hinv Hst Hb. pose proof Hinv as (Hwf & He & _).
  assert (H0 : forall f, (forall m m', f (Act (StoreAt m)) = f (Act (StoreAt m'))) ->
    (forall x : mitem, match x with Fork _ _ | Join _ | Remove _ | Act Say | Act PrintQueue => True | _ => False end -> f x = 0) ->
    (forall wr, rest wr f 0 = 0) -> remaining f w = 0).
  { intros f Hm Hf Hr. apply stuck_zero; [done..|]. intros i t Et Hi. destruct (decide (code t = [])) as [->|Hne]; [done|].
    destruct (mq_stuck_front w i t Hinv Hst Et Hi Hne Hb) as [Hq _]. destruct (at_op_weight i t 0 f Hq Hm) as [k ->].
    rewrite Hr. lia. }
  pose proof (H0 ahead_w) as H1. pose proof (H0 ahead_r) as H2. rewrite ahead_w_sum in H1. rewrite ahead_r_sum in H2.
  specialize (H1 ltac:(done) ltac:(by intros [| | | |[]| | |]) ltac:(by intros [])).
  specialize (H2 ltac:(done) ltac:(by intros [| | | |[]| | |]) ltac:(by intros [])).
  pose proof (Hb EMPTY ltac:(set_solver)) as HE. pose proof (Hb FULL ltac:(set_solver)) as HF.
  unfold balance, to_read, to_write in *. cbn in HE, HF. lia.
Qed.

(** Without a reader (a writer) that is left, nothing is left to read (to write). *)
Lemma no_readers w : mq_inv w -> stuck w ->
  (forall i t, threads w !! i = Some t -> i <> 0%nat -> is_writer (pred i) = false -> code t = []) -> to_read w = 0.
Proof.
  intros (Hwf & He & _) Hst Hd. apply stuck_zero; [by intros [| | | |[]| | |]|done..|]. intros i t Et Hi.
  destruct (is_writer (pred i)) eqn:Hw; [|by rewrite (Hd i t Et Hi Hw)].
  destruct (child_weights _ _ _ _ (each_child mq_program _ w i t He Et Hi)) as (j & q & _ & Hq & _ & ->); [|done].
  rewrite !rest_heads, Hw by lia. lia.
Qed.
Lemma no_writers w : mq_inv w -> stuck w ->
  (forall i t, threads w !! i = Some t -> i <> 0%nat -> is_writer (pred i) = true -> code t = []) -> to_write w = 0.
Proof.
  intros (Hwf & He & _) Hst Hd. apply stuck_zero; [by intros [| | | |[]| | |]|done..|]. intros i t Et Hi.
  destruct (is_writer (pred i)) eqn:Hw; [by rewrite (Hd i t Et Hi Hw)|].
  destruct (child_weights _ _ _ _ (each_child mq_program _ w i t He Et Hi)) as (j & q & _ & Hq & _ & ->); [|done].
  rewrite !rest_tails, Hw by lia. lia.
Qed.
(** A reader that is left has something to read. *)
Lemma reader_left w i t : each mq_proc w -> threads w !! i = Some t -> i <> 0%nat -> is_writer (pred i) = false ->
  at_op i t 0 -> 0 < to_read w.
Proof.
  intros He Et Hi Hw Hq. destruct (at_op_weight i t 0 (acts heads) Hq ltac:(done)) as [k E].
  rewrite !rest_heads, Hw in E by lia. cbn in E. unfold to_read, remaining.
  assert (1 <= weight (acts heads) (code t)) by lia. 
  assert (weight (acts heads) (code t) <= zsum (fun t => weight (acts heads) (code t)) (threads w)); [|lia].
  apply (zsum_ge_elem (fun t => weight (acts heads) (code t)) _ i); [|done]. intros u [n Eu]%list_elem_of_lookup.
  pose proof (proc_light (acts (fun a => - heads a)) _ _ _ _ _ (He n u Eu)) as H'.
  rewrite (weight_opp (acts heads)) in H'; [lia|]. by intros [].
Qed.

Lemma mq_stuck w : mq_inv w -> stuck w -> all_done w.
Proof.
  intros Hinv Hst. pose proof Hinv as (Hwf & He & Hl & _). destruct (mq_balanced w He Hl) as [Hb|]; [|done].
  destruct (mq_stuck_counts w Hinv Hst Hb) as [HE HF].
  assert (Hr : forall i t, threads w !! i = Some t -> i <> 0%nat -> is_writer (pred i) = true -> code t = []).
  { intros i t Et Hi Hw. destruct (decide (code t = [])) as [|Hne]; [done|exfalso].
    destruct (mq_stuck_front w i t Hinv Hst Et Hi Hne Hb) as [_ H0]. rewrite Hw in H0.
    pose proof (tails_nonneg w He) as HT. fold (to_write w) in HT.
    assert (to_read w = 0); [|lia]. apply no_readers; [done|done|]. intros j u Eu Hj Hr.
    destruct (decide (code u = [])) as [|Hu]; [done|exfalso].
    destruct (mq_stuck_front w j u Hinv Hst Eu Hj Hu Hb) as [_ H1]. rewrite Hr in H1. lia. }
  pose proof (no_writers w Hinv Hst Hr) as HT.
  assert (Hd : forall i t, i <> 0%nat -> threads w !! i = Some t -> code t = []).
  { intros i t Hi Et. destruct (decide (code t = [])) as [|Hne]; [done|exfalso].
    destruct (is_writer (pred i)) eqn:Hw; [by destruct Hne; eapply Hr|].
    destruct (mq_stuck_front w i t Hinv Hst Et Hi Hne Hb) as [Hq H0]. rewrite Hw in H0.
    pose proof (reader_left w i t He Et Hi Hw Hq). lia. }
  apply Forall_forall. intros t [i Ei]%list_elem_of_lookup. destruct (decide (i = 0%nat)) as [->|Hi]; [|by eapply Hd].
  by apply (stuck_main mq_program _ w t Hwf He Hst Ei).
Qed.

Lemma mq_start_inv : mq_inv mq_start.
Proof.
  split; [|split; [|split; [|split]]].
  - split; [done|]. intros [|i] t E Hb; [by injection E as <-|done].
  - intros [|j] u E; [|done]. injection E as <-. unfold mq_proc, proc_ok. rewrite decide_True by done. left.
    exists (LibSem.init EMPTY 10), [LibSem.init FULL 0; LibSem.init WRITE_MUTEX 1]. split; [by exists []|]. done.
  - eexists. split; [done|]. split; [done|]. eapply (creating _ _ _ _ EMPTY 10 [] _); [done|done|done| |].
    + intros k. split; [by intros [? ?]|by intros ?%not_elem_of_nil].
    + intros k Hk. change (k ∈ mq_keys) in Hk. unfold mq_keys in Hk. rewrite !elem_of_cons in Hk.
      by destruct Hk as [->|[->|[->|[]%not_elem_of_nil]]].
  - split; [done|]. split; [by vm_compute|]. split; [by vm_compute|]. intros s Hs Hne. destruct Hne. cbn [mem mq_start queue].
    by destruct (replicate 11 0 !! Z.to_nat s) eqn:E; [apply lookup_replicate in E as [-> _]|].
  - eexists. split; [done|]. done.
Qed.

(** Two numbers that are less than eleven apart. *)
Lemma mod_apart n m : 0 < m - n <= 10 -> m mod 11 = n mod 11 -> False.
Proof. intros H E. pose proof (Z.div_mod m 11 ltac:(lia)). pose proof (Z.div_mod n 11 ltac:(lia)). lia. Qed.

(** A slot holds no message: its value is 0, as at the start and after a read.  (The first message
    is 0 as well, and is not told from an empty slot.) *)
Definition slot_empty (s : Z) (w : mworld) : Prop := default 0 (queue (mem w) !! Z.to_nat s) = 0.
(** A message is stored into an empty slot, whatever is in flight elsewhere. *)
Lemma store_into_empty w i t m c : mq_inv w -> threads w !! i = Some t -> code t = Act (StoreAt m) :: c ->
  0 <= idx (loc t) < 11 /\ slot_empty (idx (loc t)) w.
Proof.
  intros Hinv Et Hc. pose proof (mq_excl w Hinv) as Hx. pose proof Hinv as (Hwf & He & Hl & Hring & _).
  pose proof (mq_actor i w t _ c He Et Hc ltac:(done) ltac:(done)) as Hi.
  destruct (child_act i w t _ c He Et Hi Hc) as (q & Hq & _ & _ & Hidx & _ & Hw & ->).
  pose proof (cursor_range w (pred i) Hring) as Hcur. rewrite (Hidx ltac:(auto)).
  split; [done|]. unfold cursor. rewrite Hw. unfold cursor in Hcur. rewrite Hw in Hcur. unfold slot_empty.
  destruct (decide (default 0 (queue (mem w) !! Z.to_nat (tail (mem w))) = 0)) as [|Hne]; [done|exfalso].
  destruct Hring as (_ & Ht & _ & Hsl). destruct (Hsl _ Hcur Hne) as [(n & Hn & E)|[_ (j & u & q' & Hj & Eu & _ & Hq' & H45)]].
  - pose proof (mq_read_after_write w Hinv) as [_ H10]. rewrite Ht in E. apply (mod_apart n (80 - to_write w)); [lia|done].
  - assert (i = j) as <- by (eapply (mq_one_inside w i j t u 3 q'); try done; by destruct H45 as [->| ->]).
    rewrite Et in Eu. injection Eu as <-. pose proof (at_op_unique i t 3 q' Hq Hq'). lia.
Qed.
(** A reader clears a slot only when a message is there. *)
Lemma clear_unread w i t c : mq_inv w -> threads w !! i = Some t -> code t = Act ClearAt :: c ->
  idx (loc t) = head (mem w) /\ head (mem w) <> tail (mem w).
Proof.
  intros (Hwf & He & Hl & Hring) Et Hc.
  pose proof (mq_actor i w t _ c He Et Hc ltac:(done) ltac:(done)) as Hi.
  destruct (child_act i w t _ c He Et Hi Hc) as (q & Hq & _ & _ & Hidx & _ & Hw & ->).
  unfold cursor in Hidx. rewrite Hw in Hidx. split; [auto|]. destruct Hring as ((_ & Ht & Hh & _) & _).
  destruct (mq_balanced w He Hl) as [Hb|Hd].
  - pose proof (mq_window w Hwf He Hb) as Hwin. rewrite Ht, Hh. intros E. symmetry in E.
    apply (mod_apart (80 - to_read w) (80 - to_write w)); [|done].
    assert (1 <= - remaining ahead_r w); [|lia]. rewrite <- held_sum.
    destruct (at_op_weight i t 3 ahead_r Hq ltac:(done)) as [k Ek]. rewrite Hw in Ek.
    change (rest false ahead_r 3) with (-1) in Ek. change (rest false ahead_r 0) with 0 in Ek.
    assert (- weight ahead_r (code t) <= zsum (fun t => - weight ahead_r (code t)) (threads w)); [|lia].
    apply (zsum_ge_elem (fun t => - weight ahead_r (code t)) _ i); [|done]. intros u [n Eu]%list_elem_of_lookup.
    pose proof (proc_light ahead_r _ _ _ _ _ (He n u Eu)). lia.
  - unfold all_done in Hd. rewrite Forall_forall in Hd. rewrite (Hd t (list_elem_of_lookup_2 _ _ _ Et)) in Hc. done.
Qed.

(** C12: [app/mq] under every schedule: from every reachable state, runs are finite (with
    an explicit bound), no index is out of bounds, a message is only stored into an
    empty slot of the ring and a slot is only cleared when a message is unread, and
    at most one process is between [WRITE_MUTEX.wait()] and [WRITE_MUTEX.signal()];
    when nothing can move any more, all seventeen processes have ended, head and tail
    are both 3 (80 mod 11) and the queue that [main] printed is empty.  So the
    program neither deadlocks nor loses a message. *)
Theorem mq_total w : rtc step mq_start w ->
  (forall n w', nsteps step n w w' -> Z.of_nat n <= measure w) /\
  (forall i t a c, threads w !! i = Some t -> code t = Act a :: c -> act a (loc t) (mem w) <> None /\
     match a with
     | StoreAt _ => slot_empty (idx (loc t)) w
     | ClearAt => idx (loc t) = head (mem w) /\ head (mem w) <> tail (mem w)
     | _ => True
     end) /\
  (forall i j t u qi qj, threads w !! i = Some t -> threads w !! j = Some u ->
     at_op i t qi -> at_op j u qj -> mq_inside qi = true -> mq_inside qj = true -> i = j) /\
  (stuck w -> all_done w /\ length (threads w) = 17%nat /\
     mem w = mkMQ (replicate 11 0) 3 3 /\ out w = replicate 11 0).
Proof.
  intros Hr. assert (Hinv : mq_inv w).
  { eapply rtc_inv; [apply mq_start_inv| |done]. intros w1 w2 H1 H2. by destruct (mq_step w1 w2 H1 H2). }
  pose proof Hinv as (Hwf & He & Hl & Hring & t0 & Et0 & Ho). split; [|split; [|split]].
  - intros n w' Hn. apply (run_bounded mq_inv mq_step n w w' Hinv Hn).
  - intros i t a c Et Hc. split; [by eapply mq_no_panic|]. destruct a; try done.
    + by eapply store_into_empty.
    + by eapply clear_unread.
  - intros i j t u qi qj. apply mq_one_inside; [done|by apply mq_excl].
  - intros Hst. pose proof (mq_stuck w Hinv Hst) as Hd. split; [done|]. unfold all_done in Hd. rewrite Forall_forall in Hd.
    pose proof (Hd t0 (list_elem_of_lookup_2 _ _ _ Et0)) as Hc0.
    assert (suffix (code t0) (last mq_program)) as Hs by (rewrite Hc0; apply suffix_nil).
    split; [apply (main_done mq_program _ w t0 He Et0 Hs)|].
    destruct (mq_end w t0 He Hring Et0 Hs) as (E1 & E2 & E3). split; [by destruct (mem w); cbn in *; subst|].
    rewrite Ho. unfold finished. by rewrite Hc0.
Qed.

(** Writers and readers take turns of a few operations. *)
Definition mq_turns : list nat :=
  repeat 0%nat 70 ++ concat (map (fun k => concat (map (fun i => repeat i (3 + (i + k) mod 5)%nat) (seq 1 16))) (seq 0 300)) ++
  repeat 0%nat 70.
Lemma mq_total_witness :
  let w := run mq_turns mq_start in
  length (threads w) = 17%nat /\ mem w = mkMQ (replicate 11 0) 3 3 /\ out w = replicate 11 0.
Proof.
  intros w. destruct (mq_total w) as (_ & _ & _ & H); [apply run_steps|].
  destruct H as (_ & H); [|exact H]. apply stuckb_stuck. vm_compute; reflexivity.
Defined.
