(* ===== verification/Progress.v ===== *)
(** * Programs that run for ever

    [fish] and [philo] of [pkg/app] have processes that never end.  What such a program
    owes is output: this file bounds the steps it can make, under any schedule, before
    the next access that prints. *)

From stdpp Require Import base numbers list gmap relations.
From S2P Require Import Prelude Bytes Str Sync Threads ForkJoin.

Section progress.
Context {A L M : Type} {AP : App A L M}.
Abbreviation item := (item A L).
Abbreviation thread := (thread A L).
Abbreviation world := (world A L M).
(** The accesses that print. *)
Variable loud : A -> bool.

(** Operations after which nothing more is counted. *)
Definition stops (x : item) : bool :=
  match x with Act a => loud a | For _ None _ => true | _ => false end.
(** The steps an operation can take before something is printed. *)
Fixpoint quiet_cost (x : item) : nat :=
  let fix go (c : list item) : nat :=
    match c with
    | [] => 0%nat
    | y :: c => if stops y then quiet_cost y else (quiet_cost y + go c)%nat
    end in
  match x with
  | For i None body => S (go (body i))
  | For i (Some n) body => S (list_sum (map (fun j => S (go (body j))) (seq i (n - i))))
  | Fork child _ => S (S (go child))
  | _ => 1%nat
  end.
Fixpoint quiet_code (c : list item) : nat :=
  match c with
  | [] => 0%nat
  | y :: c => if stops y then quiet_cost y else (quiet_cost y + quiet_code c)%nat
  end.

Lemma quiet_none i body : quiet_cost (For i None body) = S (quiet_code (body i)).
Proof. done. Qed.
Lemma quiet_some i n body :
  quiet_cost (For i (Some n) body) = S (list_sum (map (fun j => S (quiet_code (body j))) (seq i (n - i)))).
Proof. done. Qed.
Lemma quiet_fork child ret : quiet_cost (Fork child ret) = (2 + quiet_code child)%nat.
Proof. done. Qed.
Lemma quiet_app c d : (quiet_code (c ++ d) <= quiet_code c + quiet_code d)%nat.
Proof. induction c as [|x c IH]; cbn [app quiet_code]; [lia|]. destruct (stops x); lia. Qed.
Lemma quiet_app_loud c d : Exists (fun x => stops x = true) c -> quiet_code (c ++ d) = quiet_code c.
Proof.
  induction 1 as [x c Hx|x c Hx IH]; cbn [app quiet_code]; [by rewrite Hx|]. destruct (stops x); [done|]. by rewrite IH.
Qed.
Lemma quiet_code_cons x c : (quiet_code (x :: c) <= quiet_cost x + quiet_code c)%nat.
Proof. cbn. destruct (stops x); lia. Qed.

Definition quiet_thread (t : thread) : Z := 2 * Z.of_nat (quiet_code (code t)) + (if blocked t then 0 else 1).
Definition quiet (w : world) : Z := zsum quiet_thread (threads w).
Lemma quiet_nonneg w : 0 <= quiet w.
Proof. apply zsum_nonneg. intros t _. unfold quiet_thread. destruct (blocked t); lia. Qed.

(** Every step that prints nothing uses up some of the bound. *)
Lemma effect_quiet i w t x c w' :
  threads w !! i = Some t -> blocked t = false -> code t = x :: c -> effect i w t x c w' ->
  match x with
  | For j None body => Exists (fun x => stops x = true) (body j)
  | Act a => act a (loc t) (mem w) <> None /\ loud a = false
  | _ => True
  end -> quiet w' < quiet w.
Proof.
  intros Et Hb Hc He Hx. unfold quiet.
  destruct He as [k' c s Es Hp|k' c s Es Hp|k' c s Es Hq|k' c s j q u d Es H0 Hq Hij Eu Hu Hd
    |k' v c Es Hv|k' c|a c l m o Ea|a c Ea|j n body c Hn|j n body c Hn|child ret c|p c u Eu Hu];
    cbn [threads]; rewrite ?zsum_app, ?(zsum_insert _ (<[i:=goto c t]> (threads w)) j u)
      by (by rewrite list_lookup_insert_ne);
    rewrite ?(zsum_insert _ _ i t) by done; unfold quiet_thread; cbn [code blocked goto sleep_in];
    rewrite ?zsum_cons, ?zsum_nil, ?Hb, ?Hu, ?Hc, ?Hd; try (cbn [quiet_code stops quiet_cost code blocked]; lia).
  - destruct Hx as [_ Hx]. cbn [quiet_code stops quiet_cost]. rewrite Hx. lia.
  - by destruct Hx.
  - destruct n as [n|]; cbn [quiet_code stops].
    + rewrite !quiet_some. replace (n - j)%nat with (S (n - S j)) by lia. cbn [seq map list_sum foldr].
      fold (list_sum (map (fun j => S (quiet_code (body j))) (seq (S j) (n - S j)))).
      pose proof (quiet_app (body j) (For (S j) (Some n) body :: c)) as H1.
      pose proof (quiet_code_cons (For (S j) (Some n) body) c) as H2. rewrite quiet_some in H2. lia.
    + rewrite quiet_app_loud by done. rewrite quiet_none. lia.
  - cbn [quiet_code stops]. rewrite quiet_fork. cbn [code blocked]. lia.
Qed.

(** A run without output is no longer than the bound. *)
Lemma run_quiet (I : world -> Prop) :
  (forall w w', I w -> step w w' -> I w' /\ ((length (out w) < length (out w'))%nat \/ (out w' = out w /\ quiet w' < quiet w))) ->
  forall n w w', I w -> nsteps step n w w' -> out w' = out w -> Z.of_nat n <= quiet w.
Proof.
  intros H. assert (Hm : forall n w w', I w -> nsteps step n w w' -> (length (out w) <= length (out w'))%nat).
  { induction n as [|n IH]; intros w w' Hw Hn; [by inversion Hn|]. inversion Hn as [|? ? w1 ? Hs Hn']; subst.
    destruct (H w w1 Hw Hs) as [H1 Ho]. specialize (IH w1 w' H1 Hn'). destruct Ho as [|[E _]]; [lia|]. by rewrite <- E. }
  induction n as [|n IH]; intros w w' Hw Hn Ho; [apply quiet_nonneg|].
  inversion Hn as [|? ? w1 ? Hs Hn']; subst. destruct (H w w1 Hw Hs) as [H1 [Hlt|[E Hq]]].
  - pose proof (Hm n w1 w' H1 Hn') as Hle. rewrite Ho in Hle. lia.
  - specialize (IH w1 w' H1 Hn' ltac:(congruence)). lia.
Qed.
End progress.

(** What an endless loop weighs. *)
Lemma loop_weight_endless {A L : Type} (body : nat -> list (item A L)) len f c j q v :
  loop_at body None len c j q -> (forall j, weight f (body j) = v) ->
  weight f c = weight f (drop q (body (pred j))) - Z.of_nat j * v.
Proof.
  intros (_ & _ & _ & ->) Hv. rewrite weight_app, weight_cons, weight_nil. cbn [weigh].
  rewrite (zsum_const _ _ v), length_seq; [lia|]. intros i _. apply Hv.
Qed.
