(* ===== verification/Philo.v ===== *)
(** * The dining philosophers [app/philo]

    Models [pkg/app/philo/src/main.rs]: five processes take two of five chopsticks
    each, one at a time; a further semaphore [SERVER] lets one process at a time reach
    for them.  How long a process sleeps is left open; that [sleep] panics when it
    goes over midnight is modelled, as the end of the process ([midnight]). *)

From stdpp Require Import base numbers list gmap relations.
From S2P Require Import Prelude Bytes Str Sync Threads ForkJoin Counter Progress.

Definition PHILO_NUM : nat := 5.
(** [semaphore_array![0, 1, 2, 3, 4]] *)
Definition CHOPSTICKS_SEM (i : nat) : Z := LibSem.new (Z.of_nat i).
Definition SERVER : Z := LibSem.new 5.

(** [sleep] of a random time, when it returns; the line printed after a meal. *)
Inductive philo_access : Type := Sleep | HaveEaten (order : nat).
Global Instance philo_app : App philo_access (list nat) unit := fun a l m =>
  match a with
  | Sleep => Some (l, m, [])
  | HaveEaten order => Some (l, m, [Z.of_nat (order + 1)])
  end.

Abbreviation pitem := (item philo_access (list nat)).
Definition right (order : nat) : nat := (order + 1) mod PHILO_NUM.
Definition check (order : nat) : list pitem :=
  [LibSem.wait (CHOPSTICKS_SEM order); LibSem.wait (CHOPSTICKS_SEM (right order));
   LibSem.signal (CHOPSTICKS_SEM order); LibSem.signal (CHOPSTICKS_SEM (right order))].
Definition hungry (order : nat) : list pitem :=
  LibSem.wait SERVER :: check order ++
  [LibSem.wait (CHOPSTICKS_SEM order); LibSem.wait (CHOPSTICKS_SEM (right order)); LibSem.signal SERVER;
   Act Sleep; Act (HaveEaten order);
   LibSem.signal (CHOPSTICKS_SEM order); LibSem.signal (CHOPSTICKS_SEM (right order))].
Definition philo_round (i : nat) : list pitem := Act Sleep :: hungry i.
Definition philo_program : program philo_access (list nat) := {|
  N := PHILO_NUM; child := fun i => loop_code (fun _ => philo_round i) None;
  getp := fun l => l; setp := fun ps _ => ps;
  pre := map (fun i => LibSem.init (CHOPSTICKS_SEM i) 1) (seq 0 PHILO_NUM) ++ [LibSem.init SERVER 1];
  mid := []; say := fun _ => []; last := [] |}.
Definition philo_start : world philo_access (list nat) unit :=
  mkW SemSet.new tt [mkT (main_code philo_program) (replicate PHILO_NUM 0%nat) false] [].

(** ** Where a process is *)
Definition philo_keys : list Z := [0; 1; 2; 3; 4; 5].
Lemma philo_keys_pre : keys (pre philo_program) = philo_keys.
Proof. done. Qed.
Global Instance philo_fork_join : ForkJoin philo_program.
Proof.
  constructor.
  - apply (bool_decide_unpack _). by vm_compute.
  - done.
  - by repeat constructor.
  - constructor.
  - constructor.
  - constructor.
Qed.

(** What holds of every philosopher at every operation is checked case by case. *)
Lemma each_place (P : nat -> nat -> bool) :
  forallb (fun i => forallb (P i) (seq 0 14)) (seq 0 5) = true ->
  forall i q, (i < 5)%nat -> (q <= 13)%nat -> P i q = true.
Proof.
  rewrite List.forallb_forall. intros H i q Hi Hq. specialize (H i ltac:(apply List.in_seq; lia)).
  rewrite List.forallb_forall in H. apply H, List.in_seq. lia.
Qed.
Definition plain_op (x : pitem) : bool :=
  match x with Wait k | Signal k => existsb (Z.eqb k) philo_keys | Act _ => true | _ => false end.
Definition plain_at (i q : nat) : bool := from_option plain_op true (philo_round i !! q).
Lemma round_plain i q x : (i < 5)%nat -> philo_round i !! q = Some x -> plain_op x = true.
Proof.
  intros Hi Hx. assert (Hq : (q < 13)%nat) by (by apply lookup_lt_Some in Hx).
  pose proof (each_place plain_at ltac:(vm_compute; reflexivity) i q Hi ltac:(lia)) as H. unfold plain_at in H. by rewrite Hx in H.
Qed.

Definition anything (_ _ : nat) (_ : list nat) (_ : unit) : Prop := True.
Lemma philo_looping i : (i < 5)%nat -> Looping (fun _ => philo_round i) 13 philo_keys anything.
Proof.
  intros Hi. constructor; try done.
  intros _ q x Hx%round_plain; [|done]. destruct x; try done; apply List.existsb_exists in Hx as (k & Hk & ->%Z.eqb_eq); by apply list_elem_of_In.
Qed.
(** A philosopher never ends. *)
Definition philo_child (i : nat) (c : list pitem) (l : list nat) (m : unit) : Prop :=
  (i < 5)%nat /\ exists j q, loop_at (fun _ => philo_round i) None 13 c j q.
(** The next operation of a philosopher, or the end of a round. *)
Lemma philo_next i x c j q : (i < 5)%nat -> loop_at (fun _ => philo_round i) None 13 (x :: c) j q ->
  (x = For j None (fun _ => philo_round i) /\ c = []) \/
  (philo_round i !! q = Some x /\ loop_at (fun _ => philo_round i) None 13 c j (S q)).
Proof.
  intros Hi H. pose proof (philo_looping i Hi) as HL.
  destruct (loop_next _ _ 13 philo_keys anything _ _ _ _ H) as [(? & ? & _)|?]; auto.
Qed.
Global Instance philo_children : ChildMoves philo_program philo_child.
Proof.
  constructor; unfold philo_child; rewrite ?philo_keys_pre.
  - intros j l m Hj. split; [done|]. by exists 0%nat, 13%nat.
  - intros j x c l m Hx (Hj & n & q & H). split; [done|]. destruct (philo_next j x c n q Hj H) as [[-> _]|[_ H']]; [done|eauto].
  - intros j a c l m l' m' o (Hj & n & q & H) _. split; [done|]. destruct (philo_next j _ c n q Hj H) as [[? _]|[_ H']]; [done|eauto].
  - intros j i b body c l m Hb (Hj & n & q & H). split; [done|]. destruct (philo_next j _ c n q Hj H) as [[[= -> -> ->] ->]|[Hx _]].
    + exists (S n), 0%nat. split; [lia|]. done.
    + by apply round_plain in Hx.
  - intros j i b body c l m Hb (Hj & n & q & H). split; [done|]. destruct (philo_next j _ c n q Hj H) as [[? _]|[Hx _]]; [done|].
    by apply round_plain in Hx.
  - intros j x c l m (Hj & n & q & H). destruct (philo_next j _ c n q Hj H) as [[-> _]|[Hx _]]; [done|].
    apply round_plain in Hx; [|done]. destruct x; try done; apply List.existsb_exists in Hx as (k & Hk & ->%Z.eqb_eq);
      by apply list_elem_of_In.
Qed.
Definition philo_proc : nat -> list bool -> list pitem -> list nat -> unit -> Prop := proc_ok philo_program philo_child.
Abbreviation pworld := (world philo_access (list nat) unit).

(** Philosopher [i] at operation [q]; between operations 8 and 11 it has both chopsticks. *)
Definition philo_at (i : nat) (t : thread philo_access (list nat)) (q : nat) : Prop :=
  exists j, loop_at (fun _ => philo_round (pred i)) None 13 (code t) j q.
Definition eating (q : nat) : Prop := (8 <= q <= 11)%nat.

(** ** Who holds what *)
Definition held (i : nat) (k : Z) (q : nat) : Z := - weight (net k) (drop q (philo_round i)).
Lemma held_01 i k q : (i < 5)%nat -> (q <= 13)%nat -> k ∈ philo_keys -> 0 <= held i k q <= 1.
Proof.
  intros Hi Hq Hk. pose proof (each_place (fun i q => forallb (fun k => (0 <=? held i k q) && (held i k q <=? 1)) philo_keys)
    ltac:(vm_compute; reflexivity) i q Hi Hq) as H. cbv beta in H. rewrite List.forallb_forall in H.
  specialize (H k ltac:(by apply list_elem_of_In)). apply andb_prop in H as [H1%Z.leb_le H2%Z.leb_le]. done.
Qed.
Lemma eating_holds i q : (i < 5)%nat -> eating q ->
  held i (CHOPSTICKS_SEM i) q = 1 /\ held i (CHOPSTICKS_SEM (right i)) q = 1.
Proof.
  intros Hi Hq. unfold eating in Hq.
  pose proof (each_place (fun i q => negb ((8 <=? q)%nat && (q <=? 11)%nat) ||
    ((held i (CHOPSTICKS_SEM i) q =? 1) && (held i (CHOPSTICKS_SEM (right i)) q =? 1))) ltac:(vm_compute; reflexivity) i q Hi ltac:(lia)) as H.
  cbv beta in H. rewrite (proj2 (Nat.leb_le 8 q)), (proj2 (Nat.leb_le q 11)) in H by lia.
  apply andb_prop in H as [H1%Z.eqb_eq H2%Z.eqb_eq]. done.
Qed.
Definition waits_well (i q : nat) : bool :=
  match philo_round i !! q with
  | Some (Wait k) => (held i k q =? 0) && ((k =? SERVER) || (held i SERVER q =? 1)) &&
      forallb (fun k' => (held i k' q <=? 0) || (held i SERVER q =? 1)) philo_keys
  | _ => true
  end.
(** Whoever waits and holds something holds [SERVER], and not what it waits for; and
    whoever waits for a chopstick holds [SERVER]. *)
Lemma waiting_holds i q k : (i < 5)%nat -> philo_round i !! q = Some (Wait k) ->
  held i k q = 0 /\ (k <> SERVER -> held i SERVER q = 1) /\
  forall k', k' ∈ philo_keys -> 0 < held i k' q -> held i SERVER q = 1.
Proof.
  intros Hi Hx. assert (Hq : (q < 13)%nat) by (by apply lookup_lt_Some in Hx).
  pose proof (each_place waits_well ltac:(vm_compute; reflexivity) i q Hi ltac:(lia)) as H. unfold waits_well in H. rewrite Hx in H.
  apply andb_prop in H as [[H1%Z.eqb_eq H2]%andb_prop H3]. split; [done|]. split.
  - intros Hk. apply orb_prop in H2 as [H2%Z.eqb_eq|H2%Z.eqb_eq]; done.
  - intros k' Hk' Hpos. rewrite List.forallb_forall in H3. specialize (H3 k' ltac:(by apply list_elem_of_In)).
    apply orb_prop in H3 as [H3%Z.leb_le|H3%Z.eqb_eq]; [lia|done].
Qed.

(** ** Weights *)
Lemma philo_round_weight i k : (i < 5)%nat -> k ∈ philo_keys -> weight (net k) (philo_round i) = 0.
Proof.
  intros Hi Hk. pose proof (each_place (fun i q => forallb (fun k => weight (net k) (philo_round i) =? 0) philo_keys)
    ltac:(vm_compute; reflexivity) i 0 Hi ltac:(lia)) as H. cbv beta in H. rewrite List.forallb_forall in H.
  apply Z.eqb_eq, H. by apply list_elem_of_In.
Qed.
Lemma at_weight i t q k : (pred i < 5)%nat -> k ∈ philo_keys -> philo_at i t q -> - weight (net k) (code t) = held (pred i) k q.
Proof.
  intros Hi Hk [j H]. rewrite (loop_weight_endless _ 13 (net k) _ j q 0 H); [unfold held; lia|]. intros _. by apply philo_round_weight.
Qed.
Lemma child_place w i t : each philo_proc w -> threads w !! i = Some t -> i <> 0%nat ->
  (pred i < 5)%nat /\ exists q, (q <= 13)%nat /\ philo_at i t q.
Proof.
  intros He Et Hi. destruct (each_child philo_program _ w i t He Et Hi) as (Hlt & j & q & H). split; [done|]. exists q. pose proof H as (Hq & _). split; [done|]. by exists j.
Qed.
Lemma main_weight fs l c k : k ∈ philo_keys -> main_at philo_program fs l c -> weight (net k) c = 0.
Proof.
  intros Hk Hm. destruct (main_at_weight philo_program (net k)) with (fs := fs) (l := l) (c := c) as (j & -> & _); [..|done|].
  - by intros [].
  - by intros x [?%not_elem_of_nil|[[i ?%not_elem_of_nil]|?%not_elem_of_nil]].
  - rewrite (zsum_const _ _ 0); [lia|]. intros i Hi. apply elem_of_seq in Hi. cbn in Hi.
    change (child philo_program i) with (loop_code (fun _ => philo_round i) None). unfold loop_code.
    rewrite weight_cons, weight_nil. done.
Qed.
Lemma proc_weight i fs c l m k : k ∈ philo_keys -> philo_proc i fs c l m -> 0 <= - weight (net k) c.
Proof.
  intros Hk. unfold philo_proc, proc_ok. case_decide as Hi.
  - intros [(x & p & Hx & -> & Hl & Hq)|Hm]; [|by rewrite (main_weight fs l)].
    rewrite app_comm_cons, weight_app, (main_weight fs l (forking philo_program)) by (done || by apply forking_ok).
    destruct Hx as [d Hd]. assert (Hnew : forall y, y ∈ x :: p -> exists k' v, y = New k' v /\ 0 <= v).
    { intros y Hy. assert (y ∈ pre philo_program) as Hin by (rewrite Hd; apply elem_of_app; by right).
      pose proof (pre_new philo_program) as Hp. rewrite Forall_forall in Hp. specialize (Hp y Hin).
      destruct y; try done. eauto with lia. }
    assert (0 <= zsum (fun y => - weigh (net k) y) (x :: p)) as H0.
    { apply zsum_nonneg. intros y Hy. destruct (Hnew y Hy) as (k' & v & -> & Hv). cbn. destruct (k' =? k); lia. }
    assert (zsum (fun y => - weigh (net k) y) (x :: p) = - weight (net k) (x :: p)); [|lia].
    generalize (x :: p) as z. intros z. induction z as [|y z IH]; [done|]. rewrite zsum_cons, weight_cons. lia.
  - intros (Hlt & j & q & H). pose proof H as (Hq & _).
    assert (E : - weight (net k) c = held (pred i) k q).
    { apply (at_weight i (mkT c l false) q k Hlt Hk). by exists j. }
    rewrite E. by apply held_01.
Qed.

(** ** The invariant *)
Definition one (_ : Z) : Z := 1.
Definition philo_inv (w : pworld) : Prop := wf w /\ each philo_proc w /\ lives philo_program one w.
Lemma philo_balanced w : philo_inv w -> forall k, k ∈ philo_keys -> balance k w = 1.
Proof.
  intros (_ & _ & t0 & _ & _ & Hl) k Hk. destruct Hl as [? ? ? ? ? ? ? ? Hb|? ? Hb|Hs Hne]; [by apply Hb..|].
  apply suffix_nil_inv in Hs. by destruct Hne.
Qed.
(** At most one process holds each semaphore. *)
Lemma philo_exclusive w k : philo_inv w -> k ∈ philo_keys -> zsum (fun t => - weight (net k) (code t)) (threads w) <= 1.
Proof.
  intros Hinv Hk. pose proof (philo_balanced w Hinv k Hk) as Hb. destruct Hinv as (Hwf & _). pose proof (cnt_nonneg w k Hwf).
  rewrite held_sum. unfold balance in Hb. lia.
Qed.
Lemma philo_one_holder w i j t u qi qj k : philo_inv w -> k ∈ philo_keys ->
  threads w !! i = Some t -> threads w !! j = Some u -> (pred i < 5)%nat -> (pred j < 5)%nat ->
  philo_at i t qi -> philo_at j u qj -> held (pred i) k qi = 1 -> held (pred j) k qj = 1 -> i = j.
Proof.
  intros Hinv Hk Et Eu Hi Hj Hti Huj H1 H2. destruct (decide (i = j)) as [|Hne]; [done|exfalso].
  pose proof (philo_exclusive w k Hinv Hk) as Hx.
  pose proof (zsum_ge_two (fun t => - weight (net k) (code t)) (threads w) i j t u) as H. cbv beta in H.
  rewrite (at_weight i t qi k), (at_weight j u qj k), H1, H2 in H by done.
  assert (1 + 1 <= 1); [|lia]. etrans; [apply H; try done|done].
  intros y [n Ey]%list_elem_of_lookup. destruct Hinv as (_ & He & _). by eapply proc_weight, He.
Qed.
(** What has been taken has a holder. *)
Lemma philo_holder w k t0 : philo_inv w -> k ∈ philo_keys -> cnt k (sems w) = 0 ->
  threads w !! 0%nat = Some t0 -> weight (net k) (code t0) = 0 ->
  exists i t q, threads w !! i = Some t /\ i <> 0%nat /\ (pred i < 5)%nat /\ (q <= 13)%nat /\
    philo_at i t q /\ held (pred i) k q = 1.
Proof.
  intros Hinv Hk H0 Et0 Hm. pose proof (philo_balanced w Hinv k Hk) as Hb. unfold balance in Hb.
  assert (0 < zsum (fun t => - weight (net k) (code t)) (threads w)) as Hpos by (rewrite held_sum; lia).
  apply zsum_pos in Hpos as (i & t & Et & Ht). destruct (decide (i = 0%nat)) as [->|Hi].
  { rewrite Et0 in Et. injection Et as <-. lia. }
  pose proof Hinv as (_ & He & _). destruct (child_place w i t He Et Hi) as (Hlt & q & Hq & Hat).
  exists i, t, q. repeat (split; [done|]). rewrite (at_weight i t q k) in Ht by done.
  pose proof (held_01 (pred i) k q Hlt Hq Hk). lia.
Qed.

Lemma philo_room w : philo_inv w -> room philo_program one w.
Proof.
  intros (Hwf & He & _) Hb k Hk. change (k ∈ philo_keys) in Hk. specialize (Hb k Hk). unfold balance, one in Hb.
  assert (0 <= - remaining (net k) w); [|lia]. rewrite <- held_sum. apply zsum_nonneg.
  intros u [n Eu]%list_elem_of_lookup. by eapply proc_weight, He.
Qed.

(** ** Progress *)
Definition is_meal (a : philo_access) : bool := match a with HaveEaten _ => true | Sleep => false end.
Lemma round_has_meal i : Exists (fun x => stops is_meal x = true) (philo_round i).
Proof. apply Exists_exists. exists (Act (HaveEaten i)). split; [|done]. apply list_elem_of_lookup. by exists 10%nat. Qed.
(** The endless loops are those of the philosophers. *)
Lemma philo_loops w i t j body c : each philo_proc w -> threads w !! i = Some t -> code t = For j None body :: c ->
  exists n, forall k, body k = philo_round n.
Proof.
  intros He Et Hc. destruct (decide (i = 0%nat)) as [->|Hi].
  - pose proof (each_main philo_program _ w t He Et) as Hm. rewrite Hc in Hm. by apply (main_no_wait philo_program) in Hm.
  - destruct (each_child philo_program _ w i t He Et Hi) as (Hlt & jj & q & H). rewrite Hc in H.
    destruct (philo_next _ _ c jj q Hlt H) as [[[= _ ->] _]|[Hx _]]; [by exists (pred i)|by apply round_plain in Hx].
Qed.

Lemma philo_step w w' : philo_inv w -> step w w' -> philo_inv w' /\
  ((length (out w) < length (out w'))%nat \/ (out w' = out w /\ quiet is_meal w' < quiet is_meal w)).
Proof.
  intros Hinv Hs. pose proof (philo_room w Hinv) as Hroom. destruct Hinv as (Hwf & He & Hl).
  destruct (life_step philo_program _ one w w' Hwf He Hl Hroom Hs) as (i & t & x & c & Et & Hb & Hc & Hef & Hwf' & Hl').
  assert (He' : each philo_proc w').
  { eapply (effect_each philo_proc); [exact (proc_moves philo_program philo_child)|done..| |done].
    intros a l m o j u -> Ea _ _. destruct a; by injection Ea as <- <- <-. }
  split; [split; [done|split; [done|by apply Hl']]|].
  assert (Hquiet : match x with Act a => is_meal a = false | _ => True end -> quiet is_meal w' < quiet is_meal w).
  { intros Hx. eapply effect_quiet; [done..|]. destruct x as [| | | |a|j [n|] body| |]; try done.
    - split; [by destruct a|done].
    - destruct (philo_loops w i t j body c He Et Hc) as [n Hn]. rewrite Hn. apply round_has_meal. }
  destruct (effect_acts i w t x c w' (fun _ => 0) Et Hc Hef) as [(a & l & m & o & -> & Ea & _ & Ho & _)|(_ & Ho & _ & Ha)].
  - destruct a; injection Ea as <- <- <-; rewrite Ho.
    + right. rewrite app_nil_r. auto.
    + left. rewrite length_app. cbn. lia.
  - right. split; [done|]. apply Hquiet. destruct x as [| | | |[]| | |]; done.
Qed.

(** ** No deadlock *)

(** A stuck philosopher waits at one of its waits. *)
Lemma philo_at_running i t q : philo_at i t q -> code t <> [].
Proof. intros (j & _ & _ & _ & E) E'. rewrite E' in E. by destruct (drop q (philo_round (pred i))). Qed.
Lemma philo_stuck_child w i t q : philo_inv w -> stuck w -> threads w !! i = Some t -> i <> 0%nat ->
  (pred i < 5)%nat -> philo_at i t q -> exists k, philo_round (pred i) !! q = Some (Wait k) /\ cnt k (sems w) = 0 /\ k ∈ philo_keys.
Proof.
  intros (Hwf & He & _) Hst Et Hi Hlt Hat. pose proof (philo_at_running i t q Hat) as Hne. destruct Hat as [j H].
  destruct (stuck_why i w t Hwf Hst Et Hne) as [(k & c & Hc & _ & H0 & _)|(p & c & Hc & _)];
    rewrite Hc in H; destruct (philo_next _ _ c j q Hlt H) as [[? _]|[Hx _]]; try done.
  - exists k. split; [done|]. split; [done|]. apply round_plain in Hx; [|done].
    apply List.existsb_exists in Hx as (k' & Hk & ->%Z.eqb_eq). by apply list_elem_of_In.
  - by apply round_plain in Hx.
Qed.
Lemma server_key : SERVER ∈ philo_keys.
Proof. unfold philo_keys, SERVER, LibSem.new. set_solver. Qed.

(** Nobody can hold [SERVER] in a stuck world. *)
Lemma philo_no_server w t0 i t q : philo_inv w -> stuck w ->
  threads w !! 0%nat = Some t0 -> (forall k, k ∈ philo_keys -> weight (net k) (code t0) = 0) ->
  threads w !! i = Some t -> i <> 0%nat -> (pred i < 5)%nat -> philo_at i t q ->
  held (pred i) SERVER q = 1 -> False.
Proof.
  intros Hinv Hst Et0 Hm Et Hi Hlt Hat Hs.
  destruct (philo_stuck_child w i t q Hinv Hst Et Hi Hlt Hat) as (k & Hk & H0 & Hkk).
  destruct (waiting_holds (pred i) q k Hlt Hk) as (Hnot & _ & _).
  destruct (philo_holder w k t0 Hinv Hkk H0 Et0 (Hm k Hkk)) as (j & u & q' & Eu & Hj & Hlt' & Hq' & Hat' & Hheld).
  destruct (philo_stuck_child w j u q' Hinv Hst Eu Hj Hlt' Hat') as (k' & Hk' & _ & _).
  destruct (waiting_holds (pred j) q' k' Hlt' Hk') as (_ & _ & Hsrv).
  assert (i = j) as <-.
  { eapply (philo_one_holder w i j t u q q' SERVER Hinv server_key); try done. apply (Hsrv k); [done|lia]. }
  rewrite Et in Eu. injection Eu as <-.
  assert (- weight (net k) (code t) = held (pred i) k q) as E1 by (by apply at_weight).
  assert (- weight (net k) (code t) = held (pred i) k q') as E2 by (by apply at_weight). lia.
Qed.
(** [main] has forked everybody and waits for the first. *)
Lemma philo_stuck_main w t0 : philo_inv w -> stuck w -> threads w !! 0%nat = Some t0 ->
  (forall k, k ∈ philo_keys -> weight (net k) (code t0) = 0) /\ length (threads w) = 6%nat.
Proof.
  intros (Hwf & He & _) Hst Et0. pose proof (each_main philo_program _ w t0 He Et0) as Hm.
  destruct (decide (code t0 = [])) as [E|Hne].
  - destruct (main_done philo_program _ w t0 He Et0) as [Hl _]; [by rewrite E|]. split; [by rewrite E|done].
  - destruct (stuck_why 0 w t0 Hwf Hst Et0 Hne) as [(k & c & Hc & _)|(p & c & Hc & _)]; rewrite Hc in *.
    + by apply (main_no_wait philo_program) in Hm.
    + pose proof (main_join_all philo_program _ _ _ _ Hm) as Hl. unfold fins in Hl. rewrite length_fmap in Hl. split; [|done].
      intros k Hk. destruct Hm as [(x & q & Hq & [= <- ->] & _)|Hm]; [by apply (pre_elem philo_program) in Hq as (? & ? & ? & _)|].
      by apply (main_weight (fins w) (loc t0)).
Qed.
Lemma philo_not_stuck w : philo_inv w -> ~ stuck w.
Proof.
  intros Hinv Hst. pose proof Hinv as (_ & He & t0 & Et0 & _).
  destruct (philo_stuck_main w t0 Hinv Hst Et0) as [Hmw Hlen].
  destruct (lookup_lt_is_Some_2 (threads w) 1 ltac:(lia)) as [t1 Et1].
  destruct (child_place w 1 t1 He Et1 ltac:(lia)) as (Hlt & q & Hq & Hat).
  destruct (philo_stuck_child w 1 t1 q Hinv Hst Et1 ltac:(lia) Hlt Hat) as (k & Hk & H0 & Hkk).
  destruct (waiting_holds (pred 1) q k Hlt Hk) as (_ & Hsrv & _). destruct (decide (k = SERVER)) as [->|Hks].
  - destruct (philo_holder w SERVER t0 Hinv Hkk H0 Et0 (Hmw _ Hkk)) as (j & u & q' & Eu & Hj & Hlt' & Hq' & Hat' & Hheld).
    by apply (philo_no_server w t0 j u q').
  - apply (philo_no_server w t0 1 t1 q); auto.
Qed.

Lemma philo_start_inv : philo_inv philo_start.
Proof.
  split; [|split].
  - split; [done|]. intros [|i] t E Hb; [by injection E as <-|done].
  - intros [|j] u E; [|done]. injection E as <-. unfold philo_proc, proc_ok. rewrite decide_True by done. left.
    eexists (LibSem.init (CHOPSTICKS_SEM 0) 1), _. split; [by exists []|]. done.
  - eexists. split; [done|]. split; [done|]. eapply (creating _ _ _ _ 0 1 [] _); [done|done|done| |].
    + intros k. split; [by intros [? ?]|by intros ?%not_elem_of_nil].
    + intros k Hk. change (k ∈ philo_keys) in Hk. unfold philo_keys in Hk. rewrite !elem_of_cons in Hk.
      by destruct Hk as [->|[->|[->|[->|[->|[->|[]%not_elem_of_nil]]]]]].
Qed.

(** ** Midnight

    [sleep] subtracts two readings of the time of day; one that goes over midnight
    panics ([sleep_panics_at_midnight] of [Abi.v]), and the panic handler of the
    library exits: philosopher [i] is gone, with the chopsticks that it holds. *)
Inductive midnight (i : nat) (w : pworld) : pworld -> Prop :=
| dies t c : threads w !! S i = Some t -> blocked t = false -> code t = Act Sleep :: c ->
    midnight i w (mkW (sems w) (mem w) (<[S i := mkT [] (loc t) false]> (threads w)) (out w)).
(** A step of some process, or the end of a sleeper. *)
Definition any_step (w w' : pworld) : Prop := step w w' \/ exists i, midnight i w w'.

(** A world [w] with dead philosophers against a world [v] in which nobody died: a dead
    one [D i] sleeps on in [v], and [main] may have waited for dead ones in [w]. *)
Definition joins (c : list pitem) : Prop :=
  c = [] \/ exists j, c = [For j (Some PHILO_NUM) (join_one philo_program)] \/
    exists p, c = [Join p; For j (Some PHILO_NUM) (join_one philo_program)].
Abbreviation pthread := (thread philo_access (list nat)).
Definition in_joins (t : option pthread) : Prop := exists u, t = Some u /\ joins (code u).
Record ghost (D : nat -> option pthread) (w v : pworld) : Prop := {
  g_sems : sems w = sems v;
  g_len : length (threads w) = length (threads v);
  g_main : threads w !! 0%nat = threads v !! 0%nat \/ in_joins (threads w !! 0%nat) /\ in_joins (threads v !! 0%nat);
  g_live i : D i = None -> threads w !! S i = threads v !! S i;
  g_dead i u : D i = Some u -> threads v !! S i = Some u /\ threads w !! S i = Some (mkT [] (loc u) false) /\
    blocked u = false /\ exists c, code u = Act Sleep :: c;
}.
(** A process that is the same in both worlds. *)
Definition same (D : nat -> option pthread) (i : nat) : Prop := match i with O => True | S i => D i = None end.

Lemma ghost_alter D w v i f sm o o' : ghost D w v -> same D i -> threads w !! i = threads v !! i ->
  ghost D (mkW sm tt (alter f i (threads w)) o) (mkW sm tt (alter f i (threads v)) o').
Proof.
  intros [Hs Hl Hm Hlive Hdead] Hi E. split; cbn [sems threads]; [done|by rewrite !length_alter|..].
  - destruct i as [|i]; [left; by rewrite !list_lookup_alter_eq, E|]. by rewrite !list_lookup_alter_ne.
  - intros j Hj. destruct (decide (i = S j)) as [->|]; [by rewrite !list_lookup_alter_eq, E|]. rewrite !list_lookup_alter_ne by done. auto.
  - intros j u Hj. assert (i <> S j) by (intros ->; cbn in Hi; congruence). rewrite !list_lookup_alter_ne by done. auto.
Qed.
Lemma insert_alter {B} (l : list B) i x y : l !! i = Some x -> <[i := y]> l = alter (fun _ => y) i l.
Proof.
  intros E. apply list_eq. intros j. destruct (decide (i = j)) as [->|].
  - rewrite list_lookup_insert_eq, list_lookup_alter_eq, E by (by eapply lookup_lt_Some). done.
  - by rewrite list_lookup_insert_ne, list_lookup_alter_ne.
Qed.
Lemma ghost_insert D w v i t t' sm o o' : ghost D w v -> same D i -> threads w !! i = Some t -> threads v !! i = Some t ->
  ghost D (mkW sm tt (<[i := t']> (threads w)) o) (mkW sm tt (<[i := t']> (threads v)) o').
Proof. intros Hg Hi Ew Ev. rewrite (insert_alter _ i t t' Ew), (insert_alter _ i t t' Ev). apply ghost_alter; [done..|congruence]. Qed.
Lemma ghost_fork D w v i t t' u sm o o' : ghost D w v -> same D i -> threads w !! i = Some t -> threads v !! i = Some t ->
  ghost D (mkW sm tt (<[i := t']> (threads w) ++ [u]) o) (mkW sm tt (<[i := t']> (threads v) ++ [u]) o').
Proof.
  intros Hg Hi Ew Ev. pose proof (g_len _ _ _ Hg) as Hlen.
  destruct (ghost_insert D w v i t t' sm o o' Hg Hi Ew Ev) as [Hs Hl Hm Hlive Hdead]. cbn [sems threads] in *.
  assert (Happ : forall n, (<[i := t']> (threads w)) !! n = (<[i := t']> (threads v)) !! n ->
    (<[i := t']> (threads w) ++ [u]) !! n = (<[i := t']> (threads v) ++ [u]) !! n).
  { intros n E. rewrite !lookup_app, E, Hl. done. }
  split; cbn [sems threads]; [done|by rewrite !length_app, Hl|..].
  - destruct Hm as [Hm|[(x & Hx & Jx) (y & Hy & Jy)]]; [left; by apply Happ|right]. rewrite !lookup_app, Hx, Hy. split; [by exists x|by exists y].
  - intros j Hj. apply Happ. auto.
  - intros j x Hj. destruct (Hdead j x Hj) as (E1 & E2 & H3). rewrite !lookup_app, E1, E2. done.
Qed.

(** A step of a process that is the same in both worlds and does not wait for another. *)
Lemma ghost_step D w v i t x c w2 : ghost D w v -> philo_inv v -> same D i -> threads w !! i = Some t -> threads v !! i = Some t ->
  code t = x :: c -> match x with Join _ => False | _ => True end -> step1 i w = Some w2 ->
  exists v2, step1 i v = Some v2 /\ ghost D w2 v2.
Proof.
  intros Hg Hinv Hi Ew Ev Hc Hx. unfold step1. rewrite Ew, Ev. cbn [mbind option_bind]. destruct (blocked t); [done|]. rewrite Hc.
  rewrite (g_sems _ _ _ Hg). destruct (mem w), (mem v). pose proof (fun t' sm o o' => ghost_insert D w v i t t' sm o o' Hg Hi Ew Ev) as Hins.
  destruct x as [k|k|k n|k|a|j n body|ch ret|q]; [..|done].
  - destruct (SemSet.wait k (Z.of_nat i) (sems v)) as [[] sm]; intros [= <-]; eexists; (split; [reflexivity|apply Hins]).
  - destruct (SemSet.signal k (sems v)) as [r sm] eqn:Es. destruct r as [| |b|p]; intros [= <-]; eexists; (split; [reflexivity|]); try apply Hins.
    assert (Hw : exists j u, p = Z.of_nat j /\ threads v !! j = Some u /\ blocked u = true).
    { unfold SemSet.signal, Sem.signal in Es. destruct (sems v !! k) as [sem|] eqn:Ek; [|done].
      destruct Hinv as ((Hsem & _) & _). destruct (Hsem k sem Ek) as (_ & _ & _ & Hin). destruct (wait_queue sem) as [|p' q] eqn:Eq; [done|].
      injection Es as -> _. destruct (proj1 (Hin p) (list_elem_of_here _ _)) as (j & u & d & -> & Eu & Hb & _). eauto. }
    destruct Hw as (j & u & -> & Eu & Hb). rewrite Nat2Z.id. pose proof Hinv as ((_ & Hpark) & He & _).
    assert (Hj : same D j /\ threads w !! j = threads v !! j).
    { destruct j as [|j].
      - split; [done|]. destruct (g_main _ _ _ Hg) as [|[_ (y & Hy & Hjo)]]; [done|]. rewrite Eu in Hy. injection Hy as <-.
        destruct (Hpark 0%nat u Eu Hb) as (k' & d & Hd & _). pose proof (each_main philo_program _ v u He Eu) as Hm. rewrite Hd in Hm. by apply (main_no_wait philo_program) in Hm.
      - assert (HD : D j = None).
        { destruct (D j) as [y|] eqn:ED; [|done]. destruct (g_dead _ _ _ Hg j y ED) as (E1 & _ & Hb' & _). congruence. }
        split; [done|]. by apply (g_live _ _ _ Hg). }
    destruct Hj as [Hj Ej]. set (w1 := mkW (sems v) tt (<[i := goto c t]> (threads w)) (out w)). set (v1 := mkW (sems v) tt (<[i := goto c t]> (threads v)) (out v)).
    change (<[i := goto c t]> (threads w)) with (threads w1). change (<[i := goto c t]> (threads v)) with (threads v1).
    apply ghost_alter; [apply Hins|done|]. cbn [w1 v1 threads]. destruct (decide (i = j)) as [->|].
    + by rewrite !list_lookup_insert_eq by (by eapply lookup_lt_Some).
    + by rewrite !list_lookup_insert_ne.
  - intros [= <-]; eexists; (split; [reflexivity|apply Hins]).
  - intros [= <-]; eexists; (split; [reflexivity|apply Hins]).
  - destruct (act a (loc t) tt) as [[[l []] o]|]; intros [= <-]; eexists; (split; [reflexivity|apply Hins]).
  - destruct (match n with None => true | Some n => (j <? n)%nat end); intros [= <-]; eexists; (split; [reflexivity|apply Hins]).
  - rewrite (g_len _ _ _ Hg). intros [= <-]; eexists; (split; [reflexivity|]). by eapply ghost_fork.
Qed.
(** The code of [main] at a join. *)
Lemma main_in_joins fs l c q : main_ok philo_program fs l (Join q :: c) -> joins (Join q :: c) /\ joins c.
Proof.
  intros [(x & p & Hp & [= <- ->] & _)|Hm]; [by apply (pre_elem philo_program) in Hp as (? & ? & ? & _)|].
  inversion Hm as [| |x p Hs _ _ E| |j x p Hj Hs _ _ _ E|d _ _ Hs E]; subst.
  - by apply suffix_nil_inv in Hs.
  - apply (join_elem philo_program) in Hs as [[[] _]|[_ ->]]. split; right; exists (S j); [right; by eexists|by left].
  - by apply suffix_nil_inv in Hs.
Qed.
Lemma joins_step (w w2 : pworld) t : threads w !! 0%nat = Some t -> joins (code t) -> step1 0 w = Some w2 ->
  exists t', joins (code t') /\ w2 = mkW (sems w) (mem w) (<[0%nat := t']> (threads w)) (out w).
Proof.
  intros Et Hj. unfold step1. rewrite Et. cbn [mbind option_bind]. destruct (blocked t); [done|].
  destruct Hj as [->|(j & [-> |(q & ->)])]; [done|..].
  - destruct (j <? PHILO_NUM)%nat; intros [= <-]; rewrite app_nil_r; eexists; (split; [|reflexivity]); cbn [goto code];
      [right; exists (S j); right; by eexists|by left].
  - destruct (threads w !! q (loc t)) as [u|]; [|done]. cbn [mbind option_bind]. destruct (finished u); [|done].
    intros [= <-]. rewrite app_nil_r. eexists. split; [|reflexivity]. cbn. right. exists j. by left.
Qed.
Lemma ghost_main D w v t' : ghost D w v -> joins (code t') -> in_joins (threads v !! 0%nat) -> (0 < length (threads w))%nat ->
  ghost D (mkW (sems w) (mem w) (<[0%nat := t']> (threads w)) (out w)) v.
Proof.
  intros [Hs Hl Hm Hlive Hdead] Hj Hv Hn. split; cbn [sems threads]; [done|by rewrite length_insert|..].
  - right. split; [|done]. exists t'. by rewrite list_lookup_insert_eq.
  - intros i Hi. rewrite list_lookup_insert_ne by done. auto.
  - intros i u Hi. rewrite list_lookup_insert_ne by done. auto.
Qed.
Lemma ghost_dies D w v i w2 : ghost D w v -> philo_inv v -> midnight i w w2 ->
  exists t c, threads w !! S i = Some t /\ code t = Act Sleep :: c /\ D i = None /\
    ghost (fun j => if decide (j = i) then Some t else D j) w2 v.
Proof.
  intros Hg Hinv [t c Et Hb Hc]. exists t, c. assert (HD : D i = None).
  { destruct (D i) as [u|] eqn:E; [|done]. destruct (g_dead _ _ _ Hg i u E) as (_ & E2 & _). rewrite Et in E2. injection E2 as ->. done. }
  do 3 (split; [done|]). destruct Hg as [Hs Hl Hm Hlive Hdead]. pose proof (Hlive i HD) as Ev. rewrite Et in Ev.
  split; cbn [sems threads]; [done|by rewrite length_insert|by rewrite list_lookup_insert_ne|..].
  - intros j. case_decide; [done|]. intros Hj. rewrite list_lookup_insert_ne by congruence. auto.
  - intros j u. case_decide as Hj; [intros [= <-]; subst j|].
    + split; [done|]. split; [|by eauto]. apply list_lookup_insert_eq. by eapply lookup_lt_Some.
    + intros HDj. rewrite list_lookup_insert_ne by congruence. auto.
Qed.
(** Every step in the world with deaths is a step, or none, of the world without. *)
Lemma ghost_any_step D w v w2 : ghost D w v -> philo_inv v -> any_step w w2 ->
  exists D2 v2, ghost D2 w2 v2 /\ philo_inv v2 /\ forall i u, D i = Some u -> D2 i = Some u.
Proof.
  intros Hg Hinv [[i Hs]|[i Hd]].
  - destruct (threads w !! i) as [t|] eqn:Et; [|unfold step1 in Hs; by rewrite Et in Hs].
    assert (Hgo : forall x c, threads v !! i = Some t -> same D i -> code t = x :: c -> match x with Join _ => False | _ => True end ->
      exists D2 v2, ghost D2 w2 v2 /\ philo_inv v2 /\ forall i u, D i = Some u -> D2 i = Some u).
    { intros x c Ev Hsame Hc Hx. destruct (ghost_step D w v i t x c w2 Hg Hinv Hsame Et Ev Hc Hx Hs) as (v2 & E2 & Hg2).
      exists D, v2. split; [done|]. split; [|done]. destruct (philo_step v v2 Hinv) as [? _]; [by exists i|done]. }
    destruct (code t) as [|x c] eqn:Hc; [unfold step1 in Hs; rewrite Et in Hs; cbn in Hs; rewrite Hc in Hs; by destruct (blocked t)|].
    destruct i as [|i].
    + destruct (g_main _ _ _ Hg) as [Ev|[(y & Hy & Hjy) Hv]].
      * rewrite Et in Ev. symmetry in Ev. destruct x as [| | | | | | |q]; try by eapply (Hgo _ _ Ev).
        pose proof Hinv as (_ & He & _). pose proof (each_main philo_program _ v t He Ev) as Hm. rewrite Hc in Hm.
        destruct (main_in_joins _ _ _ _ Hm) as [Hj _]. rewrite <- Hc in Hj.
        destruct (joins_step w w2 t Et Hj Hs) as (t' & Hj' & ->). exists D, v. split; [|done].
        apply ghost_main; [done|done|by exists t|by eapply lookup_lt_Some].
      * rewrite Et in Hy. injection Hy as <-. destruct (joins_step w w2 t Et Hjy Hs) as (t' & Hj' & ->). exists D, v. split; [|done].
        apply ghost_main; [done..|by eapply lookup_lt_Some].
    + destruct (D i) as [u|] eqn:HD.
      { destruct (g_dead _ _ _ Hg i u HD) as (_ & E2 & _). rewrite Et in E2. injection E2 as ->. done. }
      pose proof (g_live _ _ _ Hg i HD) as Ev. rewrite Et in Ev. symmetry in Ev. apply (Hgo x c Ev HD eq_refl).
      destruct x as [| | | | | | |q]; try done. pose proof Hinv as (_ & He & _).
      destruct (each_child philo_program _ v (S i) t He Ev ltac:(done)) as (Hlt & j & n & H). rewrite Hc in H.
      destruct (philo_next _ _ c j n Hlt H) as [[? _]|[Hx _]]; [done|by apply round_plain in Hx].
  - destruct (ghost_dies D w v i w2 Hg Hinv Hd) as (t & c & _ & _ & HD & Hg2). eexists _, v. split; [exact Hg2|]. split; [done|].
    intros j u Hj. rewrite decide_False; [done|]. congruence.
Qed.
Lemma ghost_run D w v w2 : rtc any_step w w2 -> ghost D w v -> philo_inv v ->
  exists D2 v2, ghost D2 w2 v2 /\ philo_inv v2 /\ forall i u, D i = Some u -> D2 i = Some u.
Proof.
  intros Hr. revert D v. induction Hr as [w|w w1 w2 Hs _ IH]; intros D v Hg Hinv; [by exists D, v|].
  destruct (ghost_any_step D w v w1 Hg Hinv Hs) as (D1 & v1 & Hg1 & Hinv1 & H1).
  destruct (IH D1 v1 Hg1 Hinv1) as (D2 & v2 & Hg2 & Hinv2 & H2). exists D2, v2. eauto 10.
Qed.
Lemma ghost_start : ghost (fun _ => None) philo_start philo_start.
Proof. split; try done. by left. Qed.
(** Who is at some operation is not dead. *)
Lemma ghost_alive D w v i t q : ghost D w v -> threads w !! S i = Some t -> philo_at (S i) t q -> threads v !! S i = Some t.
Proof.
  intros Hg Et Hat. destruct (D i) as [u|] eqn:HD; [|by rewrite <- (g_live _ _ _ Hg i HD)].
  destruct (g_dead _ _ _ Hg i u HD) as (_ & E2 & _). rewrite Et in E2. injection E2 as ->. by apply philo_at_running in Hat.
Qed.
Definition neighbours (i j : nat) : Prop := (i < 5)%nat /\ (j < 5)%nat /\ (j = right i \/ i = right j).
Lemma neighbours_apart v i j t u qi qj : philo_inv v -> neighbours i j -> threads v !! S i = Some t -> threads v !! S j = Some u ->
  philo_at (S i) t qi -> philo_at (S j) u qj -> eating qi -> eating qj -> False.
Proof.
  intros Hinv (Hi & Hj & Hn) Et Eu Ht Hu Hqi Hqj.
  destruct (eating_holds i qi Hi Hqi) as [H1 H1']. destruct (eating_holds j qj Hj Hqj) as [H2 H2'].
  assert (exists k, k ∈ philo_keys /\ held i k qi = 1 /\ held j k qj = 1) as (k & Hk & Hki & Hkj).
  { destruct Hn as [-> | ->].
    - exists (CHOPSTICKS_SEM (right i)). split; [|done]. unfold right, CHOPSTICKS_SEM, LibSem.new.
      do 5 (destruct i as [|i]; [vm_compute; set_solver|]). lia.
    - exists (CHOPSTICKS_SEM (right j)). split; [|done]. unfold right, CHOPSTICKS_SEM, LibSem.new.
      do 5 (destruct j as [|j]; [vm_compute; set_solver|]). lia. }
  assert (S i = S j) as [= E] by (by eapply (philo_one_holder v (S i) (S j) t u qi qj k Hinv)).
  unfold right, PHILO_NUM in Hn. subst j. clear -Hn Hi. do 5 (destruct i as [|i]; [vm_compute in Hn; lia|]). lia.
Qed.

(** C22: [app/philo] under every schedule.  In every reachable state, also when philosophers
    have died in a sleep that went over midnight, no two neighbours are eating
    (philosopher [i] eats from when it has both chopsticks until it puts the first one
    down); and when one dies while eating, its chopsticks are lost: its neighbours never
    eat again.  As long as nobody has died, some process can make a step, and after at
    most [quiet] further steps (an explicit bound, in which a sleep is one step) somebody
    prints that it has eaten: [SERVER] rules out the deadlock in which everybody holds
    one chopstick, and meals do not stop before midnight. *)
Theorem philo_meals w : rtc any_step philo_start w ->
  (forall i j t u qi qj, neighbours i j -> threads w !! S i = Some t -> threads w !! S j = Some u ->
     philo_at (S i) t qi -> philo_at (S j) u qj -> ~ (eating qi /\ eating qj)) /\
  (forall i t q w1, threads w !! S i = Some t -> philo_at (S i) t q -> eating q -> midnight i w w1 ->
     forall w2 j u qj, rtc any_step w1 w2 -> neighbours i j -> threads w2 !! S j = Some u -> philo_at (S j) u qj -> ~ eating qj) /\
  (rtc step philo_start w ->
     ~ stuck w /\ forall n w', nsteps step n w w' -> out w' = out w -> Z.of_nat n <= quiet is_meal w).
Proof.
  intros Hr. destruct (ghost_run _ _ _ _ Hr ghost_start philo_start_inv) as (D & v & Hg & Hinv & _). split; [|split].
  - intros i j t u qi qj Hn Et Eu Ht Hu [Hqi Hqj].
    eapply (neighbours_apart v i j t u qi qj); try done; by eapply ghost_alive.
  - intros i t q w1 Et Ht Hq Hd w2 j u qj Hr2 Hn Eu Hu Hqj.
    destruct (ghost_dies D w v i w1 Hg Hinv Hd) as (t' & c & Et' & _ & _ & Hg1). rewrite Et in Et'. injection Et' as <-.
    destruct (ghost_run _ _ _ _ Hr2 Hg1 Hinv) as (D2 & v2 & Hg2 & Hinv2 & HD). specialize (HD i t). cbv beta in HD.
    rewrite decide_True in HD by done. destruct (g_dead _ _ _ Hg2 i t (HD eq_refl)) as (Ev & _).
    eapply (neighbours_apart v2 i j t u q qj); try done. by eapply ghost_alive.
  - intros Hrs. assert (Hw : philo_inv w).
    { eapply rtc_inv; [apply philo_start_inv| |done]. intros w1 w2 H1 H2. by destruct (philo_step w1 w2 H1 H2). }
    split; [by apply philo_not_stuck|]. intros n w' Hn Ho. apply (run_quiet is_meal philo_inv philo_step n w w' Hw Hn Ho).
Qed.

(** Everybody in turn, in steps of three. *)
Lemma philo_meals_witness :
  let w := run (repeat 0%nat 30 ++ concat (repeat [1; 2; 3; 1; 1; 1; 4; 5; 2; 1; 1; 1; 1; 1; 1; 1; 1]%nat 3)) philo_start in
  out w = [1] /\ ~ stuck w.
Proof.
  intros w. split; [vm_compute; reflexivity|]. assert (Hs : rtc step philo_start w) by apply run_steps.
  destruct (philo_meals w) as (_ & _ & H); [|by apply H].
  clear -Hs. induction Hs as [|x y z Hxy _ IH]; [apply rtc_refl|]. eapply rtc_l; [left; exact Hxy|exact IH].
Defined.

(** ** A night with a death

    The first philosopher dies while eating; the next one that needs a chopstick of its
    waits for it with [SERVER] in its hand, and then everybody waits. *)
Definition kill (i : nat) (w : pworld) : pworld :=
  match threads w !! S i with
  | Some t => mkW (sems w) (mem w) (<[S i := mkT [] (loc t) false]> (threads w)) (out w)
  | None => w
  end.
Definition before_midnight : pworld := run (repeat 0%nat 30 ++ repeat 1%nat 10) philo_start.
Definition after_midnight : pworld := run (concat (repeat [0; 1; 2; 3; 4; 5]%nat 60)) (kill 0 before_midnight).
Definition asleepb (t : pthread) : bool := match code t with Act Sleep :: _ => negb (blocked t) | _ => false end.
Lemma rtc_any (w w' : pworld) : rtc step w w' -> rtc any_step w w'.
Proof. induction 1 as [|x y z Hxy _ IH]; [done|]. eapply rtc_l; [by left|exact IH]. Qed.
Lemma kill_midnight i (w : pworld) : from_option asleepb false (threads w !! S i) = true -> midnight i w (kill i w).
Proof.
  unfold kill. destruct (threads w !! S i) as [t|] eqn:Et; [|done]. cbn [from_option]. unfold asleepb.
  destruct (code t) as [|[| | | |[]| | |] c] eqn:Hc; try done. intros Hb. by apply dies with c; [|apply negb_true_iff|].
Qed.
Lemma no_step (w : pworld) : stuckb w = true -> existsb asleepb (threads w) = false -> forall w', ~ any_step w w'.
Proof.
  intros Hst%stuckb_stuck Ha w' [[i Hs]|[i Hd]]; [by rewrite (Hst i) in Hs|]. destruct Hd as [t c Et Hb Hc].
  apply not_true_iff_false in Ha. apply Ha, List.existsb_exists. exists t. split.
  - apply list_elem_of_In, list_elem_of_lookup. by eexists.
  - unfold asleepb. by rewrite Hc, Hb.
Qed.
Lemma night (s1 s2 : list nat) (i : nat) (w : pworld) : midnight i (run s1 w) (kill i (run s1 w)) ->
  rtc any_step w (run s2 (kill i (run s1 w))).
Proof. intros Hm. etrans; [apply rtc_any, (run_steps s1)|]. eapply rtc_l; [right; by exists i|]. apply rtc_any, run_steps. Qed.
(** The program deadlocks after midnight: nobody can move, nobody is asleep, and four
    philosophers are waiting. *)
Theorem philo_midnight_deadlock :
  rtc any_step philo_start after_midnight /\ (forall w, ~ any_step after_midnight w) /\
  (finished <$> threads after_midnight) = [false; true; false; false; false; false].
Proof.
  split; [|split; [|vm_compute; reflexivity]].
  - unfold after_midnight, before_midnight. apply night, kill_midnight. vm_compute. reflexivity.
  - apply no_step; vm_compute; reflexivity.
Qed.
