(* ===== verification/Fish.v ===== *)
(** * The fish [app/fish]

    Models [pkg/app/fish/src/main.rs]: three processes that print one character each,
    kept in step by four semaphores so that fish appear on the screen. *)

From stdpp Require Import base numbers list gmap relations.
From S2P Require Import Prelude Bytes Str Sync Threads ForkJoin Counter Progress.

Definition FISH_THREADS : nat := 3.
Definition MAX_LEN : nat := 20.
(** [semaphore_array![0, 1, 2, 3]] *)
Definition FISH_SEM (i : nat) : Z := LibSem.new (Z.of_nat i).

(** [print!] of one character. *)
Inductive fish_access : Type := PrintChar (c : Z).
Global Instance fish_app : App fish_access (list nat) unit := fun a l m =>
  match a with PrintChar c => Some (l, m, [c]) end.

Abbreviation fitem := (item fish_access (list nat)).
Definition print_0 : list fitem :=
  [LibSem.wait (FISH_SEM 0); LibSem.wait (FISH_SEM 3); Act (PrintChar 60);
   LibSem.signal (FISH_SEM 1); LibSem.signal (FISH_SEM 2)].
Definition print_1 : list fitem :=
  [LibSem.wait (FISH_SEM 1); LibSem.wait (FISH_SEM 3); Act (PrintChar 62);
   LibSem.signal (FISH_SEM 0); LibSem.signal (FISH_SEM 2)].
Definition print_2 : list fitem :=
  [LibSem.wait (FISH_SEM 2); LibSem.wait (FISH_SEM 2); LibSem.wait (FISH_SEM 2); Act (PrintChar 95);
   LibSem.signal (FISH_SEM 3); LibSem.signal (FISH_SEM 3); LibSem.signal (FISH_SEM 3)].

(** The children: two endless loops and one of [MAX_LEN] rounds. *)
Definition fish_round (i : nat) : list fitem :=
  if (i =? 0)%nat then print_0 else if (i =? 1)%nat then print_1 else print_2.
Definition fish_rounds (i : nat) : option nat := if (i <? 2)%nat then None else Some MAX_LEN.
Definition fish_program : program fish_access (list nat) := {|
  N := FISH_THREADS; child := fun i => loop_code (fun _ => fish_round i) (fish_rounds i);
  getp := fun l => l; setp := fun ps _ => ps;
  pre := [LibSem.init (FISH_SEM 0) 1; LibSem.init (FISH_SEM 1) 0; LibSem.init (FISH_SEM 2) 3; LibSem.init (FISH_SEM 3) 0];
  mid := []; say := fun _ => []; last := [] |}.
Definition fish_start : world fish_access (list nat) unit :=
  mkW SemSet.new tt [mkT (main_code fish_program) (replicate FISH_THREADS 0%nat) false] [].

(** The picture: every fourth character is an underscore, the others alternate. *)
Definition fish_char (n : nat) : Z :=
  if (n mod 4 =? 0)%nat then 95
  else if Nat.even (n - (n + 3) / 4) then 60 else 62.

(** ** Where a process is *)
Definition fish_keys : list Z := [0; 1; 2; 3].
Definition fish_len (i : nat) : nat := length (fish_round i).
Global Instance fish_fork_join : ForkJoin fish_program.
Proof.
  constructor; try (by constructor); try done.
  - apply (bool_decide_unpack _). by vm_compute.
  - by repeat constructor.
Qed.
Lemma fish_round_cases i : (i < 3)%nat -> i = 0%nat \/ i = 1%nat \/ i = 2%nat.
Proof. lia. Qed.

(** The three children at each of their operations. *)
Lemma each_fish (P : nat -> nat -> bool) :
  forallb (fun i => forallb (P i) (seq 0 (S (fish_len i)))) (seq 0 3) = true ->
  forall i q, (i < 3)%nat -> (q <= fish_len i)%nat -> P i q = true.
Proof.
  rewrite List.forallb_forall. intros H i q Hi Hq. specialize (H i ltac:(apply List.in_seq; lia)).
  rewrite List.forallb_forall in H. apply H, List.in_seq. lia.
Qed.
Definition fish_plain (x : fitem) : bool :=
  match x with Wait k | Signal k => existsb (Z.eqb k) fish_keys | Act _ => true | _ => false end.
Definition fish_plain_at (i q : nat) : bool := from_option fish_plain true (fish_round i !! q).
Lemma fish_op_plain i q x : (i < 3)%nat -> fish_round i !! q = Some x -> fish_plain x = true.
Proof.
  intros Hi Hx. pose proof (lookup_lt_Some _ _ _ Hx) as Hq. fold (fish_len i) in Hq.
  pose proof (each_fish fish_plain_at ltac:(vm_compute; reflexivity) i q Hi ltac:(lia)) as H.
  unfold fish_plain_at in H. by rewrite Hx in H.
Qed.
Lemma fish_key_in k : existsb (Z.eqb k) fish_keys = true -> k ∈ fish_keys.
Proof. intros (k' & Hk & ->%Z.eqb_eq)%List.existsb_exists. by apply list_elem_of_In. Qed.

Definition fish_know (_ _ : nat) (_ : list nat) (_ : unit) : Prop := True.
Lemma fish_looping i : (i < 3)%nat -> Looping (fun _ => fish_round i) (fish_len i) fish_keys fish_know.
Proof.
  intros Hi. constructor; try done.
  intros _ q x Hx%fish_op_plain; [|done]. destruct x; try done; by apply fish_key_in.
Qed.
Definition fish_loop (i : nat) : list fitem -> nat -> nat -> Prop := loop_at (fun _ => fish_round i) (fish_rounds i) (fish_len i).
Definition fish_child (i : nat) (c : list fitem) (l : list nat) (m : unit) : Prop :=
  (i < 3)%nat /\ ((i = 2%nat /\ c = []) \/ exists j q, fish_loop i c j q).
Lemma fish_next i x c j q : (i < 3)%nat -> fish_loop i (x :: c) j q ->
  (x = For j (fish_rounds i) (fun _ => fish_round i) /\ c = [] /\ q = fish_len i) \/
  (fish_round i !! q = Some x /\ fish_loop i c j (S q)).
Proof. intros Hi H. pose proof (fish_looping i Hi) as HL. exact (loop_next _ _ _ fish_keys fish_know _ _ _ _ H). Qed.
Global Instance fish_children : ChildMoves fish_program fish_child.
Proof.
  constructor; unfold fish_child.
  - intros j l m Hj. split; [done|]. right. exists 0%nat, (fish_len j). split; [done|]. split; [by destruct (fish_rounds j); try lia|].
    split; [done|]. unfold fish_len. by rewrite drop_all.
  - intros j x c l m Hx (Hj & [[_ ?]|(n & q & H)]); [done|]. split; [done|].
    destruct (fish_next j x c n q Hj H) as [(-> & _)|[_ H']]; [done|eauto].
  - intros j a c l m l' m' o (Hj & [[_ ?]|(n & q & H)]) _; [done|]. split; [done|].
    destruct (fish_next j _ c n q Hj H) as [(? & _)|[_ H']]; [done|eauto].
  - intros j i b body c l m Hb (Hj & [[_ ?]|(n & q & H)]); [done|]. split; [done|]. right.
    pose proof H as (_ & Hn & _). destruct (fish_next j _ c n q Hj H) as [([= -> -> ->] & -> & _)|[Hx _]].
    + exists (S n), 0%nat. split; [lia|]. split; [by destruct (fish_rounds j)|]. done.
    + by apply fish_op_plain in Hx.
  - intros j i b body c l m Hb (Hj & [[_ ?]|(n & q & H)]); [done|]. split; [done|]. left.
    destruct (fish_next j _ c n q Hj H) as [([= -> E ->] & -> & _)|[Hx _]]; [|by apply fish_op_plain in Hx].
    split; [|done]. unfold fish_rounds in E. destruct (Nat.ltb_spec j 2); [done|lia].
  - intros j x c l m (Hj & [[_ ?]|(n & q & H)]); [done|].
    destruct (fish_next j _ c n q Hj H) as [(-> & _)|[Hx _]]; [done|].
    apply fish_op_plain in Hx; [|done]. destruct x; try done; by apply fish_key_in.
Qed.
Definition fish_proc : nat -> list bool -> list fitem -> list nat -> unit -> Prop := proc_ok fish_program fish_child.
Abbreviation fworld := (world fish_access (list nat) unit).

(** ** Weights

    For each semaphore, what it allows against what is printed: never positive in the
    rest of a round, and zero over a whole one. *)
Definition glyph (g : Z -> Z) (a : fish_access) : Z := match a with PrintChar c => g c end.
Definition due (k : nat) (c : Z) : Z :=
  match k with
  | 0%nat => if c =? 60 then -1 else if c =? 62 then 1 else 0
  | 1%nat => if c =? 60 then 1 else if c =? 62 then -1 else 0
  | 2%nat => if c =? 95 then -3 else if c =? 60 then 1 else if c =? 62 then 1 else 0
  | _ => if c =? 95 then 3 else if c =? 60 then -1 else if c =? 62 then -1 else 0
  end.
Definition ahead (k : nat) (x : fitem) : Z := net (FISH_SEM k) x + acts (glyph (due k)) x.
Definition left_over (i k q : nat) : Z := weight (ahead k) (drop q (fish_round i)).

Lemma each_fish_sem (P : nat -> nat -> nat -> bool) :
  forallb (fun k => forallb (fun i => forallb (P k i) (seq 0 (S (fish_len i)))) (seq 0 3)) (seq 0 4) = true ->
  forall k i q, (k < 4)%nat -> (i < 3)%nat -> (q <= fish_len i)%nat -> P k i q = true.
Proof.
  rewrite List.forallb_forall. intros H k i q Hk. apply (each_fish (P k)), H, List.in_seq. lia.
Qed.
Lemma left_over_le k i q : (k < 4)%nat -> (i < 3)%nat -> (q <= fish_len i)%nat -> left_over i k q <= 0.
Proof.
  intros Hk Hi Hq. apply Z.leb_le.
  apply (each_fish_sem (fun k i q => left_over i k q <=? 0) ltac:(vm_compute; reflexivity) k i q Hk Hi Hq).
Qed.
Lemma left_over_0 k i : (k < 4)%nat -> (i < 3)%nat -> weight (ahead k) (fish_round i) = 0.
Proof.
  intros Hk Hi. apply Z.eqb_eq.
  apply (each_fish_sem (fun k i q => weight (ahead k) (fish_round i) =? 0) ltac:(vm_compute; reflexivity) k i 0 Hk Hi ltac:(lia)).
Qed.
Lemma fish_loop_weight k i c j q : (k < 4)%nat -> (i < 3)%nat -> fish_loop i c j q -> weight (ahead k) c = left_over i k q.
Proof.
  intros Hk Hi H. unfold fish_loop, fish_rounds in H. destruct (i <? 2)%nat.
  - rewrite (loop_weight_endless _ _ (ahead k) _ j q 0 H); [unfold left_over; lia|]. intros _. by apply left_over_0.
  - rewrite (loop_weight _ _ _ (ahead k) _ j q 0 MAX_LEN eq_refl H); [unfold left_over; lia|]. intros _. by apply left_over_0.
Qed.
Lemma fish_main_weight k fs l c : (k < 4)%nat -> main_at fish_program fs l c -> weight (ahead k) c = 0.
Proof.
  intros Hk Hm. destruct (main_at_weight fish_program (ahead k)) with (fs := fs) (l := l) (c := c) as (j & -> & _); [..|done|].
  - by intros [].
  - by intros x [?%not_elem_of_nil|[[i ?%not_elem_of_nil]|?%not_elem_of_nil]].
  - rewrite (zsum_const _ _ 0); [lia|]. intros i Hi. apply elem_of_seq in Hi. cbn in Hi.
    rewrite (fish_loop_weight k i _ 0 (fish_len i)); [|done|lia|].
    + unfold left_over, fish_len. by rewrite drop_all.
    + split; [done|]. split; [destruct (fish_rounds i); [lia|done]|]. split; [done|]. unfold fish_len. by rewrite drop_all.
Qed.
Lemma fish_proc_weight k i fs c l m : (k < 4)%nat -> fish_proc i fs c l m -> weight (ahead k) c <= 0.
Proof.
  intros Hk. unfold fish_proc, proc_ok. case_decide as Hi.
  - intros [(x & p & Hx & -> & Hl & Hq)|Hm]; [|by rewrite (fish_main_weight k fs l)].
    rewrite app_comm_cons, weight_app, (fish_main_weight k fs l (forking fish_program)) by (done || by apply forking_ok).
    do 4 (apply suffix_cases in Hx as [->|Hx]; [do 4 (destruct k as [|k]; [by vm_compute|]); lia|]).
    by apply suffix_nil_inv in Hx.
  - intros (Hlt & [[_ ->]|(j & q & H)]); [done|]. rewrite (fish_loop_weight k (pred i) _ j q) by done.
    apply left_over_le; [done|done|]. by destruct H as (Hq & _).
Qed.
Lemma fish_ahead k (w : fworld) : remaining (ahead k) w = remaining (net (FISH_SEM k)) w + remaining (acts (glyph (due k))) w.
Proof. unfold ahead. apply remaining_add. Qed.
(** One process' share. *)
Lemma fish_share k w i t : (k < 4)%nat -> each fish_proc w -> threads w !! i = Some t ->
  remaining (ahead k) w <= weight (ahead k) (code t).
Proof.
  intros Hk He Et. assert (- weight (ahead k) (code t) <= - remaining (ahead k) w); [|lia]. rewrite <- held_sum.
  apply (zsum_ge_elem (fun t => - weight (ahead k) (code t)) _ i); [|done]. intros u [n Eu]%list_elem_of_lookup.
  pose proof (fish_proc_weight k _ _ _ _ _ Hk (He n u Eu)). lia.
Qed.

(** ** The output *)
Definition fish_bal (k : Z) : Z := if k =? 0 then 1 else if k =? 1 then 0 else if k =? 2 then -57 else 60.
(** What is left to print and what has been printed. *)
Definition tally (w : fworld) : Prop := forall g : Z -> Z, remaining (acts (glyph g)) w + zsum g (out w) = 20 * g 95.
Definition picture (w : fworld) : Prop := out w = map fish_char (seq 0 (length (out w))).
Definition fish_inv (w : fworld) : Prop :=
  wf w /\ each fish_proc w /\ lives fish_program fish_bal w /\ tally w /\ picture w.

Lemma fish_balanced (w : fworld) : lives fish_program fish_bal w -> forall k, k ∈ fish_keys -> balance k w = fish_bal k.
Proof.
  intros (t0 & _ & _ & Hl) k Hk. destruct Hl as [? ? ? ? ? ? ? ? Hb|? ? Hb|Hs Hne]; [by apply Hb..|].
  apply suffix_nil_inv in Hs. by destruct Hne.
Qed.
(** How often a character has been printed. *)
Definition printed_of (c : Z) (w : fworld) : Z := zsum (fun x => if x =? c then 1 else 0) (out w).

Lemma zsum_due k l : zsum (due k) l =
  due k 60 * zsum (fun x => if x =? 60 then 1 else 0) l + due k 62 * zsum (fun x => if x =? 62 then 1 else 0) l +
  due k 95 * zsum (fun x => if x =? 95 then 1 else 0) l.
Proof.
  induction l as [|x l IH]; [cbn; lia|]. rewrite !zsum_cons, IH.
  assert (due k x = due k 60 * (if x =? 60 then 1 else 0) + due k 62 * (if x =? 62 then 1 else 0) + due k 95 * (if x =? 95 then 1 else 0)); [|lia].
  destruct (Z.eqb_spec x 60) as [->|H1]; [cbn; lia|]. destruct (Z.eqb_spec x 62) as [->|H2]; [cbn; lia|].
  destruct (Z.eqb_spec x 95) as [->|H3]; [cbn; lia|].
  apply Z.eqb_neq in H1, H2, H3. do 3 (destruct k as [|k]; [cbn [due]; rewrite ?H1, ?H2, ?H3; lia|]). cbn [due]. rewrite H1, H2, H3. lia.
Qed.
(** The counts that the semaphores allow, with [slack k] for what is under way. *)
Lemma fish_counts w : tally w -> (forall k, k ∈ fish_keys -> balance k w = fish_bal k) ->
  let a := printed_of 60 w in let b := printed_of 62 w in let u := printed_of 95 w in
  remaining (ahead 0) w = cnt 0 (sems w) - 1 + a - b /\
  remaining (ahead 1) w = cnt 1 (sems w) + b - a /\
  remaining (ahead 2) w = cnt 2 (sems w) - 3 + 3 * u - a - b /\
  remaining (ahead 3) w = cnt 3 (sems w) + a + b - 3 * u.
Proof.
  intros Ht Hb a b u. unfold balance in Hb. rewrite !fish_ahead.
  pose proof (Hb 0 ltac:(set_solver)) as H0. pose proof (Hb 1 ltac:(set_solver)) as H1.
  pose proof (Hb 2 ltac:(set_solver)) as H2. pose proof (Hb 3 ltac:(set_solver)) as H3. cbn in H0, H1, H2, H3.
  pose proof (Ht (due 0)) as T0. pose proof (Ht (due 1)) as T1. pose proof (Ht (due 2)) as T2. pose proof (Ht (due 3)) as T3.
  rewrite zsum_due in T0, T1, T2, T3. fold (printed_of 60 w) (printed_of 62 w) (printed_of 95 w) in T0, T1, T2, T3.
  fold a b u in T0, T1, T2, T3. cbn [due Z.eqb Pos.eqb] in T0, T1, T2, T3.
  change (FISH_SEM 0) with 0. change (FISH_SEM 1) with 1. change (FISH_SEM 2) with 2. change (FISH_SEM 3) with 3. lia.
Qed.

Lemma printed_nonneg c w : 0 <= printed_of c w.
Proof. apply zsum_nonneg. intros x _. by destruct (x =? c). Qed.
Lemma fish_char_cases n : fish_char n = 60 \/ fish_char n = 62 \/ fish_char n = 95.
Proof. unfold fish_char. destruct (n mod 4 =? 0)%nat; [auto|]. destruct (Nat.even _); auto. Qed.
Lemma picture_length w : picture w -> printed_of 60 w + printed_of 62 w + printed_of 95 w = Z.of_nat (length (out w)).
Proof.
  intros Hp. unfold printed_of. assert (Hc : forall x, x ∈ out w -> x = 60 \/ x = 62 \/ x = 95).
  { rewrite Hp. intros x (n & -> & _)%list_elem_of_fmap. apply fish_char_cases. }
  clear Hp. induction (out w) as [|x l IH]; [done|]. rewrite !zsum_cons.
  specialize (IH ltac:(intros y Hy; apply Hc; by apply list_elem_of_further)).
  destruct (Hc x (list_elem_of_here _ _)) as [->|[->| ->]]; cbn in *; lia.
Qed.
(** The character that the counts call for. *)
Lemma char_bar (n a b u : Z) : n = a + b + u -> 0 <= n -> a + b = 3 * u -> fish_char (Z.to_nat n) = 95.
Proof.
  intros Hn H0 E. unfold fish_char. replace (Z.to_nat n) with (Z.to_nat u * 4)%nat by lia. by rewrite Nat.Div0.mod_mul.
Qed.
Lemma char_pos (n a b u : Z) : n = a + b + u -> 0 <= n -> 0 <= a + b -> a + b + 1 <= 3 * u <= a + b + 3 ->
  fish_char (Z.to_nat n) = if Nat.even (Z.to_nat (a + b)) then 60 else 62.
Proof.
  intros Hn H0 Hs E. unfold fish_char. set (r := Z.to_nat (a + b + 3 - 3 * u)). assert (Hr : (r < 3)%nat) by lia.
  replace (Z.to_nat n) with (S r + (Z.to_nat u - 1) * 4)%nat by lia. rewrite Nat.Div0.mod_add.
  replace (S r + (Z.to_nat u - 1) * 4 + 3)%nat with (r + Z.to_nat u * 4)%nat by lia.
  rewrite Nat.div_add, (Nat.div_small r) by lia.
  replace (S r + (Z.to_nat u - 1) * 4 - (0 + Z.to_nat u))%nat with (Z.to_nat (a + b)) by lia.
  by destruct r as [|[|[|]]]; [..|lia].
Qed.

(** Who prints what, and where. *)
Definition print_place (i q : nat) : bool :=
  match fish_round i !! q with
  | Some (Act (PrintChar c)) =>
      ((i =? 0)%nat && (q =? 2)%nat && (c =? 60)) || ((i =? 1)%nat && (q =? 2)%nat && (c =? 62)) ||
      ((i =? 2)%nat && (q =? 3)%nat && (c =? 95))
  | _ => true
  end.
Lemma fish_prints w i t ch c : each fish_proc w -> threads w !! i = Some t -> code t = Act (PrintChar ch) :: c ->
  exists j q, fish_loop (pred i) (code t) j q /\
    ((pred i = 0 /\ q = 2 /\ ch = 60%Z) \/ (pred i = 1 /\ q = 2 /\ ch = 62%Z) \/ (pred i = 2 /\ q = 3 /\ ch = 95%Z))%nat.
Proof.
  intros He Et Hc. destruct (decide (i = 0%nat)) as [->|Hi].
  - pose proof (each_main fish_program _ w t He Et) as Hm. rewrite Hc in Hm.
    destruct (main_act_kind fish_program _ _ _ _ Hm) as [?%not_elem_of_nil|[[n ?%not_elem_of_nil]|Hs%suffix_nil_inv]]; done.
  - destruct (each_child fish_program _ w i t He Et Hi) as (Hlt & [[_ E]|(j & q & H)]); [by rewrite E in Hc|].
    exists j, q. split; [done|]. rewrite Hc in H. destruct (fish_next _ _ c j q Hlt H) as [(? & _)|[Hx _]]; [done|].
    pose proof (lookup_lt_Some _ _ _ Hx) as Hq. fold (fish_len (pred i)) in Hq.
    pose proof (each_fish print_place ltac:(vm_compute; reflexivity) (pred i) q Hlt ltac:(lia)) as Hp.
    unfold print_place in Hp. rewrite Hx in Hp.
    apply orb_prop in Hp as [[Hp|Hp]%orb_prop|Hp]; apply andb_prop in Hp as [[H1%Nat.eqb_eq H2%Nat.eqb_eq]%andb_prop H3%Z.eqb_eq]; auto.
Qed.
(** Evaluate the bound of [H : x <= v]. *)
Ltac eval_bound H := lazymatch type of H with _ <= ?v => let n := eval vm_compute in v in change v with n in H end.
(** The next character is the right one. *)
Lemma fish_next_char w i t ch c : fish_inv w -> threads w !! i = Some t -> code t = Act (PrintChar ch) :: c ->
  ch = fish_char (length (out w)).
Proof.
  intros (Hwf & He & Hl & Ht & Hp) Et Hc. pose proof (fish_counts w Ht (fish_balanced w Hl)) as (E0 & E1 & E2 & E3).
  cbv zeta in E0, E1, E2, E3. pose proof (picture_length w Hp) as Hlen.
  pose proof (cnt_nonneg w 0 Hwf). pose proof (cnt_nonneg w 1 Hwf). pose proof (cnt_nonneg w 2 Hwf). pose proof (cnt_nonneg w 3 Hwf).
  pose proof (printed_nonneg 60 w). pose proof (printed_nonneg 62 w). pose proof (printed_nonneg 95 w).
  destruct (fish_prints w i t ch c He Et Hc) as (j & q & H' & Hcase).
  assert (Hlt : (pred i < 3)%nat) by lia.
  assert (Hsh : forall k, (k < 4)%nat -> remaining (ahead k) w <= left_over (pred i) k q).
  { intros k Hk. rewrite <- (fish_loop_weight k (pred i) (code t) j q Hk Hlt H'). by eapply fish_share. }
  pose proof (Hsh 0%nat ltac:(lia)) as S0. pose proof (Hsh 1%nat ltac:(lia)) as S1.
  pose proof (Hsh 2%nat ltac:(lia)) as S2. pose proof (Hsh 3%nat ltac:(lia)) as S3.
  rewrite <- (Nat2Z.id (length (out w))), <- Hlen.
  destruct Hcase as [(Hi & -> & ->)|[(Hi & -> & ->)|(Hi & -> & ->)]]; rewrite Hi in S0, S1, S2, S3; eval_bound S0; eval_bound S1; eval_bound S2; eval_bound S3.
  - rewrite (char_pos _ (printed_of 60 w) (printed_of 62 w) (printed_of 95 w)) by lia.
    replace (Z.to_nat (printed_of 60 w + printed_of 62 w)) with (2 * Z.to_nat (printed_of 60 w))%nat by lia. by rewrite Nat.even_even.
  - rewrite (char_pos _ (printed_of 60 w) (printed_of 62 w) (printed_of 95 w)) by lia.
    replace (Z.to_nat (printed_of 60 w + printed_of 62 w)) with (2 * Z.to_nat (printed_of 62 w) + 1)%nat by lia. by rewrite Nat.even_odd.
  - by rewrite (char_bar _ (printed_of 60 w) (printed_of 62 w) (printed_of 95 w)) by lia.
Qed.

Lemma fish_remaining k w : (k < 4)%nat -> each fish_proc w -> remaining (ahead k) w <= 0.
Proof.
  intros Hk He. rewrite <- (zsum_zero (threads w)). apply zsum_le. intros t [i Ei]%list_elem_of_lookup.
  by eapply fish_proc_weight, He.
Qed.
(** How far the characters can be apart. *)
Lemma fish_window w : wf w -> each fish_proc w -> tally w -> (forall k, k ∈ fish_keys -> balance k w = fish_bal k) ->
  let a := printed_of 60 w in let b := printed_of 62 w in let u := printed_of 95 w in
  b <= a <= b + 1 /\ a + b <= 3 * u <= a + b + 3 /\ (forall k, k ∈ fish_keys -> cnt k (sems w) <= 3).
Proof.
  intros Hwf He Ht Hb. pose proof (fish_counts w Ht Hb) as (E0 & E1 & E2 & E3). cbv zeta in *.
  pose proof (fish_remaining 0 w ltac:(lia) He). pose proof (fish_remaining 1 w ltac:(lia) He).
  pose proof (fish_remaining 2 w ltac:(lia) He). pose proof (fish_remaining 3 w ltac:(lia) He).
  pose proof (cnt_nonneg w 0 Hwf). pose proof (cnt_nonneg w 1 Hwf). pose proof (cnt_nonneg w 2 Hwf). pose proof (cnt_nonneg w 3 Hwf).
  split; [lia|]. split; [lia|]. intros k Hk. unfold fish_keys in Hk. rewrite !elem_of_cons in Hk.
  destruct Hk as [->|[->|[->|[->|[]%not_elem_of_nil]]]]; lia.
Qed.
Lemma fish_room w : fish_inv w -> room fish_program fish_bal w.
Proof.
  intros (Hwf & He & _ & Ht & _) Hb k Hk. change (k ∈ fish_keys) in Hk.
  destruct (fish_window w Hwf He Ht Hb) as (_ & _ & H). specialize (H k Hk). lia.
Qed.

Definition any_print (_ : fish_access) : bool := true.
Lemma fish_loops w i t j body c : each fish_proc w -> threads w !! i = Some t -> code t = For j None body :: c ->
  Exists (fun x => stops any_print x = true) (body j).
Proof.
  intros He Et Hc. destruct (decide (i = 0%nat)) as [->|Hi].
  - pose proof (each_main fish_program _ w t He Et) as Hm. rewrite Hc in Hm. by apply (main_no_wait fish_program) in Hm.
  - destruct (each_child fish_program _ w i t He Et Hi) as (Hlt & [[_ E]|(jj & q & H)]); [by rewrite E in Hc|]. rewrite Hc in H.
    destruct (fish_next _ _ c jj q Hlt H) as [([= _ _ ->] & _)|[Hx _]]; [|by apply fish_op_plain in Hx].
    apply Exists_exists. destruct (fish_round_cases _ Hlt) as [->|[->| ->]]; cbn.
    + exists (Act (PrintChar 60)). split; [set_solver|done].
    + exists (Act (PrintChar 62)). split; [set_solver|done].
    + exists (Act (PrintChar 95)). split; [set_solver|done].
Qed.

Lemma fish_step w w' : fish_inv w -> step w w' -> fish_inv w' /\
  ((length (out w) < length (out w'))%nat \/ (out w' = out w /\ quiet any_print w' < quiet any_print w)).
Proof.
  intros Hinv Hs. pose proof (fish_room w Hinv) as Hroom. pose proof Hinv as (Hwf & He & Hl & Ht & Hp).
  destruct (life_step fish_program _ fish_bal w w' Hwf He Hl Hroom Hs) as (i & t & x & c & Et & Hb & Hc & Hef & Hwf' & Hl').
  assert (He' : each fish_proc w').
  { eapply (effect_each fish_proc); [exact (proc_moves fish_program fish_child)|done..| |done].
    intros a l m o j u -> Ea _ _. destruct a; by injection Ea as <- <- <-. }
  assert (Hg : forall g, (exists ch, x = Act (PrintChar ch) /\ out w' = out w ++ [ch] /\
      remaining (acts (glyph g)) w' = remaining (acts (glyph g)) w - g ch) \/
    (out w' = out w /\ remaining (acts (glyph g)) w' = remaining (acts (glyph g)) w /\
     match x with Act _ => False | _ => True end)).
  { intros g. destruct (effect_acts i w t x c w' (glyph g) Et Hc Hef) as
      [(a & l & m & o & -> & Ea & _ & Ho & Er)|(_ & Ho & Er & Ha)].
    - left. destruct a as [ch]. injection Ea as <- <- <-. eauto.
    - right. split; [done|]. split; [done|]. by destruct x as [| | | |[]| | |]. }
  assert (Ht' : tally w').
  { intros g. specialize (Ht g). destruct (Hg g) as [(ch & _ & -> & ->)|(-> & -> & _)]; [|done].
    rewrite zsum_app, zsum_cons, zsum_nil. lia. }
  destruct (Hg (fun _ => 0)) as [(ch & -> & Ho & _)|(Ho & _ & Hx)].
  - split; [|left; rewrite Ho, length_app; cbn; lia].
    split; [done|]. split; [done|]. split; [by apply Hl'|]. split; [done|].
    pose proof (fish_next_char w i t ch c Hinv Et Hc) as Hch. unfold picture. rewrite Ho, length_app. cbn [length].
    rewrite Nat.add_1_r, seq_S, map_app. cbn [map Nat.add]. by rewrite <- Hp, <- Hch.
  - split.
    + split; [done|]. split; [done|]. split; [by apply Hl'|]. split; [done|]. unfold picture. by rewrite Ho.
    + right. split; [done|]. eapply effect_quiet; [done..|]. destruct x as [| | | |a|j [n|] body| |]; try done.
      exact (fish_loops w i t j body c He Et Hc).
Qed.

(** ** The end *)

(** A stuck child waits at one of its waits. *)
Lemma fish_stuck_child w i t : wf w -> each fish_proc w -> stuck w -> threads w !! i = Some t -> i <> 0%nat -> code t <> [] ->
  exists j q k, fish_loop (pred i) (code t) j q /\ (pred i < 3)%nat /\ fish_round (pred i) !! q = Some (Wait k) /\ cnt k (sems w) = 0.
Proof.
  intros Hwf He Hst Et Hi Hne. destruct (each_child fish_program _ w i t He Et Hi) as (Hlt & [[_ E]|(j & q & H)]); [done|].
  destruct (stuck_why i w t Hwf Hst Et Hne) as [(k & c & Hc & _ & H0 & _)|(p & c & Hc & _)];
    pose proof H as H'; rewrite Hc in H'; destruct (fish_next _ _ c j q Hlt H') as [(E & _)|[Hx _]]; try done.
  - by exists j, q, k.
  - by apply fish_op_plain in Hx.
Qed.
(** [main] has forked the three and waits: its first child never ends. *)
Lemma fish_stuck_main w t0 : fish_inv w -> stuck w -> threads w !! 0%nat = Some t0 ->
  code t0 <> [] /\ length (threads w) = 4%nat /\ main_at fish_program (fins w) (loc t0) (code t0).
Proof.
  intros (Hwf & He & _) Hst Et0. pose proof (each_main fish_program _ w t0 He Et0) as Hm.
  assert (Hne : code t0 <> []).
  { intros E. destruct (main_done fish_program _ w t0 He Et0) as [Hl Hd]; [by rewrite E|]. change (N fish_program) with 3%nat in Hl.
    destruct (lookup_lt_is_Some_2 (threads w) 1 ltac:(lia)) as [t1 Et1]. pose proof (Hd 1%nat t1 ltac:(lia) Et1) as E1.
    destruct (each_child fish_program _ w 1 t1 He Et1 ltac:(lia)) as (_ & [[? _]|(j & q & _ & _ & _ & Ec)]); [done|].
    rewrite E1 in Ec. by destruct (drop q (fish_round (pred 1))). }
  split; [done|].
  destruct (stuck_why 0 w t0 Hwf Hst Et0 Hne) as [(k & c & Hc & _)|(p & c & Hc & _)]; rewrite Hc in *.
  - by apply (main_no_wait fish_program) in Hm.
  - pose proof (main_join_all fish_program _ _ _ _ Hm) as Hl. unfold fins in Hl. rewrite length_fmap in Hl. split; [done|].
    destruct Hm as [(x & q & Hq & [= <- ->] & _)|Hm]; [by apply (pre_elem fish_program) in Hq as (? & ? & ? & _)|done].
Qed.

(** What is left over in front of a wait. *)
Definition wait_left (i q : nat) : bool :=
  match fish_round i !! q with
  | Some (Wait k) =>
      ((i =? 0)%nat && (q =? 0)%nat && (k =? 0) && forallb (fun s => left_over i s q =? 0) [0; 1; 2; 3]%nat) ||
      ((i =? 0)%nat && (q =? 1)%nat && (k =? 3) && (left_over i 0 q =? -1) && forallb (fun s => left_over i s q =? 0) [1; 2; 3]%nat) ||
      ((i =? 1)%nat && (q =? 0)%nat && (k =? 1) && forallb (fun s => left_over i s q =? 0) [0; 1; 2; 3]%nat) ||
      ((i =? 1)%nat && (q =? 1)%nat && (k =? 3) && (left_over i 1 q =? -1) && forallb (fun s => left_over i s q =? 0) [0; 2; 3]%nat) ||
      ((i =? 2)%nat && (q <? 3)%nat && (k =? 2) && (left_over i 2 q =? - Z.of_nat q) && forallb (fun s => left_over i s q =? 0) [0; 1; 3]%nat)
  | _ => true
  end.
Lemma wait_left_all i q : (i < 3)%nat -> (q <= fish_len i)%nat -> wait_left i q = true.
Proof. apply (each_fish wait_left). vm_compute. reflexivity. Qed.
Ltac split_bools :=
  repeat match goal with
  | H : andb _ _ = true |- _ => apply andb_prop in H as [? ?]
  | H : forallb _ _ = true |- _ => cbn [forallb] in H
  | H : (_ =? _)%nat = true |- _ => apply Nat.eqb_eq in H
  | H : (_ <? _)%nat = true |- _ => apply Nat.ltb_lt in H
  | H : (_ =? _) = true |- _ => apply Z.eqb_eq in H
  end.

Lemma fish_stuck_shares w t1 t2 t3 : wf w -> each fish_proc w -> stuck w ->
  threads w !! 1%nat = Some t1 -> threads w !! 2%nat = Some t2 -> threads w !! 3%nat = Some t3 ->
  (cnt 0 (sems w) = 0 /\ (forall k, (k < 4)%nat -> weight (ahead k) (code t1) = 0) \/
   cnt 3 (sems w) = 0 /\ weight (ahead 3) (code t1) = 0 /\ weight (ahead 2) (code t1) = 0) /\
  (cnt 1 (sems w) = 0 /\ (forall k, (k < 4)%nat -> weight (ahead k) (code t2) = 0) \/
   cnt 3 (sems w) = 0 /\ weight (ahead 3) (code t2) = 0 /\ weight (ahead 2) (code t2) = 0) /\
  weight (ahead 0) (code t3) = 0 /\ weight (ahead 1) (code t3) = 0 /\ weight (ahead 3) (code t3) = 0 /\
  (code t3 = [] \/ (cnt 2 (sems w) = 0 /\ -2 <= weight (ahead 2) (code t3))).
Proof.
  intros Hwf He Hst E1 E2 E3.
  assert (Hc : forall i t, i <> 0%nat -> threads w !! i = Some t -> code t <> [] ->
    exists q k, (forall s, (s < 4)%nat -> weight (ahead s) (code t) = left_over (pred i) s q) /\
      fish_round (pred i) !! q = Some (Wait k) /\ cnt k (sems w) = 0 /\ wait_left (pred i) q = true).
  { intros i t Hi Et Hne. destruct (fish_stuck_child w i t Hwf He Hst Et Hi Hne) as (j & q & k & H & Hlt & Hx & H0).
    exists q, k. split; [intros s Hs; by apply (fish_loop_weight s (pred i) _ j q)|]. split; [done|]. split; [done|].
    apply wait_left_all; [done|]. by destruct H as (Hq & _). }
  assert (Hne : forall i t, threads w !! i = Some t -> (i = 1 \/ i = 2)%nat -> code t <> []).
  { intros i t Et Hi E. destruct (each_child fish_program _ w i t He Et ltac:(lia)) as (_ & [[? _]|(j & q & _ & _ & _ & Ec)]); [lia|].
    rewrite E in Ec. by destruct (drop q (fish_round (pred i))). }
  split; [|split].
  - destruct (Hc 1%nat t1 ltac:(lia) E1 (Hne _ _ E1 ltac:(auto))) as (q & k & Hw & Hx & H0 & Hwl). unfold wait_left in Hwl.
    rewrite Hx in Hwl. repeat (apply orb_prop in Hwl as [Hwl|Hwl]); split_bools; try done; subst.
    + left. split; [done|]. intros s Hs. rewrite Hw by done. do 4 (destruct s as [|s]; [done|]). lia.
    + right. rewrite !Hw by lia. done.
  - destruct (Hc 2%nat t2 ltac:(lia) E2 (Hne _ _ E2 ltac:(auto))) as (q & k & Hw & Hx & H0 & Hwl). unfold wait_left in Hwl.
    rewrite Hx in Hwl. repeat (apply orb_prop in Hwl as [Hwl|Hwl]); split_bools; try done; subst.
    + left. split; [done|]. intros s Hs. rewrite Hw by done. do 4 (destruct s as [|s]; [done|]). lia.
    + right. rewrite !Hw by lia. done.
  - destruct (decide (code t3 = [])) as [E|Hn3]; [rewrite E; auto|].
    destruct (Hc 3%nat t3 ltac:(lia) E3 Hn3) as (q & k & Hw & Hx & H0 & Hwl). unfold wait_left in Hwl.
    rewrite Hx in Hwl. repeat (apply orb_prop in Hwl as [Hwl|Hwl]); split_bools; try done; subst.
    rewrite !Hw by lia. repeat (split; [done|]). right. split; [done|]. cbn [pred] in *. lia.
Qed.

(** The first two children print no underscore. *)
Definition is_bar (c : Z) : Z := if c =? 95 then 1 else 0.
Lemma no_bar i c j q : (i < 2)%nat -> fish_loop i c j q -> weight (acts (glyph is_bar)) c = 0.
Proof.
  intros Hi H. unfold fish_loop, fish_rounds in H. destruct (Nat.ltb_spec i 2); [|lia].
  rewrite (loop_weight_endless _ _ _ _ j q 0 H).
  - destruct H as (Hq & _). rewrite Z.mul_0_r, Z.sub_0_r. apply Z.eqb_eq.
    pose proof (each_fish (fun i q => negb (i <? 2)%nat || (weight (acts (glyph is_bar)) (drop q (fish_round i)) =? 0))
      ltac:(vm_compute; reflexivity) i q ltac:(lia) Hq) as Hb. cbv beta in Hb. by destruct (Nat.ltb_spec i 2); [|lia].
  - intros _. destruct i as [|[|]]; [done|done|lia].
Qed.
Lemma fish_main_bar w t0 : each fish_proc w -> length (threads w) = 4%nat ->
  main_at fish_program (fins w) (loc t0) (code t0) -> weight (acts (glyph is_bar)) (code t0) = 0.
Proof.
  intros He Hl Hm. destruct (main_at_weight fish_program (acts (glyph is_bar))) with (fs := fins w) (l := loc t0) (c := code t0)
    as (j & -> & Hj); [..|done|].
  - by intros [].
  - by intros x [?%not_elem_of_nil|[[i ?%not_elem_of_nil]|?%not_elem_of_nil]].
  - unfold fins in Hj. rewrite length_fmap, Hl in Hj. change (N fish_program) with 3%nat. by replace (3 - j)%nat with 0%nat by lia.
Qed.
Lemma fish_stuck w t0 : fish_inv w -> stuck w -> threads w !! 0%nat = Some t0 -> code t0 <> [] /\ length (out w) = 80%nat.
Proof.
  intros Hinv Hst Et0. destruct (fish_stuck_main w t0 Hinv Hst Et0) as (Hne & Hl & Hm). split; [done|].
  pose proof Hinv as (Hwf & He & Hlv & Ht & Hp). pose proof (picture_length w Hp) as Hlen.
  destruct (lookup_lt_is_Some_2 (threads w) 1 ltac:(lia)) as [t1 E1]. destruct (lookup_lt_is_Some_2 (threads w) 2 ltac:(lia)) as [t2 E2].
  destruct (lookup_lt_is_Some_2 (threads w) 3 ltac:(lia)) as [t3 E3].
  assert (Hsum : forall f, remaining f w = weight f (code t0) + weight f (code t1) + weight f (code t2) + weight f (code t3)).
  { intros f. unfold remaining. destruct (threads w) as [|u0 [|u1 [|u2 [|u3 [|]]]]]; try done.
    injection Et0 as ->. injection E1 as ->. injection E2 as ->. injection E3 as ->. rewrite !zsum_cons, zsum_nil. lia. }
  destruct (fish_stuck_shares w t1 t2 t3 Hwf He Hst E1 E2 E3) as (H1 & H2 & H30 & H31 & H33 & H32).
  destruct (fish_counts w Ht (fish_balanced w Hlv)) as (C0 & C1 & C2 & C3).
  pose proof (fish_window w Hwf He Ht (fish_balanced w Hlv)) as (Hab & Hu & _). cbv zeta in *.
  assert (Hm0 : forall k, (k < 4)%nat -> weight (ahead k) (code t0) = 0) by (intros k Hk; by apply (fish_main_weight k (fins w) (loc t0))).
  rewrite Hsum, (Hm0 0%nat) in C0 by lia. rewrite Hsum, (Hm0 1%nat) in C1 by lia.
  rewrite Hsum, (Hm0 2%nat) in C2 by lia. rewrite Hsum, (Hm0 3%nat) in C3 by lia.
  assert (Hthree : cnt 3 (sems w) = 0).
  { destruct H1 as [[Z0 H1]|[? _]]; [|done]. destruct H2 as [[Z1 H2]|[? _]]; [|done]. exfalso.
    rewrite (H1 0%nat), (H2 0%nat) in C0 by lia. rewrite (H1 1%nat), (H2 1%nat) in C1 by lia. lia. }
  assert (H1' : weight (ahead 2) (code t1) = 0 /\ weight (ahead 3) (code t1) = 0)
    by (destruct H1 as [[_ H1]|(_ & ? & ?)]; [split; apply H1; lia|done]).
  assert (H2' : weight (ahead 2) (code t2) = 0 /\ weight (ahead 3) (code t2) = 0)
    by (destruct H2 as [[_ H2]|(_ & ? & ?)]; [split; apply H2; lia|done]).
  destruct H32 as [E|[Z2 H32]]; [|lia].
  assert (Hb : printed_of 95 w = 20); [|lia]. pose proof (Ht is_bar) as HT. change (is_bar 95) with 1 in HT.
  fold (printed_of 95 w) in HT. change (zsum is_bar (out w)) with (printed_of 95 w) in HT.
  rewrite Hsum, (fish_main_bar w t0 He Hl Hm), E, weight_nil in HT.
  destruct (each_child fish_program _ w 1 t1 He E1 ltac:(lia)) as (_ & [[? _]|(j1 & q1 & L1)]); [done|].
  destruct (each_child fish_program _ w 2 t2 He E2 ltac:(lia)) as (_ & [[? _]|(j2 & q2 & L2)]); [done|].
  rewrite (no_bar 0 _ j1 q1), (no_bar 1 _ j2 q2) in HT by (lia || done). lia.
Qed.

(** Underscores still to print. *)
Lemma bar_child i c l m : fish_child i c l m -> 0 <= weight (acts (glyph is_bar)) c.
Proof.
  intros (Hlt & [[_ ->]|(j & q & H)]); [done|]. destruct (decide (i < 2)%nat) as [Hi|Hi]; [by rewrite (no_bar i c j q)|].
  assert (i = 2%nat) as -> by lia. pose proof H as (Hq & _).
  rewrite (loop_weight _ _ _ _ _ j q 1 MAX_LEN eq_refl H) by done.
  assert (0 <= weight (acts (glyph is_bar)) (drop q (fish_round 2))); [|lia].
  do 8 (destruct q as [|q]; [by vm_compute|]). unfold fish_len in Hq. cbn in Hq. lia.
Qed.
Lemma bar_nonneg w : each fish_proc w -> 0 <= remaining (acts (glyph is_bar)) w.
Proof.
  intros He. apply zsum_nonneg. intros t [i Ei]%list_elem_of_lookup. pose proof (He i t Ei) as Hok.
  unfold fish_proc, proc_ok in Hok. case_decide as Hi; [|by eapply bar_child].
  assert (Hat : forall fs l c, main_at fish_program fs l c -> 0 <= weight (acts (glyph is_bar)) c).
  { intros fs l c Hm. destruct (main_at_weight fish_program (acts (glyph is_bar))) with (fs := fs) (l := l) (c := c)
      as (j & -> & Hj); [..|done|].
    - by intros [].
    - by intros x [?%not_elem_of_nil|[[n ?%not_elem_of_nil]|?%not_elem_of_nil]].
    - apply zsum_nonneg. intros n [Hjn Hn]%elem_of_seq. apply (bar_child n _ [] tt). apply (ch_start fish_program fish_child).
      change (N fish_program) with 3%nat in *. lia. }
  destruct Hok as [(x & p & Hx & -> & Hl & Hq)|Hm]; [|by eapply Hat].
  rewrite app_comm_cons, weight_app. pose proof (Hat _ _ _ (forking_ok fish_program (fins w) (loc t) Hl Hq)).
  assert (weight (acts (glyph is_bar)) (x :: p) = 0); [|lia].
  do 4 (apply suffix_cases in Hx as [->|Hx]; [done|]). by apply suffix_nil_inv in Hx.
Qed.

Lemma fish_start_inv : fish_inv fish_start.
Proof.
  split; [|split; [|split; [|split]]].
  - split; [done|]. intros [|i] t E Hb; [by injection E as <-|done].
  - intros [|j] u E; [|done]. injection E as <-. unfold fish_proc, proc_ok. rewrite decide_True by done. left.
    eexists (LibSem.init (FISH_SEM 0) 1), _. split; [by exists []|]. done.
  - eexists. split; [done|]. split; [done|]. eapply (creating _ _ _ _ 0 1 [] _); [done|done|done| |].
    + intros k. split; [by intros [? ?]|by intros ?%not_elem_of_nil].
    + intros k Hk. change (k ∈ fish_keys) in Hk. unfold fish_keys in Hk. rewrite !elem_of_cons in Hk.
      by destruct Hk as [->|[->|[->|[->|[]%not_elem_of_nil]]]].
  - intros g. cbn [out fish_start]. rewrite zsum_nil. cbn -[Z.mul]. lia.
  - done.
Qed.

(** C23: [app/fish] under every schedule: in every reachable state the output is the
    beginning of one fixed picture of 80 characters, "_<><_><>_<><" and so on; after
    at most [quiet] steps (an explicit bound) without output nothing can move; and when
    nothing can move all 80 characters have been printed, but [main] has not ended,
    since its first two children wait for ever. *)
Theorem fish_picture w : rtc step fish_start w ->
  (out w = map fish_char (seq 0 (length (out w))) /\ (length (out w) <= 80)%nat) /\
  (forall n w', nsteps step n w w' -> out w' = out w -> Z.of_nat n <= quiet any_print w) /\
  (stuck w -> length (out w) = 80%nat /\ exists t0, threads w !! 0%nat = Some t0 /\ code t0 <> []).
Proof.
  intros Hr. assert (Hinv : fish_inv w).
  { eapply rtc_inv; [apply fish_start_inv| |done]. intros w1 w2 H1 H2. by destruct (fish_step w1 w2 H1 H2). }
  pose proof Hinv as (Hwf & He & Hl & Ht & Hp). split; [split; [done|]|split].
  - pose proof (picture_length w Hp) as Hlen. pose proof (fish_window w Hwf He Ht (fish_balanced w Hl)) as (_ & Hu & _). cbv zeta in Hu.
    pose proof (Ht is_bar) as HT. change (is_bar 95) with 1 in HT. change (zsum is_bar (out w)) with (printed_of 95 w) in HT.
    pose proof (bar_nonneg w He). lia.
  - intros n w' Hn Ho. apply (run_quiet any_print fish_inv fish_step n w w' Hinv Hn Ho).
  - intros Hst. pose proof Hl as (t0 & Et0 & _). destruct (fish_stuck w t0 Hinv Hst Et0) as [H1 H2]. eauto.
Qed.

(** The processes in turn. *)
Lemma fish_picture_witness :
  let w := run (repeat 0%nat 20 ++ concat (repeat [1; 2; 3]%nat 600)) fish_start in
  length (out w) = 80%nat /\ take 12 (out w) = [95; 60; 62; 60; 95; 62; 60; 62; 95; 60; 62; 60].
Proof.
  intros w. destruct (fish_picture w) as ((H & _) & _ & Hs); [apply run_steps|].
  destruct Hs as [Hl _]; [apply stuckb_stuck; vm_compute; reflexivity|]. split; [exact Hl|]. rewrite H, Hl. reflexivity.
Defined.
