(* ===== verification/ForkApp.v ===== *)
(** * The program [app/fork]

    Models [pkg/app/fork/src/main.rs], which tests that a child has a stack of its own and shares the other memory with its parent.
    The program is finite, and all its interleavings are searched. *)

From Stdlib Require Import Ascii String.
From stdpp Require Import base numbers list gmap relations.
From S2P Require Import Prelude Bytes Str Num Sync Threads.

(** ** Searching all interleavings *)
Section explore.
Context {A L M : Type} {AP : App A L M}.
Abbreviation world := (world A L M).
Definition nexts (w : world) : list world := omap (fun i => step1 i w) (seq 0 (length (threads w))).
Fixpoint explore (always final : world -> bool) (fuel : nat) (w : world) : bool :=
  match fuel with
  | O => false
  | S fuel => always w && match nexts w with [] => final w | ws => forallb (explore always final fuel) ws end
  end.
Lemma nexts_step w w' : step w w' <-> w' ∈ nexts w.
Proof.
  unfold nexts. rewrite list_elem_of_omap. split.
  - intros [i Hi]. exists i. split; [|done]. apply elem_of_seq. split; [lia|]. unfold step1 in Hi. destruct (threads w !! i) eqn:E; [|done].
    apply lookup_lt_Some in E. lia.
  - intros (i & _ & Hi). by exists i.
Qed.
Lemma explore_nexts always final fuel w w' : explore always final (S fuel) w = true -> step w w' -> explore always final fuel w' = true.
Proof.
  intros [_ He]%andb_true_iff Hs%nexts_step. destruct (nexts w) as [|w1 ws] eqn:En; [by apply elem_of_nil in Hs|].
  rewrite forallb_forall in He. apply He. by apply list_elem_of_In.
Qed.
(** What a search that succeeds has shown: every state reached satisfies [always], every run is shorter than [fuel] steps, and a run that
    cannot go on has ended as [final] says. *)
Lemma explore_sound always final fuel : forall w k w', explore always final fuel w = true -> nsteps step k w w' ->
  (k < fuel)%nat /\ always w' = true /\ (stuck w' -> final w' = true).
Proof.
  induction fuel as [|fuel IH]; intros w k w' He Hn; [done|]. inversion Hn as [|k' ? w1 ? Hs Hn']; subst.
  - split; [lia|]. pose proof He as [Ha Hb]%andb_true_iff. split; [done|]. intros Hst. destruct (nexts w') as [|w1 ws] eqn:En; [done|].
    assert (Hin : w1 ∈ nexts w') by (rewrite En; left). apply nexts_step in Hin as [i Hi]. by rewrite (Hst i) in Hi.
  - destruct (IH w1 k' w' (explore_nexts _ _ _ _ _ He Hs) Hn') as (H1 & H2 & H3). split; [lia|done].
Qed.
End explore.

(** ** The program *)
(** The variables of [main], which are on the stack, and whether an assertion has failed. *)
Record fork_local : Type := { c : Z; pid : nat; ret : Z; failed : bool }.
(** The static [M], and the exit codes that the kernel keeps. *)
Record fork_mem : Type := { M : Z; exit_codes : gmap nat Z }.
Inductive fork_access : Type :=
| Println (s : string)
| PrintM (s : string)          (** [println!("..{:#x}", M)] *)
| PrintRet (s : string)        (** [println!("..{}", ret)] *)
| SetM (v : Z) | AddC (v : Z)
| AssertC (v : Z) | AssertRet (v : Z) | AssertM (v : Z)
| GetRet                       (** the value that [sys_wait_pid] returns *)
| Exit (process : nat).        (** [sys_exit(c)] *)
Definition asserted (b : bool) (l : fork_local) : fork_local := {| c := c l; pid := pid l; ret := ret l; failed := failed l || negb b |}.
Definition text (s : string) : str := chars s ++ [10].
Global Instance fork_app : App fork_access fork_local fork_mem := fun a l m =>
  match a with
  | Println s => Some (l, m, text s)
  | PrintM s => Some (l, m, chars s ++ [48; 120] ++ digits 64 16 (M m) [] ++ [10])
  | PrintRet s => Some (l, m, chars s ++ decimal (ret l) ++ [10])
  | SetM v => Some (l, {| M := v; exit_codes := exit_codes m |}, [])
  | AddC v => Some ({| c := c l + v; pid := pid l; ret := ret l; failed := failed l |}, m, [])
  | AssertC v => Some (asserted (c l =? v) l, m, [])
  | AssertRet v => Some (asserted (ret l =? v) l, m, [])
  | AssertM v => Some (asserted (M m =? v) l, m, [])
  | GetRet => Some ({| c := c l; pid := pid l; ret := default (-1) (exit_codes m !! pid l); failed := failed l |}, m, [])
  | Exit p => Some (l, {| M := M m; exit_codes := <[p := c l]> (exit_codes m) |}, [])
  end.
Abbreviation fork_item := (item fork_access fork_local).
(** The branch [pid == 0]. *)
Definition fork_child : list fork_item :=
  [Act (Println "I am the child process"); Act (AssertC 32); Act (PrintM "child read value of M: "); Act (SetM 0x2333);
   Act (PrintM "child changed the value of M: "); Act (AddC 32); Act (Exit 1)].
Definition fork_parent : list fork_item :=
  [Act (Println "I am the parent process"); Act (AssertC 32); Act (Println "Waiting for child to exit..."); Join pid; Act GetRet;
   Act (PrintRet "Child exited with status "); Act (AssertRet 64); Act (PrintM "parent read value of M: "); Act (AssertM 0x2333);
   Act (AddC 1024); Act (AssertC 1056); Act (Exit 0)].
Definition fork_main : list fork_item :=
  Fork fork_child (fun p l => {| c := c l; pid := p; ret := ret l; failed := failed l |}) :: fork_parent.
Definition fork_start : world fork_access fork_local fork_mem :=
  mkW SemSet.new {| M := 0xdeadbeef; exit_codes := ∅ |} [mkT fork_main {| c := 32; pid := 0; ret := 0; failed := false |} false] [].

Definition no_failure (w : world fork_access fork_local fork_mem) : bool := forallb (fun t => negb (failed (loc t))) (threads w).
Definition fork_ended (w : world fork_access fork_local fork_mem) : bool :=
  (length (threads w) =? 2)%nat && forallb finished (threads w) && bool_decide (exit_codes (mem w) !! 0%nat = Some 1056) &&
  bool_decide (exit_codes (mem w) !! 1%nat = Some 64) && (M (mem w) =? 0x2333).
Lemma fork_search : explore no_failure fork_ended 21 fork_start = true.
Proof. vm_compute. reflexivity. Qed.
(** The program [fork] passes its own test.  In every interleaving of parent and child no assertion fails, every run has at most 20 steps,
    and when it is over both have exited, the child with 64 and the parent with 1056, and [M] is what the child wrote. *)
Theorem fork_program_passes k w : nsteps step k fork_start w ->
  (k <= 20)%nat /\ (forall t, t ∈ threads w -> failed (loc t) = false) /\
  (stuck w -> length (threads w) = 2%nat /\ (forall t, t ∈ threads w -> code t = []) /\
     exit_codes (mem w) !! 0%nat = Some 1056 /\ exit_codes (mem w) !! 1%nat = Some 64 /\ M (mem w) = 0x2333).
Proof.
  intros Hn. destruct (explore_sound _ _ _ _ _ _ fork_search Hn) as (Hk & Ha & Hf). split; [lia|]. split.
  - intros t Ht. unfold no_failure in Ha. rewrite forallb_forall in Ha. specialize (Ha t). apply list_elem_of_In in Ht. apply Ha in Ht. by destruct (failed (loc t)).
  - intros Hst. apply Hf in Hst. unfold fork_ended in Hst. repeat (apply andb_true_iff in Hst as [Hst ?]). apply Nat.eqb_eq in Hst.
    split; [done|]. split; [|split_and!; [by eapply bool_decide_eq_true_1|by eapply bool_decide_eq_true_1|by apply Z.eqb_eq]].
    intros t Ht. rewrite forallb_forall in *. apply list_elem_of_In in Ht. match goal with H : forall x, In x _ -> finished x = true |- _ => specialize (H t Ht) end.
    unfold finished in *. by destruct (code t).
Qed.
