(* ===== verification/Resource.v ===== *)
(** * File descriptors and console input

    Models [pkg/kernel/src/utils/resource.rs] and the key buffer of
    [pkg/kernel/src/drivers/input.rs].  The buffer is a [crossbeam] queue, which
    is a parameter; text that is printed is kept as the bytes that were written
    (the console decodes them, replacing what is not UTF-8). *)

From stdpp Require Import base numbers list gmap.
From S2P Require Import Prelude Bytes Device Str Fat16Name Fat16Entry Fat16Fs Fat16File.

(** [crossbeam_queue::ArrayQueue<u8>]: bounded, first in first out. *)
Class ArrayQueue (Q : Type) : Type := {
  queue_new : Z -> Q;
  queue_push : Z -> Q -> bool * Q;   (* true: pushed; false: full *)
  queue_pop : Q -> option Z * Q;
}.
Class ArrayQueueLaws (Q : Type) `{ArrayQueue Q} : Type := {
  queue_contents : Q -> list Z;
  queue_capacity : Q -> Z;
  queue_new_spec n : 0 < n -> queue_contents (queue_new n) = [] /\ queue_capacity (queue_new n) = n;
  queue_push_spec k q :
    let full := bool_decide (queue_capacity q <= zlen (queue_contents q)) in
    (queue_push k q).1 = negb full /\
    queue_contents (queue_push k q).2 = (if full then queue_contents q else queue_contents q ++ [k]) /\
    queue_capacity (queue_push k q).2 = queue_capacity q;
  queue_pop_spec q :
    (queue_pop q).1 = head (queue_contents q) /\
    queue_contents (queue_pop q).2 = tail (queue_contents q) /\
    queue_capacity (queue_pop q).2 = queue_capacity q;
}.

(** ** The key buffer *)
Module Input.
Section ops.
Context {Q : Type} `{ArrayQueue Q}.
Definition INPUT_BUF : Q := queue_new 128.
(** A key that does not fit is dropped (with a warning). *)
Definition push_key (key : Z) (q : Q) : Q := (queue_push key q).2.
Definition try_pop_key (q : Q) : option Z * Q := queue_pop q.

(** The keys of a run: pushed by the serial interrupt, popped by readers. *)
Inductive key_op : Type := Push (k : Z) | Pop.
Fixpoint run (q : Q) (ops : list key_op) : list Z * Q :=
  match ops with
  | [] => ([], q)
  | Push k :: ops' => run (push_key k q) ops'
  | Pop :: ops' =>
      let '(r, q') := try_pop_key q in
      let '(out, q'') := run q' ops' in
      (match r with Some k => k :: out | None => out end, q'')
  end.
End ops.
End Input.

Inductive StdIO : Type := Stdin | Stdout | Stderr.
Global Instance StdIO_eq_dec : EqDecision StdIO.
Proof. solve_decision. Defined.

(** A [FileHandle] is the metadata and the open file. *)
Record FileHandle (D : Type) `{Chrono} : Type := {
  fh_meta : Metadata; fh_file : FatFile.t D;
}.
Arguments fh_meta {D _} _.
Arguments fh_file {D _} _.
Arguments Build_FileHandle {D _} _ _.

Inductive Resource (D : Type) `{Chrono} : Type :=
| ResFile (file : FileHandle D)
| ResConsole (stdio : StdIO)
| ResNull.
Arguments ResFile {D _} _.
Arguments ResConsole {D _} _.
Arguments ResNull {D _}.

(** What was printed: to the console, or as a warning of the log. *)
Record Output : Type := { out_std : StdIO; out_bytes : bytes }.

Module Res.
Section ops.
Context {D Q : Type} `{BlockDevice D, Chrono, Bitflags, ArrayQueue Q}.

(** [buf[0] = ch] panics when the buffer is empty (and the key is gone). *)
Definition read (r : Resource D) (q : Q) (buf : bytes)
    : outcome (option Z * Resource D * Q * bytes) :=
  match r with
  | ResFile file =>
      x ← FatFile.read (fh_file file) buf;
      let '(res, f', buf') := x in
      Ret (Some (match res with Ok size => size | Err _ => 0 end),
           ResFile (Build_FileHandle (fh_meta file) f'), q, buf')
  | ResConsole Stdin =>
      match Input.try_pop_key q with
      | (Some ch, q') =>
          match buf with
          | [] => Panic
          | _ :: rest => Ret (Some 1, r, q', ch :: rest)
          end
      | (None, q') => Ret (Some 0, r, q', buf)
      end
  | ResConsole _ => Ret (None, r, q, buf)
  | ResNull => Ret (Some 0, r, q, buf)
  end.

Definition write (r : Resource D) (out : list Output) (buf : bytes) : option Z * list Output :=
  match r with
  | ResFile _ => (Some 0, out)
  | ResConsole Stdin => (None, out)
  | ResConsole s => (Some (zlen buf), out ++ [{| out_std := s; out_bytes := buf |}])
  | ResNull => (Some (zlen buf), out)
  end.
End ops.
End Res.

(** [ResourceSet]: the open files of a process, by descriptor ([u8]). *)
Module ResSet.
Section ops.
Context {D Q : Type} `{BlockDevice D, Chrono, Bitflags, ArrayQueue Q}.
Abbreviation t := (gmap Z (Resource D)).

Definition open (res : Resource D) (s : t) : Z * t :=
  let fd := u8 (Z.of_nat (base.size s)) in (fd, <[fd := res]> s).
Definition close (fd : Z) (s : t) : bool * t := (bool_decide (is_Some (s !! fd)), delete fd s).

Definition default : t :=
  (open (ResConsole Stderr) (open (ResConsole Stdout) (open (ResConsole Stdin) ∅).2).2).2.

(** [count as isize], [-1] for a missing descriptor or an operation it does not have. *)
Definition read (fd : Z) (s : t) (q : Q) (buf : bytes) : outcome (Z * t * Q * bytes) :=
  match s !! fd with
  | None => Ret (-1, s, q, buf)
  | Some r =>
      x ← Res.read r q buf;
      let '(c, r', q', buf') := x in
      Ret (match c with Some n => as_isize n | None => -1 end, <[fd := r']> s, q', buf')
  end.
Definition write (fd : Z) (s : t) (out : list Output) (buf : bytes) : Z * list Output :=
  match s !! fd with
  | None => (-1, out)
  | Some r =>
      let '(c, out') := Res.write r out buf in
      (match c with Some n => as_isize n | None => -1 end, out')
  end.
End ops.
End ResSet.

(** ** Properties *)

(** The descriptors in use are 0 to [n - 1]. *)
Definition dense {A} (s : gmap Z A) (n : Z) : Prop :=
  Z.of_nat (base.size s) = n /\ forall fd, is_Some (s !! fd) <-> 0 <= fd < n.

Section props.
Context {D Q : Type} `{BlockDevice D, Chrono, Bitflags, ArrayQueue Q}.

Lemma open_dense (res : Resource D) s n :
  dense s n -> 0 <= n < 256 ->
  (ResSet.open res s).1 = n /\ s !! n = None /\ dense (ResSet.open res s).2 (n + 1) /\
  (ResSet.open res s).2 = <[n := res]> s.
Proof.
  intros [Hs Hd] Hn. unfold ResSet.open. rewrite Hs, wrap_small by lia. cbn [fst snd].
  assert (Hf : s !! n = None).
  { apply eq_None_not_Some. rewrite Hd. lia. }
  split; [done|]. split; [done|]. split; [|done]. split.
  - rewrite map_size_insert_None by done. lia.
  - intros fd. destruct (decide (fd = n)) as [->|Hne].
    + rewrite lookup_insert_eq. split; [lia|eauto].
    + rewrite lookup_insert_ne by done. rewrite Hd. lia.
Qed.

Lemma default_dense : dense (@ResSet.default D _) 3.
Proof.
  unfold ResSet.default.
  assert (Hd0 : dense (∅ : gmap Z (Resource D)) 0).
  { split; [done|]. intros fd. rewrite lookup_empty. split; [intros []; done|lia]. }
  destruct (open_dense (ResConsole Stdin) ∅ 0 Hd0 ltac:(lia)) as (_ & _ & Hd1 & _).
  destruct (open_dense (ResConsole Stdout) _ 1 Hd1 ltac:(lia)) as (_ & _ & Hd2 & _).
  by destruct (open_dense (ResConsole Stderr) _ 2 Hd2 ltac:(lia)) as (_ & _ & Hd3 & _).
Qed.

(** Opening the files [rs] one after the other. *)
Definition open_all (rs : list (Resource D)) (s : gmap Z (Resource D)) : gmap Z (Resource D) :=
  fold_left (fun s r => (ResSet.open r s).2) rs s.

Lemma open_all_dense rs : forall s n,
  dense s n -> 0 <= n -> n + zlen rs <= 256 ->
  dense (open_all rs s) (n + zlen rs) /\
  (forall fd, is_Some (s !! fd) -> open_all rs s !! fd = s !! fd) /\
  (forall (i : nat) r, rs !! i = Some r -> open_all rs s !! (n + Z.of_nat i) = Some r).
Proof.
  unfold zlen. induction rs as [|r rs IH]; intros s n Hd Hn Hl; cbn [open_all fold_left length] in *.
  - rewrite Z.add_0_r. done.
  - destruct (open_dense r s n Hd ltac:(lia)) as (_ & Hf & Hd' & E).
    destruct (IH _ (n + 1) Hd' ltac:(lia) ltac:(lia)) as (H1' & H2' & H3').
    replace (n + Z.of_nat (S (length rs))) with (n + 1 + Z.of_nat (length rs)) by lia.
    split; [done|]. rewrite E in *. split.
    + intros fd Hfd. assert (fd <> n) by (intros ->; rewrite Hf in Hfd; by destruct Hfd).
      unfold open_all in H2'. rewrite H2' by by rewrite lookup_insert_ne. by rewrite lookup_insert_ne.
    + intros [|i] r' Hi.
      * injection Hi as <-. rewrite Z.add_0_r. unfold open_all in H2'.
        rewrite H2' by (rewrite lookup_insert_eq; eauto). by rewrite lookup_insert_eq.
      * specialize (H3' i r' Hi). by replace (n + Z.of_nat (S i)) with (n + 1 + Z.of_nat i) by lia.
Qed.

(** descriptors of a process that closes nothing.  The descriptor table of a
    new process has exactly 0, 1 and 2, the console; opening up to 253 files one
    after the other gives them the descriptors 3, 4, ... in order, each open file
    keeps its own descriptor, and the console stays where it was. *)
Theorem fd_table_open (rs : list (Resource D)) :
  zlen rs <= 253 ->
  let s := open_all rs ResSet.default in
  dense s (3 + zlen rs) /\
  s !! 0 = Some (ResConsole Stdin) /\ s !! 1 = Some (ResConsole Stdout) /\
  s !! 2 = Some (ResConsole Stderr) /\
  (forall (i : nat) r, rs !! i = Some r -> s !! (3 + Z.of_nat i) = Some r).
Proof.
  intros Hl s. destruct (open_all_dense rs ResSet.default 3 default_dense ltac:(lia) ltac:(lia))
    as (Hd & Hold & Hnew).
  assert (Hc : forall fd, fd = 0 \/ fd = 1 \/ fd = 2 -> s !! fd = ResSet.default !! fd).
  { intros fd Hfd. apply Hold. apply default_dense. lia. }
  split; [done|]. rewrite !Hc by lia. split_and!; [reflexivity..|done].
Qed.

(** a descriptor can be taken from an open file.  Whenever the descriptors in
    use are 0 to [n - 1] and one that is not the last is closed, the next [open]
    returns [n - 1], which is still in use, and replaces the file behind it. *)
Theorem open_after_close_replaces (s : gmap Z (Resource D)) n fd res :
  dense s n -> n <= 256 -> 0 <= fd < n - 1 ->
  let '(closed, s1) := ResSet.close fd s in
  let '(fd', s2) := ResSet.open res s1 in
  closed = true /\ fd' = n - 1 /\ s1 !! fd' = s !! (n - 1) /\ is_Some (s1 !! fd') /\
  s2 !! fd' = Some res.
Proof.
  intros [Hs Hd] Hn Hfd. unfold ResSet.close, ResSet.open.
  assert (Hin : is_Some (s !! fd)) by (apply Hd; lia).
  rewrite map_size_delete. destruct (s !! fd) as [r|] eqn:E; [|by destruct Hin].
  replace (Z.of_nat (pred (base.size s))) with (n - 1) by lia. rewrite wrap_small by lia.
  split; [by rewrite bool_decide_eq_true_2 by eauto|]. split; [done|].
  assert (fd <> n - 1) by lia. rewrite lookup_delete_ne by done.
  split; [done|]. split; [apply Hd; lia|]. by rewrite lookup_insert_eq.
Qed.
End props.

Section keys.
Context {Q : Type} `{ArrayQueueLaws Q}.

Definition pushed (ops : list Input.key_op) : list Z :=
  ops ≫= (fun o => match o with Input.Push k => [k] | Input.Pop => [] end).

Lemma run_keys ops : forall (q q' : Q) out,
  Input.run q ops = (out, q') ->
  out ++ queue_contents q' `sublist_of` queue_contents q ++ pushed ops /\
  (zlen (queue_contents q) + zlen (pushed ops) <= queue_capacity q ->
   out ++ queue_contents q' = queue_contents q ++ pushed ops).
Proof.
  induction ops as [|[k|] ops IH]; intros q q' out E; cbn [Input.run] in E.
  - injection E as <- <-. unfold pushed. cbn. rewrite app_nil_r. done.
  - destruct (queue_push_spec k q) as (_ & Hc & Hcap).
    destruct (IH _ _ _ E) as [Hs He]. unfold Input.push_key in *. rewrite Hcap, Hc in *.
    change (pushed (Input.Push k :: ops)) with (k :: pushed ops).
    case_bool_decide as Hfull.
    + split; [etrans; [exact Hs|]; apply sublist_app; [done|by apply sublist_cons]|].
      unfold zlen in *. cbn [length]. lia.
    + rewrite <- app_assoc in *. cbn [app] in *. split; [done|]. intros Hle. apply He.
      unfold zlen in *. rewrite length_app. cbn [length] in *. lia.
  - destruct (queue_pop_spec q) as (Hr & Hc & Hcap). unfold Input.try_pop_key in E.
    destruct (queue_pop q) as [r q1]. cbn [fst snd] in *.
    destruct (Input.run q1 ops) as [out1 q2] eqn:E1. destruct (IH _ _ _ E1) as [Hs He].
    change (pushed (Input.Pop :: ops)) with (pushed ops). rewrite Hcap, Hc in *.
    destruct (queue_contents q) as [|k l]; cbn [head tail] in *; subst r; injection E as <- <-.
    + done.
    + cbn [app]. split; [by apply sublist_skip|]. intros Hle. f_equal. apply He.
      unfold zlen in *. cbn [length] in *. lia.
Qed.

(** keys arrive in order.  Whatever the interleaving of key presses and reads,
    the keys read and then those still in the buffer are the keys pressed, in
    order, less some that were dropped; and none is dropped while no more than 128
    were pressed. *)
Theorem keys_in_order ops out (q' : Q) :
  Input.run Input.INPUT_BUF ops = (out, q') ->
  out ++ queue_contents q' `sublist_of` pushed ops /\
  (zlen (pushed ops) <= 128 -> out ++ queue_contents q' = pushed ops).
Proof.
  intros E. destruct (run_keys ops _ _ _ E) as [Hs He]. unfold Input.INPUT_BUF in *.
  destruct (queue_new_spec 128 ltac:(lia)) as [Hc Hcap]. rewrite Hc, Hcap in *.
  unfold zlen in *. cbn [app length] in *. split; [done|]. intros. apply He. lia.
Qed.
End keys.

(** ** Instances for the witnesses *)

Definition demo_queue : Type := list Z * Z.
#[local] Instance demo_ArrayQueue : ArrayQueue demo_queue := {|
  queue_new n := ([], n);
  queue_push k q := if bool_decide (q.2 <= zlen q.1) then (false, q) else (true, (q.1 ++ [k], q.2));
  queue_pop q := (head q.1, (tail q.1, q.2));
|}.
#[local] Instance demo_ArrayQueueLaws : ArrayQueueLaws demo_queue.
Proof.
  refine {| queue_contents := fst; queue_capacity := snd |}.
  - done.
  - intros k q full. subst full. cbn. by case_bool_decide.
  - done.
Defined.

Lemma keys_in_order_witness :
  exists q' : demo_queue,
    Input.run Input.INPUT_BUF [Input.Push 7; Input.Pop; Input.Push 8; Input.Push 9; Input.Pop] =
      ([7; 8], q') /\ [7; 8] ++ queue_contents q' = [7; 8; 9].
Proof.
  destruct (Input.run Input.INPUT_BUF
    [Input.Push 7; Input.Pop; Input.Push 8; Input.Push 9; Input.Pop]) as [out q'] eqn:E.
  pose proof E as E'. vm_compute in E'. injection E' as <- _.
  exists q'. split; [reflexivity|].
  apply (keys_in_order _ _ _ E). vm_compute. discriminate.
Defined.

Lemma fd_table_open_witness :
  let s := open_all [@ResNull MemDisk.t demo_chrono] ResSet.default in
  dense s 4 /\ s !! 1 = Some (ResConsole Stdout).
Proof.
  destruct (fd_table_open [@ResNull MemDisk.t demo_chrono]) as (Hd & _ & H1 & _);
    [vm_compute; discriminate|]. split; [exact Hd|exact H1].
Defined.

Lemma open_after_close_replaces_witness :
  (ResSet.open (@ResNull MemDisk.t demo_chrono)
     (ResSet.close 0 ResSet.default).2).2 !! 2 = Some ResNull.
Proof.
  destruct (open_after_close_replaces ResSet.default 3 0 (@ResNull MemDisk.t demo_chrono)
    default_dense) as (_ & H1 & _ & _ & H2); [lia|lia|]. exact H2.
Defined.
