(* ===== verification/Vm.v ===== *)
(** * Virtual memory of a process

    Models [pkg/kernel/src/proc/paging.rs] and [pkg/kernel/src/proc/vm/
    {mod,stack,heap}.rs]: page table contexts, the stack, the heap and their
    composition [ProcessVm].

    What processes share is kept behind references: [Arc<Cr3RegValue>] (with its
    strong count, which decides who frees the page table) and the heap's
    [Arc<AtomicU64>].  A reference is a number, looked up in the state. *)

From stdpp Require Import base numbers list gmap.
From S2P Require Import Prelude Bytes X86 Frames ElfMap.

Definition KERNEL_PID : Z := 1.

(** [Arc::new]: a name that no live object has. *)
Definition fresh_ref {A} (m : gmap Z A) : Z := 1 + foldr Z.max 0 (map_to_list m).*1.

Lemma fresh_ref_fresh {A} (m : gmap Z A) : m !! fresh_ref m = None.
Proof.
  apply eq_None_not_Some. intros [x Hx%elem_of_map_to_list].
  apply (list_elem_of_fmap_2 fst) in Hx. cbn in Hx. unfold fresh_ref in Hx.
  assert (Hb : forall l n, n ∈ l -> n <= foldr Z.max 0 l).
  { induction l as [|y l IH]; cbn; [by intros n ?%elem_of_nil|].
    intros n [->|Hn%IH]%elem_of_cons; lia. }
  apply Hb in Hx. lia.
Qed.

Record Cr3RegValue : Type := { reg_addr : Z; reg_flags : Z; reg_count : Z }.

(** The part of the kernel's state that memory management uses. *)
Record Sys (M : Type) : Type := {
  machine : M;
  frame_alloc : BootInfoFrameAllocator;
  cr3_regs : gmap Z Cr3RegValue;
  heap_ends : gmap Z Z;
  physical_offset : Z;
  processor_pid : Z;
}.
Arguments machine {M} _.
Arguments frame_alloc {M} _.
Arguments cr3_regs {M} _.
Arguments heap_ends {M} _.
Arguments physical_offset {M} _.
Arguments processor_pid {M} _.

Section sys.
Context {M : Type}.
Definition set_machine (m : M) (s : Sys M) : Sys M :=
  {| machine := m; frame_alloc := frame_alloc s; cr3_regs := cr3_regs s;
     heap_ends := heap_ends s;
     physical_offset := physical_offset s; processor_pid := processor_pid s |}.
Definition set_physical_offset (x : Z) (s : Sys M) : Sys M :=
  {| machine := machine s; frame_alloc := frame_alloc s; cr3_regs := cr3_regs s; heap_ends := heap_ends s;
     physical_offset := x; processor_pid := processor_pid s |}.
Definition set_frame_alloc (a : BootInfoFrameAllocator) (s : Sys M) : Sys M :=
  {| machine := machine s; frame_alloc := a; cr3_regs := cr3_regs s;
     heap_ends := heap_ends s;
     physical_offset := physical_offset s; processor_pid := processor_pid s |}.
Definition set_cr3_regs (r : gmap Z Cr3RegValue) (s : Sys M) : Sys M :=
  {| machine := machine s; frame_alloc := frame_alloc s; cr3_regs := r;
     heap_ends := heap_ends s;
     physical_offset := physical_offset s; processor_pid := processor_pid s |}.
Definition set_heap_ends (h : gmap Z Z) (s : Sys M) : Sys M :=
  {| machine := machine s; frame_alloc := frame_alloc s; cr3_regs := cr3_regs s;
     heap_ends := h;
     physical_offset := physical_offset s; processor_pid := processor_pid s |}.
Definition set_processor_pid (pid : Z) (s : Sys M) : Sys M :=
  {| machine := machine s; frame_alloc := frame_alloc s; cr3_regs := cr3_regs s;
     heap_ends := heap_ends s;
     physical_offset := physical_offset s; processor_pid := pid |}.

(** Run an operation on the machine and the frame allocator. *)
Definition mem_op {T} (f : ST (M * BootInfoFrameAllocator) T) : ST (Sys M) T := fun s =>
  match f (machine s, frame_alloc s) with
  | Ret (t, (m, a)) => Ret (t, set_frame_alloc a (set_machine m s))
  | Panic => Panic
  | Timeout => Timeout
  end.

(** [processor::get_pid]: 0 means no process, and [expect] panics. *)
Definition get_pid : ST (Sys M) Z := fun s =>
  if processor_pid s =? 0 then Panic else Ret (processor_pid s, s).
Definition set_pid (pid : Z) : ST (Sys M) unit := st_modify (set_processor_pid pid).
End sys.

(** ** Page table contexts ([paging.rs]) *)
Module PageTableContext.
Section ops.
Context {M : Type} `{Machine M, X86}.

Definition new : ST (Sys M) Z :=
  r ← st_gets (fun s => fresh_ref (cr3_regs s));
  st_modify (fun s => set_cr3_regs
    (<[r := {| reg_addr := (Cr3_read (machine s)).1; reg_flags := (Cr3_read (machine s)).2;
               reg_count := 1 |}]> (cr3_regs s)) s);; mret r.

Definition get (r : Z) : ST (Sys M) Cr3RegValue := fun s =>
  match cr3_regs s !! r with Some v => Ret (v, s) | None => Panic end.

(** A new level-4 table, a copy of the given one (4096 bytes). *)
Definition clone_l4 (r : Z) : ST (Sys M) Z :=
  v ← get r;
  f ← mem_op (fun '(m, a) => x ← allocate_frame a; Ret (x.1, (m, x.2)));
  page_table_addr ← st_lift (unwrap f);
  st_modify (fun s => set_machine (copy_nonoverlapping (machine s)
      (physical_to_virtual (physical_offset s) (reg_addr v))
      (physical_to_virtual (physical_offset s) page_table_addr) 4096) s);;
  r' ← st_gets (fun s => fresh_ref (cr3_regs s));
  st_modify (fun s => set_cr3_regs
    (<[r' := {| reg_addr := page_table_addr; reg_flags := 0; reg_count := 1 |}]> (cr3_regs s)) s);;
  mret r'.

Definition load (r : Z) : ST (Sys M) unit :=
  v ← get r;
  st_modify (fun s => set_machine (Cr3_write (machine s) (reg_addr v) (reg_flags v)) s).

Definition using_count (r : Z) : ST (Sys M) Z := v ← get r; mret (reg_count v).

(** The mapper of the table: it is named by its level-4 frame. *)
Definition mapper (r : Z) : ST (Sys M) Z := v ← get r; mret (reg_addr v).

(** [Arc::clone] *)
Definition fork (r : Z) : ST (Sys M) Z :=
  v ← get r;
  st_modify (fun s => set_cr3_regs
    (<[r := {| reg_addr := reg_addr v; reg_flags := reg_flags v; reg_count := reg_count v + 1 |}]>
       (cr3_regs s)) s);;
  mret r.

(** Dropping the [Arc]. *)
Definition release (r : Z) : ST (Sys M) unit :=
  v ← get r;
  st_modify (fun s => set_cr3_regs
    (if reg_count v =? 1 then delete r (cr3_regs s)
     else <[r := {| reg_addr := reg_addr v; reg_flags := reg_flags v;
                    reg_count := reg_count v - 1 |}]> (cr3_regs s)) s).
End ops.
End PageTableContext.

(** ** The stack ([vm/stack.rs]) *)
Module Stack.
Definition STACK_MAX : Z := 0x0000400000000000.
Definition STACK_MAX_PAGES : Z := 0x100000.
Definition STACK_MAX_SIZE : Z := STACK_MAX_PAGES * PAGE_SIZE.
Definition STACK_START_MASK : Z := 2 ^ 64 - STACK_MAX_SIZE.
Definition STACK_DEF_PAGE : Z := 1.
Definition STACK_DEF_SIZE : Z := STACK_DEF_PAGE * PAGE_SIZE.
Definition STACK_INIT_BOT : Z := STACK_MAX - STACK_DEF_SIZE.
Definition STACK_INIT_TOP : Z := STACK_MAX - 8.
Definition KSTACK_MAX : Z := 0xffffff0200000000.
Definition KSTACK_DEF_PAGE : Z := 32.
Definition KSTACK_DEF_SIZE : Z := KSTACK_DEF_PAGE * PAGE_SIZE.
Definition KSTACK_INIT_BOT : Z := KSTACK_MAX - KSTACK_DEF_SIZE.
Definition KSTACK_INIT_TOP : Z := KSTACK_MAX - 8.

Record t : Type := mk { range : PageRange; usage : Z }.

Section ops.
Context {M : Type} {L : Log} {X : X86} {MM : Machine M}.

Definition empty : t :=
  mk {| start := Page_containing STACK_INIT_TOP; end_ := Page_containing STACK_INIT_TOP |} 0.
Definition kstack : t :=
  mk {| start := Page_containing KSTACK_INIT_BOT; end_ := Page_containing KSTACK_INIT_TOP |}
     KSTACK_DEF_PAGE.

Definition new (top size : Z) : outcome t :=
  s ← Page_sub top size; s ← Page_add s 1; e ← Page_add top 1;
  Ret (mk {| start := s; end_ := e |} size).

Definition stack_min_addr (s : t) : Z := start (range s).

Definition set_stack (bottom page_num : Z) (s : t) : outcome t :=
  va ← VirtAddr_new bottom;
  let start_page := Page_containing va in
  e ← Page_add start_page page_num;
  Ret (mk {| start := start_page; end_ := e |} (usage s)).

Definition stack_offset (s old_stack : t) : Z := u64 (start (range s) - start (range old_stack)).

(** [pid.0 - 1] is 16-bit, the rest 64-bit. *)
Definition stack_bottom (pid : Z) : Z :=
  u64 (u64 (STACK_MAX - u64 (u16 (pid - 1) * STACK_MAX_SIZE)) - STACK_DEF_SIZE).
Definition init (l4 pid : Z) : ST (Sys M) (Z * t) :=
  r ← mem_op (map_pages l4 (stack_bottom pid) STACK_DEF_PAGE true);
  range ← st_lift (unwrap_result r);
  top ← st_lift (VirtAddr_add (start range) PAGE_SIZE);
  top ← st_lift (VirtAddr_sub top 8);
  mret (top, mk range STACK_DEF_PAGE).

Definition is_on_stack (s : t) (addr : Z) : bool :=
  Z.land addr STACK_START_MASK =? Z.land (start (range s)) STACK_START_MASK.

Definition grow_stack (l4 addr : Z) (s : t) : ST (Sys M) (result t MapToError) :=
  let new_start_page := Page_containing addr in
  page_count ← st_lift (Page_diff (start (range s)) new_start_page);
  pid ← get_pid;
  _ <-! mem_op (map_pages l4 new_start_page page_count (negb (pid =? KERNEL_PID))) ;;
  let range' := {| start := new_start_page; end_ := end_ (range s) |} in
  mret (Ok (mk range' (zlen (Page_range (start range') (end_ range'))))).

Definition handle_page_fault (l4 addr : Z) (s : t) : ST (Sys M) (bool * t) :=
  if negb (is_on_stack s addr) then mret (false, s)
  else
    r ← grow_stack l4 addr s;
    mret (match r with Ok s' => (true, s') | Err _ => (false, s) end).

Definition memory_usage (s : t) : Z := u64 (usage s * PAGE_SIZE).

Definition clean_up (l4 : Z) (s : t) : ST (Sys M) (result t UnmapError) :=
  if usage s =? 0 then mret (Ok s)
  else
    _ <-! mem_op (unmap_pages l4 (start (range s))
                    (zlen (Page_range (start (range s)) (end_ (range s)))) true) ;;
    mret (Ok (mk (range s) 0)).

(** The retry loop of [fork]: one slot of [STACK_MAX_SIZE] lower each time.  In
    the lower half there are [2^47 / 2^32 = 2^15] slots, after which
    [child_stack_min -= ..] panics, so [2^16] rounds are enough fuel. *)
Fixpoint fork_map (fuel : nat) (l4 child_stack_min count : Z) : ST (Sys M) Z :=
  match fuel with
  | O => fun _ => Timeout
  | S fuel' =>
      r ← mem_op (map_pages l4 child_stack_min count true);
      match r with
      | Ok _ => mret child_stack_min
      | Err _ =>
          lower ← st_lift (VirtAddr_sub child_stack_min STACK_MAX_SIZE);
          fork_map fuel' l4 lower count
      end
  end.

Definition clone_range (src_addr dest_addr size : Z) : ST (Sys M) unit :=
  st_modify (fun s => set_machine
    (copy_nonoverlapping (machine s) src_addr dest_addr (u64 (size * 4096))) s).

Definition fork (l4 stack_offset_count : Z) (s : t) : ST (Sys M) t :=
  child_stack_min ← st_lift (Page_sub (start (range s)) stack_offset_count);
  let child_stack_count := usage s in
  child_stack_min ← fork_map (Z.to_nat (2 ^ 16)) l4 child_stack_min child_stack_count;
  clone_range (stack_min_addr s) child_stack_min child_stack_count;;
  let page := Page_containing child_stack_min in
  e ← st_lift (Page_add page child_stack_count);
  mret (mk {| start := page; end_ := e |} (usage s)).
End ops.
End Stack.

(** ** The heap ([vm/heap.rs]) *)
Module Heap.
Definition HEAP_START : Z := 0x200000000000.
Definition HEAP_PAGES : Z := 0x100000.
Definition HEAP_SIZE : Z := HEAP_PAGES * PAGE_SIZE.
Definition HEAP_END : Z := HEAP_START + HEAP_SIZE - 8.

(** [end_ref]: the reference to the shared end address. *)
Record t : Type := mk { base : Z; end_ref : Z }.

Section ops.
Context {M : Type} {L : Log} {X : X86} {MM : Machine M}.

Definition empty : ST (Sys M) t :=
  b ← st_lift (VirtAddr_new HEAP_START);
  r ← st_gets (fun s => fresh_ref (heap_ends s));
  st_modify (fun s => set_heap_ends (<[r := HEAP_START]> (heap_ends s)) s);;
  mret (mk b r).

Definition fork (h : t) : t := mk (base h) (end_ref h).

Definition load_end (h : t) : ST (Sys M) Z := fun s =>
  match heap_ends s !! end_ref h with Some e => Ret (e, s) | None => Panic end.
Definition swap_end (h : t) (e : Z) : ST (Sys M) Z :=
  old ← load_end h;
  st_modify (fun s => set_heap_ends (<[end_ref h := e]> (heap_ends s)) s);;
  mret old.

(** [.ok()?] leaves before the [trace!] that unwraps the result. *)
Definition brk_trace (ret : option Z) : ST (Sys M) (option Z) :=
  match ret with
  | None => if trace_enabled then st_panic else mret None
  | Some _ => mret ret
  end.

Definition brk (l4 : Z) (h : t) (addr : option Z) : ST (Sys M) (option Z) :=
  e ← load_end h;
  now_end ← st_lift (VirtAddr_new e);
  upper_bound ← st_lift (align_up now_end 4096);
  match addr with
  | Some new_end =>
      if (HEAP_START <=? new_end) && (new_end <=? HEAP_END) then
        new_upper_bound ← st_lift (align_up new_end 4096);
        if new_upper_bound =? upper_bound then
          swap_end h new_end;; brk_trace (Some new_end)
        else if upper_bound <? new_upper_bound then
          let pages := (new_upper_bound - upper_bound) / PAGE_SIZE in
          pid ← get_pid;
          r ← mem_op (map_pages l4 upper_bound pages (negb (pid =? KERNEL_PID)));
          match r with
          | Err _ => mret None
          | Ok _ => swap_end h new_end;; brk_trace (Some new_end)
          end
        else
          let pages := (upper_bound - new_upper_bound) / PAGE_SIZE in
          r ← mem_op (unmap_pages l4 new_upper_bound pages true);
          match r with
          | Err _ => mret None
          | Ok _ => swap_end h new_end;; brk_trace (Some new_end)
          end
      else brk_trace None
  | None => brk_trace (Some now_end)
  end.

Definition memory_usage (h : t) : ST (Sys M) Z :=
  e ← load_end h; mret (u64 (e - base h)).

Definition clean_up (l4 : Z) (h : t) : ST (Sys M) (result unit UnmapError) :=
  u ← memory_usage h;
  if u =? 0 then mret (Ok tt)
  else
    origin_end ← swap_end h (base h);
    va ← st_lift (VirtAddr_new origin_end);
    pages ← st_lift (Page_diff (Page_containing va) (Page_containing (base h)));
    if origin_end =? base h then mret (Ok tt)
    else mem_op (unmap_pages l4 (base h) pages true).
End ops.
End Heap.

(** ** [ProcessVm] ([vm/mod.rs]) *)
Module ProcessVm.
Record t : Type := mk {
  page_table : Z;
  stack : Stack.t;
  heap : Heap.t;
  code : list PageRangeInclusive;
  code_usage : Z;
}.

Section ops.
Context {M : Type} {L : Log} {X : X86} {MM : Machine M}.

Definition new (page_table : Z) : ST (Sys M) t :=
  h ← Heap.empty;
  mret (mk page_table Stack.empty h [] 0).

(** The pages of the ranges, and their bytes (64-bit). *)
Definition pages_usage (ranges : list PageRangeInclusive) : Z :=
  u64 (fold_left (fun n r => u64 (n + zlen (Page_range_inclusive (istart r) (iend r)))) ranges 0
       * PAGE_SIZE).

Definition init_kernel_vm (pages : list PageRangeInclusive) (vm : t) : t :=
  mk (page_table vm) Stack.kstack (heap vm) pages (pages_usage pages).

Definition brk (vm : t) (addr : option Z) : ST (Sys M) (option Z) :=
  l4 ← PageTableContext.mapper (page_table vm);
  Heap.brk l4 (heap vm) addr.

Definition load_elf_code (elf : ElfFile) (l4 : Z) (vm : t) : ST (Sys M) t :=
  off ← st_gets physical_offset;
  r ← mem_op (load_elf elf off l4 true);
  code ← st_lift (unwrap_result r);
  mret (mk (page_table vm) (stack vm) (heap vm) code (pages_usage code)).

Definition load_elf (elf : ElfFile) (pid : Z) (vm : t) : ST (Sys M) (Z * t) :=
  l4 ← PageTableContext.mapper (page_table vm);
  vm ← load_elf_code elf l4 vm;
  r ← Stack.init l4 pid;
  mret (r.1, mk (page_table vm) r.2 (heap vm) (code vm) (code_usage vm)).

Definition fork (stack_offset_count : Z) (vm : t) : ST (Sys M) t :=
  child_page_table ← PageTableContext.fork (page_table vm);
  l4 ← PageTableContext.mapper child_page_table;
  st ← Stack.fork l4 stack_offset_count (stack vm);
  mret (mk child_page_table st (Heap.fork (heap vm)) [] 0).

Definition handle_page_fault (addr : Z) (vm : t) : ST (Sys M) (bool * t) :=
  l4 ← PageTableContext.mapper (page_table vm);
  r ← Stack.handle_page_fault l4 addr (stack vm);
  mret (r.1, mk (page_table vm) r.2 (heap vm) (code vm) (code_usage vm)).

Definition memory_usage (vm : t) : ST (Sys M) Z :=
  h ← Heap.memory_usage (heap vm);
  mret (u64 (u64 (Stack.memory_usage (stack vm) + h) + code_usage vm)).

Fixpoint free_code (l4 : Z) (ranges : list PageRangeInclusive) : ST (Sys M) (result unit UnmapError) :=
  match ranges with
  | [] => mret (Ok tt)
  | r :: rest => _ <-! mem_op (unmap_range l4 r true) ;; free_code l4 rest
  end.

Definition clean_up (vm : t) : ST (Sys M) (result unit UnmapError) :=
  l4 ← PageTableContext.mapper (page_table vm);
  _ <-! Stack.clean_up l4 (stack vm) ;;
  n ← PageTableContext.using_count (page_table vm);
  if n =? 1 then
    _ <-! Heap.clean_up l4 (heap vm) ;;
    _ <-! free_code l4 (code vm) ;;
    mem_op (fun '(m, a) => Ret (tt, clean_up_tables m a l4));;
    mem_op (fun '(m, a) => Ret (tt, (m, deallocate_frame l4 a)));;
    mret (Ok tt)
  else mret (Ok tt).

(** [Drop]: an error of [clean_up] is only logged; then the fields are dropped. *)
Definition drop (vm : t) : ST (Sys M) unit :=
  clean_up vm;;
  PageTableContext.release (page_table vm).
End ops.
End ProcessVm.

(** ** Properties of the heap *)

Lemma mem_op_run {M T} (f : ST (M * BootInfoFrameAllocator) T) (s : Sys M) t m a :
  f (machine s, frame_alloc s) = Ret (t, (m, a)) ->
  mem_op f s = Ret (t, set_frame_alloc a (set_machine m s)).
Proof. intros E. unfold mem_op. by rewrite E. Qed.

(** The [i]-th page of the heap region, and the number of pages that hold the
    bytes up to [e]. *)
Definition heap_page (i : Z) : Z := Heap.HEAP_START + 4096 * i.
Definition heap_top (e : Z) : Z := (e - Heap.HEAP_START + 4095) / 4096.

(** The pages of the heap that are mapped are those below the end. *)
Definition heap_inv {M} `{Machine M} (m : M) (l4 e : Z) : Prop :=
  Heap.HEAP_START <= e <= Heap.HEAP_END /\
  forall i, 0 <= i < Heap.HEAP_PAGES ->
    is_Some (translate_page m l4 (heap_page i)) <-> heap_page i < e.

(** Pages outside the heap are translated as before. *)
Definition outside_heap {M} `{Machine M} (m m' : M) (l4 : Z) : Prop :=
  forall q, (forall i, 0 <= i < Heap.HEAP_PAGES -> q <> heap_page i) ->
  translate_page m' l4 q = translate_page m l4 q.

Lemma heap_page_top e i :
  Heap.HEAP_START <= e -> heap_page i < e <-> i < heap_top e.
Proof. unfold heap_page, heap_top. intros. zdiv. Qed.

Lemma heap_top_bounds e :
  Heap.HEAP_START <= e <= Heap.HEAP_END -> 0 <= heap_top e <= Heap.HEAP_PAGES.
Proof.
  unfold heap_top, Heap.HEAP_END, Heap.HEAP_SIZE, Heap.HEAP_PAGES, PAGE_SIZE. intros. zdiv.
Qed.

Lemma heap_page_aligned i : page_aligned (heap_page i).
Proof. unfold page_aligned, heap_page, Heap.HEAP_START. zdiv. Qed.

Lemma heap_page_low i : 0 <= i <= Heap.HEAP_PAGES -> low (heap_page i).
Proof. unfold low, heap_page, Heap.HEAP_PAGES, Heap.HEAP_START. lia. Qed.

Lemma align_up_heap `{X86Laws} e :
  Heap.HEAP_START <= e <= Heap.HEAP_END -> align_up e 4096 = Ret (heap_page (heap_top e)).
Proof.
  intros He. rewrite align_up_low.
  - f_equal. unfold heap_page, heap_top, Heap.HEAP_START. zdiv.
  - unfold low, Heap.HEAP_END, Heap.HEAP_SIZE, Heap.HEAP_PAGES, Heap.HEAP_START, PAGE_SIZE in *. lia.
  - lia.
  - exists (2 ^ 28). reflexivity.
Qed.

Lemma elem_of_heap_pages u k i :
  heap_page i ∈ pages_from (heap_page u) k <-> u <= i < u + Z.of_nat k.
Proof.
  rewrite elem_of_pages_from. unfold heap_page. split.
  - intros (j & E & Hj). lia.
  - intros Hi. exists (Z.to_nat (i - u)). lia.
Qed.

Lemma pages_from_heap u k q :
  q ∈ pages_from (heap_page u) k -> exists i, u <= i < u + Z.of_nat k /\ q = heap_page i.
Proof.
  rewrite elem_of_pages_from. intros (j & -> & Hj). exists (u + Z.of_nat j).
  unfold heap_page. lia.
Qed.

Lemma frames_give_back fs a : frames (give_back fs a) = frames a.
Proof. revert a. induction fs as [|f fs IH]; intros a; [done|].
  change (give_back (f :: fs) a) with (give_back fs (deallocate_frame f a)). by rewrite IH.
Qed.

Section heap.
Context {M : Type} {L : Log} {X : X86} {XL : X86Laws} {MM : Machine M} {ML : MachineLaws M}.

Lemma heap_grow (m m' : M) l4 fl e n k :
  heap_inv m l4 e -> Heap.HEAP_START <= n <= Heap.HEAP_END ->
  heap_top e <= heap_top n -> Z.of_nat k <= heap_top n - heap_top e ->
  maps_new l4 fl m m' (pages_from (heap_page (heap_top e)) k) ->
  (Z.of_nat k = heap_top n - heap_top e -> heap_inv m' l4 n) /\ outside_heap m m' l4.
Proof using All.
  intros [He Hm] Hn Hle Hk (Hnew & Hold & _). pose proof (heap_top_bounds e He).
  pose proof (heap_top_bounds n Hn). split.
  - intros Ek. split; [done|]. intros i Hi. rewrite heap_page_top by lia.
    destruct (decide (heap_page i ∈ pages_from (heap_page (heap_top e)) k)) as [Hin|Hin].
    + pose proof (proj1 (elem_of_heap_pages _ _ _) Hin). split; [lia|intros _; by apply Hnew].
    + rewrite Hold by done. rewrite Hm by done. rewrite heap_page_top by lia.
      rewrite elem_of_heap_pages in Hin. lia.
  - intros q Hq. apply Hold. intros (i & Hi & ->)%pages_from_heap. eapply Hq; [|done]. lia.
Qed.

Lemma heap_shrink (m m' : M) l4 e n :
  heap_inv m l4 e -> Heap.HEAP_START <= n <= Heap.HEAP_END -> heap_top n <= heap_top e ->
  unmaps l4 m m' (pages_from (heap_page (heap_top n)) (Z.to_nat (heap_top e - heap_top n))) ->
  heap_inv m' l4 n /\ outside_heap m m' l4.
Proof using All.
  intros [He Hm] Hn Hle (Hgone & Hold & _). pose proof (heap_top_bounds e He).
  pose proof (heap_top_bounds n Hn). split.
  - split; [done|]. intros i Hi. rewrite heap_page_top by lia.
    destruct (decide (heap_page i ∈ pages_from (heap_page (heap_top n))
                        (Z.to_nat (heap_top e - heap_top n)))) as [Hin|Hin].
    + rewrite Hgone by done. pose proof (proj1 (elem_of_heap_pages _ _ _) Hin).
      split; [by intros []|lia].
    + rewrite Hold by done. rewrite Hm by done. rewrite heap_page_top by lia.
      rewrite elem_of_heap_pages in Hin. lia.
  - intros q Hq. apply Hold. intros (i & Hi & ->)%pages_from_heap. eapply Hq; [|done]. lia.
Qed.

(** The flags of the heap's pages when the end moved from [e] to [n]: the new pages are writable, for the user unless the kernel runs, and the others are as they were. *)
Definition heap_flags (l4 e n : Z) (s s' : Sys M) : Prop :=
  forall i, 0 <= i < heap_top n -> page_flags (machine s') l4 (heap_page i) =
    if decide (heap_top e <= i) then Some (access_flags (negb (processor_pid s =? KERNEL_PID))) else page_flags (machine s) l4 (heap_page i).
(** What a call of [brk] did, from end [e] and state [s] to state [s']. *)
Definition brk_result (l4 e n : Z) (h : Heap.t) (s s' : Sys M) (r : option Z) : Prop :=
  outside_heap (machine s) (machine s') l4 /\ frames_in_range (frame_alloc s') /\
  match r with
  | Some r => r = n /\ heap_ends s' = <[Heap.end_ref h := n]> (heap_ends s) /\
              heap_inv (machine s') l4 n /\ heap_flags l4 e n s s'
  | None => heap_top e < heap_top n /\ heap_ends s' = heap_ends s
  end.

Lemma swap_end_run h e n (s : Sys M) :
  heap_ends s !! Heap.end_ref h = Some e ->
  (Heap.swap_end h n;; Heap.brk_trace (Some n)) s =
  Ret (Some n, set_heap_ends (<[Heap.end_ref h := n]> (heap_ends s)) s).
Proof.
  intros He. unfold Heap.swap_end.
  assert (El : Heap.load_end h s = Ret (e, s)) by (unfold Heap.load_end; by rewrite He).
  unfold mbind, ST_bind. rewrite El. done.
Qed.

(** The pages below the end are mapped; others may be, too. *)
Definition below_mapped (m : M) (l4 e : Z) : Prop :=
  Heap.HEAP_START <= e <= Heap.HEAP_END /\
  forall i, 0 <= i < Heap.HEAP_PAGES -> heap_page i < e -> is_Some (translate_page m l4 (heap_page i)).
(** The ways a [brk] from end [e] to [n] can go: pages given back, pages added, or a failure after some of the pages were added. *)
Inductive brk_move (l4 e n : Z) (h : Heap.t) (s s' : Sys M) : option Z -> Prop :=
| move_shrink : heap_top n <= heap_top e -> heap_ends s' = <[Heap.end_ref h := n]> (heap_ends s) ->
    unmaps l4 (machine s) (machine s') (pages_from (heap_page (heap_top n)) (Z.to_nat (heap_top e - heap_top n))) ->
    brk_move l4 e n h s s' (Some n)
| move_grow k : Z.of_nat k = heap_top n - heap_top e -> heap_top e < heap_top n -> heap_ends s' = <[Heap.end_ref h := n]> (heap_ends s) ->
    maps_new l4 (access_flags (negb (processor_pid s =? KERNEL_PID))) (machine s) (machine s') (pages_from (heap_page (heap_top e)) k) ->
    brk_move l4 e n h s s' (Some n)
| move_fail k : Z.of_nat k < heap_top n - heap_top e -> heap_ends s' = heap_ends s ->
    maps_new l4 (access_flags (negb (processor_pid s =? KERNEL_PID))) (machine s) (machine s') (pages_from (heap_page (heap_top e)) k) ->
    brk_move l4 e n h s s' None.
Lemma heap_pages_low a b : 0 <= a -> a <= b <= Heap.HEAP_PAGES -> low (heap_page a) /\ low (heap_page a + 4096 * (b - a)).
Proof. unfold low, heap_page, Heap.HEAP_PAGES, Heap.HEAP_START. lia. Qed.
(** Asking for the end. *)
Lemma brk_none l4 h (s : Sys M) e : heap_ends s !! Heap.end_ref h = Some e -> Heap.HEAP_START <= e <= Heap.HEAP_END -> Heap.brk l4 h None s = Ret (Some e, s).
Proof.
  intros He Her. unfold Heap.brk. assert (El : Heap.load_end h s = Ret (e, s)) by (unfold Heap.load_end; by rewrite He).
  rewrite (st_bind_run _ _ _ _ _ El), VirtAddr_new_low, st_lift_bind by (unfold low, Heap.HEAP_END, Heap.HEAP_SIZE, Heap.HEAP_PAGES, Heap.HEAP_START, PAGE_SIZE in *; lia).
  rewrite align_up_heap, st_lift_bind by done. unfold Heap.brk_trace. by destruct trace_enabled.
Qed.
Lemma brk_moves l4 h (s : Sys M) e n :
  heap_ends s !! Heap.end_ref h = Some e -> below_mapped (machine s) l4 e ->
  processor_pid s <> 0 -> frames_in_range (frame_alloc s) ->
  Heap.HEAP_START <= n <= Heap.HEAP_END ->
  exists r s', Heap.brk l4 h (Some n) s = Ret (r, s') /\ frames_in_range (frame_alloc s') /\ processor_pid s' = processor_pid s /\ brk_move l4 e n h s s' r.
Proof using All.
  intros He [Her Hmap] Hpid Hfr Hn. unfold Heap.brk.
  assert (El : Heap.load_end h s = Ret (e, s)) by (unfold Heap.load_end; by rewrite He).
  rewrite (st_bind_run _ _ _ _ _ El).
  pose proof (heap_top_bounds e Her) as Hbe. pose proof (heap_top_bounds n Hn) as Hbn.
  rewrite VirtAddr_new_low
    by (unfold low, Heap.HEAP_END, Heap.HEAP_SIZE, Heap.HEAP_PAGES, Heap.HEAP_START, PAGE_SIZE in *; lia).
  rewrite st_lift_bind, (align_up_heap e), st_lift_bind by done.
  rewrite (proj2 (andb_true_iff _ _)) by (split; apply Z.leb_le; lia).
  rewrite (align_up_heap n), st_lift_bind by done.
  assert (Hpg : forall a b, (heap_page a - heap_page b) / PAGE_SIZE = a - b).
  { intros a b. unfold heap_page, PAGE_SIZE. zdiv. }
  destruct (Z.eqb_spec (heap_page (heap_top n)) (heap_page (heap_top e))) as [Eq|Ne].
  - assert (heap_top n = heap_top e) as Et by (unfold heap_page in Eq; lia).
    eexists _, _. split; [by apply swap_end_run with e|]. split; [done|]. split; [done|]. apply move_shrink; [lia|done|].
    rewrite Et, Z.sub_diag. split; [intros p Hp%elem_of_nil; done|by split].
  - rewrite !Hpg. destruct (Z.ltb_spec (heap_page (heap_top e)) (heap_page (heap_top n))) as [Hlt|Hge].
    + assert (heap_top e < heap_top n) as Ht by (unfold heap_page in Hlt; lia).
      assert (Eg : get_pid s = Ret (processor_pid s, s)).
      { unfold get_pid. by rewrite (proj2 (Z.eqb_neq _ _)). }
      rewrite (st_bind_run _ _ _ _ _ Eg). destruct (heap_pages_low (heap_top e) (heap_top n)) as [Hl1 Hl2]; [lia..|].
      destruct (map_pages_spec frames_in_range frames_in_range_closed l4 (heap_page (heap_top e))
        (heap_top n - heap_top e) (negb (processor_pid s =? KERNEL_PID)) (machine s) (frame_alloc s))
        as (r & m' & a' & k & E & Hfr' & Hk & Hr & Hm); [done|apply heap_page_aligned|lia|done|done|].
      rewrite (st_bind_run _ _ _ _ _ (mem_op_run _ _ _ _ _ E)). destruct r as [range|err].
      * eexists _, _. split; [by apply swap_end_run with e|]. split; [done|]. split; [done|]. destruct Hr as [_ Hr]. by eapply move_grow.
      * eexists None, _. split; [done|]. split; [done|]. split; [done|]. by eapply move_fail.
    + assert (heap_top n < heap_top e) as Ht by (unfold heap_page in *; lia).
      destruct (heap_pages_low (heap_top n) (heap_top e)) as [Hl1 Hl2]; [lia..|].
      destruct (unmap_pages_spec frames_in_range frames_in_range_closed l4 (heap_page (heap_top n))
        (heap_top e - heap_top n) true (machine s) (frame_alloc s))
        as (m' & fs & E & _ & Hu); [done|apply heap_page_aligned|lia|done| |].
      { intros q (i & Hi & ->)%pages_from_heap. apply Hmap; [lia|]. apply heap_page_top; lia. }
      rewrite (st_bind_run _ _ _ _ _ (mem_op_run _ _ _ _ _ E)).
      eexists _, _. split; [by apply swap_end_run with e|]. split; [cbn; unfold frames_in_range; by rewrite frames_give_back|].
      split; [done|]. apply move_shrink; [lia|done|exact Hu].
Qed.
Lemma brk_spec l4 h (s : Sys M) e n :
  heap_ends s !! Heap.end_ref h = Some e -> heap_inv (machine s) l4 e ->
  processor_pid s <> 0 -> frames_in_range (frame_alloc s) ->
  Heap.HEAP_START <= n <= Heap.HEAP_END ->
  exists r s', Heap.brk l4 h (Some n) s = Ret (r, s') /\ brk_result l4 e n h s s' r.
Proof using All.
  intros He Hinv Hpid Hfr Hn. assert (Hb : below_mapped (machine s) l4 e).
  { destruct Hinv as [Her Hm]. split; [done|]. intros i Hi. by apply Hm. }
  destruct (brk_moves l4 h s e n He Hb Hpid Hfr Hn) as (r & s' & E & Hfr' & _ & Hmv). exists r, s'. split; [done|].
  destruct Hmv as [Ht Hends Hu|k Hk Ht Hends Hm|k Hk Hends Hm].
  - destruct (heap_shrink _ _ _ _ _ Hinv Hn Ht Hu) as [Hi Ho]. split; [done|]. split; [done|]. split; [done|]. split; [done|].
    split; [done|]. intros i Hin. rewrite decide_False by lia. apply Hu. rewrite elem_of_heap_pages. lia.
  - destruct (fun H1 H2 => heap_grow (machine s) (machine s') l4 _ e n k Hinv Hn H1 H2 Hm) as [Hi Ho]; [lia..|]. split; [done|]. split; [done|].
    split; [done|]. split; [done|]. split; [auto|]. intros i Hin. destruct Hm as (_ & _ & ->). repeat case_decide; try done; rewrite elem_of_heap_pages in *; lia.
  - destruct (fun H1 H2 => heap_grow (machine s) (machine s') l4 _ e n k Hinv Hn H1 H2 Hm) as [Hi Ho]; [lia..|]. split; [done|]. split; [done|]. split; [lia|done].
Qed.

(** C18: the heap of a process.  As long as the mapped pages of the heap region are
    those below the end, a [brk] to an address of the region always returns: either
    it answers the new end, the end is moved there, again exactly the pages below it
    are mapped, the new ones writable and accessible to the user (unless the kernel
    process calls) and the others with the flags that they had, or, only when the heap had to grow and a page could not be
    mapped, it answers [None] and the end stays.  No translation outside the region
    changes.  Without an address it answers the end; with an address outside the
    region it answers [None] when [trace!] is disabled, and panics the kernel when
    it is enabled. *)
Theorem heap_brk_correct l4 h (s : Sys M) e :
  heap_ends s !! Heap.end_ref h = Some e -> heap_inv (machine s) l4 e ->
  processor_pid s <> 0 -> frames_in_range (frame_alloc s) ->
  (forall n, Heap.HEAP_START <= n <= Heap.HEAP_END ->
     exists r s', Heap.brk l4 h (Some n) s = Ret (r, s') /\ brk_result l4 e n h s s' r) /\
  Heap.brk l4 h None s = Ret (Some e, s) /\
  (forall n, ~ (Heap.HEAP_START <= n <= Heap.HEAP_END) ->
     Heap.brk l4 h (Some n) s = if trace_enabled then Panic else Ret (None, s)).
Proof using All.
  intros He Hinv Hpid Hfr. pose proof Hinv as [Her _].
  assert (El : Heap.load_end h s = Ret (e, s)) by (unfold Heap.load_end; by rewrite He).
  assert (Hlow : low e).
  { unfold low, Heap.HEAP_END, Heap.HEAP_SIZE, Heap.HEAP_PAGES, Heap.HEAP_START, PAGE_SIZE in *. lia. }
  split; [intros n Hn; by apply brk_spec|]. unfold Heap.brk. split.
  - rewrite (st_bind_run _ _ _ _ _ El), VirtAddr_new_low by done.
    by rewrite st_lift_bind, (align_up_heap e), st_lift_bind by done.
  - intros n Hn. rewrite (st_bind_run _ _ _ _ _ El), VirtAddr_new_low by done.
    rewrite st_lift_bind, (align_up_heap e), st_lift_bind by done.
    rewrite (proj2 (andb_false_iff _ _)).
    + unfold Heap.brk_trace. by destruct trace_enabled.
    + rewrite !Z.leb_gt. lia.
Qed.
End heap.

(** ** Properties of the stack *)

Lemma land_high_mask a k :
  0 <= k <= 64 -> 0 <= a < 2 ^ 64 -> Z.land a (2 ^ 64 - 2 ^ k) = a - a mod 2 ^ k.
Proof.
  intros Hk Ha.
  assert (E : 2 ^ 64 - 2 ^ k = Z.shiftl (Z.ones (64 - k)) k).
  { rewrite Z.shiftl_mul_pow2, Z.ones_equiv by lia.
    assert (2 ^ 64 = 2 ^ (64 - k) * 2 ^ k) by (rewrite <- Z.pow_add_r by lia; f_equal; lia). lia. }
  assert (E2 : a - a mod 2 ^ k = Z.shiftl (Z.shiftr a k) k).
  { rewrite Z.shiftl_mul_pow2, Z.shiftr_div_pow2 by lia.
    pose proof (Z.div_mod a (2 ^ k) ltac:(lia)). lia. }
  rewrite E, E2. apply Z.bits_inj'. intros i Hi.
  rewrite Z.land_spec, !Z.shiftl_spec by lia.
  destruct (decide (i < k)).
  - rewrite (Z.testbit_neg_r (Z.ones _)), (Z.testbit_neg_r (Z.shiftr a k)) by lia. apply andb_false_r.
  - rewrite Z.shiftr_spec by lia. replace (i - k + k) with i by lia.
    destruct (decide (i < 64)).
    + rewrite Z.ones_spec_low by lia. apply andb_true_r.
    + assert (Z.testbit a i = false) as ->.
      { rewrite <- (Z.mod_small a (2 ^ 64)) by lia. apply Z.mod_pow2_bits_high. lia. }
      done.
Qed.

(** The 4 GiB below [STACK_MAX] for process 1, the next for process 2, ... *)
Definition in_slot (pid a : Z) : Prop :=
  Stack.STACK_MAX - pid * 2 ^ 32 <= a < Stack.STACK_MAX - (pid - 1) * 2 ^ 32.

Lemma is_on_stack_slot pid (st : Stack.t) a :
  1 <= pid <= 2 ^ 14 -> in_slot pid (start (Stack.range st)) -> in_width 64 a ->
  Stack.is_on_stack st a = true <-> in_slot pid a.
Proof.
  intros Hp Hs Ha. unfold Stack.is_on_stack, in_slot, Stack.STACK_MAX in *.
  change Stack.STACK_START_MASK with (2 ^ 64 - 2 ^ 32).
  rewrite !land_high_mask by (unfold in_width in *; lia). rewrite Z.eqb_eq. zdiv.
Qed.

(** stack slots.  For every process number up to [2^14], the first stack page is
    the last page of the process's own 4 GiB slot and the address is computed
    without wrapping; a fault address is taken for a stack access exactly when it is
    in the slot of the stack; slots of different processes do not overlap; and the
    heap region is disjoint from every slot but the one of process 8192, which it
    fills. *)
Theorem stack_slots pid :
  1 <= pid <= 2 ^ 14 ->
  Stack.stack_bottom pid = Stack.STACK_MAX - (pid - 1) * 2 ^ 32 - 4096 /\
  in_slot pid (Stack.stack_bottom pid) /\ in_slot pid (Stack.stack_bottom pid + 4095) /\
  (forall st a, in_slot pid (start (Stack.range st)) -> in_width 64 a ->
     Stack.is_on_stack st a = true <-> in_slot pid a) /\
  (forall pid' a, in_slot pid a -> in_slot pid' a -> pid' = pid) /\
  (forall a, in_slot pid a ->
     (Heap.HEAP_START <= a < Heap.HEAP_START + Heap.HEAP_SIZE <-> pid = 8192)).
Proof.
  intros Hp.
  assert (E : Stack.stack_bottom pid = Stack.STACK_MAX - (pid - 1) * 2 ^ 32 - 4096).
  { unfold Stack.stack_bottom, Stack.STACK_DEF_SIZE, Stack.STACK_MAX_SIZE, Stack.STACK_DEF_PAGE,
      Stack.STACK_MAX_PAGES, PAGE_SIZE, Stack.STACK_MAX.
    rewrite (wrap_small 16) by lia. rewrite (wrap_small 64 (_ * _)) by lia.
    rewrite (wrap_small 64 (0x0000400000000000 - _)) by lia. rewrite wrap_small by lia. lia. }
  split; [done|]. rewrite E. split; [unfold in_slot; lia|]. split; [unfold in_slot; lia|].
  split; [intros; by apply is_on_stack_slot|]. unfold in_slot. split; [intros; lia|].
  intros a. unfold Heap.HEAP_SIZE, Heap.HEAP_PAGES, Heap.HEAP_START, PAGE_SIZE, Stack.STACK_MAX. lia.
Qed.

Lemma stack_slots_witness :
  Stack.stack_bottom 3 = 0x3ffdfffff000 /\ in_slot 3 0x3ffdfffff000.
Proof.
  destruct (stack_slots 3) as (E & Hs & _); [lia|]. split; [exact E|]. rewrite E in Hs. exact Hs.
Defined.

Section stack.
Context {M : Type} {L : Log} {X : X86} {XL : X86Laws} {MM : Machine M} {ML : MachineLaws M}.

(** C21: page faults grow the stack.  A fault outside the slot of the stack is refused
    and changes nothing.  A fault in the slot, at a user address below the stack,
    always returns: either the pages from the fault up to the old bottom are now
    mapped, writable and accessible to the user (unless the kernel process runs), no
    other translation changed, and the stack's range and usage are
    extended to them, or the mapping failed part of the way and the fault is
    refused with the stack as it was. *)
Theorem stack_page_fault l4 addr st (s : Sys M) (n : nat) :
  processor_pid s <> 0 -> frames_in_range (frame_alloc s) ->
  low (start (Stack.range st)) -> page_aligned (start (Stack.range st)) ->
  end_ (Stack.range st) = start (Stack.range st) + 4096 * Z.of_nat n ->
  low (end_ (Stack.range st)) -> low addr ->
  (Stack.is_on_stack st addr = false -> Stack.handle_page_fault l4 addr st s = Ret ((false, st), s)) /\
  (Stack.is_on_stack st addr = true -> addr < start (Stack.range st) ->
   let bottom := addr - addr mod 4096 in
   let pages := (start (Stack.range st) - bottom) / 4096 in
   exists ok st' s' (k : nat), Stack.handle_page_fault l4 addr st s = Ret ((ok, st'), s') /\
     maps_new l4 (access_flags (negb (processor_pid s =? KERNEL_PID))) (machine s) (machine s') (pages_from bottom k) /\
     if (ok : bool) then
       Z.of_nat k = pages /\ Stack.usage st' = pages + Z.of_nat n /\
       Stack.range st' = {| start := bottom; end_ := end_ (Stack.range st) |}
     else st' = st /\ Z.of_nat k < pages).
Proof using All.
  intros Hpid Hfr Hl Ha He Hle Hla. unfold Stack.handle_page_fault. split.
  - by intros ->.
  - intros Hon Hlt. rewrite Hon.
    set (bottom := addr - addr mod 4096) in *. set (pages := (start (Stack.range st) - bottom) / 4096). cbn [negb]. unfold Stack.grow_stack.
    unfold low, page_aligned in *.
    rewrite Page_containing_low by done. fold bottom.
    assert (Hb : 0 <= bottom /\ bottom mod 4096 = 0 /\ bottom <= addr < bottom + 4096)
      by (subst bottom; zdiv).
    assert (Hpg : start (Stack.range st) = bottom + 4096 * pages /\ 1 <= pages)
      by (subst pages; zdiv).
    assert (Ed : Page_diff (start (Stack.range st)) bottom = Ret pages).
    { apply Page_diff_low; unfold low, page_aligned; lia. }
    rewrite Ed.
    assert (Eg : get_pid s = Ret (processor_pid s, s)).
    { unfold get_pid. by rewrite (proj2 (Z.eqb_neq _ _)). }
    destruct (map_pages_spec frames_in_range frames_in_range_closed l4 bottom pages
      (negb (processor_pid s =? KERNEL_PID)) (machine s) (frame_alloc s))
      as (r & m' & a' & k & E & Hfr' & Hk & Hr & Hm); try (unfold low, page_aligned; lia); [done|].
    destruct r as [range|err].
    + eexists true, _, (set_frame_alloc a' (set_machine m' s)), k. split; [|split; [exact Hm|]].
      * erewrite st_bind_run; [|rewrite st_lift_bind, (st_bind_run _ _ _ _ _ Eg);
          erewrite st_try_ok by (by apply mem_op_run); reflexivity]. reflexivity.
      * destruct Hr as [_ Ek]. split; [done|]. cbn [Stack.range Stack.usage start end_]. split; [|done].
        replace (end_ (Stack.range st)) with (bottom + 4096 * Z.of_nat (Z.to_nat pages + n)) by lia.
        rewrite Page_range_low by (unfold low, page_aligned; lia).
        unfold zlen. rewrite length_pages_from. lia.
    + eexists false, st, (set_frame_alloc a' (set_machine m' s)), k. split; [|split; [exact Hm|done]].
      erewrite st_bind_run; [|rewrite st_lift_bind, (st_bind_run _ _ _ _ _ Eg);
        erewrite st_try_err by (by apply mem_op_run); reflexivity]. reflexivity.
Qed.
End stack.

(** ** Witnesses *)

Definition demo_sys : Sys demo_machine := {|
  machine := demo_mem; frame_alloc := demo_frames; cr3_regs := ∅;
  heap_ends := {[1 := Heap.HEAP_START]}; physical_offset := 0; processor_pid := 2 |}.
Definition demo_heap : Heap.t := Heap.mk Heap.HEAP_START 1.

#[local] Existing Instances demo_log demo_x86 demo_x86_laws demo_uefi.

Lemma demo_frames_in_range : frames_in_range demo_frames.
Proof.
  eapply Forall_impl; [apply (create_frame_iter_range demo_map demo_map_ok)|]. by intros x [? _].
Qed.

Lemma demo_heap_inv : heap_inv demo_mem 0 Heap.HEAP_START.
Proof.
  split; [by vm_compute|]. intros i Hi. unfold heap_page. cbn. rewrite lookup_empty.
  split; [by intros []|lia].
Qed.

Lemma heap_brk_correct_witness :
  exists s', Heap.brk 0 demo_heap (Some 0x200000001001) demo_sys = Ret (Some 0x200000001001, s') /\
    heap_inv (machine s') 0 0x200000001001.
Proof.
  destruct (heap_brk_correct 0 demo_heap demo_sys Heap.HEAP_START) as (Hok & _ & _);
    [reflexivity|apply demo_heap_inv|discriminate|apply demo_frames_in_range|].
  destruct (Hok 0x200000001001) as (r & s' & E & _ & _ & Hr); [vm_compute; split; discriminate|].
  assert (Er : r = Some 0x200000001001) by (vm_compute in E; injection E as <- _; reflexivity).
  exists s'. rewrite Er in *. split; [exact E|]. apply Hr.
Defined.

(** A one-page stack of process 2. *)
Definition demo_stack : Stack.t :=
  Stack.mk {| start := Stack.stack_bottom 2; end_ := Stack.stack_bottom 2 + 4096 |} 1.

Lemma stack_page_fault_witness :
  exists st' s', Stack.handle_page_fault 0 (Stack.stack_bottom 2 - 5000) demo_stack demo_sys =
    Ret ((true, st'), s') /\ Stack.usage st' = 3.
Proof.
  destruct (stack_page_fault 0 (Stack.stack_bottom 2 - 5000) demo_stack demo_sys 1)
    as (_ & Hgrow); [discriminate|apply demo_frames_in_range|
    vm_compute; split; discriminate || reflexivity|reflexivity|reflexivity|
    vm_compute; split; discriminate || reflexivity|vm_compute; split; discriminate || reflexivity|].
  destruct Hgrow as (ok & st' & s' & k & E & _ & Hr); [vm_compute; reflexivity..|].
  assert (Eok : ok = true) by (vm_compute in E; injection E as <- _; reflexivity).
  exists st', s'. rewrite Eok in *. split; [exact E|]. destruct Hr as (_ & -> & _). reflexivity.
Defined.
