(* ===== verification/HeapLife.v ===== *)
(** * Heaps

    The life of a process's heap: [pkg/lib/src/allocator/brk.rs], which gets it from the kernel when a program starts, and [Heap::clean_up], which
    gives it back when the process ends.  Also the heap that the kernel makes for [sys_allocate] ([pkg/kernel/src/memory/user.rs]). *)

From stdpp Require Import base numbers list gmap.
From S2P Require Import Prelude Bytes X86 Frames ElfMap Vm.

(** ** The allocator of a program *)
Module BrkAlloc.
Definition HEAP_SIZE : Z := 8 * 1024 - 8.
(** [init]: the region that the allocator gets; [sys_brk] as the argument. *)
Definition init {S} (sys_brk : option Z -> ST S (option Z)) : ST S (Z * Z) :=
  r ← sys_brk None;
  heap_start ← st_lift (unwrap r);
  let heap_end := u64 (heap_start + HEAP_SIZE) in
  r ← sys_brk (Some heap_end);
  ret ← st_lift (unwrap r);
  if ret =? heap_end then mret (heap_start, HEAP_SIZE) else st_panic.
End BrkAlloc.

(** ** The heap for [sys_allocate] *)
Module UserHeap.
Definition USER_HEAP_START : Z := 0x400000000000.
Definition USER_HEAP_SIZE : Z := 1024 * 1024.
Definition USER_HEAP_PAGE : Z := USER_HEAP_SIZE / PAGE_SIZE.
Section ops.
Context {M A : Type} `{Log, X86, Machine M, !FrameAllocator A, !FrameDeallocator A}.
(** [LockedHeap::init] of [linked_list_allocator] *)
Context (heap_init : M -> Z -> Z -> M).
(** [PageTableContext::new().mapper()] is the table in CR3, [l4]. *)
Definition init_user_heap : ST (M * A) (result unit MapToError) :=
  l4 ← st_gets (fun s => (Cr3_read s.1).1);
  heap_start ← st_lift (VirtAddr_new USER_HEAP_START);
  let heap_start_page := Page_containing heap_start in
  e ← st_lift (Page_add heap_start_page USER_HEAP_PAGE);
  heap_end_page ← st_lift (Page_sub e 1);
  _ <-! map_each l4 {| PRESENT := true; WRITABLE := true; USER_ACCESSIBLE := true; NO_EXECUTE := false |}
          (Page_range heap_start_page heap_end_page) ;;
  _ ← on_machine (fun m => heap_init m USER_HEAP_START USER_HEAP_SIZE);
  mret (Ok tt).
Definition init : ST (M * A) unit := r ← init_user_heap; st_lift (unwrap_result r).
End ops.
End UserHeap.

Section spec.
Context {M : Type} {L : Log} {X : X86} {XL : X86Laws} {MM : Machine M} {ML : MachineLaws M}.

Lemma page_of_heap e : Heap.HEAP_START <= e <= Heap.HEAP_END -> Page_containing e = heap_page ((e - Heap.HEAP_START) / 4096).
Proof.
  unfold Heap.HEAP_END, Heap.HEAP_SIZE, Heap.HEAP_PAGES, heap_page, PAGE_SIZE. intros He. rewrite Page_containing_low by (unfold low, Heap.HEAP_START in *; lia).
  unfold Heap.HEAP_START in *. zdiv.
Qed.
(** The end of a heap.  [clean_up] unmaps the pages that lie wholly below the end, and gives their frames back; when the end is inside a page, that page stays
    mapped and its frame is lost. *)
Theorem heap_clean_up_leaves l4 h (s : Sys M) e : heap_ends s !! Heap.end_ref h = Some e -> Heap.base h = Heap.HEAP_START -> heap_inv (machine s) l4 e ->
  Heap.HEAP_START + 4096 <= e -> frames_in_range (frame_alloc s) ->
  exists s', Heap.clean_up l4 h s = Ret (Ok tt, s') /\ heap_ends s' !! Heap.end_ref h = Some Heap.HEAP_START /\
    forall i, 0 <= i < Heap.HEAP_PAGES ->
      is_Some (translate_page (machine s') l4 (heap_page i)) <-> heap_page i < e < heap_page i + 4096.
Proof.
  intros He Hb [Her Hm] Hl Hfr. unfold Heap.clean_up, Heap.memory_usage.
  assert (El : Heap.load_end h s = Ret (e, s)) by (unfold Heap.load_end; by rewrite He).
  assert (Ebound : 0 <= e < 2 ^ 47) by (unfold Heap.HEAP_END, Heap.HEAP_SIZE, Heap.HEAP_PAGES, Heap.HEAP_START, PAGE_SIZE in *; lia).
  erewrite st_bind_run by (erewrite st_bind_run by exact El; reflexivity). rewrite Hb, wrap_small by (unfold Heap.HEAP_START in *; lia).
  destruct (Z.eqb_spec (e - Heap.HEAP_START) 0) as [|_]; [lia|].
  set (s1 := set_heap_ends (<[Heap.end_ref h := Heap.HEAP_START]> (heap_ends s)) s).
  assert (Es : Heap.swap_end h Heap.HEAP_START s = Ret (e, s1)) by (unfold Heap.swap_end; erewrite st_bind_run by exact El; done).
  rewrite (st_bind_run _ _ _ _ _ Es), VirtAddr_new_low, st_lift_bind by done.
  set (n := (e - Heap.HEAP_START) / 4096). assert (Hn : 1 <= n <= Heap.HEAP_PAGES) by (unfold n, Heap.HEAP_END, Heap.HEAP_SIZE, PAGE_SIZE in *; zdiv).
  pose proof (heap_page_low n ltac:(lia)) as Hln. pose proof (heap_page_low 0 ltac:(unfold Heap.HEAP_PAGES; lia)) as Hl0.
  assert (Hp0 : heap_page 0 = Heap.HEAP_START) by (unfold heap_page; lia).
  rewrite (page_of_heap e), (page_of_heap Heap.HEAP_START) by lia. rewrite Z.sub_diag. change (0 / 4096) with 0. fold n. rewrite Hp0.
  rewrite Page_diff_low by (rewrite <- ?Hp0; try apply heap_page_aligned; try done; unfold heap_page; lia).
  rewrite st_lift_bind. replace ((heap_page n - Heap.HEAP_START) / 4096) with n by (unfold heap_page; zdiv).
  destruct (Z.eqb_spec e Heap.HEAP_START) as [|_]; [lia|].
  destruct (unmap_pages_spec frames_in_range frames_in_range_closed l4 Heap.HEAP_START n true (machine s1) (frame_alloc s1))
    as (m' & fs & Eu & _ & Hu1 & Hu2 & _); [by rewrite <- Hp0|rewrite <- Hp0; apply heap_page_aligned|lia| | |].
  { change (low (heap_page n)). done. }
  { intros q Hq. rewrite <- Hp0 in Hq. apply pages_from_heap in Hq as (i & Hi & ->). apply Hm; [lia|]. unfold heap_page, n in *. zdiv. }
  eexists. split; [exact (mem_op_run _ _ _ _ _ Eu)|]. split; [cbn; by rewrite lookup_insert_eq|].
  intros i Hi. cbn [machine set_frame_alloc set_machine]. destruct (decide (heap_page i ∈ pages_from (heap_page 0) (Z.to_nat n))) as [Hin|Hin].
  - rewrite Hu1 by (by rewrite <- Hp0). apply elem_of_heap_pages in Hin. split; [by intros []|]. unfold heap_page, n in *. zdiv.
  - rewrite Hu2 by (by rewrite <- Hp0). change (machine s1) with (machine s). rewrite Hm by done. rewrite elem_of_heap_pages in Hin. unfold heap_page, n in *. zdiv.
Qed.
(** A program starts on an empty heap: it gets 8184 bytes, on two mapped pages, or it panics because the kernel could not map them. *)
Theorem program_heap l4 h (s : Sys M) : heap_ends s !! Heap.end_ref h = Some Heap.HEAP_START -> heap_inv (machine s) l4 Heap.HEAP_START ->
  processor_pid s <> 0 -> frames_in_range (frame_alloc s) ->
  BrkAlloc.init (Heap.brk l4 h) s = Panic \/
  exists s', BrkAlloc.init (Heap.brk l4 h) s = Ret ((Heap.HEAP_START, BrkAlloc.HEAP_SIZE), s') /\
    heap_ends s' !! Heap.end_ref h = Some (Heap.HEAP_START + BrkAlloc.HEAP_SIZE) /\ heap_inv (machine s') l4 (Heap.HEAP_START + BrkAlloc.HEAP_SIZE) /\
    frames_in_range (frame_alloc s').
Proof.
  intros He Hinv Hpid Hfr. assert (El : Heap.brk l4 h None s = Ret (Some Heap.HEAP_START, s)).
  { unfold Heap.brk. assert (El : Heap.load_end h s = Ret (Heap.HEAP_START, s)) by (unfold Heap.load_end; by rewrite He).
    rewrite (st_bind_run _ _ _ _ _ El), VirtAddr_new_low, st_lift_bind by (unfold low, Heap.HEAP_START; lia).
    rewrite align_up_heap, st_lift_bind by apply Hinv. unfold Heap.brk_trace. by destruct trace_enabled. }
  unfold BrkAlloc.init. rewrite (st_bind_run _ _ _ _ _ El). cbn [unwrap]. rewrite st_lift_bind. cbv zeta.
  replace (u64 (Heap.HEAP_START + BrkAlloc.HEAP_SIZE)) with (Heap.HEAP_START + BrkAlloc.HEAP_SIZE) by (vm_compute; reflexivity).
  destruct (brk_spec l4 h s Heap.HEAP_START (Heap.HEAP_START + BrkAlloc.HEAP_SIZE) He Hinv Hpid Hfr) as (r & s' & E & _ & Hfr' & Hr); [by vm_compute|].
  rewrite (st_bind_run _ _ _ _ _ E). destruct r as [n|]; [|by left]. destruct Hr as (-> & Hends & Hi & _). right.
  exists s'. cbn [unwrap]. rewrite st_lift_bind, Z.eqb_refl. split; [done|]. split; [by rewrite Hends, lookup_insert_eq|]. by split.
Qed.
(** The heap for [sys_allocate] is one page short: its allocator is given 256 pages, of which the last one is not mapped. *)
Theorem user_heap_short {A} `{FrameAllocator A} `{FrameDeallocator A} (I : A -> Prop) (heap_init : M -> Z -> Z -> M) (m : M) (a : A) : alloc_closed I -> I a ->
  (forall m x n l4 p, translate_page (heap_init m x n) l4 p = translate_page m l4 p) ->
  let l4 := (Cr3_read m).1 in
  let last_page := UserHeap.USER_HEAP_START + UserHeap.USER_HEAP_SIZE - 4096 in
  exists r m' a', UserHeap.init_user_heap heap_init (m, a) = Ret (r, (m', a')) /\
    (r = Ok tt -> (forall q, q ∈ pages_from UserHeap.USER_HEAP_START 255 -> translate_page m l4 q = None /\ is_Some (translate_page m' l4 q)) /\
       translate_page m' l4 last_page = translate_page m l4 last_page).
Proof.
  intros HI Ha Hh l4 last_page. unfold UserHeap.init_user_heap. erewrite st_bind_run by reflexivity. cbn [fst]. fold l4.
  assert (Hlow : low UserHeap.USER_HEAP_START) by (unfold low, UserHeap.USER_HEAP_START; lia).
  assert (Hal : page_aligned UserHeap.USER_HEAP_START) by reflexivity.
  rewrite VirtAddr_new_low, st_lift_bind by done. cbv zeta. rewrite aligned_containing by done.
  change UserHeap.USER_HEAP_PAGE with 256. rewrite Page_add_low, st_lift_bind by (done || unfold low, UserHeap.USER_HEAP_START; lia).
  rewrite Page_sub_low, st_lift_bind by (done || unfold low, UserHeap.USER_HEAP_START; lia).
  replace (UserHeap.USER_HEAP_START + 4096 * 256 - 4096 * 1) with (UserHeap.USER_HEAP_START + 4096 * Z.of_nat 255) by lia.
  rewrite Page_range_low by (done || unfold low, UserHeap.USER_HEAP_START; lia).
  match goal with |- context [map_each l4 ?fl ?ps] => destruct (map_each_spec I HI l4 fl ps m a Ha) as (r & m1 & a1 & k & E & _ & Hk & Hr & Hm1 & Hm2 & _) end.
  rewrite length_pages_from in *. destruct r as [[]|e].
  2:{ rewrite (st_try_err _ _ _ _ _ E). exists (Err e), m1, a1. split; [done|discriminate]. }
  rewrite (st_try_ok _ _ _ _ _ E). assert (k = 255%nat) as -> by by apply Hr. rewrite take_pages_from in * by done.
  exists (Ok tt), (heap_init m1 UserHeap.USER_HEAP_START UserHeap.USER_HEAP_SIZE), a1. split; [done|]. intros _. split.
  - intros q Hq. rewrite Hh. by apply Hm1.
  - rewrite Hh. apply Hm2. intros (i & Ei & Hi)%elem_of_pages_from. unfold last_page, UserHeap.USER_HEAP_SIZE in Ei. lia.
Qed.
End spec.
