(* ===== verification/HeapLeak.v ===== *)
(** * A failed [brk]

    What a heap is worth after [Heap::brk] ([pkg/kernel/src/proc/vm/heap.rs]) ran out of frames: the pages that were mapped before the
    failure stay mapped above the end, where no later call expects them. *)

From stdpp Require Import base numbers list gmap.
From S2P Require Import Prelude Bytes X86 Frames ElfMap Vm.

Section leak.
Context {M : Type} {L : Log} {X : X86} {XL : X86Laws} {MM : Machine M} {ML : MachineLaws M} (l4 : Z) (h : Heap.t).

(** Page [j] of the region is mapped although the end is not above it. *)
Definition leaked (j : Z) (s : Sys M) : Prop :=
  exists e, heap_ends s !! Heap.end_ref h = Some e /\ below_mapped (machine s) l4 e /\ heap_top e <= j < Heap.HEAP_PAGES /\
    is_Some (translate_page (machine s) l4 (heap_page j)) /\ processor_pid s <> 0 /\ frames_in_range (frame_alloc s).

Lemma grown_below (m m' : M) fl e n k : below_mapped m l4 e -> Heap.HEAP_START <= n <= Heap.HEAP_END ->
  heap_top n <= heap_top e + Z.of_nat k -> maps_new l4 fl m m' (pages_from (heap_page (heap_top e)) k) -> below_mapped m' l4 n.
Proof.
  intros [He Hb] Hn Hk (Hnew & Hold & _). split; [done|]. intros i Hi Hlt. apply heap_page_top in Hlt; [|lia].
  destruct (decide (heap_page i ∈ pages_from (heap_page (heap_top e)) k)) as [Hin|Hin]; [by apply Hnew|].
  rewrite Hold by done. rewrite elem_of_heap_pages in Hin. apply Hb; [done|]. apply heap_page_top; lia.
Qed.
Lemma shrunk_below (m m' : M) e n : below_mapped m l4 e -> Heap.HEAP_START <= n <= Heap.HEAP_END -> heap_top n <= heap_top e ->
  unmaps l4 m m' (pages_from (heap_page (heap_top n)) (Z.to_nat (heap_top e - heap_top n))) -> below_mapped m' l4 n.
Proof.
  intros [He Hb] Hn Ht (_ & Hold & _). split; [done|]. intros i Hi Hlt. apply heap_page_top in Hlt; [|lia]. rewrite Hold.
  - apply Hb; [done|]. apply heap_page_top; lia.
  - rewrite elem_of_heap_pages. lia.
Qed.
Lemma maps_new_keeps (m m' : M) fl ps q : maps_new l4 fl m m' ps -> is_Some (translate_page m l4 q) -> is_Some (translate_page m' l4 q).
Proof. intros (Hnew & Hold & _) Hq. destruct (decide (q ∈ ps)) as [Hin|Hin]; [by apply Hnew|by rewrite Hold]. Qed.

(** One call of [brk] on such a heap. *)
Lemma leaked_brk j s n : leaked j s -> Heap.HEAP_START <= n <= Heap.HEAP_END ->
  exists r s', Heap.brk l4 h (Some n) s = Ret (r, s') /\ leaked j s' /\ (heap_page j < n -> r = None).
Proof.
  intros (e & He & Hb & Hj & Hm & Hp & Hf) Hn. destruct (brk_moves l4 h s e n He Hb Hp Hf Hn) as (r & s' & E & Hf' & Hp' & Hmv).
  exists r, s'. split; [exact E|]. rewrite <- Hp' in Hp. rewrite (heap_page_top n) by lia.
  destruct Hmv as [Ht Hends Hu|k Hk Ht Hends Hnew|k Hk Hends Hnew].
  - split; [|lia]. exists n. rewrite Hends, lookup_insert_eq. split; [done|]. split; [by eapply shrunk_below|]. split; [lia|].
    split; [|done]. destruct Hu as (_ & Hold & _). rewrite Hold; [done|]. rewrite elem_of_heap_pages. lia.
  - assert (Hjn : heap_top n <= j).
    { destruct (decide (heap_top n <= j)) as [|Hgt]; [done|]. destruct Hnew as [Hnone _]. destruct (Hnone (heap_page j)) as [Hc _].
      - rewrite elem_of_heap_pages. lia.
      - rewrite Hc in Hm. by destruct Hm. }
    split; [|lia]. exists n. rewrite Hends, lookup_insert_eq. split; [done|]. split; [eapply grown_below; [exact Hb|done| |exact Hnew]; lia|]. split; [lia|].
    split; [by eapply maps_new_keeps|done].
  - split; [|done]. exists e. rewrite Hends. split; [done|]. split; [|split; [done|split; [by eapply maps_new_keeps|done]]].
    destruct Hb as [Her Hb]. split; [done|]. intros i Hi Hlt. eapply maps_new_keeps; [exact Hnew|auto].
Qed.

(** Any number of calls; what [None] stands for a refusal. *)
Fixpoint brks (ns : list Z) : ST (Sys M) (list (option Z)) :=
  match ns with
  | [] => mret []
  | n :: ns => r ← Heap.brk l4 h (Some n); rs ← brks ns; mret (r :: rs)
  end.

(** C19: A [brk] that fails is never forgotten.  When [brk] refuses an end inside the region, then either it changed no translation, or it
    left the page above the old end mapped; and then, however many calls follow and however many frames are free by then, each call returns,
    and each one that asks for more than that page is refused. *)
Theorem brk_failure_sticks s e n s1 : heap_ends s !! Heap.end_ref h = Some e -> heap_inv (machine s) l4 e -> processor_pid s <> 0 ->
  frames_in_range (frame_alloc s) -> Heap.HEAP_START <= n <= Heap.HEAP_END -> Heap.brk l4 h (Some n) s = Ret (None, s1) ->
  let page := heap_page (heap_top e) in
  (forall q, translate_page (machine s1) l4 q = translate_page (machine s) l4 q) \/
  (translate_page (machine s) l4 page = None /\ is_Some (translate_page (machine s1) l4 page) /\
   forall a ns, frames_in_range a -> Forall (fun n => Heap.HEAP_START <= n <= Heap.HEAP_END) ns ->
     exists rs s2, brks ns (set_frame_alloc a s1) = Ret (rs, s2) /\ Forall2 (fun n r => page < n -> r = None) ns rs).
Proof.
  intros He Hinv Hp Hf Hn E page. assert (Hb : below_mapped (machine s) l4 e) by (destruct Hinv as [Her Hm]; split; [done|intros i Hi; by apply Hm]).
  destruct (brk_moves l4 h s e n He Hb Hp Hf Hn) as (r & s' & E' & Hf' & Hp' & Hmv). rewrite E in E'. injection E' as <- <-.
  inversion Hmv as [| |k Hk Hends Hnew]; subst; clear Hmv. destruct k as [|k].
  { left. intros q. destruct Hnew as (_ & Hold & _). apply Hold. apply not_elem_of_nil. }
  right. assert (Hin : page ∈ pages_from (heap_page (heap_top e)) (S k)) by (apply elem_of_heap_pages; lia).
  destruct (proj1 Hnew page Hin) as [H0 H1]. split; [done|]. split; [done|]. intros a ns Ha Hns.
  assert (Hl : leaked (heap_top e) (set_frame_alloc a s1)).
  { exists e. cbn. rewrite Hends, Hp'. split; [done|]. pose proof (heap_top_bounds n Hn). split; [|split; [lia|done]].
    destruct Hb as [Her Hb]. split; [done|]. intros i Hi Hlt. eapply maps_new_keeps; [exact Hnew|auto]. }
  revert Hl. generalize (set_frame_alloc a s1) as s2. clear -Hns ML XL. induction Hns as [|n ns Hn _ IH]; intros s2 Hl.
  { exists [], s2. by split. }
  destruct (leaked_brk _ _ _ Hl Hn) as (r & s3 & E & Hl3 & Hr). destruct (IH s3 Hl3) as (rs & s4 & E4 & Hrs).
  exists (r :: rs), s4. cbn [brks]. rewrite (st_bind_run _ _ _ _ _ E), (st_bind_run _ _ _ _ _ E4). split; [done|]. by constructor.
Qed.
End leak.

(** A request of a hundred pages on a machine that has 66 frames; afterwards a request of two pages is refused although all frames are free again. *)
#[local] Existing Instances demo_log demo_x86 demo_x86_laws demo_uefi.
Definition demo_after : option (Sys demo_machine) :=
  match Heap.brk 0 demo_heap (Some 0x200000064000) demo_sys with Ret (None, s1) => Some s1 | _ => None end.
Definition demo_page_left : bool :=
  match demo_after with Some s1 => bool_decide (is_Some (translate_page (machine s1) 0 0x200000000000)) | None => false end.
Lemma demo_left : demo_page_left = true.
Proof. vm_compute. reflexivity. Qed.
Lemma brk_failure_sticks_witness : exists s1 rs s2, Heap.brk 0 demo_heap (Some 0x200000064000) demo_sys = Ret (None, s1) /\
  brks 0 demo_heap [0x200000002000] (set_frame_alloc demo_frames s1) = Ret (rs, s2) /\ rs = [None].
Proof.
  pose proof demo_left as Hl. unfold demo_page_left, demo_after in Hl. destruct (Heap.brk 0 demo_heap (Some 0x200000064000) demo_sys) as [[[r|] s1]| |] eqn:E; [discriminate Hl| |discriminate Hl..].
  apply bool_decide_eq_true in Hl.
  destruct (brk_failure_sticks 0 demo_heap demo_sys Heap.HEAP_START 0x200000064000 s1) as [Hs|(_ & _ & Hs)];
    [reflexivity|apply demo_heap_inv|discriminate|apply demo_frames_in_range|vm_compute; split; discriminate|exact E| |].
  - rewrite Hs in Hl. by destruct Hl.
  - destruct (Hs demo_frames [0x200000002000]) as (rs & s2 & E2 & Hr); [apply demo_frames_in_range|repeat constructor; vm_compute; discriminate|].
    exists s1, rs, s2. split; [reflexivity|]. split; [exact E2|]. inversion Hr as [|? r ? rs' Hn Ht]; subst. inversion Ht; subst. rewrite Hn by (vm_compute; reflexivity). reflexivity.
Defined.
