(* ===== verification/BrkApp.v ===== *)
(** * The program [app/brk]

    Models [pkg/app/brk/src/main.rs], which grows its heap by ten pages, fills them, reads them back, and gives everything back.  The text that it
    prints is left out.  An access to memory is that of the processor, under the page table of the process. *)

From stdpp Require Import base numbers list gmap.
From S2P Require Import Prelude Bytes X86 Frames ElfMap Vm HeapLife.

(** Loads and stores of a byte at an address, under the table [l4]; [None] is a page fault. *)
Class UserMemory (M : Type) : Type := {
  load8 : M -> Z -> Z -> option Z;
  store8 : M -> Z -> Z -> Z -> option M;
}.
Definition page_of (a : Z) : Z := a - a mod 4096.
Definition in_heap (a : Z) : Prop := Heap.HEAP_START <= a < Heap.HEAP_START + Heap.HEAP_SIZE.
(** May a program write to a page with these flags? *)
Definition user_writable (fl : option PageTableFlags) : bool :=
  match fl with Some fl => PRESENT fl && WRITABLE fl && USER_ACCESSIBLE fl | None => false end.
(** A program's store faults unless the page is present, writable and open to the user; a load needs no right to write.  (The tables
    above a page of the heap come from [map_to], which gives them the rights of the pages below.)  The pages of a heap hold no page
    tables, so that a store changes no mapping; two pages may lie in the same frame. *)
Class UserMemoryLaws (M : Type) {MM : Machine M} {UM : UserMemory M} : Prop := {
  store_mapped m l4 a v : in_heap a -> is_Some (translate_page m l4 (page_of a)) -> user_writable (page_flags m l4 (page_of a)) = true ->
    exists m', store8 m l4 a v = Some m' /\
    (forall l p, translate_page m' l p = translate_page m l p /\ page_flags m' l p = page_flags m l p) /\ load8 m' l4 a = Some v /\
    forall b w, load8 m l4 b = Some w -> load8 m' l4 b = Some w \/ load8 m' l4 b = Some v;
  store_unmapped m l4 a v : translate_page m l4 (page_of a) = None -> store8 m l4 a v = None;
  store_denied m l4 a v : user_writable (page_flags m l4 (page_of a)) = false -> store8 m l4 a v = None;
}.

Section program.
Context {M : Type} {L : Log} {X : X86} {MM : Machine M} {UM : UserMemory M} (sys_brk : option Z -> ST (Sys M) (option Z)) (l4 : Z).
Definition brk_PAGE_SIZE : Z := 0x1000.
Definition brk_HEAP_START : Z := 0x200000000000.
(** An access that the kernel cannot repair faults again for ever. *)
Definition poke (a v : Z) : ST (Sys M) unit := fun s =>
  match store8 (machine s) l4 a v with Some m => Ret (tt, set_machine m s) | None => Timeout end.
Definition peek (a : Z) : ST (Sys M) Z := fun s => match load8 (machine s) l4 a with Some v => Ret (v, s) | None => Timeout end.
(** The two loops over [n] addresses from [i] on. *)
Fixpoint write_all (n : nat) (i : Z) : ST (Sys M) unit :=
  match n with O => mret tt | S n => poke i 1;; write_all n (i + 1) end.
Fixpoint check_all (n : nat) (i : Z) : ST (Sys M) unit :=
  match n with O => mret tt | S n => v ← peek i; if v =? 1 then check_all n (i + 1) else st_panic end.
Definition brk_main : ST (Sys M) Z :=
  r ← sys_brk None;
  heap_end ← st_lift (unwrap r);
  r ← sys_brk (Some (u64 (heap_end + u64 (brk_PAGE_SIZE * 10))));
  new_heap_end ← st_lift (unwrap r);
  write_all (Z.to_nat (new_heap_end - heap_end)) heap_end;;
  check_all (Z.to_nat (new_heap_end - heap_end)) heap_end;;
  r ← sys_brk (Some heap_end);
  _ ← st_lift (unwrap r);
  r ← sys_brk (Some brk_HEAP_START);
  _ ← st_lift (unwrap r);
  mret 0.
End program.

Section spec.
Context {M : Type} {L : Log} {X : X86} {XL : X86Laws} {MM : Machine M} {ML : MachineLaws M} {UM : UserMemory M} {UL : UserMemoryLaws M}.
(** All mappings, and everything but memory, are as before. *)
Definition same_but_memory (s s' : Sys M) : Prop :=
  (forall l p, translate_page (machine s') l p = translate_page (machine s) l p /\ page_flags (machine s') l p = page_flags (machine s) l p) /\
  exists m, s' = set_machine m s.
(** A program may write to address [x]. *)
Definition can_write (l4 x : Z) (s : Sys M) : Prop :=
  in_heap x /\ is_Some (translate_page (machine s) l4 (page_of x)) /\ user_writable (page_flags (machine s) l4 (page_of x)) = true.
Definition ones (l4 a b : Z) (s : Sys M) : Prop := forall x, a <= x < b -> load8 (machine s) l4 x = Some 1.
Lemma write_all_run l4 a n : forall i s, a <= i -> ones l4 a i s -> (forall x, i <= x < i + Z.of_nat n -> can_write l4 x s) ->
  exists s', write_all l4 n i s = Ret (tt, s') /\ same_but_memory s s' /\ ones l4 a (i + Z.of_nat n) s'.
Proof.
  induction n as [|n IH]; intros i s Hi Ho Hm.
  - exists s. split; [done|]. rewrite Z.add_0_r. split; [|done]. split; [done|]. exists (machine s). by destruct s.
  - destruct (Hm i ltac:(lia)) as (Hh & Ht & Hw). destruct (store_mapped (machine s) l4 i 1 Hh Ht Hw) as (m & E & Htr & Hl & Hold).
    assert (Ep : poke l4 i 1 s = Ret (tt, set_machine m s)) by (unfold poke; by rewrite E). cbn [write_all]. rewrite (st_bind_run _ _ _ _ _ Ep).
    destruct (IH (i + 1) (set_machine m s)) as (s' & E' & [Ht' [m' ->]] & Ho'); [lia| | |].
    + intros x Hx. cbn. destruct (decide (x = i)) as [->|Hne]; [done|]. destruct (Hold x 1 (Ho x ltac:(lia))); done.
    + intros x Hx. unfold can_write. cbn. destruct (Htr l4 (page_of x)) as [-> ->]. apply Hm. lia.
    + exists (set_machine m' (set_machine m s)). rewrite E'. split; [done|]. split; [|by replace (i + Z.of_nat (S n)) with (i + 1 + Z.of_nat n) by lia].
      split; [|by exists m']. intros l p. cbn in *. destruct (Ht' l p) as [-> ->]. apply Htr.
Qed.
Lemma check_all_run l4 n : forall i (s : Sys M), ones l4 i (i + Z.of_nat n) s -> check_all l4 n i s = Ret (tt, s).
Proof.
  induction n as [|n IH]; intros i s Ho; [done|]. assert (Ep : peek l4 i s = Ret (1, s)) by (unfold peek; by rewrite (Ho i) by lia).
  cbn [check_all]. rewrite (st_bind_run _ _ _ _ _ Ep). cbn [Z.eqb]. apply IH. intros x Hx. apply Ho. lia.
Qed.
(** Asking for the end. *)
Lemma brk_run l4 h (s : Sys M) e n : heap_ends s !! Heap.end_ref h = Some e -> heap_inv (machine s) l4 e -> processor_pid s <> 0 -> frames_in_range (frame_alloc s) ->
  Heap.HEAP_START <= n <= Heap.HEAP_END -> exists r s', Heap.brk l4 h (Some n) s = Ret (r, s') /\ processor_pid s' = processor_pid s /\ brk_result l4 e n h s s' r.
Proof.
  intros He Hinv Hpid Hfr Hn. destruct (brk_spec l4 h s e n He Hinv Hpid Hfr Hn) as (r & s' & E & Hr). exists r, s'. split; [done|]. split; [|done].
  destruct (brk_moves l4 h s e n He) as (r' & s'' & E' & _ & Hp & _); [|done..|congruence]. destruct Hinv as [Her Hm]. split; [done|]. intros i Hi. by apply Hm.
Qed.
(** The state of a user process whose heap ends at [e]: the pages below the end are mapped, and the process may write to them. *)
Definition heap_at (l4 : Z) (h : Heap.t) (e : Z) (s : Sys M) : Prop :=
  heap_ends s !! Heap.end_ref h = Some e /\ heap_inv (machine s) l4 e /\ (processor_pid s <> 0 /\ processor_pid s <> KERNEL_PID) /\
  frames_in_range (frame_alloc s) /\
  forall i, 0 <= i < heap_top e -> user_writable (page_flags (machine s) l4 (heap_page i)) = true.
(** A call of [brk] that succeeds. *)
Lemma brk_succeeds l4 h (s s' : Sys M) e n : heap_at l4 h e s -> processor_pid s' = processor_pid s -> brk_result l4 e n h s s' (Some n) -> heap_at l4 h n s'.
Proof.
  intros (_ & _ & Hpid & _ & Hw) Hp (_ & Hfr & _ & Hends & Hi & Hfl). split; [by rewrite Hends, lookup_insert_eq|]. split; [done|].
  rewrite Hp. split; [done|]. split; [done|]. intros i Hin. rewrite (Hfl i Hin). case_decide as Hi'; [|apply Hw; lia].
  by rewrite (proj2 (Z.eqb_neq _ _)) by apply Hpid.
Qed.
(** Lowering the end cannot fail. *)
Lemma brk_lower l4 h (s : Sys M) e n : heap_at l4 h e s -> Heap.HEAP_START <= n <= e -> exists s', Heap.brk l4 h (Some n) s = Ret (Some n, s') /\ heap_at l4 h n s'.
Proof.
  intros Hat Hn. pose proof Hat as (He & Hinv & Hpid & Hfr & _). pose proof Hinv as [Her _].
  destruct (brk_run l4 h s e n He Hinv (proj1 Hpid) Hfr ltac:(lia)) as (r & s' & E & Hp & Hr).
  destruct r as [r|].
  - assert (r = n) as -> by apply Hr. exists s'. split; [done|]. by eapply brk_succeeds.
  - destruct Hr as (_ & _ & Ht & _). unfold heap_top in Ht. exfalso. zdiv.
Qed.
Lemma page_of_heap_addr a : in_heap a -> exists i, 0 <= i < Heap.HEAP_PAGES /\ page_of a = heap_page i /\ heap_page i <= a.
Proof.
  unfold in_heap, page_of, heap_page, Heap.HEAP_SIZE, Heap.HEAP_START, Heap.HEAP_PAGES, PAGE_SIZE. intros Ha. exists ((a - 0x200000000000) / 4096). zdiv.
Qed.
(** An address below the end can be written to. *)
Lemma below_writable l4 h e (s : Sys M) x : heap_at l4 h e s -> Heap.HEAP_START <= x < e -> can_write l4 x s.
Proof.
  intros (_ & [Her Hm] & _ & _ & Hw) Hx. assert (Hin : in_heap x) by (unfold in_heap, Heap.HEAP_END in *; lia). split; [done|].
  destruct (page_of_heap_addr x Hin) as (i & Hi & -> & Hle). split; [apply Hm; [done|lia]|]. apply Hw. split; [lia|].
  apply heap_page_top; [lia|lia].
Qed.
(** C20: The program [brk] gets what it asks for.  A user process whose heap has room for ten more pages, run on a processor where a store by a program faults unless its page is
    mapped, writable and open to the user, panics exactly when the kernel refuses the pages, or ends with code 0: the kernel maps the new pages so that no access to them faults, every
    byte is read back as it was written, the heap is empty in the end, and none of its pages is mapped any more. *)
Theorem brk_program l4 h (s : Sys M) e : heap_at l4 h e s -> e + 40960 <= Heap.HEAP_END ->
  ((exists s1, Heap.brk l4 h (Some (e + 40960)) s = Ret (None, s1)) /\ brk_main (Heap.brk l4 h) l4 s = Panic) \/
  exists s', brk_main (Heap.brk l4 h) l4 s = Ret (0, s') /\ heap_at l4 h Heap.HEAP_START s'.
Proof.
  intros Hat Hroom. pose proof Hat as (He & Hinv & Hpid & Hfr & _). pose proof Hinv as [Her _]. unfold brk_main. rewrite (st_bind_run _ _ _ _ _ (brk_none l4 h s e He Her)). cbn [unwrap].
  rewrite st_lift_bind. change (u64 (brk_PAGE_SIZE * 10)) with 40960. rewrite wrap_small by (unfold Heap.HEAP_END, Heap.HEAP_SIZE, Heap.HEAP_PAGES, Heap.HEAP_START, PAGE_SIZE in *; lia).
  destruct (brk_run l4 h s e (e + 40960) He Hinv (proj1 Hpid) Hfr ltac:(lia)) as (r & s1 & E1 & Hp1 & Hr). rewrite (st_bind_run _ _ _ _ _ E1).
  destruct r as [r|]; [|left; split; [by exists s1|done]]. assert (r = e + 40960) as -> by apply Hr. pose proof (brk_succeeds _ _ _ _ _ _ Hat Hp1 Hr) as H1. right. cbn [unwrap]. rewrite st_lift_bind. replace (e + 40960 - e) with 40960 by lia.
  destruct (write_all_run l4 e (Z.to_nat 40960) e s1) as (s2 & E2 & [Ht2 [m2 ->]] & Ho2); [lia|intros x Hx; lia| |].
  { rewrite Z2Nat.id by lia. intros x Hx. eapply below_writable; [exact H1|lia]. }
  rewrite (st_bind_run _ _ _ _ _ E2). rewrite (st_bind_run _ _ _ _ _ (check_all_run l4 _ e _ Ho2)).
  assert (H2 : heap_at l4 h (e + 40960) (set_machine m2 s1)).
  { destruct H1 as (Hends & [Hr1 Hm1] & Hp & Hf & Hw). split; [exact Hends|]. cbn in Ht2 |- *. split; [|split; [exact Hp|split; [exact Hf|]]].
    - split; [done|]. intros i Hi. destruct (Ht2 l4 (heap_page i)) as [-> _]. by apply Hm1.
    - intros i Hi. destruct (Ht2 l4 (heap_page i)) as [_ ->]. by apply Hw. }
  destruct (brk_lower l4 h _ _ e H2 ltac:(lia)) as (s3 & E3 & H3). rewrite (st_bind_run _ _ _ _ _ E3). cbn [unwrap]. rewrite st_lift_bind.
  destruct (brk_lower l4 h _ _ Heap.HEAP_START H3 ltac:(lia)) as (s4 & E4 & H4). change brk_HEAP_START with Heap.HEAP_START.
  rewrite (st_bind_run _ _ _ _ _ E4). cbn [unwrap]. rewrite st_lift_bind. by exists s4.
Qed.
End spec.

(** Memory by physical address, and the check of the flags. *)
Definition demo_phys (m : demo_machine) (l4 a : Z) : option Z := (fun f => f + a mod 4096) <$> dm_maps m !! (l4, page_of a).
#[local] Instance demo_user_memory : UserMemory demo_machine := {|
  load8 m l4 a :=
    if match dm_flags m !! (l4, page_of a) with Some fl => USER_ACCESSIBLE fl | None => false end
    then (fun x => default 0 (dm_mem m !! x)) <$> demo_phys m l4 a else None;
  store8 m l4 a v :=
    if user_writable (dm_flags m !! (l4, page_of a))
    then (fun x => {| dm_maps := dm_maps m; dm_flags := dm_flags m; dm_mem := <[x := v]> (dm_mem m); dm_cr3 := dm_cr3 m |}) <$> demo_phys m l4 a else None |}.
#[local] Instance demo_user_memory_laws : UserMemoryLaws demo_machine.
Proof.
  split.
  - intros m l4 a v _ [f Hf] Hw. cbn in *. assert (E : demo_phys m l4 a = Some (f + a mod 4096)) by (unfold demo_phys; by rewrite Hf).
    rewrite Hw, E. cbn. eexists. split; [reflexivity|]. split; [done|]. cbn. destruct (dm_flags m !! (l4, page_of a)) as [fl|]; [|done]. cbn in Hw.
    apply andb_true_iff in Hw as [_ ->]. unfold demo_phys in *. cbn. rewrite E. cbn. rewrite lookup_insert_eq. split; [done|].
    intros b w Hb. destruct (match dm_flags m !! (l4, page_of b) with Some fl => _ | None => _ end); [|done].
    destruct (dm_maps m !! (l4, page_of b)) as [g|]; [|done]. cbn in *. injection Hb as <-.
    destruct (decide (g + b mod 4096 = f + a mod 4096)) as [->|Hne]; [rewrite lookup_insert_eq; by right|rewrite lookup_insert_ne by done; by left].
  - intros m l4 a v Hn. cbn in *. unfold demo_phys. rewrite Hn. by destruct (user_writable _).
  - intros m l4 a v Hn. cbn in *. by rewrite Hn.
Qed.
#[local] Existing Instances demo_log demo_x86 demo_x86_laws demo_uefi.
Lemma demo_brk_grows : match Heap.brk 0 demo_heap (Some (Heap.HEAP_START + 40960)) demo_sys with Ret (None, _) => false | _ => true end = true.
Proof. vm_compute. reflexivity. Qed.
Lemma brk_program_witness : exists s', brk_main (Heap.brk 0 demo_heap) 0 demo_sys = Ret (0, s') /\ heap_inv (machine s') 0 Heap.HEAP_START.
Proof.
  assert (Hh : heap_at 0 demo_heap Heap.HEAP_START demo_sys) by (split; [reflexivity|]; split; [apply demo_heap_inv|]; split; [done|]; split; [apply demo_frames_in_range|]; intros i Hi; change (heap_top Heap.HEAP_START) with 0 in Hi; lia).
  destruct (brk_program 0 demo_heap demo_sys Heap.HEAP_START Hh) as [[[s1 E] _]|(s' & E & _ & Hi & _)]; [vm_compute; discriminate| |exists s'; split; [exact E|exact Hi]].
  pose proof demo_brk_grows as H. rewrite E in H. discriminate H.
Defined.
