(* ===== verification/Process.v ===== *)
(** * Processes

    Models [pkg/kernel/src/proc/{context,data,pid,process}.rs] and the register
    block of [utils/regs.rs], and the record of the kernel's state.

    Process data that [fork] shares between parent and child ([Arc<RwLock<..>>]:
    environment, descriptor table, semaphores) lives behind references, like the
    page table and the heap end of [Vm.v].  A process is named by its number:
    [Arc<Process>] and [Weak<Process>] are the number.  Locks are taken with
    interrupts disabled on one processor and are no-ops. *)

From stdpp Require Import base numbers list gmap.
From S2P Require Import Prelude Bytes Device Str Fat16Name Fat16Entry Fat16Fs Fat16File X86 Frames ElfMap Sync Resource Vm.

Inductive ProgramStatus : Type := Running | Ready | Blocked | Dead.
Global Instance ProgramStatus_eq_dec : EqDecision ProgramStatus.
Proof. solve_decision. Defined.

(** ** Contexts *)

Record RegistersValue : Type := {
  r15 : Z; r14 : Z; r13 : Z; r12 : Z; r11 : Z; r10 : Z; r9 : Z; r8 : Z;
  rdi : Z; rsi : Z; rdx : Z; rcx : Z; rbx : Z; rax : Z; rbp : Z;
}.
(** [InterruptStackFrameValue] of [x86_64]. *)
Record StackFrame : Type := {
  instruction_pointer : Z; code_segment : Z; cpu_flags : Z; stack_pointer : Z; stack_segment : Z;
}.
Record ProcessContext : Type := { regs : RegistersValue; stack_frame : StackFrame }.

(** [get_user_selector()] and the flags [IOPL_HIGH | IOPL_LOW | INTERRUPT_FLAG]. *)
Class Selectors : Type := {
  user_code_selector : Z; user_data_selector : Z; user_flags : Z; empty_flags : Z;
}.

Module Context.
Definition default `{Selectors} : ProcessContext := {|
  regs := {| r15 := 0; r14 := 0; r13 := 0; r12 := 0; r11 := 0; r10 := 0; r9 := 0; r8 := 0;
             rdi := 0; rsi := 0; rdx := 0; rcx := 0; rbx := 0; rax := 0; rbp := 0 |};
  stack_frame := {| instruction_pointer := 0x1000; code_segment := 0; cpu_flags := empty_flags;
                    stack_pointer := 0x2000; stack_segment := 0 |} |}.

Definition set_rax (value : Z) (c : ProcessContext) : ProcessContext := {|
  regs := {| r15 := r15 (regs c); r14 := r14 (regs c); r13 := r13 (regs c); r12 := r12 (regs c);
             r11 := r11 (regs c); r10 := r10 (regs c); r9 := r9 (regs c); r8 := r8 (regs c);
             rdi := rdi (regs c); rsi := rsi (regs c); rdx := rdx (regs c); rcx := rcx (regs c);
             rbx := rbx (regs c); rax := value; rbp := rbp (regs c) |};
  stack_frame := stack_frame c |}.

(** [self.save(context)]: the new [self]; [self.restore(context)]: the new
    [context]. *)
Definition save (self context : ProcessContext) : ProcessContext := context.
Definition restore (self context : ProcessContext) : ProcessContext := self.

Definition init_stack_frame `{Selectors} (entry stack_top : Z) (c : ProcessContext)
    : ProcessContext := {|
  regs := regs c;
  stack_frame := {| stack_pointer := stack_top; instruction_pointer := entry;
                    cpu_flags := user_flags; code_segment := user_code_selector;
                    stack_segment := user_data_selector |} |}.

Definition update_stack_frame (stack_top : Z) (c : ProcessContext) : ProcessContext := {|
  regs := regs c;
  stack_frame := {| instruction_pointer := instruction_pointer (stack_frame c);
                    code_segment := code_segment (stack_frame c);
                    cpu_flags := cpu_flags (stack_frame c);
                    stack_pointer := stack_top;
                    stack_segment := stack_segment (stack_frame c) |} |}.

Definition stack_top (c : ProcessContext) : Z := stack_pointer (stack_frame c).
End Context.

(** ** Process data and processes *)

Record ProcessData : Type := {
  env_ref : Z; resources_ref : Z; code_segment_pages : Z; semaphores_ref : Z;
}.

Record ProcessInner : Type := {
  name : str;
  parent : option Z;
  children : list Z;
  ticks_passed : Z;
  status : ProgramStatus;
  exit_code : option Z;
  context : ProcessContext;
  proc_data : option ProcessData;
  proc_vm : option ProcessVm.t;
}.

Record Kernel (M D Q : Type) `{Chrono} : Type := {
  sys : Sys M;
  envs : gmap Z (gmap str str);
  res_sets : gmap Z (gmap Z (Resource D));
  sem_sets : gmap Z SemSet.t;
  pid_counter : Z;
  processes : gmap Z ProcessInner;
  ready_queue : list Z;
  waiting_processes : gmap Z (list Z);
  input_buf : Q;
  console : list Output;
  rootfs : Mount.t (Fat16Impl D);
}.
Arguments sys {M D Q _} _.
Arguments envs {M D Q _} _.
Arguments res_sets {M D Q _} _.
Arguments sem_sets {M D Q _} _.
Arguments pid_counter {M D Q _} _.
Arguments processes {M D Q _} _.
Arguments ready_queue {M D Q _} _.
Arguments waiting_processes {M D Q _} _.
Arguments input_buf {M D Q _} _.
Arguments console {M D Q _} _.
Arguments rootfs {M D Q _} _.

Section kernel.
Context {M D Q : Type} {C : Chrono}.
Abbreviation Kern := (Kernel M D Q).

Definition set_sys (x : Sys M) (k : Kern) : Kern :=
  {| sys := x; envs := envs k; res_sets := res_sets k; sem_sets := sem_sets k; pid_counter :=
     pid_counter k; processes := processes k; ready_queue := ready_queue k;
     waiting_processes := waiting_processes k; input_buf := input_buf k; console :=
     console k; rootfs := rootfs k |}.
Definition set_envs (x : gmap Z (gmap str str)) (k : Kern) : Kern :=
  {| sys := sys k; envs := x; res_sets := res_sets k; sem_sets := sem_sets k; pid_counter :=
     pid_counter k; processes := processes k; ready_queue := ready_queue k;
     waiting_processes := waiting_processes k; input_buf := input_buf k; console :=
     console k; rootfs := rootfs k |}.
Definition set_res_sets (x : gmap Z (gmap Z (Resource D))) (k : Kern) : Kern :=
  {| sys := sys k; envs := envs k; res_sets := x; sem_sets := sem_sets k; pid_counter :=
     pid_counter k; processes := processes k; ready_queue := ready_queue k;
     waiting_processes := waiting_processes k; input_buf := input_buf k; console :=
     console k; rootfs := rootfs k |}.
Definition set_sem_sets (x : gmap Z SemSet.t) (k : Kern) : Kern :=
  {| sys := sys k; envs := envs k; res_sets := res_sets k; sem_sets := x; pid_counter :=
     pid_counter k; processes := processes k; ready_queue := ready_queue k;
     waiting_processes := waiting_processes k; input_buf := input_buf k; console :=
     console k; rootfs := rootfs k |}.
Definition set_pid_counter (x : Z) (k : Kern) : Kern :=
  {| sys := sys k; envs := envs k; res_sets := res_sets k; sem_sets := sem_sets k;
     pid_counter := x; processes := processes k; ready_queue := ready_queue k;
     waiting_processes := waiting_processes k; input_buf := input_buf k; console :=
     console k; rootfs := rootfs k |}.
Definition set_processes (x : gmap Z ProcessInner) (k : Kern) : Kern :=
  {| sys := sys k; envs := envs k; res_sets := res_sets k; sem_sets := sem_sets k;
     pid_counter := pid_counter k; processes := x; ready_queue := ready_queue k;
     waiting_processes := waiting_processes k; input_buf := input_buf k; console :=
     console k; rootfs := rootfs k |}.
Definition set_ready_queue (x : list Z) (k : Kern) : Kern :=
  {| sys := sys k; envs := envs k; res_sets := res_sets k; sem_sets := sem_sets k;
     pid_counter := pid_counter k; processes := processes k; ready_queue := x;
     waiting_processes := waiting_processes k; input_buf := input_buf k; console :=
     console k; rootfs := rootfs k |}.
Definition set_waiting_processes (x : gmap Z (list Z)) (k : Kern) : Kern :=
  {| sys := sys k; envs := envs k; res_sets := res_sets k; sem_sets := sem_sets k;
     pid_counter := pid_counter k; processes := processes k; ready_queue := ready_queue
     k; waiting_processes := x; input_buf := input_buf k; console := console k; rootfs
     := rootfs k |}.
Definition set_input_buf (x : Q) (k : Kern) : Kern :=
  {| sys := sys k; envs := envs k; res_sets := res_sets k; sem_sets := sem_sets k;
     pid_counter := pid_counter k; processes := processes k; ready_queue := ready_queue
     k; waiting_processes := waiting_processes k; input_buf := x; console := console k;
     rootfs := rootfs k |}.
Definition set_console (x : list Output) (k : Kern) : Kern :=
  {| sys := sys k; envs := envs k; res_sets := res_sets k; sem_sets := sem_sets k;
     pid_counter := pid_counter k; processes := processes k; ready_queue := ready_queue
     k; waiting_processes := waiting_processes k; input_buf := input_buf k; console :=
     x; rootfs := rootfs k |}.
Definition set_rootfs (x : Mount.t (Fat16Impl D)) (k : Kern) : Kern :=
  {| sys := sys k; envs := envs k; res_sets := res_sets k; sem_sets := sem_sets k;
     pid_counter := pid_counter k; processes := processes k; ready_queue := ready_queue
     k; waiting_processes := waiting_processes k; input_buf := input_buf k; console :=
     console k; rootfs := x |}.

(** Run an operation on the memory state. *)
Definition on_sys {T} (f : ST (Sys M) T) : ST Kern T := fun k =>
  match f (sys k) with
  | Ret (t, s') => Ret (t, set_sys s' k)
  | Panic => Panic
  | Timeout => Timeout
  end.

(** [ProcessId::new]: 16-bit, wrapping. *)
Definition ProcessId_new : ST Kern Z := fun k =>
  let c := u16 (pid_counter k + 1) in Ret (c, set_pid_counter c k).
End kernel.

(** Updates of the fields of a process. *)
Definition set_children (x : list Z) (p : ProcessInner) : ProcessInner :=
  {| name := name p; parent := parent p; children := x; ticks_passed := ticks_passed p;
     status := status p; exit_code := exit_code p; context := context p; proc_data :=
     proc_data p; proc_vm := proc_vm p |}.
Definition set_ticks_passed (x : Z) (p : ProcessInner) : ProcessInner :=
  {| name := name p; parent := parent p; children := children p; ticks_passed := x; status :=
     status p; exit_code := exit_code p; context := context p; proc_data := proc_data p;
     proc_vm := proc_vm p |}.
Definition set_status (x : ProgramStatus) (p : ProcessInner) : ProcessInner :=
  {| name := name p; parent := parent p; children := children p; ticks_passed := ticks_passed
     p; status := x; exit_code := exit_code p; context := context p; proc_data :=
     proc_data p; proc_vm := proc_vm p |}.
Definition set_exit_code (x : option Z) (p : ProcessInner) : ProcessInner :=
  {| name := name p; parent := parent p; children := children p; ticks_passed := ticks_passed
     p; status := status p; exit_code := x; context := context p; proc_data := proc_data
     p; proc_vm := proc_vm p |}.
Definition set_context (x : ProcessContext) (p : ProcessInner) : ProcessInner :=
  {| name := name p; parent := parent p; children := children p; ticks_passed := ticks_passed
     p; status := status p; exit_code := exit_code p; context := x; proc_data :=
     proc_data p; proc_vm := proc_vm p |}.
Definition set_proc_data (x : option ProcessData) (p : ProcessInner) : ProcessInner :=
  {| name := name p; parent := parent p; children := children p; ticks_passed := ticks_passed
     p; status := status p; exit_code := exit_code p; context := context p; proc_data :=
     x; proc_vm := proc_vm p |}.
Definition set_proc_vm (x : option ProcessVm.t) (p : ProcessInner) : ProcessInner :=
  {| name := name p; parent := parent p; children := children p; ticks_passed := ticks_passed
     p; status := status p; exit_code := exit_code p; context := context p; proc_data :=
     proc_data p; proc_vm := x |}.

(** ** Operations on process data ([data.rs]) *)
Module Data.
Section ops.
Context {M D Q : Type} {BD : BlockDevice D} {C : Chrono} {BF : Bitflags} {UT : UnicodeTable}
  {AQ : ArrayQueue Q}.
Abbreviation Kern := (Kernel M D Q).

(** [ProcessData::default]: three new shared objects. *)
Definition default : ST Kern ProcessData :=
  e ← st_gets (fun k => fresh_ref (envs k));
  r ← st_gets (fun k => fresh_ref (res_sets k));
  s ← st_gets (fun k => fresh_ref (sem_sets k));
  st_modify (fun k => set_envs (<[e := ∅]> (envs k)) k);;
  st_modify (fun k => set_res_sets (<[r := ResSet.default]> (res_sets k)) k);;
  st_modify (fun k => set_sem_sets (<[s := SemSet.new]> (sem_sets k)) k);;
  mret {| env_ref := e; resources_ref := r; code_segment_pages := 0; semaphores_ref := s |}.

Definition get_env (d : ProcessData) : ST Kern (gmap str str) :=
  k ← st_get; st_lift (unwrap (envs k !! env_ref d)).
Definition get_resources (d : ProcessData) : ST Kern (gmap Z (Resource D)) :=
  k ← st_get; st_lift (unwrap (res_sets k !! resources_ref d)).
Definition get_semaphores (d : ProcessData) : ST Kern SemSet.t :=
  k ← st_get; st_lift (unwrap (sem_sets k !! semaphores_ref d)).
Definition put_resources (d : ProcessData) (s : gmap Z (Resource D)) : ST Kern unit :=
  st_modify (fun k => set_res_sets (<[resources_ref d := s]> (res_sets k)) k).
Definition put_semaphores (d : ProcessData) (s : SemSet.t) : ST Kern unit :=
  st_modify (fun k => set_sem_sets (<[semaphores_ref d := s]> (sem_sets k)) k).

Definition env (d : ProcessData) (key : str) : ST Kern (option str) :=
  e ← get_env d; mret (e !! key).
Definition set_env (d : ProcessData) (key val : str) : ST Kern unit :=
  e ← get_env d;
  st_modify (fun k => set_envs (<[env_ref d := <[key := val]> e]> (envs k)) k).

(** The result and the buffer after the read. *)
Definition read (d : ProcessData) (fd : Z) (buf : bytes) : ST Kern (Z * bytes) :=
  s ← get_resources d;
  q ← st_gets input_buf;
  r ← st_lift (ResSet.read fd s q buf);
  let '(n, s', q', buf') := r in
  put_resources d s';;
  st_modify (set_input_buf q');;
  mret (n, buf').
Definition write (d : ProcessData) (fd : Z) (buf : bytes) : ST Kern Z :=
  s ← get_resources d;
  out ← st_gets console;
  let '(n, out') := ResSet.write fd s out buf in
  st_modify (set_console out');; mret n.

Definition sem_wait (d : ProcessData) (key pid : Z) : ST Kern SemaphoreResult :=
  s ← get_semaphores d;
  let '(r, s') := SemSet.wait key pid s in put_semaphores d s';; mret r.
Definition sem_signal (d : ProcessData) (key : Z) : ST Kern SemaphoreResult :=
  s ← get_semaphores d;
  let '(r, s') := SemSet.signal key s in put_semaphores d s';; mret r.
Definition new_sem (d : ProcessData) (key value : Z) : ST Kern bool :=
  s ← get_semaphores d;
  let '(r, s') := SemSet.insert key value s in put_semaphores d s';; mret r.
Definition remove_sem (d : ProcessData) (key : Z) : ST Kern bool :=
  s ← get_semaphores d;
  let '(r, s') := SemSet.remove key s in put_semaphores d s';; mret r.

(** [get_rootfs().open_file(path).unwrap()]; [fuel] bounds the clusters of a
    directory, as in [Fat16Fs]. *)
Definition open_file (fuel : nat) (d : ProcessData) (path : str) : ST Kern Z :=
  fs ← st_gets rootfs;
  r ← st_lift (Mount.open_file fuel fs path);
  h ← st_lift (unwrap_result r);
  s ← get_resources d;
  let '(fd, s') := ResSet.open
    (ResFile (Build_FileHandle h.1 (FatFile.new (Mount.fs fs) h.2))) s in
  put_resources d s';; mret fd.
Definition close_file (d : ProcessData) (fd : Z) : ST Kern bool :=
  s ← get_resources d;
  let '(r, s') := ResSet.close fd s in put_resources d s';; mret r.
End ops.
End Data.

(** ** Operations on processes ([process.rs]) *)

(** [str::to_ascii_lowercase] *)
Definition to_ascii_lowercase (s : str) : str :=
  (fun c => if (65 <=? c) && (c <=? 90) then c + 32 else c) <$> s.

Module Inner.
Definition tick (p : ProcessInner) : ProcessInner := set_ticks_passed (u64 (ticks_passed p + 1)) p.
Definition pause (p : ProcessInner) : ProcessInner := set_status Ready p.
Definition resume (p : ProcessInner) : ProcessInner := set_status Running p.
Definition block (p : ProcessInner) : ProcessInner := set_status Blocked p.
Definition is_ready (p : ProcessInner) : bool := bool_decide (status p = Ready).

(** [save] only when the process is not dead. *)
Definition save (ctx : ProcessContext) (p : ProcessInner) : ProcessInner :=
  if decide (status p = Dead) then p
  else pause (set_context (Context.save (context p) ctx) p).

Definition init_stack_frame `{Selectors} (entry stack_top : Z) (p : ProcessInner) : ProcessInner :=
  set_context (Context.init_stack_frame entry stack_top (context p)) p.

Section ops.
Context {M D Q : Type} {L : Log} {X : X86} {MM : Machine M} {C : Chrono}.
Abbreviation Kern := (Kernel M D Q).

(** [vm()], and the data that [Deref] gives: panic on a killed process. *)
Definition vm (p : ProcessInner) : ST Kern ProcessVm.t := st_lift (unwrap (proc_vm p)).
Definition data (p : ProcessInner) : ST Kern ProcessData := st_lift (unwrap (proc_data p)).

(** The process and the processor's context after [restore]. *)
Definition restore (ctx : ProcessContext) (p : ProcessInner) : ST Kern (ProcessInner * ProcessContext) :=
  let p := resume p in
  let ctx := Context.restore (context p) ctx in
  v ← vm p;
  on_sys (PageTableContext.load (ProcessVm.page_table v));;
  mret (p, ctx).

Definition handle_page_fault (addr : Z) (p : ProcessInner) : ST Kern (bool * ProcessInner) :=
  v ← vm p;
  r ← on_sys (ProcessVm.handle_page_fault addr v);
  mret (r.1, set_proc_vm (Some r.2) p).

Definition clone_page_table (p : ProcessInner) : ST Kern Z :=
  v ← vm p; on_sys (PageTableContext.clone_l4 (ProcessVm.page_table v)).

Definition load_elf (elf : ElfFile) (pid : Z) (p : ProcessInner) : ST Kern (Z * ProcessInner) :=
  v ← vm p;
  r ← on_sys (ProcessVm.load_elf elf pid v);
  mret (r.1, set_proc_vm (Some r.2) p).

Definition brk (addr : option Z) (p : ProcessInner) : ST Kern (option Z) :=
  v ← vm p; on_sys (ProcessVm.brk v addr).

(** Taking [proc_vm] drops it; the shared data is only forgotten. *)
Definition kill (ret : Z) (p : ProcessInner) : ST Kern ProcessInner :=
  let p := set_status Dead (set_exit_code (Some ret) p) in
  match proc_vm p with
  | Some v => on_sys (ProcessVm.drop v)
  | None => mret tt
  end;;
  mret (set_proc_data None (set_proc_vm None p)).

Definition LOW32 : Z := 0xFFFFFFFF.
(** The child of process [parent_pid]: its context with the stack pointer moved to
    the child's slot and [rax = 0], the parent's data shared. *)
Definition fork (parent_pid : Z) (p : ProcessInner) : ST Kern ProcessInner :=
  let child_stack_offset := u64 (u64 (zlen (children p) + 1) * Stack.STACK_MAX_PAGES) in
  v ← vm p;
  child_vm ← on_sys (ProcessVm.fork child_stack_offset v);
  child_data ← data p;
  let child_stack_top := Z.lor (Z.land (Context.stack_top (context p)) LOW32)
    (Z.land (Stack.stack_min_addr (ProcessVm.stack child_vm)) (2 ^ 64 - 1 - LOW32)) in
  top ← st_lift (VirtAddr_new child_stack_top);
  let child_context := Context.set_rax 0 (Context.update_stack_frame top (context p)) in
  mret {| name := name p; parent := Some parent_pid; children := []; ticks_passed := 0;
          status := Ready; exit_code := None; context := child_context;
          proc_data := Some child_data; proc_vm := Some child_vm |}.
End ops.
End Inner.

Module Process.
Section ops.
Context {M D Q : Type} {L : Log} {X : X86} {MM : Machine M} {C : Chrono} {S : Selectors}.
Abbreviation Kern := (Kernel M D Q).

(** The new process and its number; it is not yet in the process table. *)
Definition new (nm : str) (par : option Z) (vm : option ProcessVm.t) (data : option ProcessData)
    : ST Kern (Z * ProcessInner) :=
  let nm := to_ascii_lowercase nm in
  pid ← ProcessId_new;
  vm ← (match vm with
        | Some v => mret v
        | None => r ← on_sys PageTableContext.new; on_sys (ProcessVm.new r)
        end);
  d ← (match data with Some d => mret d | None => Data.default end);
  mret (pid, {| name := nm; parent := par; status := Ready; context := Context.default;
                ticks_passed := 0; exit_code := None; children := [];
                proc_vm := Some vm; proc_data := Some d |}).

(** [Process::fork] of process [pid]: the child's number, the parent and the child
    after it. *)
Definition fork (pid : Z) (p : ProcessInner) : ST Kern (Z * ProcessInner * ProcessInner) :=
  child_pid ← ProcessId_new;
  child ← Inner.fork pid p;
  let p := set_children (children p ++ [child_pid]) p in
  let p := set_context (Context.set_rax child_pid (context p)) p in
  mret (child_pid, p, Inner.pause child).
End ops.
End Process.
