(* ===== verification/Regs.v ===== *)
(** * Entering and leaving the kernel

    Models the macro [as_handler!] of [pkg/kernel/src/utils/regs.rs], which makes the interrupt handlers of the clock and of
    system calls: instructions that save the registers in the layout of [ProcessContext], call a Rust function with that context as its
    argument, and load the registers from it again.  The words of memory are those of 64 bits at addresses of 8 bytes distance. *)

From stdpp Require Import base numbers list.
From S2P Require Import Prelude Bytes X86 Frames Process.

Inductive reg : Type := R15 | R14 | R13 | R12 | R11 | R10 | R9 | R8 | RDI | RSI | RDX | RCX | RBX | RAX | RBP.
Global Instance reg_eq_dec : EqDecision reg.
Proof. solve_decision. Defined.
Record cpu : Type := { gpr : reg -> Z; rsp : Z; rip : Z; cs : Z; rflags : Z; ss : Z; mem : Z -> Z }.
Inductive instr : Type := Push (r : reg) | Pop (r : reg) | Call | Iretq.
Global Instance instr_eq_dec : EqDecision instr.
Proof. solve_decision. Defined.

(** [as_handler!], line by line. *)
Definition as_handler : list instr :=
  [Push RBP; Push RAX; Push RBX; Push RCX; Push RDX; Push RSI; Push RDI; Push R8; Push R9; Push R10; Push R11; Push R12; Push R13; Push R14; Push R15;
   Call;
   Pop R15; Pop R14; Pop R13; Pop R12; Pop R11; Pop R10; Pop R9; Pop R8; Pop RDI; Pop RSI; Pop RDX; Pop RCX; Pop RBX; Pop RAX; Pop RBP;
   Iretq].

(** ** The layout of [ProcessContext] ([repr(C)]) *)
Definition regs_words (r : RegistersValue) : list Z :=
  [r15 r; r14 r; r13 r; r12 r; r11 r; r10 r; r9 r; r8 r; rdi r; rsi r; rdx r; rcx r; rbx r; rax r; rbp r].
Definition frame_words (f : StackFrame) : list Z :=
  [instruction_pointer f; code_segment f; cpu_flags f; stack_pointer f; stack_segment f].
Definition context_words (c : ProcessContext) : list Z := regs_words (regs c) ++ frame_words (stack_frame c).
Definition read_context (m : Z -> Z) (a : Z) : ProcessContext := {|
  regs := {| r15 := m a; r14 := m (a + 8); r13 := m (a + 16); r12 := m (a + 24); r11 := m (a + 32); r10 := m (a + 40); r9 := m (a + 48);
             r8 := m (a + 56); rdi := m (a + 64); rsi := m (a + 72); rdx := m (a + 80); rcx := m (a + 88); rbx := m (a + 96); rax := m (a + 104);
             rbp := m (a + 112) |};
  stack_frame := {| instruction_pointer := m (a + 120); code_segment := m (a + 128); cpu_flags := m (a + 136);
                    stack_pointer := m (a + 144); stack_segment := m (a + 152) |} |}.
Definition write_words (m : Z -> Z) (a : Z) (ws : list Z) (x : Z) : Z :=
  if decide (0 <= x - a /\ (x - a) mod 8 = 0) then default (m x) (ws !! Z.to_nat ((x - a) / 8)) else m x.

(** ** The processor *)
Definition store (s : cpu) (a v : Z) : Z -> Z := fun x => if decide (x = a) then v else mem s x.
Definition push (v : Z) (s : cpu) : cpu :=
  {| gpr := gpr s; rsp := u64 (rsp s - 8); rip := rip s; cs := cs s; rflags := rflags s; ss := ss s; mem := store s (u64 (rsp s - 8)) v |}.
Definition set_gpr (s : cpu) (r : reg) (v : Z) : reg -> Z := fun q => if decide (q = r) then v else gpr s q.

(** The instructions that do not leave the assembly. *)
Definition plain (i : instr) (s : cpu) : cpu :=
  match i with
  | Push r => push (gpr s r) s
  | Pop r => {| gpr := set_gpr s r (mem s (rsp s)); rsp := u64 (rsp s + 8); rip := rip s; cs := cs s; rflags := rflags s; ss := ss s; mem := mem s |}
  | Call => s
  | Iretq =>
      {| gpr := gpr s; rip := mem s (rsp s); cs := mem s (u64 (rsp s + 8)); rflags := mem s (u64 (rsp s + 16)); rsp := mem s (u64 (rsp s + 24));
         ss := mem s (u64 (rsp s + 32)); mem := mem s |}
  end.

Section run.
(** The Rust function, which works on the context that it gets and on a state [W]; what it leaves in the registers and in the memory below its
    argument. *)
Context {W : Type} (body : ProcessContext -> ST W ProcessContext) (clobber : cpu -> reg -> Z) (scratch : cpu -> Z -> Z).
Definition after_call (s : cpu) (c : ProcessContext) : cpu :=
  {| gpr := clobber s; rsp := rsp s; rip := rip s; cs := cs s; rflags := rflags s; ss := ss s;
     mem := fun x => if decide (x < rsp s) then scratch s x else write_words (mem s) (rsp s) (context_words c) x |}.
Definition exec (i : instr) (s : cpu) : ST W cpu :=
  match i with
  | Call =>
      c ← body (read_context (mem s) (rsp s));
      mret (after_call s c)
  | _ => mret (plain i s)
  end.
Fixpoint run (code : list instr) (s : cpu) : ST W cpu :=
  match code with [] => mret s | i :: code => s' ← exec i s; run code s' end.
(** An interrupt with a stack of its own whose top is [top]: the processor aligns it, pushes where it was, and goes to the handler. *)
Definition interrupt (top : Z) (s : cpu) : cpu :=
  push (rip s) (push (cs s) (push (rflags s) (push (rsp s) (push (ss s)
    {| gpr := gpr s; rsp := top - top mod 16; rip := rip s; cs := cs s; rflags := rflags s; ss := ss s; mem := mem s |})))).
Definition trap (top : Z) (s : cpu) : ST W cpu := run as_handler (interrupt top s).
End run.

(** The context that the processor is in. *)
Definition context_of (s : cpu) : ProcessContext := {|
  regs := {| r15 := gpr s R15; r14 := gpr s R14; r13 := gpr s R13; r12 := gpr s R12; r11 := gpr s R11; r10 := gpr s R10; r9 := gpr s R9; r8 := gpr s R8;
             rdi := gpr s RDI; rsi := gpr s RSI; rdx := gpr s RDX; rcx := gpr s RCX; rbx := gpr s RBX; rax := gpr s RAX; rbp := gpr s RBP |};
  stack_frame := {| instruction_pointer := rip s; code_segment := cs s; cpu_flags := rflags s; stack_pointer := rsp s; stack_segment := ss s |} |}.

(** ** Blocks of words *)
(** From address [a] on, memory holds [ws]. *)
Definition holds (m : Z -> Z) (a : Z) (ws : list Z) : Prop := forall i w, ws !! i = Some w -> m (a + 8 * Z.of_nat i) = w.
Lemma holds_cons m a w ws : m a = w -> holds m (a + 8) ws -> holds m a (w :: ws).
Proof.
  intros Hw Hh [|i] v Hi; [injection Hi as <-; by rewrite Z.add_0_r|]. cbn in Hi. rewrite <- (Hh i v Hi). f_equal. lia.
Qed.
Lemma holds_inv m a w ws : holds m a (w :: ws) -> m a = w /\ holds m (a + 8) ws.
Proof.
  intros Hh. split; [pose proof (Hh 0%nat w eq_refl) as H0; by rewrite Z.add_0_r in H0|].
  intros i v Hi. rewrite <- (Hh (S i) v Hi). f_equal. lia.
Qed.
Lemma holds_app m a ws vs : holds m a ws -> holds m (a + 8 * zlen ws) vs -> holds m a (ws ++ vs).
Proof.
  intros Hw Hv i w Hi. destruct (decide (i < length ws)%nat) as [Hl|Hl].
  - rewrite lookup_app_l in Hi by done. by apply Hw.
  - rewrite lookup_app_r in Hi by lia. rewrite <- (Hv _ _ Hi). unfold zlen. f_equal. lia.
Qed.
Lemma holds_ext m m' a ws : (forall x, a <= x -> m' x = m x) -> holds m a ws -> holds m' a ws.
Proof. intros He Hh i w Hi. rewrite He by lia. by apply Hh. Qed.
Lemma write_holds m a ws : holds (write_words m a ws) a ws.
Proof.
  intros i w Hi. unfold write_words. replace (a + 8 * Z.of_nat i - a) with (Z.of_nat i * 8) by lia.
  rewrite Z.mod_mul, Z.div_mul, Nat2Z.id, Hi by lia. rewrite decide_True by lia. done.
Qed.
Lemma read_holds m a c : holds m a (context_words c) -> read_context m a = c.
Proof.
  intros Hh. destruct c as [[] []]. unfold context_words in Hh. cbn in Hh.
  repeat (let H := fresh in apply holds_inv in Hh as [H Hh]; rewrite <- ?Z.add_assoc in H; cbn in H).
  unfold read_context. by subst.
Qed.

Section spec.
Abbreviation exec_all := (fold_left (fun s i => plain i s)).
(** Where the processor is, apart from the stack. *)
Definition same_place (s s' : cpu) : Prop := rip s' = rip s /\ cs s' = cs s /\ rflags s' = rflags s /\ ss s' = ss s.
Lemma push_run v s : 8 <= rsp s < 2 ^ 64 -> rsp (push v s) = rsp s - 8 /\ mem (push v s) (rsp s - 8) = v /\ forall x, rsp s <= x -> mem (push v s) x = mem s x.
Proof.
  intros Hr. cbn. unfold store. rewrite wrap_small by lia. split; [done|]. split; [by rewrite decide_True|]. intros x Hx. by rewrite decide_False by lia.
Qed.
(** Pushing the registers [rs] puts them into memory in reverse order. *)
Lemma pushes_run rs : forall s, 8 * zlen rs <= rsp s < 2 ^ 64 -> let s' := exec_all (Push <$> rs) s in
  gpr s' = gpr s /\ rsp s' = rsp s - 8 * zlen rs /\ same_place s s' /\ holds (mem s') (rsp s') (rev (gpr s <$> rs)) /\ forall x, rsp s <= x -> mem s' x = mem s x.
Proof.
  induction rs as [|r rs IH]; intros s Hr; unfold zlen in *; cbn [length] in *.
  - cbn. split; [done|]. split; [lia|]. split; [done|]. split; [by intros i w Hi|done].
  - destruct (push_run (gpr s r) s ltac:(lia)) as (Hp1 & Hp2 & Hp3). change (exec_all (Push <$> r :: rs) s) with (exec_all (Push <$> rs) (push (gpr s r) s)).
    destruct (IH (push (gpr s r) s) ltac:(lia)) as (G & R & P & Hh & Ho). cbv zeta. set (s' := exec_all _ _) in *. rewrite Hp1 in R, Ho.
    split; [done|]. split; [rewrite R; lia|]. split; [done|]. split.
    + rewrite fmap_cons. cbn [rev]. apply holds_app; [exact Hh|]. unfold zlen. rewrite length_rev, length_fmap. cbn [gpr] in *.
      replace (rsp s' + 8 * Z.of_nat (length rs)) with (rsp s - 8) by lia. apply holds_cons; [rewrite Ho by lia; exact Hp2|by intros i w Hi].
    + intros x Hx. rewrite Ho by lia. by apply Hp3.
Qed.
(** Popping into the registers [rs] loads them, in this order, from the words at the stack pointer. *)
Lemma pops_run rs : forall s ws, length ws = length rs -> NoDup rs -> 0 <= rsp s -> rsp s + 8 * zlen rs < 2 ^ 64 -> holds (mem s) (rsp s) ws ->
  let s' := exec_all (Pop <$> rs) s in
  mem s' = mem s /\ rsp s' = rsp s + 8 * zlen rs /\ same_place s s' /\ (gpr s' <$> rs) = ws /\ forall q, q ∉ rs -> gpr s' q = gpr s q.
Proof.
  induction rs as [|r rs IH]; intros s [|w ws] Hl Hn H0 H1 Hh; try done; unfold zlen in *; cbn [length] in *.
  - cbn. split; [done|]. split; [lia|]. by split.
  - apply NoDup_cons in Hn as [Hnr Hn]. apply holds_inv in Hh as [Hw Hh]. set (s1 := plain (Pop r) s).
    change (exec_all (Pop <$> r :: rs) s) with (exec_all (Pop <$> rs) s1). assert (R1 : rsp s1 = rsp s + 8) by (cbn; rewrite wrap_small; lia).
    destruct (IH s1 ws) as (Hm & R & P & G & Go); [lia|done|lia|lia|by rewrite R1|]. cbv zeta. set (s' := exec_all _ _) in *.
    split; [done|]. split; [rewrite R; lia|]. split; [done|]. split.
    + rewrite fmap_cons, G. f_equal. rewrite Go by done. cbn. unfold set_gpr. by rewrite decide_True.
    + intros q [Hq1 Hq2]%not_elem_of_cons. rewrite Go by done. cbn. unfold set_gpr. by rewrite decide_False.
Qed.
Lemma interrupt_run top0 s : 216 <= top0 < 2 ^ 64 -> let s' := interrupt top0 s in let top := top0 - top0 mod 16 in
  gpr s' = gpr s /\ rsp s' = top - 40 /\ same_place s s' /\ holds (mem s') (top - 40) (frame_words (stack_frame (context_of s))).
Proof.
  intros Ht. cbv zeta. unfold interrupt. pose proof (Z.mod_pos_bound top0 16 ltac:(lia)). set (top := top0 - top0 mod 16). assert (200 <= top < 2 ^ 64) by lia. clearbody top.
  set (s0 := {| gpr := gpr s; rsp := top |}).
  destruct (push_run (ss s) s0) as (A1 & A2 & A3); [cbn; lia|]. set (s1 := push (ss s) s0) in *.
  destruct (push_run (rsp s) s1) as (B1 & B2 & B3); [rewrite A1; cbn; lia|]. set (s2 := push (rsp s) s1) in *.
  destruct (push_run (rflags s) s2) as (C1 & C2 & C3); [rewrite B1, A1; cbn; lia|]. set (s3 := push (rflags s) s2) in *.
  destruct (push_run (cs s) s3) as (D1 & D2 & D3); [rewrite C1, B1, A1; cbn; lia|]. set (s4 := push (cs s) s3) in *.
  destruct (push_run (rip s) s4) as (E1 & E2 & E3); [rewrite D1, C1, B1, A1; cbn; lia|]. set (s5 := push (rip s) s4) in *.
  change (rsp s0) with top in *. split; [done|]. split; [lia|]. split; [done|].
  assert (Ea : top - 40 = rsp s4 - 8) by lia. rewrite Ea.
  repeat apply holds_cons; try by intros i w Hi.
  - exact E2.
  - rewrite E3 by lia. replace (rsp s4 - 8 + 8) with (rsp s3 - 8) by lia. exact D2.
  - rewrite E3, D3 by lia. replace (rsp s4 - 8 + 8 + 8) with (rsp s2 - 8) by lia. exact C2.
  - rewrite E3, D3, C3 by lia. replace (rsp s4 - 8 + 8 + 8 + 8) with (rsp s1 - 8) by lia. exact B2.
  - rewrite E3, D3, C3, B3 by lia. replace (rsp s4 - 8 + 8 + 8 + 8 + 8) with (top - 8) by lia. exact A2.
Qed.
Definition saved : list reg := [RBP; RAX; RBX; RCX; RDX; RSI; RDI; R8; R9; R10; R11; R12; R13; R14; R15].
Definition restored : list reg := [R15; R14; R13; R12; R11; R10; R9; R8; RDI; RSI; RDX; RCX; RBX; RAX; RBP].

Context {W : Type} (body : ProcessContext -> ST W ProcessContext) (clobber : cpu -> reg -> Z) (scratch : cpu -> Z -> Z).
Lemma run_plain code rest : forall s w, Forall (fun i => i <> Call) code ->
  run body clobber scratch (code ++ rest) s w = run body clobber scratch rest (exec_all code s) w.
Proof. induction code as [|i code IH]; intros s w Hc; [done|]. apply Forall_cons in Hc as [Hi Hc]. by destruct i; [apply IH..|done|apply IH]. Qed.
Lemma run_call rest s w : run body clobber scratch (Call :: rest) s w =
  match body (read_context (mem s) (rsp s)) w with
  | Ret (c, w') => run body clobber scratch rest (after_call clobber scratch s c) w'
  | Panic => Panic
  | Timeout => Timeout
  end.
Proof. cbn. unfold mbind, ST_bind. by destruct (body _ w) as [[]| |]. Qed.
Lemma run_iretq s w : run body clobber scratch [Iretq] s w = Ret (plain Iretq s, w).
Proof. reflexivity. Qed.
Lemma as_handler_code : as_handler = (Push <$> saved) ++ Call :: (Pop <$> restored) ++ [Iretq].
Proof. reflexivity. Qed.
Lemma no_call_push rs : Forall (fun i => i <> Call) (Push <$> rs).
Proof. by apply Forall_fmap, Forall_true. Qed.
Lemma no_call_pop rs : Forall (fun i => i <> Call) (Pop <$> rs).
Proof. by apply Forall_fmap, Forall_true. Qed.
(** The registers and the frame of the interrupt, in the layout of a context, are what the function is called with. *)
Lemma trap_argument top0 s : 216 <= top0 < 2 ^ 64 -> let s2 := exec_all (Push <$> saved) (interrupt top0 s) in
  read_context (mem s2) (rsp s2) = context_of s /\ 0 <= rsp s2 /\ rsp s2 + 160 < 2 ^ 64.
Proof.
  intros Ht. cbv zeta. pose proof (Z.mod_pos_bound top0 16 ltac:(lia)).
  destruct (interrupt_run top0 s Ht) as (G1 & R1 & _ & Hf). set (s1 := interrupt top0 s) in *. set (top := top0 - top0 mod 16) in *.
  assert (Ht' : 200 <= top <= 2 ^ 64 - 1) by lia. clearbody top.
  destruct (pushes_run saved s1) as (G2 & R2 & _ & Hr & Ho); [change (zlen saved) with 15; lia|]. set (s2 := fold_left _ _ s1) in *.
  change (zlen saved) with 15 in R2. rewrite R1 in R2, Ho. split; [|lia].
  apply read_holds. apply holds_app; [rewrite G1 in Hr; exact Hr|]. change (zlen (regs_words _)) with 15.
  replace (rsp s2 + 8 * 15) with (top - 40) by lia. eapply holds_ext; [|exact Hf]. exact Ho.
Qed.
(** From the words of a context at the stack pointer, the rest of the handler puts the processor into that context. *)
Lemma leave_run s c : 0 <= rsp s -> rsp s + 160 < 2 ^ 64 -> holds (mem s) (rsp s) (context_words c) ->
  context_of (plain Iretq (exec_all (Pop <$> restored) s)) = c.
Proof.
  intros H0 H1 Hw. unfold context_words in Hw.
  destruct (pops_run restored s (regs_words (regs c))) as (M4 & R4 & _ & G4 & _).
  { done. }
  { apply (bool_decide_unpack _). vm_compute. constructor. }
  { lia. }
  { change (zlen restored) with 15. lia. }
  { intros i w Hi. apply Hw. by apply lookup_app_l_Some. }
  set (s4 := fold_left _ _ s) in *. change (zlen restored) with 15 in R4.
  assert (Hfr : holds (mem s4) (rsp s4) (frame_words (stack_frame c))).
  { rewrite M4, R4. intros i w Hi. rewrite <- (Hw (15 + i)%nat w); [f_equal; lia|]. exact Hi. }
  clearbody s4. clear -Hfr G4 R4 H0 H1. destruct c as [[] []]. cbn in G4. injection G4; intros.
  cbn in Hfr. repeat (let H := fresh in apply holds_inv in Hfr as [H Hfr]; rewrite <- ?Z.add_assoc in H; cbn in H).
  unfold context_of. cbn. rewrite !wrap_small by lia. by subst.
Qed.
(** A trap is a function on contexts.  Whatever the function leaves in the registers and below its argument: it gets the registers and
    the place at which the processor was interrupted, in the layout of [ProcessContext], and the processor goes on exactly in the context
    that it leaves there; nothing is lost, neither for the interrupted process nor for another one whose context is restored. *)
Theorem trap_context top0 s w : 216 <= top0 < 2 ^ 64 ->
  (s' ← trap body clobber scratch top0 s; mret (context_of s')) w = body (context_of s) w.
Proof.
  intros Ht. destruct (trap_argument top0 s Ht) as (Ec & H0 & H1). unfold trap. rewrite as_handler_code.
  generalize dependent (interrupt top0 s). intros s1 Ec H0 H1. unfold mbind at 1, ST_bind at 1. rewrite run_plain by apply no_call_push.
  generalize dependent (fold_left (fun s i => plain i s) (Push <$> saved) s1). intros s2 Ec H0 H1.
  rewrite run_call, Ec. destruct (body (context_of s) w) as [[c w']| |]; [|reflexivity..].
  rewrite run_plain by apply no_call_pop. rewrite run_iretq, leave_run with (c := c); [reflexivity|exact H0|exact H1|].
  eapply holds_ext; [|apply write_holds]. intros x Hx. cbn [mem rsp after_call] in *. by rewrite decide_False by lia.
Qed.
End spec.

(** The registers and the place of an interrupted program. *)
Definition demo_cpu : cpu :=
  {| gpr r := if decide (r = RAX) then 5 else 9; rsp := 0x7000; rip := 0x1234; cs := 0x33; rflags := 0x202; ss := 0x2b; mem _ := 0 |}.
