(* ===== verification/Manager.v ===== *)
(** * The process manager and the kernel's process operations

    Models [pkg/kernel/src/proc/manager.rs] and the operations of
    [pkg/kernel/src/proc/mod.rs] that interrupt handlers and system calls use. *)

From stdpp Require Import base numbers list gmap.
From S2P Require Import Prelude Bytes Device Str Fat16Name Fat16Entry Fat16Fs Fat16File X86 Frames ElfMap Sync Resource Vm Process.

(** [ElfFile::new] of [xmas_elf], on the bytes of a file. *)
Class ElfParser : Type := { ElfFile_new : bytes -> result ElfFile unit }.

(** [BTreeSet::insert]: the set in ascending order. *)
Fixpoint set_insert (x : Z) (l : list Z) : list Z :=
  match l with
  | [] => [x]
  | y :: l' => if x <? y then x :: l else if x =? y then l else y :: set_insert x l'
  end.

Module Manager.
Section ops.
Context {M D Q : Type} {L : Log} {X : X86} {MM : Machine M} {BD : BlockDevice D} {C : Chrono}
  {BF : Bitflags} {UT : UnicodeTable} {AQ : ArrayQueue Q} {S : Selectors}.
Abbreviation Kern := (Kernel M D Q).
Abbreviation K := (ST (Kernel M D Q)).

Definition push_ready (pid : Z) : K unit :=
  st_modify (fun k => set_ready_queue (ready_queue k ++ [pid]) k).

Definition add_waiting (pid : Z) : K unit :=
  now ← on_sys get_pid;
  st_modify (fun k => set_waiting_processes
    (<[pid := set_insert now (default [] (waiting_processes k !! pid))]> (waiting_processes k)) k).

Definition add_proc (pid : Z) (p : ProcessInner) : K unit :=
  st_modify (fun k => set_processes (<[pid := p]> (processes k)) k).
Definition get_proc (pid : Z) : K (option ProcessInner) := st_gets (fun k => processes k !! pid).
(** [get_proc(..).unwrap()] *)
Definition the_proc (pid : Z) : K ProcessInner := p ← get_proc pid; st_lift (unwrap p).
(** A process changed through its lock. *)
Definition write_proc (pid : Z) (p : ProcessInner) : K unit :=
  st_modify (fun k => set_processes (<[pid := p]> (processes k)) k).

Definition block_proc (pid : Z) : K unit := p ← the_proc pid; write_proc pid (Inner.block p).

Definition current : K (Z * ProcessInner) :=
  pid ← on_sys get_pid; p ← the_proc pid; mret (pid, p).

Definition wake_up (pid : Z) : K unit :=
  p ← the_proc pid; write_proc pid (Inner.pause p);; push_ready pid.

Fixpoint wake_all (ret : Z) (pids : list Z) : K unit :=
  match pids with
  | [] => mret tt
  | pid :: pids' =>
      p ← the_proc pid;
      write_proc pid (set_context (Context.set_rax (as_usize ret) (context p)) p);;
      wake_up pid;;
      wake_all ret pids'
  end.

Definition wake_waiting (ret : Z) : K unit :=
  now_pid ← on_sys get_pid;
  w ← st_gets (fun k => waiting_processes k !! now_pid);
  match w with
  | Some wait_set =>
      st_modify (fun k => set_waiting_processes (delete now_pid (waiting_processes k)) k);;
      wake_all ret wait_set
  | None => mret tt
  end.

Definition get_exit_code (pid : Z) : K (option Z) := p ← the_proc pid; mret (exit_code p).

Definition spawn (elf : ElfFile) (nm : str) (par : option Z) (data : option ProcessData) : K Z :=
  kproc ← the_proc KERNEL_PID;
  page_table ← Inner.clone_page_table kproc;
  vm ← on_sys (ProcessVm.new page_table);
  r ← Process.new nm par (Some vm) data;
  let '(pid, p) := r in
  r ← Inner.load_elf elf pid p;
  let '(stack_top, p) := r in
  entry ← st_lift (VirtAddr_new (elf_entry elf));
  let p := Inner.pause (Inner.init_stack_frame entry stack_top p) in
  add_proc pid p;;
  push_ready pid;;
  mret pid.

Definition save_current (ctx : ProcessContext) : K Z :=
  r ← current;
  let '(pid, p) := r in
  write_proc pid (Inner.save ctx (Inner.tick p));;
  mret pid.

(** [ready_queue.lock().pop_front().unwrap()] *)
Definition pop_ready : K Z := fun k =>
  match ready_queue k with
  | [] => Panic
  | pid :: rest => Ret (pid, set_ready_queue rest k)
  end.

(** The [while] loop: requeue a process that is not ready and take the next.  With
    a ready process in the queue it ends after at most as many rounds as the queue
    is long; without one it never ends, so that length is the fuel. *)
Fixpoint next_ready (fuel : nat) (nextpid : Z) (nextproc : ProcessInner) : K (Z * ProcessInner) :=
  if Inner.is_ready nextproc then mret (nextpid, nextproc)
  else
    match fuel with
    | O => fun _ => Timeout
    | Datatypes.S fuel' =>
        push_ready nextpid;;
        nextpid ← pop_ready;
        nextproc ← the_proc nextpid;
        next_ready fuel' nextpid nextproc
    end.

Definition switch_next (ctx : ProcessContext) : K (Z * ProcessContext) :=
  fuel ← st_gets (fun k => length (ready_queue k));
  nextpid ← pop_ready;
  nextproc ← the_proc nextpid;
  r ← next_ready fuel nextpid nextproc;
  let '(nextpid, nextproc) := r in
  r ← Inner.restore ctx nextproc;
  write_proc nextpid r.1;;
  on_sys (set_pid nextpid);;
  mret (nextpid, r.2).

Definition kill (pid ret : Z) : K unit :=
  p ← get_proc pid;
  match p with
  | None => mret tt
  | Some p =>
      if decide (status p = Dead) then mret tt
      else p ← Inner.kill ret p; write_proc pid p
  end.
Definition kill_current (ret : Z) : K unit := pid ← on_sys get_pid; kill pid ret.
Definition kill_self (ret : Z) : K unit := pid ← on_sys get_pid; kill pid ret.

(** The result of the process's own handler is ignored. *)
Definition handle_page_fault (addr : Z) (protection_violation : bool) : K bool :=
  r ← current;
  let '(pid, p) := r in
  if negb protection_violation then
    r ← Inner.handle_page_fault addr p;
    write_proc pid r.2;; mret true
  else mret false.

Definition is_proc_alive (pid : Z) : K bool :=
  p ← get_proc pid;
  mret (match p with Some p => bool_decide (status p <> Dead) | None => false end).

(** The child's number; parent and child are in the table afterwards. *)
Definition fork : K Z :=
  r ← current;
  let '(pid, p) := r in
  r ← Process.fork pid p;
  let '(child_pid, p, child) := r in
  write_proc pid p;;
  add_proc child_pid child;;
  mret child_pid.

Definition with_data {A} (f : ProcessData -> K A) : K A :=
  r ← current; d ← Inner.data r.2; f d.

Definition read (fd : Z) (buf : bytes) : K (Z * bytes) := with_data (fun d => Data.read d fd buf).
Definition write (fd : Z) (buf : bytes) : K Z := with_data (fun d => Data.write d fd buf).
Definition open_file (fuel : nat) (path : str) : K Z :=
  with_data (fun d => Data.open_file fuel d path).
Definition close_file (fd : Z) : K bool := with_data (fun d => Data.close_file d fd).

Definition brk (addr : option Z) : K (option Z) :=
  pid ← on_sys get_pid;
  p ← get_proc pid;
  match p with Some p => Inner.brk addr p | None => mret None end.
End ops.
End Manager.

(** ** [proc/mod.rs] *)
Module Proc.
Section ops.
Context {M D Q : Type} {L : Log} {X : X86} {MM : Machine M} {BD : BlockDevice D} {C : Chrono}
  {BF : Bitflags} {UT : UnicodeTable} {AQ : ArrayQueue Q} {S : Selectors} {EP : ElfParser}.
Abbreviation K := (ST (Kernel M D Q)).

Definition switch (ctx : ProcessContext) : K ProcessContext :=
  pid ← Manager.save_current ctx;
  Manager.push_ready pid;;
  r ← Manager.switch_next ctx;
  mret r.2.

Definition env (key : str) : K (option str) := Manager.with_data (fun d => Data.env d key).

(** [process_exit]: the process is dead but stays on the processor (it halts) until
    the next timer interrupt. *)
Definition process_exit (ret : Z) : K unit := Manager.kill_current ret.

Definition handle_page_fault (addr : Z) (protection_violation : bool) : K bool :=
  Manager.handle_page_fault addr protection_violation.

(** [path.rsplit('/').collect()[0]]: the last component. *)
Definition last_component (path : str) : str := default [] (last (split_on 47 path)).

Definition elf_spawn (nm : str) (elf : ElfFile) : K (option Z) :=
  r ← Manager.current;
  pid ← Manager.spawn elf nm (Some r.1) None;
  mret (Some pid).

(** [fuel] bounds the clusters of a directory, [units] the KiB read. *)
Definition spawn (fuel units : nat) (path : str) : K (option Z) :=
  let nm := last_component path in
  fs ← st_gets rootfs;
  r ← st_lift (Mount.open_file fuel fs path);
  h ← st_lift (unwrap_result r);
  r ← st_lift (FatFile.read_all units (FatFile.new (Mount.fs fs) h.2) [] 0);
  let '(res, _, buf) := r in
  _ ← st_lift (unwrap_result res);
  elf ← st_lift (unwrap_result (ElfFile_new buf));
  elf_spawn nm elf.

Definition read (fd : Z) (buf : bytes) : K (Z * bytes) := Manager.read fd buf.
Definition write (fd : Z) (buf : bytes) : K Z := Manager.write fd buf.

Definition fork (ctx : ProcessContext) : K ProcessContext :=
  pid ← Manager.save_current ctx;
  child ← Manager.fork;
  Manager.push_ready child;;
  Manager.push_ready pid;;
  r ← Manager.switch_next ctx;
  mret r.2.

Definition exit (ret : Z) (ctx : ProcessContext) : K ProcessContext :=
  Manager.wake_waiting ret;;
  Manager.kill_self ret;;
  r ← Manager.switch_next ctx;
  mret r.2.

Definition brk (addr : option Z) : K Z :=
  r ← Manager.brk addr;
  mret (match r with Some new_end => as_isize new_end | None => -1 end).

Definition get_pid : K Z := on_sys get_pid.

Definition still_alive (pid : Z) : K bool := Manager.is_proc_alive pid.

Definition wait_pid (pid : Z) (ctx : ProcessContext) : K ProcessContext :=
  alive ← still_alive pid;
  if (alive : bool) then
    now_pid ← get_pid;
    Manager.save_current ctx;;
    Manager.block_proc now_pid;;
    Manager.add_waiting pid;;
    r ← Manager.switch_next ctx;
    mret r.2
  else
    c ← Manager.get_exit_code pid;
    code ← st_lift (unwrap c);
    mret (Context.set_rax (as_usize code) ctx).

(** The other results are [unreachable!()]. *)
Definition sem_wait (key : Z) (ctx : ProcessContext) : K ProcessContext :=
  pid ← get_pid;
  ret ← Manager.with_data (fun d => Data.sem_wait d key pid);
  match ret with
  | SemOk => mret (Context.set_rax 0 ctx)
  | NotExist => mret (Context.set_rax 1 ctx)
  | Block _ =>
      Manager.save_current ctx;;
      Manager.block_proc pid;;
      r ← Manager.switch_next ctx;
      mret r.2
  | WakeUp _ => st_panic
  end.

Definition sem_signal (key : Z) (ctx : ProcessContext) : K ProcessContext :=
  ret ← Manager.with_data (fun d => Data.sem_signal d key);
  match ret with
  | SemOk => mret (Context.set_rax 0 ctx)
  | NotExist => mret (Context.set_rax 1 ctx)
  | WakeUp pid => Manager.wake_up pid;; mret ctx
  | Block _ => st_panic
  end.

Definition new_sem (key value : Z) : K Z :=
  r ← Manager.with_data (fun d => Data.new_sem d key value); mret (if (r : bool) then 0 else 1).
Definition remove_sem (key : Z) : K Z :=
  r ← Manager.with_data (fun d => Data.remove_sem d key); mret (if (r : bool) then 0 else 1).

Definition open_file (fuel : nat) (path : str) : K Z := Manager.open_file fuel path.
Definition close_file (fd : Z) : K bool := Manager.close_file fd.

(** [manager::init], with [ProcessManager::new]: the process is the only one and runs. *)
Definition manager_init (pid : Z) (p : ProcessInner) : K unit :=
  on_sys (set_pid pid);;
  Manager.add_proc pid (Inner.resume p).
(** [proc::init]: the kernel process, running. *)
Definition init (kernel_pages : list PageRangeInclusive) : K unit :=
  pt ← on_sys PageTableContext.new;
  vm ← on_sys (ProcessVm.new pt);
  let vm := ProcessVm.init_kernel_vm kernel_pages vm in
  r ← Process.new [107; 101; 114; 110; 101; 108] None (Some vm) None;
  let '(pid, p) := r in
  manager_init pid (Inner.resume p).
End ops.
End Proc.
