(* ===== verification/Listing.v ===== *)
(** * The process list

    Models the texts that [pkg/kernel/src/proc] makes for the calls [Stat] and [PrintInfo]: [print_process_list], [format_usage] and [print_process_info] of
    [manager.rs], [Display] and [print_info] of [process.rs], and [print_processors] of [processor.rs].  A text is the list of the values
    that are put into it; making a value may panic.  The same for [ls] of [pkg/kernel/src/drivers/filesystem.rs]. *)

From Stdlib Require Import Ascii String.
From stdpp Require Import base numbers list gmap sorting.
From S2P Require Import Prelude Bytes Device Str Fat16Name Fat16Entry Fat16Fs Fat16File Num Size X86 Frames ElfMap Sync Resource Vm Process Manager.

(** One line of the list: [Display] of a process. *)
Record ProcessRow : Type := {
  row_pid : Z; row_parent : Z; row_name : str; row_ticks : Z; row_memory : f32 * str; row_status : ProgramStatus }.
(** A line of [format_usage]. *)
Record Usage : Type := { usage_used : f32 * str; usage_total : f32 * str; usage_percent : f32 }.
Record ProcessList : Type := { rows : list ProcessRow; memory_line : Usage; queue_line : list Z; processors_line : list (nat * Z) }.
Record ProcessInfo : Type := { info_name : str; info_ticks : Z; info_code : f32 * str; info_stack : f32 * str }.

Definition format_usage (used total : Z) : outcome Usage :=
  used_size ← humanized_size used;
  total_size ← humanized_size total;
  Ret {| usage_used := used_size; usage_total := total_size; usage_percent := f32_mul (f32_div (f32_from used) (f32_from total)) (f32_from 100) |}.

(** A line of [filesystem::ls]. *)
Record DirRow `{Chrono} : Type := { file_name : str; file_type : str; file_size : f32 * str; created_time : FsTime; last_modified : FsTime; last_access : FsTime }.
Definition dir_row `{Chrono} (meta : Metadata) : outcome DirRow :=
  let filetype := if meta_is_dir meta then chars "Directory" else chars "File" in
  let name := if decide (filetype = chars "Directory") then m_name meta ++ chars "/" else m_name meta in
  size ← humanized_size (m_len meta);
  created ← unwrap (m_created meta);
  modified ← unwrap (m_modified meta);
  accessed ← unwrap (m_accessed meta);
  Ret {| file_name := name; file_type := filetype; file_size := size; created_time := created; last_modified := modified; last_access := accessed |}.
Fixpoint dir_rows `{Chrono} `{Bitflags} `{UnicodeTable} (entries : list DirEntry.t) : outcome (list DirRow) :=
  match entries with
  | [] => Ret []
  | e :: entries => meta ← DirEntry.as_meta e; row ← dir_row meta; rest ← dir_rows entries; Ret (row :: rest)
  end.
(** Every entry whose name can be shown has its row; nothing else in a row can panic. *)
Lemma dir_rows_run `{Chrono} `{Bitflags} `{UnicodeTable} entries names : Forall (fun e => 0 <= DirEntry.size e < 2 ^ 32) entries ->
  Forall2 (fun e name => DirEntry.file_name e = Ret name) entries names ->
  exists rs, dir_rows entries = Ret rs /\ Forall2 (fun '(e, name) r => file_name r = (if DirEntry.is_directory e then name ++ chars "/" else name) /\
    file_type r = (if DirEntry.is_directory e then chars "Directory" else chars "File") /\ humanized_size (DirEntry.size e) = Ret (file_size r) /\
    created_time r = DirEntry.created_time e /\ last_modified r = DirEntry.modified_time e /\ last_access r = DirEntry.accessed_time e) (zip entries names) rs.
Proof.
  intros Hs Hn. induction Hn as [|e name entries names He Hn IH]; [by exists []|]. apply Forall_cons in Hs as [He0 Hs]. destruct (IH Hs) as (rs & E & Hrs).
  destruct (humanized_size_small (DirEntry.size e)) as [sz Ez]; [lia|]. cbn [dir_rows]. unfold DirEntry.as_meta. rewrite He. cbn [mbind outcome_bind]. unfold dir_row. cbn.
  rewrite Ez. cbn. rewrite E. cbn. eexists. split; [reflexivity|]. constructor; [|done]. cbn. unfold meta_is_dir. cbn. by destruct (DirEntry.is_directory e).
Qed.

Module Listing.
Section ops.
Context {M D Q : Type} {L : Log} {X : X86} {MM : Machine M} {C : Chrono}.
Abbreviation Kern := (Kernel M D Q).
Abbreviation K := (ST (Kernel M D Q)).

(** [vm.memory_usage()] of a process that has its memory, else 0. *)
Definition memory_of (p : ProcessInner) : K Z :=
  match proc_vm p with None => mret 0 | Some vm => on_sys (ProcessVm.memory_usage vm) end.
Definition fmt (pid : Z) (p : ProcessInner) : K ProcessRow :=
  usage ← memory_of p;
  memory ← st_lift (humanized_size usage);
  mret {| row_pid := pid; row_parent := default 0 (parent p); row_name := name p; row_ticks := ticks_passed p; row_memory := memory; row_status := status p |}.

(** The processes in the order of the [BTreeMap]. *)
Definition in_order (procs : gmap Z ProcessInner) : list Z := merge_sort Z.le (map_to_list procs).*1.
Fixpoint print_rows (pids : list Z) : K (list ProcessRow) :=
  match pids with
  | [] => mret []
  | pid :: pids =>
      p ← Manager.the_proc pid;
      if decide (status p <> Dead) then row ← fmt pid p; rest ← print_rows pids; mret (row :: rest) else print_rows pids
  end.
(** The one processor that runs, unless it is free. *)
Definition print_processors (s : Sys M) : list (nat * Z) := if processor_pid s =? 0 then [] else [(0%nat, processor_pid s)].

Definition print_process_list : K ProcessList :=
  k ← st_get;
  rows ← print_rows (in_order (processes k));
  let alloc := frame_alloc (sys k) in
  let used := u64 (u64 (frames_used alloc - frames_recycled alloc) * PAGE_SIZE) in
  let total := u64 (frames_total alloc * PAGE_SIZE) in
  memory ← st_lift (format_usage used total);
  mret {| rows := rows; memory_line := memory; queue_line := ready_queue k; processors_line := print_processors (sys k) |}.

Definition print_info (p : ProcessInner) : K ProcessInfo :=
  data ← Inner.data p;
  code ← st_lift (humanized_size (u64 (code_segment_pages data * PAGE_SIZE)));
  vm ← Inner.vm p;
  stack ← st_lift (humanized_size (u64 (Stack.usage (ProcessVm.stack vm) * PAGE_SIZE)));
  mret {| info_name := name p; info_ticks := ticks_passed p; info_code := code; info_stack := stack |}.
Definition print_process_info (pid : Z) : K bool :=
  p ← Manager.get_proc pid;
  match p with Some p => print_info p;; mret true | None => mret false end.

(** ** Nothing changes *)
Definition reads {A} (m : K A) : Prop := keeps (fun k => k) m.
Lemma reads_keeps {A B} (g : Kern -> B) (m : K A) : reads m -> keeps g m.
Proof. intros Hm k x k1 E. f_equal. by eapply Hm. Qed.
Lemma reads_on_sys {A} (f : ST (Sys M) A) : keeps (fun s => s) f -> reads (on_sys f).
Proof.
  intros Hf k x k1. unfold on_sys. destruct (f (sys k)) as [[t s1]| |] eqn:E; [|done..]. intros [= _ <-]. rewrite (Hf _ _ _ E). by destruct k.
Qed.
Lemma usage_reads vm : keeps (fun s => s) (@ProcessVm.memory_usage M vm).
Proof.
  intros s x s1. unfold ProcessVm.memory_usage, Heap.memory_usage, Heap.load_end, mbind, ST_bind. destruct (heap_ends s !! _); [|done]. cbn. by intros [= _ <-].
Qed.
Lemma memory_of_reads p : reads (memory_of p).
Proof. unfold memory_of. destruct (proc_vm p); [apply reads_on_sys, usage_reads|]. by intros k x k1 [= _ <-]. Qed.
Lemma get_proc_reads pid : reads (@Manager.get_proc M D Q C pid).
Proof. by intros k x k1 [= _ <-]. Qed.
#[local] Hint Resolve memory_of_reads get_proc_reads : keeps.
Lemma print_rows_reads pids : reads (print_rows pids).
Proof.
  unfold reads. induction pids as [|pid pids IH]; cbn [print_rows]; [by intros k x k1 [= _ <-]|]. unfold Manager.the_proc, fmt.
  keeps_solve. apply memory_of_reads.
Qed.
Lemma print_process_list_reads : reads print_process_list.
Proof. unfold reads, print_process_list. keeps_solve. apply print_rows_reads. Qed.
Lemma print_process_info_reads pid : reads (print_process_info pid).
Proof. unfold reads, print_process_info, print_info, Inner.data, Inner.vm. keeps_solve. Qed.
End ops.
End Listing.
