(* ===== verification/Processors.v ===== *)
(** * Processors

    Models [pkg/kernel/src/proc/processor.rs]: an array with the process of every processor, indexed by the number that [cpuid] gives.  The rest of the
    development has only the first one, as the field [processor_pid]; here it is shown that this is what the array comes to. *)

From stdpp Require Import base numbers list gmap.
From S2P Require Import Prelude Bytes X86 Frames Vm Process Listing.

Module Processors.
Definition MAX_CPU_COUNT : nat := 4.
(** [Processor(AtomicU16)]; 0 means no process. *)
Definition Processor : Type := Z.
Definition new : Processor := 0.
Definition EMPTY : Processor := new.
Definition PROCESSORS : list Processor := replicate MAX_CPU_COUNT EMPTY.
Definition is_free (p : Processor) : bool := p =? 0.
Definition store (pid : Z) (p : Processor) : Processor := u16 pid.
Definition load (p : Processor) : option Z := if p =? 0 then None else Some p.

(** [current]: indexing panics out of range. *)
Definition current (apic_id : nat) : ST (list Processor) (nat * Processor) := fun ps =>
  match ps !! apic_id with Some p => Ret ((apic_id, p), ps) | None => Panic end.
Definition set_pid (apic_id : nat) (pid : Z) : ST (list Processor) unit :=
  '(i, p) ← current apic_id; st_modify (fun ps => <[i := store pid p]> ps).
Definition get_pid (apic_id : nat) : ST (list Processor) Z :=
  '(_, p) ← current apic_id; st_lift (unwrap (load p)).
(** The processors that are not free; [unwrap] of each one's process. *)
Fixpoint print_from (i : nat) (ps : list Processor) : outcome (list (nat * Z)) :=
  match ps with
  | [] => Ret []
  | p :: ps => if is_free p then print_from (S i) ps else pid ← unwrap (load p); rest ← print_from (S i) ps; Ret ((i, pid) :: rest)
  end.
Definition print_processors (ps : list Processor) : outcome (list (nat * Z)) := print_from 0 ps.

Lemma print_from_run ps : forall i, exists l, print_from i ps = Ret l /\ forall j pid, (j, pid) ∈ l <-> exists n, ps !! n = Some pid /\ pid <> 0 /\ j = (i + n)%nat.
Proof.
  induction ps as [|p ps IH]; intros i; cbn [print_from].
  { exists []. split; [done|]. intros j pid. rewrite elem_of_nil. split; [done|]. by intros (n & Hn & _). }
  unfold is_free, load. destruct (IH (S i)) as (l & E & Hl). destruct (Z.eqb_spec p 0) as [Hp|Hp].
  - exists l. split; [done|]. intros j pid. rewrite Hl. split; [intros (n & Hn & H0 & ->); exists (S n); split; [done|]; split; [done|lia]|].
    intros ([|n] & Hn & H0 & ->); [by injection Hn as <-|]. exists n. split; [done|]. split; [done|lia].
  - cbn [unwrap mbind outcome_bind]. rewrite E. eexists. split; [reflexivity|]. intros j pid. rewrite elem_of_cons, Hl. split.
    + intros [[= -> ->]|(n & Hn & H0 & ->)]; [exists 0%nat; split; [done|]; split; [done|lia]|exists (S n); split; [done|]; split; [done|lia]].
    + intros ([|n] & Hn & H0 & ->); [left; injection Hn as <-; f_equal; lia|right; exists n; split; [done|]; split; [done|lia]].
Qed.
End Processors.
Import Processors.

(** The array when only the first processor runs. *)
Definition first_only {M} (s : Sys M) : list Processor := [processor_pid s; EMPTY; EMPTY; EMPTY].
(** One processor is enough.  A processor that is not in the array panics.  A process number that a processor stores is the one that it reads, and no
    other processor's changes.  The list shows exactly the processors that are not free.  As long as the first one alone runs, the operations are those
    of the field [processor_pid]. *)
Theorem processors_array (M : Type) (ps : list Processor) (i : nat) pid : 0 < pid < 2 ^ 16 ->
  ((length ps <= i)%nat -> set_pid i pid ps = Panic /\ get_pid i ps = Panic) /\
  ((i < length ps)%nat -> exists ps', set_pid i pid ps = Ret (tt, ps') /\ get_pid i ps' = Ret (pid, ps') /\
     forall j, j <> i -> ps' !! j = ps !! j) /\
  (exists l, print_processors ps = Ret l /\ forall j p, (j, p) ∈ l <-> ps !! j = Some p /\ p <> 0) /\
  (forall s : Sys M, set_pid 0 pid (first_only s) = Ret (tt, first_only (set_processor_pid pid s)) /\
     get_pid 0 (first_only s) = (p ← Vm.get_pid s; Ret (p.1, first_only p.2)) /\
     print_processors (first_only s) = Ret (Listing.print_processors s)).
Proof.
  intros Hp. assert (Hs : forall p, store pid p = pid) by (intros p; apply wrap_small; lia). split; [|split; [|split]].
  - intros Hi. unfold set_pid, get_pid, current, mbind, ST_bind. by rewrite (lookup_ge_None_2 ps i Hi).
  - intros Hi. destruct (lookup_lt_is_Some_2 ps i Hi) as [p Hip]. exists (<[i := pid]> ps). unfold set_pid, get_pid, current, mbind, ST_bind. rewrite Hip, Hs. split; [done|].
    rewrite list_lookup_insert_eq by done. unfold load. rewrite (proj2 (Z.eqb_neq _ _)) by lia. split; [done|]. intros j Hj. by apply list_lookup_insert_ne.
  - destruct (print_from_run ps 0) as (l & E & Hl). exists l. split; [exact E|]. intros j p. rewrite Hl. split; [by intros (n & Hn & H0 & ->)|]. intros [Hj H0]. by exists j.
  - intros s. unfold set_pid, get_pid, Vm.get_pid, Listing.print_processors, print_processors, first_only. split; [|split].
    + unfold mbind, ST_bind, current. cbn -[store]. by rewrite Hs.
    + unfold mbind, ST_bind, current, load. cbn. by destruct (processor_pid s =? 0).
    + cbn. unfold load, is_free. by destruct (processor_pid s =? 0).
Qed.
Lemma processors_array_witness : exists ps', set_pid 2 7 PROCESSORS = Ret (tt, ps') /\ get_pid 2 ps' = Ret (7, ps') /\ set_pid 4 7 PROCESSORS = Panic.
Proof.
  destruct (processors_array unit PROCESSORS 2 7) as (_ & H & _); [lia|]. destruct H as (ps' & H1 & H2 & _); [vm_compute; lia|]. exists ps'. split; [exact H1|]. split; [exact H2|].
  destruct (processors_array unit PROCESSORS 4 7) as (H & _); [lia|]. destruct H as [H _]; [vm_compute; lia|]. exact H.
Defined.
