(* ===== verification/Syscall.v ===== *)
(** * System calls

    Models [pkg/syscall/src/lib.rs], the dispatcher and services of
    [pkg/kernel/src/interrupt/syscall/{mod,service}.rs], the timer and page fault
    entries of [interrupt/{clock,exceptions}.rs], and the user-side wrappers of
    [pkg/lib/src/syscall.rs]. *)

From stdpp Require Import base numbers list gmap.
From S2P Require Import Prelude Bytes Device Str Fat16Name Fat16Entry Fat16Fs Fat16File X86 Frames ElfMap Sync Resource Vm Process Manager Listing.

Inductive Syscall : Type :=
| Read | Write | Open | Close | Brk | GetPid | Fork | Spawn | Exit | WaitPid | Sem
| ListDir | Time | PrintInfo | ListApp | Stat | Allocate | Deallocate | Unknown.
Global Instance Syscall_eq_dec : EqDecision Syscall.
Proof. solve_decision. Defined.

(** The discriminants, and [From<usize>] (anything else is [Unknown]). *)
Definition syscall_number (c : Syscall) : Z :=
  match c with
  | Read => 0 | Write => 1 | Open => 2 | Close => 3 | Brk => 12 | GetPid => 39
  | Fork => 58 | Spawn => 59 | Exit => 60 | WaitPid => 61 | Sem => 64
  | ListDir => 65521 | Time => 65529 | PrintInfo => 65530 | ListApp => 65531
  | Stat => 65532 | Allocate => 65533 | Deallocate => 65534 | Unknown => 65535
  end.
Definition all_syscalls : list Syscall :=
  [Read; Write; Open; Close; Brk; GetPid; Fork; Spawn; Exit; WaitPid; Sem; ListDir; Time;
   PrintInfo; ListApp; Stat; Allocate; Deallocate; Unknown].
Definition Syscall_from (n : Z) : Syscall :=
  default Unknown (List.find (fun c => syscall_number c =? n) all_syscalls).

Record SyscallArgs : Type := { syscall : Syscall; arg0 : Z; arg1 : Z; arg2 : Z }.

(** What the kernel uses of the platform: the allocator of the shared user heap
    ([linked_list_allocator], started with an address and a size) with the [Layout] a pointer leads to (size and
    alignment), and the UEFI clock. *)
Class Platform (M : Type) : Type := {
  heap_init : M -> Z -> Z -> M;
  layout_at : M -> Z -> Z * Z;
  allocate_first_fit : M -> Z * Z -> result Z unit * M;
  heap_deallocate : M -> Z -> Z * Z -> M;
  get_time : M -> Z * Z * Z;
}.

Module Service.
Section ops.
Context {M D Q : Type} {L : Log} {X : X86} {MM : Machine M} {PF : Platform M} {BD : BlockDevice D}
  {C : Chrono} {BF : Bitflags} {UT : UnicodeTable} {AQ : ArrayQueue Q} {SE : Selectors}
  {EP : ElfParser}.
Abbreviation K := (ST (Kernel M D Q)).

(** [slice::from_raw_parts]: the bytes at a user address. *)
Definition user_bytes (ptr len : Z) : K bytes :=
  k ← st_get; mret (read_memory (machine (sys k)) ptr len).
Definition put_user_bytes (ptr : Z) (l : bytes) : K unit :=
  on_sys (st_modify (fun s => set_machine (write_memory (machine s) ptr l) s)).
(** [from_utf8_unchecked]: bytes that are not UTF-8 are undefined behaviour, which
    the model takes for a panic. *)
Definition user_str (ptr len : Z) : K str :=
  b ← user_bytes ptr len; st_lift (unwrap (from_utf8 b)).

(** [fuel] and [units] as in [Proc.spawn]. *)
Definition sys_spawn_process (fuel units : nat) (a : SyscallArgs) : K Z :=
  path ← user_str (arg0 a) (arg1 a);
  ret ← Proc.spawn fuel units path;
  mret (match ret with None => 0 | Some pid => pid end).

Definition sys_write (a : SyscallArgs) : K Z :=
  buf ← user_bytes (arg1 a) (arg2 a);
  n ← Proc.write (u8 (arg0 a)) buf; mret (as_usize n).

Definition sys_read (a : SyscallArgs) : K Z :=
  buf ← user_bytes (arg1 a) (arg2 a);
  r ← Proc.read (u8 (arg0 a)) buf;
  put_user_bytes (arg1 a) r.2;;
  mret (as_usize r.1).

Definition sys_exit_process (a : SyscallArgs) (ctx : ProcessContext) : K ProcessContext :=
  Proc.exit (as_isize (arg0 a)) ctx.

(** [filesystem::ls]: the rows that it prints, unless there is no such directory. *)
Definition ls (fuel : nat) (path : str) : K (option (list DirRow)) :=
  fs ← st_gets rootfs;
  r ← st_lift (Mount.read_dir fuel fs path);
  match r with
  | Err _ => mret None
  | Ok entries => rows ← st_lift (dir_rows entries); mret (Some rows)
  end.
Definition sys_list_dir (fuel : nat) (a : SyscallArgs) : K unit :=
  path ← user_str (arg0 a) (arg1 a); ls fuel path;; mret tt.

Definition sys_wait_pid (a : SyscallArgs) (ctx : ProcessContext) : K ProcessContext :=
  Proc.wait_pid (u16 (arg0 a)) ctx.

(** A null layout pointer panics. *)
Definition sys_allocate (a : SyscallArgs) : K Z :=
  if arg0 a =? 0 then st_panic
  else
    k ← st_get;
    let layout := layout_at (machine (sys k)) (arg0 a) in
    if layout.1 =? 0 then mret 0
    else
      let '(r, m') := allocate_first_fit (machine (sys k)) layout in
      on_sys (st_modify (set_machine m'));;
      mret (match r with Ok ptr => ptr | Err _ => 0 end).

Definition sys_deallocate (a : SyscallArgs) : K unit :=
  if arg1 a =? 0 then st_panic
  else
    k ← st_get;
    let layout := layout_at (machine (sys k)) (arg1 a) in
    if (arg0 a =? 0) || (layout.1 =? 0) then mret tt
    else on_sys (st_modify (set_machine (heap_deallocate (machine (sys k)) (arg0 a) layout))).

(** [&&] is lazy. *)
Definition sys_print_info (a : SyscallArgs) : K Z :=
  alive ← Proc.still_alive (u16 (arg0 a));
  if (alive : bool) then shown ← Listing.print_process_info (u16 (arg0 a)); mret (if (shown : bool) then 0 else -1)
  else mret (-1).
Definition sys_list_process : K unit := Listing.print_process_list;; mret tt.

Definition sys_time : K Z :=
  k ← st_get;
  let '(h, m, s) := get_time (machine (sys k)) in mret (h * 3600 + m * 60 + s).

Definition sys_fork (ctx : ProcessContext) : K ProcessContext := Proc.fork ctx.

Definition sys_sem (a : SyscallArgs) (ctx : ProcessContext) : K ProcessContext :=
  if arg0 a =? 0 then r ← Proc.new_sem (u32 (arg1 a)) (arg2 a); mret (Context.set_rax r ctx)
  else if arg0 a =? 1 then r ← Proc.remove_sem (u32 (arg1 a)); mret (Context.set_rax r ctx)
  else if arg0 a =? 2 then Proc.sem_signal (u32 (arg1 a)) ctx
  else if arg0 a =? 3 then Proc.sem_wait (u32 (arg1 a)) ctx
  else mret (Context.set_rax USIZE_MAX ctx).

Definition sys_brk (a : SyscallArgs) : K Z :=
  if arg0 a =? 0 then Proc.brk None
  else va ← st_lift (VirtAddr_new (arg0 a)); Proc.brk (Some va).

Definition sys_get_pid : K Z := Proc.get_pid.

Definition sys_open_file (fuel : nat) (a : SyscallArgs) : K Z :=
  path ← user_str (arg0 a) (arg1 a); Proc.open_file fuel path.
Definition sys_close_file (a : SyscallArgs) : K bool := Proc.close_file (u8 (arg0 a)).

Definition args_of (ctx : ProcessContext) : SyscallArgs := {|
  syscall := Syscall_from (rax (regs ctx)); arg0 := rdi (regs ctx); arg1 := rsi (regs ctx);
  arg2 := rdx (regs ctx) |}.

(** [context.set_rax(..)] of a service's result. *)
Definition returning (m : K Z) (ctx : ProcessContext) : K ProcessContext :=
  r ← m; mret (Context.set_rax r ctx).

(** [ListApp] only prints. *)
Definition dispatcher (fuel units : nat) (ctx : ProcessContext) : K ProcessContext :=
  let args := args_of ctx in
  match syscall args with
  | Read => returning (sys_read args) ctx
  | Write => returning (sys_write args) ctx
  | GetPid => returning sys_get_pid ctx
  | Brk => returning (r ← sys_brk args; mret (as_usize r)) ctx
  | Spawn => returning (sys_spawn_process fuel units args) ctx
  | Exit => sys_exit_process args ctx
  | WaitPid => sys_wait_pid args ctx
  | Open => returning (sys_open_file fuel args) ctx
  | Close => returning (r ← sys_close_file args; mret (if (r : bool) then 1 else 0)) ctx
  | Stat => sys_list_process;; mret ctx
  | ListApp => mret ctx
  | ListDir => sys_list_dir fuel args;; mret ctx
  | Allocate => returning (sys_allocate args) ctx
  | Deallocate => sys_deallocate args;; mret ctx
  | PrintInfo => returning (r ← sys_print_info args; mret (as_usize r)) ctx
  | Time => returning sys_time ctx
  | Fork => sys_fork ctx
  | Sem => sys_sem args ctx
  | Unknown => mret ctx
  end.

(** ** The other entries into the kernel *)

(** [clock]: the timer interrupt, on the state of the kernel; that it acknowledges the interrupt at
    the controller afterwards ([super::ack]) is in [Interrupts.v]. *)
Definition clock (ctx : ProcessContext) : K ProcessContext := Proc.switch ctx.
(** [page_fault_handler]: a fault that [handle_page_fault] refuses panics. *)
Definition page_fault_handler (addr : Z) (protection_violation : bool) : K unit :=
  ok ← Proc.handle_page_fault addr protection_violation;
  if (ok : bool) then mret tt else st_panic.
(** The serial interrupt delivers a key. *)
Definition key_pressed (key : Z) : K unit :=
  st_modify (fun k => set_input_buf (Input.push_key key (input_buf k)) k).
End ops.
End Service.

(** ** The wrappers of the user library: what they make of the value in [rax] *)
Module User.
Definition sys_write (ret : Z) : option Z := if as_isize ret <? 0 then None else Some ret.
Definition sys_read (ret : Z) : option Z := if as_isize ret <? 0 then None else Some ret.
Definition sys_wait_pid (ret : Z) : Z := as_isize ret.
Definition sys_spawn (ret : Z) : Z := u16 ret.
Definition sys_get_pid (ret : Z) : Z := u16 ret.
Definition sys_print_info (ret : Z) : Z := u16 ret.
Definition sys_time (ret : Z) : Z := ret.
Definition sys_fork (ret : Z) : Z := u16 ret.
Definition sys_new_sem (ret : Z) : bool := ret =? 0.
Definition sys_remove_sem (ret : Z) : bool := ret =? 0.
Definition sys_sem_signal (ret : Z) : bool := ret =? 0.
Definition sys_sem_wait (ret : Z) : bool := ret =? 0.
Definition sys_open_file (ret : Z) : Z := u8 ret.
Definition sys_close_file (ret : Z) : bool := ret =? 0.
Definition BRK_FAILED : Z := USIZE_MAX.
Definition sys_brk (ret : Z) : option Z := if ret =? BRK_FAILED then None else Some ret.
End User.
