(* ===== verification/Demo.v ===== *)
(** * A concrete kernel, for the witnesses

    The parameters of the model (processor, machine, block device, clock, ELF
    parser, key queue) with small concrete values, and the kernel that boots on
    them with the volume of [Fat16Fs.v] mounted at [/]. *)

From stdpp Require Import base numbers list gmap.
From S2P Require Import Prelude Bytes Device Str Fat16Name Fat16Entry Fat16Fs Fat16File X86 Frames ElfMap Sync Resource Vm Process Manager Syscall.

Definition demo_selectors : Selectors := {|
  user_code_selector := 0x33; user_data_selector := 0x2b; user_flags := 0x3200; empty_flags := 0 |}.

(** Every file is the same program: one page of code at [0x1111000]. *)
Definition demo_elf : ElfFile := {|
  elf_input := 0x5000; elf_entry := 0x1111000;
  program_iter := [{| ph_load := Ok true; ph_offset := 0; ph_vaddr := 0x1111000; ph_filesz := 64;
                      ph_memsz := 64; ph_execute := true; ph_write := false |}] |}.
Definition demo_elf_parser : ElfParser := {| ElfFile_new _ := Ok demo_elf |}.
Definition demo_platform : Platform demo_machine := {|
  heap_init m _ _ := m;
  layout_at _ _ := (16, 8);
  allocate_first_fit m _ := (Err tt, m);
  heap_deallocate m _ _ := m;
  get_time _ := (1, 2, 3);
|}.

#[local] Existing Instances demo_log demo_x86 demo_uefi demo_selectors demo_elf_parser demo_platform
  demo_ArrayQueue demo_chrono demo_bitflags demo_unicode.

Definition demo_kernel : Type := Kernel demo_machine MemDisk.t demo_queue.

(** The state before [proc::init]. *)
Definition demo_boot : demo_kernel := {|
  sys := {| machine := demo_mem; frame_alloc := demo_frames; cr3_regs := ∅; heap_ends := ∅;
            physical_offset := 0; processor_pid := 0 |};
  envs := ∅; res_sets := ∅; sem_sets := ∅; pid_counter := 0; processes := ∅;
  ready_queue := []; waiting_processes := ∅; input_buf := Input.INPUT_BUF; console := [];
  rootfs := Mount.mk demo_fs [47] |}.

Definition run_or {S A} (s0 : S) (m : ST S A) : S :=
  match m s0 with Ret (_, s) => s | _ => s0 end.

(** The kernel process alone. *)
Definition demo_started : demo_kernel := run_or demo_boot (Proc.init []).
(** The shell spawned, and running after the first timer interrupt. *)
Definition demo_spawned : demo_kernel := run_or demo_started (Proc.spawn 4 64 demo_a).
Definition demo_ctx : ProcessContext := Context.default.
Definition demo_running : demo_kernel := run_or demo_spawned (Proc.switch demo_ctx).
(** The context of a system call. *)
Definition call_ctx (n a0 a1 a2 : Z) : ProcessContext := {|
  regs := {| r15 := 0; r14 := 0; r13 := 0; r12 := 0; r11 := 0; r10 := 0; r9 := 0; r8 := 0;
             rdi := a0; rsi := a1; rdx := a2; rcx := 0; rbx := 0; rax := n; rbp := 0 |};
  stack_frame := {| instruction_pointer := 0x1111010; code_segment := 0x33; cpu_flags := 0x3200;
                    stack_pointer := 0x3ffeffffff00; stack_segment := 0x2b |} |}.
(** The shell after [fork]: child 3 runs. *)
Definition demo_forked : demo_kernel := run_or demo_running (Proc.fork (call_ctx 58 0 0 0)).
(** The child, after two more timer interrupts. *)
Definition demo_child : demo_kernel := run_or demo_forked (Proc.switch demo_ctx).
(** The parent runs, waits for the child, and the child runs again. *)
Definition demo_parent : demo_kernel := run_or demo_child (Proc.switch demo_ctx).
Definition demo_waiting : demo_kernel :=
  run_or demo_parent (Service.dispatcher 4 64 (call_ctx 61 3 0 0)).
Definition demo_joining : demo_kernel := run_or demo_waiting (Proc.switch demo_ctx).
(** The parent creates semaphore 7 with value 0 and waits for it; the child runs, and
    creates the semaphore again. *)
Definition demo_sem : demo_kernel := run_or demo_parent (Service.dispatcher 4 64 (call_ctx 64 0 7 0)).
Definition demo_blocked : demo_kernel := run_or demo_sem (Service.dispatcher 4 64 (call_ctx 64 3 7 0)).
Definition demo_other : demo_kernel := run_or demo_blocked (Proc.switch demo_ctx).
Definition demo_again : demo_kernel := run_or demo_other (Service.dispatcher 4 64 (call_ctx 64 0 7 1)).
Definition demo_later : demo_kernel := run_or demo_again (Proc.switch demo_ctx).
