(* ===== verification/Abi.v ===== *)
(** * System calls from the side of a program

    Models [pkg/syscall/src/macros.rs] (the instruction [int 0x80] with its registers), the wrappers of [pkg/lib/src/syscall.rs], the output
    half of [pkg/lib/src/io.rs] and [entry!] of [pkg/lib/src/macros.rs], and puts them on top of the trap of [Regs.v] and the dispatcher of
    [Syscall.v]: what a program finds in its registers after a call. *)

From stdpp Require Import base numbers list gmap.
From S2P Require Import Prelude Bytes Device Str Fat16Name Fat16Entry Fat16Fs Fat16File X86 Frames ElfMap Sync Resource Vm Process Regs Manager Syscall Demo.

(** ** The instruction *)
(** The [in(..)] operands of [asm!]. *)
Definition load (ins : list (reg * Z)) (s : cpu) : cpu :=
  {| gpr := fold_left (fun g '(r, v) q => if decide (q = r) then v else g q) ins (gpr s);
     rsp := rsp s; rip := rip s; cs := cs s; rflags := rflags s; ss := ss s; mem := mem s |}.
(** [int 0x80] has two bytes. *)
Definition past_int (s : cpu) : cpu :=
  {| gpr := gpr s; rsp := rsp s; rip := u64 (rip s + 2); cs := cs s; rflags := rflags s; ss := ss s; mem := mem s |}.

Section asm.
Context {W : Type} (handler : ProcessContext -> ST W ProcessContext) (clobber : cpu -> reg -> Z) (scratch : cpu -> Z -> Z) (top : Z).
Definition int80 (ins : list (reg * Z)) (s : cpu) : ST W (Z * cpu) :=
  s' ← trap handler clobber scratch top (past_int (load ins s)); mret (gpr s' RAX, s').
Definition syscall0 (n : Syscall) : cpu -> ST W (Z * cpu) := int80 [(RAX, syscall_number n)].
Definition syscall1 (n : Syscall) (arg0 : Z) : cpu -> ST W (Z * cpu) := int80 [(RAX, syscall_number n); (RDI, arg0)].
Definition syscall2 (n : Syscall) (arg0 arg1 : Z) : cpu -> ST W (Z * cpu) :=
  int80 [(RAX, syscall_number n); (RDI, arg0); (RSI, arg1)].
Definition syscall3 (n : Syscall) (arg0 arg1 arg2 : Z) : cpu -> ST W (Z * cpu) :=
  int80 [(RAX, syscall_number n); (RDI, arg0); (RSI, arg1); (RDX, arg2)].
(** [syscall!]; there is no case for more than three arguments. *)
Definition syscall_macro (n : Syscall) (args : list Z) (s : cpu) : ST W (Z * cpu) :=
  match args with
  | [] => syscall0 n s
  | [a1] => syscall1 n (u64 a1) s
  | [a1; a2] => syscall2 n (u64 a1) (u64 a2) s
  | [a1; a2; a3] => syscall3 n (u64 a1) (u64 a2) (u64 a3) s
  | _ => st_panic
  end.
End asm.

(** ** The library *)
Module Lib.
Section wrappers.
(** What [syscall!] does to the state of the world. *)
Context {W : Type} (call : Syscall -> list Z -> ST W Z).
Definition sys_write (fd ptr len : Z) : ST W (option Z) := ret ← call Write [fd; ptr; len]; mret (User.sys_write ret).
Definition sys_read (fd ptr len : Z) : ST W (option Z) := ret ← call Read [fd; ptr; len]; mret (User.sys_read ret).
Definition sys_wait_pid (pid : Z) : ST W Z := ret ← call WaitPid [pid]; mret (User.sys_wait_pid ret).
Definition sys_list_app : ST W unit := _ ← call ListApp []; mret tt.
Definition sys_list_dir (ptr len : Z) : ST W unit := _ ← call ListDir [ptr; len]; mret tt.
Definition sys_stat : ST W unit := _ ← call Stat []; mret tt.
Definition sys_allocate (layout : Z) : ST W Z := call Allocate [layout].
Definition sys_deallocate (ptr layout : Z) : ST W Z := call Deallocate [ptr; layout].
Definition sys_spawn (ptr len : Z) : ST W Z := ret ← call Spawn [ptr; len]; mret (User.sys_spawn ret).
Definition sys_get_pid : ST W Z := ret ← call GetPid []; mret (User.sys_get_pid ret).
(** [unreachable!] after the call. *)
Definition sys_exit {A} (code : Z) : ST W A := _ ← call Exit [code]; st_panic.
Definition sys_print_info (pid : Z) : ST W Z := ret ← call PrintInfo [pid]; mret (User.sys_print_info ret).
Definition sys_time : ST W Z := ret ← call Time []; mret (User.sys_time ret).
Definition sys_fork : ST W Z := ret ← call Fork []; mret (User.sys_fork ret).
Definition sys_new_sem (key value : Z) : ST W bool := ret ← call Sem [0; key; value]; mret (User.sys_new_sem ret).
Definition sys_remove_sem (key : Z) : ST W bool := ret ← call Sem [1; key]; mret (User.sys_remove_sem ret).
Definition sys_sem_signal (key : Z) : ST W bool := ret ← call Sem [2; key]; mret (User.sys_sem_signal ret).
Definition sys_sem_wait (key : Z) : ST W bool := ret ← call Sem [3; key]; mret (User.sys_sem_wait ret).
Definition sys_open_file (ptr len : Z) : ST W Z := ret ← call Open [ptr; len]; mret (User.sys_open_file ret).
Definition sys_close_file (fd : Z) : ST W bool := ret ← call Close [fd]; mret (User.sys_close_file ret).
Definition sys_brk (addr : option Z) : ST W (option Z) := ret ← call Brk [default 0 addr]; mret (User.sys_brk ret).

(** [Duration - Duration] panics when the result is negative. *)
Definition duration_sub (a b : Z) : outcome Z := if b <=? a then Ret (a - b) else Panic.
Fixpoint sleep_loop (fuel : nat) (start dur current : Z) : ST W unit :=
  match fuel with
  | O => fun _ => Timeout
  | S fuel =>
      d ← st_lift (duration_sub current start);
      if d <? dur then current ← sys_time; sleep_loop fuel start dur current else mret tt
  end.
Definition sleep (fuel : nat) (secs : Z) : ST W unit := start ← sys_time; sleep_loop fuel start secs start.

Definition Stdout_write (ptr len : Z) : ST W unit := _ ← sys_write 1 ptr len; mret tt.
Definition Stderr_write (ptr len : Z) : ST W unit := _ ← sys_write 2 ptr len; mret tt.
(** [entry!]: [_start]. *)
Definition start {A} (init : ST W unit) (main : ST W Z) : ST W A := init;; ret ← main; sys_exit ret.
End wrappers.
End Lib.

(** ** [sleep] *)
Section sleep.
(** The clock, one reading after the other. *)
Context (t : nat -> Z).
Definition clock_call (_ : Syscall) (_ : list Z) : ST nat Z := fun i => Ret (t i, S i).
Lemma sleep_loop_until dur st m : forall fuel j,
  (forall i, (j <= i < j + m)%nat -> st <= t i < st + dur) -> (m < fuel)%nat ->
  exists fuel', Lib.sleep_loop clock_call fuel st dur (t j) (S j) = Lib.sleep_loop clock_call (S fuel') st dur (t (j + m)%nat) (S (j + m)).
Proof.
  induction m as [|m IH]; intros fuel j Hi Hf.
  - rewrite Nat.add_0_r. destruct fuel as [|fuel]; [lia|]. by exists fuel.
  - destruct fuel as [|fuel]; [lia|]. destruct (IH fuel (S j)) as [f' Hf']; [intros i ?; apply Hi; lia|lia|]. exists f'.
    replace (j + S m)%nat with (S j + m)%nat by lia. rewrite <- Hf'. pose proof (Hi j ltac:(lia)). cbn [Lib.sleep_loop]. unfold Lib.duration_sub.
    rewrite (proj2 (Z.leb_le _ _)) by lia. rewrite st_lift_bind. by rewrite (proj2 (Z.ltb_lt _ _)) by lia.
Qed.
(** [sleep] returns at the first reading that is [secs] seconds after the first one, as long as the clock was never behind it. *)
Theorem sleep_returns secs m fuel j :
  (forall i, (j <= i < j + m)%nat -> t j <= t i < t j + secs) -> 0 <= secs -> t j + secs <= t (j + m)%nat -> (m < fuel)%nat ->
  Lib.sleep clock_call fuel secs j = Ret (tt, S (j + m)).
Proof.
  intros Hi Hs Hm Hf. change (Lib.sleep_loop clock_call fuel (t j) secs (t j) (S j) = Ret (tt, S (j + m))).
  destruct (sleep_loop_until secs (t j) m fuel j Hi Hf) as [f' ->]. cbn [Lib.sleep_loop]. unfold Lib.duration_sub.
  rewrite (proj2 (Z.leb_le _ _)), st_lift_bind by lia. by rewrite (proj2 (Z.ltb_ge _ _)) by lia.
Qed.
(** The clock is the time of day: a program that sleeps over midnight panics at the first reading of the next day... *)
Theorem sleep_panics_at_midnight secs m fuel j :
  (forall i, (j <= i < j + m)%nat -> t j <= t i < t j + secs) -> t (j + m)%nat < t j -> (m < fuel)%nat ->
  Lib.sleep clock_call fuel secs j = Panic.
Proof.
  intros Hi Hm Hf. change (Lib.sleep_loop clock_call fuel (t j) secs (t j) (S j) = Panic).
  destruct (sleep_loop_until secs (t j) m fuel j Hi Hf) as [f' ->]. cbn [Lib.sleep_loop]. unfold Lib.duration_sub.
  by rewrite (proj2 (Z.leb_gt _ _)) by lia.
Qed.
(** ... and whatever the readings are, it never returns. *)
Theorem sleep_over_midnight secs : (forall i, 0 <= t i < 86400) ->
  forall j fuel r, 86400 <= t j + secs -> Lib.sleep clock_call fuel secs j <> Ret r.
Proof.
  intros Hd j fuel r Hs. change (Lib.sleep_loop clock_call fuel (t j) secs (t j) (S j) <> Ret r).
  cut (forall c i, c < 86400 -> Lib.sleep_loop clock_call fuel (t j) secs c i <> Ret r); [intros H; apply H, Hd|].
  induction fuel as [|fuel IH]; intros c i Hc; [done|].
  cbn [Lib.sleep_loop]. unfold Lib.duration_sub. destruct (Z.leb_spec (t j) c); [|done]. rewrite st_lift_bind.
  rewrite (proj2 (Z.ltb_lt _ _)) by lia. apply IH, Hd.
Qed.
End sleep.

(** ** The calls of the kernel *)
Section abi.
Context {M D Q : Type} {L : Log} {X : X86} {MM : Machine M} {PF : Platform M} {BD : BlockDevice D}
  {C : Chrono} {BF : Bitflags} {UT : UnicodeTable} {AQ : ArrayQueue Q} {SE : Selectors}
  {EP : ElfParser}.
Abbreviation Kern := (Kernel M D Q).
Context (clobber : cpu -> reg -> Z) (scratch : cpu -> Z -> Z) (fuel units : nat).
Definition user_call (top : Z) : Syscall -> list Z -> cpu -> ST Kern (Z * cpu) :=
  syscall_macro (Service.dispatcher fuel units) clobber scratch top.

(** The registers of a call: the ones for the number and for the arguments. *)
Definition operands (n : Syscall) (args : list Z) : list (reg * Z) := (RAX, syscall_number n) :: zip [RDI; RSI; RDX] (u64 <$> args).
(** The context in which a call with these arguments enters the kernel. *)
Definition entered (n : Syscall) (args : list Z) (s : cpu) : ProcessContext := context_of (past_int (load (operands n args) s)).
Lemma user_call_int80 top n args s : (length args <= 3)%nat ->
  user_call top n args s = int80 (Service.dispatcher fuel units) clobber scratch top (operands n args) s.
Proof. intros Hl. destruct args as [|a [|b [|c [|d args]]]]; try done. cbn in Hl. lia. Qed.

Lemma result_in_rax {W} (m : ST W cpu) (b : ST W ProcessContext) w : (s' ← m; mret (context_of s')) w = b w ->
  (r ← (s' ← m; mret (gpr s' RAX, s')); mret (r.1, context_of r.2)) w = (c ← b; mret (rax (regs c), c)) w.
Proof. unfold mbind, ST_bind. intros <-. by destruct (m w) as [[s' w']| |]. Qed.

(** The calls that may go on with another process. *)
Definition switching (n : Syscall) : bool := match n with Exit | WaitPid | Fork | Sem => true | _ => false end.
(** The calls whose result is not put into [rax]. *)
Definition silent (n : Syscall) : bool := match n with Stat | ListApp | ListDir | Deallocate | Unknown => true | _ => false end.
Lemma returning_inv (m : ST Kern Z) c k c' k' : Service.returning m c k = Ret (c', k') -> exists r, c' = Context.set_rax r c.
Proof. intros (r & k1 & _ & [= <- _])%st_bind_inv. by exists r. Qed.
Lemma dispatcher_answers c k c' k' : switching (syscall (Service.args_of c)) = false -> Service.dispatcher fuel units c k = Ret (c', k') ->
  if silent (syscall (Service.args_of c)) then c' = c else exists r, c' = Context.set_rax r c.
Proof.
  intros Hs. unfold Service.dispatcher. destruct (syscall (Service.args_of c)); try discriminate; cbn [silent];
    try apply returning_inv; try (intros [= <- _]; reflexivity); intros (u & k1 & _ & [= <- _])%st_bind_inv; reflexivity.
Qed.
Lemma user_call_run top n args s k : 216 <= top < 2 ^ 64 -> (length args <= 3)%nat ->
  (r ← user_call top n args s; mret (r.1, context_of r.2)) k =
  (c ← Service.dispatcher fuel units (entered n args s); mret (rax (regs c), c)) k.
Proof.
  intros Ht Hl. rewrite user_call_int80 by exact Hl. unfold int80, entered.
  apply result_in_rax, (trap_context (Service.dispatcher fuel units) clobber scratch top (past_int (load (operands n args) s)) k Ht).
Qed.
Lemma entered_args n args s : (length args <= 3)%nat -> Service.args_of (entered n args s) =
  {| syscall := n; arg0 := default (gpr s RDI) (u64 <$> args !! 0%nat); arg1 := default (gpr s RSI) (u64 <$> args !! 1%nat);
     arg2 := default (gpr s RDX) (u64 <$> args !! 2%nat) |}.
Proof.
  intros Hl. destruct args as [|a [|b [|c [|d args]]]]; [..|cbn in Hl; lia]; destruct n; reflexivity.
Qed.
(** C11: The calling convention.  [syscall!] with at most three arguments enters the dispatcher with the call's number and its arguments
    (the registers of missing arguments are what they were), the call returns exactly when the dispatcher does, in the kernel state that it
    leaves, and the processor is then in the context that it leaves, whose [rax] is the result.  For a call that does not change the process,
    the program goes on after the instruction with its stack, its flags and all its registers but [rax] unchanged, as the operands of
    [asm!] promise the compiler, and the calls that report nothing leave the number of the call in [rax]. *)
Theorem syscall_abi top n args s k : 216 <= top < 2 ^ 64 -> (length args <= 3)%nat ->
  Service.args_of (entered n args s) =
    {| syscall := n; arg0 := default (gpr s RDI) (u64 <$> args !! 0%nat); arg1 := default (gpr s RSI) (u64 <$> args !! 1%nat);
       arg2 := default (gpr s RDX) (u64 <$> args !! 2%nat) |} /\
  (r ← user_call top n args s; mret (r.1, context_of r.2)) k =
    (c ← Service.dispatcher fuel units (entered n args s); mret (rax (regs c), c)) k /\
  (switching n = false -> forall r s' k', user_call top n args s k = Ret (r, s', k') ->
     (forall q, q <> RAX -> gpr s' q = gpr (load (operands n args) s) q) /\ gpr s' RAX = r /\
     rip s' = u64 (rip s + 2) /\ rsp s' = rsp s /\ rflags s' = rflags s /\ cs s' = cs s /\ ss s' = ss s /\
     (silent n = true -> r = syscall_number n)).
Proof.
  intros Ht Hl. pose proof (entered_args n args s Hl) as Ha. pose proof (user_call_run top n args s k Ht Hl) as Hr. split; [exact Ha|]. split; [exact Hr|].
  intros Hs r s' k' E. unfold mbind, ST_bind in Hr. rewrite E in Hr. destruct (Service.dispatcher _ _ _ k) as [[c k1]| |] eqn:Ed; [|discriminate..].
  cbn in Hr. injection Hr as Er Ec _. apply dispatcher_answers in Ed; [|by rewrite Ha]. rewrite Ha in Ed. cbn [syscall] in Ed.
  assert (Hc : exists v, context_of s' = Context.set_rax v (entered n args s) /\ (silent n = true -> v = syscall_number n)).
  { destruct (silent n); [|destruct Ed as [v ->]; by exists v]. exists (syscall_number n). rewrite Ec, Ed. split; [|done].
    unfold entered, Context.set_rax, context_of. cbn -[u64]. do 2 f_equal. destruct args as [|? [|? [|? [|? ?]]]]; cbn in Hl |- *; try lia; reflexivity. }
  destruct Hc as (v & Hc & Hv). rewrite <- Ec, Hc in Er. cbn in Er. subst r. unfold context_of in Hc. injection Hc. intros.
  split; [intros [] Hq; solve [exact (False_ind _ (Hq eq_refl))|assumption]|]. by repeat split.
Qed.
End abi.

#[local] Existing Instances demo_log demo_x86 demo_uefi demo_selectors demo_elf_parser demo_platform
  demo_ArrayQueue demo_chrono demo_bitflags demo_unicode.
(** The shell of the demonstration kernel asks for the time, and gets it. *)
Definition demo_time : outcome (Z * cpu * demo_kernel) :=
  user_call (M := demo_machine) (fun _ _ => 0) (fun _ _ => 0) 4 64 0x3008 Time [] demo_cpu demo_running.
Lemma demo_time_run : match demo_time with Ret (r, _, _) => r =? 3723 | _ => false end = true.
Proof. vm_compute. reflexivity. Qed.
Lemma syscall_abi_witness :
  exists s' k', demo_time = Ret (3723, s', k') /\ gpr s' RBX = 9 /\ rip s' = 0x1236 /\
    Service.args_of (entered Time [] demo_cpu) = {| syscall := Time; arg0 := 9; arg1 := 9; arg2 := 9 |}.
Proof.
  destruct (syscall_abi (M := demo_machine) (fun _ _ => 0) (fun _ _ => 0) 4 64 0x3008 Time [] demo_cpu demo_running) as (H1 & _ & H3); [lia|cbn; lia|].
  pose proof demo_time_run as Hr. unfold demo_time in *. destruct (user_call _ _ _ _ _ _ _ _ _) as [[[r s'] k']| |]; [|discriminate Hr..]. apply Z.eqb_eq in Hr. subst r.
  destruct (H3 eq_refl 3723 s' k' eq_refl) as (Hg & _ & Hi & _). exists s', k'. split; [reflexivity|]. split; [rewrite Hg by discriminate; reflexivity|]. split; [exact Hi|exact H1].
Defined.
