(* ===== verification/Console.v ===== *)
(** * Lines from the console

    Models what turns keys into lines: [get_line] of the kernel
    ([pkg/kernel/src/drivers/input.rs]) and [Stdin::read_line] of the user library
    ([pkg/lib/src/io.rs]).  Both wait for keys by polling, the first the key buffer
    and the second the system call [Read]; the keys arrive by interrupts in between,
    so a run is described by the keys that arrive before each poll. *)

From stdpp Require Import base numbers list gmap.
From S2P Require Import Prelude Bytes Device Str Fat16Name Fat16Entry Fat16Fs Fat16File Resource Syscall.

(** [String::pop], without the character it gives. *)
Definition pop (s : str) : str := take (pred (length s)) s.
(** [char::from_u32] *)
Definition is_scalar (c : Z) : bool := (0 <=? c) && (c <? 0xD800) || (0xE000 <=? c) && (c <=? 0x10FFFF).
Definition from_u32 (c : Z) : option Z := if is_scalar c then Some c else None.

(** The keys that arrive before each poll, and the buffer. *)
Definition arrivals : Type := list (list Z).

(** ** [get_line] *)
Module KernelLine.
Section ops.
Context {Q : Type} `{ArrayQueue Q}.
(** What is still to come, the buffer, and the text that was printed. *)
Record t : Type := mk { sched : arrivals; buf : Q; shown : str }.

Definition arrive (keys : list Z) (q : Q) : Q := fold_left (fun q k => Input.push_key k q) keys q.

(** The loop polls until there is a key; [Timeout] when the run described ends first. *)
Fixpoint pop_key_loop (s : arrivals) (q : Q) : outcome (Z * (arrivals * Q)) :=
  match s with
  | [] => Timeout
  | keys :: s =>
      match Input.try_pop_key (arrive keys q) with
      | (Some data, q) => Ret (data, (s, q))
      | (None, q) => pop_key_loop s q
      end
  end.
Definition pop_key : ST t Z := fun x =>
  '(data, (s, q)) ← pop_key_loop (sched x) (buf x); Ret (data, mk s q (shown x)).
Definition print (text : str) : ST t unit := st_modify (fun x => mk (sched x) (buf x) (shown x ++ text)).

Definition is_utf8 (ch : Z) : bool :=
  (Z.land ch 0x80 =? 0) || (Z.land ch 0xE0 =? 0xC0) || (Z.land ch 0xF0 =? 0xE0) || (Z.land ch 0xF8 =? 0xF0).
Definition to_utf8 (ch : Z) : ST t Z :=
  if Z.land ch 0x80 =? 0 then mret ch
  else if Z.land ch 0xE0 =? 0xC0 then
    k ← pop_key;
    mret (Z.lor (Z.shiftl (Z.land ch 0x1F) 6) (Z.land k 0x3F))
  else if Z.land ch 0xF0 =? 0xE0 then
    k1 ← pop_key; k2 ← pop_key;
    mret (Z.lor (Z.lor (Z.shiftl (Z.land ch 0x0F) 12) (Z.shiftl (Z.land k1 0x3F) 6)) (Z.land k2 0x3F))
  else if Z.land ch 0xF8 =? 0xF0 then
    k1 ← pop_key; k2 ← pop_key; k3 ← pop_key;
    mret (Z.lor (Z.lor (Z.lor (Z.shiftl (Z.land ch 0x07) 18) (Z.shiftl (Z.land k1 0x3F) 12))
                   (Z.shiftl (Z.land k2 0x3F) 6)) (Z.land k3 0x3F))
  else mret 0.

(** One round of the loop: [Some line] when the line is complete. *)
Definition round (line : str) : ST t (str + str) :=
  ch ← pop_key;
  if ch =? 13 then print [10];; mret (inr line)
  else if ((ch =? 0x08) || (ch =? 0x7F)) && negb (bool_decide (line = [])) then
    print [8; 32; 8];; mret (inl (pop line))
  else if is_utf8 ch then
    c ← to_utf8 ch;
    utf_char ← st_lift (unwrap (from_u32 c));
    print [utf_char];; mret (inl (line ++ [utf_char]))
  else print [ch];; mret (inl (line ++ [ch])).
Fixpoint get_line_loop (fuel : nat) (line : str) : ST t str :=
  match fuel with
  | O => st_lift Timeout
  | S fuel =>
      r ← round line;
      match r with inr line => mret line | inl line => get_line_loop fuel line end
  end.
(** Every round polls at least once. *)
Definition get_line : ST t str := fun x => get_line_loop (S (length (sched x))) [] x.
End ops.
Arguments t : clear implicits.
Arguments mk {Q} _ _ _.
Arguments sched {Q} _.
Arguments buf {Q} _.
Arguments shown {Q} _.
End KernelLine.

(** ** [read_line] *)
Module UserLine.
Section ops.
Context {D Q : Type} `{BlockDevice D, Chrono, Bitflags, ArrayQueue Q}.
(** What is still to come, and what the kernel keeps of the console: the
    descriptors of the process, the key buffer and the output. *)
Record t : Type := mk { sched : arrivals; files : gmap Z (Resource D); buf : Q; shown : list Output }.

(** The system calls, as the wrappers of the library see them. *)
Definition sys_write (fd : Z) (text : bytes) : ST t (option Z) := fun x =>
  let '(r, o) := ResSet.write fd (files x) (shown x) text in
  Ret (User.sys_write (as_usize r), mk (sched x) (files x) (buf x) o).
Definition sys_read (fd : Z) (b : bytes) : ST t (option Z * bytes) := fun x =>
  match sched x with
  | [] => Timeout
  | keys :: s =>
      '(r, f, q, b) ← ResSet.read fd (files x) (KernelLine.arrive keys (buf x)) b;
      Ret ((User.sys_read (as_usize r), b), mk s f q (shown x))
  end.

(** One byte: [inr] the line when it is complete. *)
Definition on_byte (c : Z) (line : str) : ST t (str + str) :=
  if c =? 13 then sys_write 1 [10];; mret (inr line)
  else if (c =? 0x08) || (c =? 0x7F) then sys_write 1 [8; 32; 8];; mret (inl (pop line))
  else sys_write 1 [c];; mret (inl (line ++ [c])).
(** [for i in 0..n] *)
Fixpoint on_bytes (ixs : list Z) (b : bytes) (line : str) : ST t (str + str) :=
  match ixs with
  | [] => mret (inl line)
  | i :: ixs =>
      c ← st_lift (index b i);
      r ← on_byte c line;
      match r with inr line => mret (inr line) | inl line => on_bytes ixs b line end
  end.
Fixpoint read_line_loop (fuel : nat) (line : str) : ST t str :=
  match fuel with
  | O => st_lift Timeout
  | S fuel =>
      '(ret, b) ← sys_read 0 (replicate 256 0);
      match ret with
      | None => read_line_loop fuel line
      | Some n =>
          r ← on_bytes (seqZ 0 n) b line;
          match r with inr line => mret line | inl line => read_line_loop fuel line end
      end
  end.
Definition read_line : ST t str := fun x => read_line_loop (S (length (sched x))) [] x.
End ops.
Arguments t : clear implicits.
End UserLine.

(** ** Where keys come from *)
Section supply.
Context {Q : Type} `{!ArrayQueue Q, !ArrayQueueLaws Q}.

(** With [n] keys waiting, the keys of [s] never find the buffer full. *)
Fixpoint fits (n : Z) (s : arrivals) : bool :=
  match s with
  | [] => true
  | keys :: s => (n + zlen keys <=? 128) && fits (Z.max 0 (n + zlen keys - 1)) s
  end.
(** The keys [ks] are waiting in [q] or arrive during [s], which goes on long enough after the
    last of them that all can be read. *)
Definition supply (s : arrivals) (q : Q) (ks : list Z) : Prop :=
  queue_capacity q = 128 /\ fits (zlen (queue_contents q)) s = true /\
  queue_contents q ++ concat s = ks /\
  exists s0 n, s = s0 ++ replicate n [] /\ (length ks <= n)%nat.

Lemma arrive_spec keys : forall q : Q, zlen (queue_contents q) + zlen keys <= queue_capacity q ->
  queue_contents (KernelLine.arrive keys q) = queue_contents q ++ keys /\
  queue_capacity (KernelLine.arrive keys q) = queue_capacity q.
Proof.
  unfold KernelLine.arrive, zlen. induction keys as [|k keys IH]; intros q Hq; cbn [fold_left length] in *.
  - by rewrite app_nil_r.
  - destruct (queue_push_spec k q) as (_ & Hc & Hp). unfold zlen in Hc. rewrite bool_decide_false in Hc by lia.
    unfold Input.push_key at 2 4. destruct (IH (queue_push k q).2) as [E1 E2].
    + rewrite Hc, Hp, length_app. cbn [length]. lia.
    + rewrite E1, E2, Hc, Hp, <- app_assoc. done.
Qed.
Lemma poll_supply keys s (q : Q) ks : supply (keys :: s) q ks ->
  exists q', (exists k ks', ks = k :: ks' /\ Input.try_pop_key (KernelLine.arrive keys q) = (Some k, q') /\ supply s q' ks') \/
             (Input.try_pop_key (KernelLine.arrive keys q) = (None, q') /\ supply s q' ks).
Proof.
  intros (Hcap & Hf & Hk & s0 & n & Es & Hn). cbn [fits] in Hf. apply andb_true_iff in Hf as [Hle%Z.leb_le Hf].
  destruct (arrive_spec keys q) as [Ec Ecap]; [lia|].
  destruct (queue_pop_spec (KernelLine.arrive keys q)) as (Hr & Hc & Hp).
  unfold Input.try_pop_key. destruct (queue_pop (KernelLine.arrive keys q)) as [r q']. cbn [fst snd] in *.
  rewrite Ec in Hr, Hc. exists q'. cbn [concat] in Hk. rewrite app_assoc in Hk.
  assert (Hz : zlen (queue_contents q) + zlen keys = zlen (queue_contents q ++ keys)) by (unfold zlen; rewrite length_app; lia).
  rewrite Hz in Hf.
  assert (exists s1 m, s = s1 ++ replicate m [] /\ ((length ks <= m)%nat \/ (length ks <= S m)%nat /\ concat s = [])) as (s1 & m & Es1 & Hm).
  { destruct s0 as [|x s0]; cbn [app] in Es.
    - destruct n as [|n]; [done|]. injection Es as -> ->. exists [], n. split; [done|]. right. split; [lia|].
      clear. by induction n.
    - injection Es as -> ->. exists s0, n. auto. }
  revert Hk Hr Hc Hf. destruct (queue_contents q ++ keys) as [|k l]; cbn [head tail app]; intros Hk -> Hc Hf.
  - right. split; [done|]. repeat split; [congruence|by rewrite Hc|by rewrite Hc|]. exists s1, m. split; [done|].
    destruct Hm as [?|[? Hs]]; [done|]. rewrite <- Hk, Hs. cbn. lia.
  - left. exists k, (l ++ concat s). split; [done|]. split; [done|]. repeat split; [congruence| |by rewrite Hc|].
    + rewrite Hc. replace (zlen l) with (Z.max 0 (zlen (k :: l) - 1)); [done|]. unfold zlen. cbn [length]. lia.
    + exists s1, m. split; [done|]. subst ks. cbn [length] in Hm. lia.
Qed.
Lemma supply_polls s (q : Q) k ks : supply s q (k :: ks) -> s <> [].
Proof. intros (_ & _ & _ & s0 & n & -> & Hn) E. apply app_eq_nil in E as [_ E]. destruct n; cbn in *; [lia|done]. Qed.
Lemma pop_key_loop_supply k ks : forall s (q : Q), supply s q (k :: ks) ->
  exists s' q', KernelLine.pop_key_loop s q = Ret (k, (s', q')) /\ supply s' q' ks /\ (length s' < length s)%nat.
Proof.
  induction s as [|keys s IH]; intros q Hs; [by apply supply_polls in Hs|]. cbn [KernelLine.pop_key_loop length].
  destruct (poll_supply _ _ _ _ Hs) as (q' & [(k' & ks' & E & -> & Hs')|[-> Hs']]).
  - injection E as <- <-. exists s, q'. auto.
  - destruct (IH q' Hs') as (s1 & q1 & -> & H1 & H2). exists s1, q1. auto.
Qed.
Definition supplied (x : KernelLine.t Q) (ks : list Z) : Prop := supply (KernelLine.sched x) (KernelLine.buf x) ks.
(** [x'] is [x] after some polls that printed nothing. *)
Definition polled (x x' : KernelLine.t Q) : Prop :=
  (length (KernelLine.sched x') <= length (KernelLine.sched x))%nat /\ KernelLine.shown x' = KernelLine.shown x.
Lemma pop_key_supply k ks x : supplied x (k :: ks) ->
  exists x', KernelLine.pop_key x = Ret (k, x') /\ supplied x' ks /\ polled x x' /\
    (length (KernelLine.sched x') < length (KernelLine.sched x))%nat.
Proof.
  intros Hs. destruct (pop_key_loop_supply _ _ _ _ Hs) as (s' & q' & E & Hs' & Hl). unfold KernelLine.pop_key. rewrite E.
  exists (KernelLine.mk s' q' (KernelLine.shown x)). repeat split; try apply Hs'; cbn; lia.
Qed.
End supply.

(** ** The encoding of characters *)
Lemma byte_classes b : 0 <= b < 256 ->
  (Z.land b 0x80 =? 0) = (b <? 0x80) /\ (Z.land b 0xE0 =? 0xC0) = ((0xC0 <=? b) && (b <? 0xE0)) /\
  (Z.land b 0xF0 =? 0xE0) = ((0xE0 <=? b) && (b <? 0xF0)) /\ (Z.land b 0xF8 =? 0xF0) = ((0xF0 <=? b) && (b <? 0xF8)).
Proof.
  intros Hb. assert (H : Forall (fun b => (Z.land b 0x80 =? 0) = (b <? 0x80) /\ (Z.land b 0xE0 =? 0xC0) = ((0xC0 <=? b) && (b <? 0xE0)) /\
    (Z.land b 0xF0 =? 0xE0) = ((0xE0 <=? b) && (b <? 0xF0)) /\ (Z.land b 0xF8 =? 0xF0) = ((0xF0 <=? b) && (b <? 0xF8))) (seqZ 0 256)).
  { apply (bool_decide_unpack _). by vm_compute. }
  rewrite Forall_forall in H. apply H, elem_of_seqZ. lia.
Qed.
Lemma lor_add w a b : 0 <= w -> 0 <= b < 2 ^ w -> a mod 2 ^ w = 0 -> Z.lor a b = a + b.
Proof. intros. rewrite Z.lor_comm. by apply (lor_disjoint w). Qed.
Lemma lead_byte w a y : 0 <= w -> 0 <= y < 2 ^ w -> a mod 2 ^ w = 0 -> Z.land (Z.lor a y) (Z.ones w) = y.
Proof.
  intros Hw Hy Ha. rewrite (lor_add w), Z.land_ones by done. rewrite Z.add_mod, Ha, Z.add_0_l, Z.mod_mod by lia.
  apply Z.mod_small. lia.
Qed.
Lemma cont_byte y : Z.land (Z.lor 0x80 (Z.land y 0x3F)) 0x3F = y mod 64.
Proof.
  change 0x3F with (Z.ones 6). rewrite (Z.land_ones y) by lia. apply lead_byte; [lia| |done]. apply Z.mod_pos_bound. lia.
Qed.
(** Putting six bits after [a]. *)
Lemma join_bits w a y : 0 <= w -> 0 <= y < 2 ^ w -> Z.lor (Z.shiftl a w) y = a * 2 ^ w + y.
Proof. intros. rewrite Z.shiftl_mul_pow2 by done. apply (lor_add w); [done|done|]. apply Z.mod_mul. lia. Qed.
Lemma join3 c : Z.lor (Z.lor (Z.shiftl (c / 2 ^ 12) 12) (Z.shiftl (c / 2 ^ 6 mod 64) 6)) (c mod 64) = c.
Proof.
  pose proof (Z.mod_pos_bound (c / 2 ^ 6) 64 ltac:(lia)). pose proof (Z.mod_pos_bound c 64 ltac:(lia)).
  assert (c / 2 ^ 12 = c / 2 ^ 6 / 64) as -> by (rewrite Z.div_div; [done|lia|lia]).
  rewrite (Z.shiftl_mul_pow2 _ 6), join_bits by lia.
  replace (c / 2 ^ 6 / 64 * 2 ^ 12 + c / 2 ^ 6 mod 64 * 2 ^ 6) with (c / 2 ^ 6 * 2 ^ 6) by (pose proof (Z.div_mod (c / 2 ^ 6) 64 ltac:(lia)); lia).
  rewrite <- Z.shiftl_mul_pow2, join_bits by lia. change (2 ^ 6) with 64. pose proof (Z.div_mod c 64 ltac:(lia)). lia.
Qed.
Lemma join4 c : Z.lor (Z.lor (Z.lor (Z.shiftl (c / 2 ^ 18) 18) (Z.shiftl (c / 2 ^ 12 mod 64) 12)) (Z.shiftl (c / 2 ^ 6 mod 64) 6)) (c mod 64) = c.
Proof.
  rewrite <- (join3 c) at 5. f_equal. f_equal. pose proof (Z.mod_pos_bound (c / 2 ^ 12) 64 ltac:(lia)).
  assert (c / 2 ^ 18 = c / 2 ^ 12 / 64) as -> by (rewrite Z.div_div; [done|lia|lia]).
  rewrite (Z.shiftl_mul_pow2 _ 12), join_bits, Z.shiftl_mul_pow2 by lia. pose proof (Z.div_mod (c / 2 ^ 12) 64 ltac:(lia)). lia.
Qed.
Lemma is_scalar_range c : is_scalar c = true -> 0 <= c <= 0x10FFFF.
Proof. unfold is_scalar. rewrite orb_true_iff, !andb_true_iff, !Z.leb_le, !Z.ltb_lt. lia. Qed.

Section decode.
Context {Q : Type} `{!ArrayQueue Q, !ArrayQueueLaws Q}.
Lemma polled_trans (x y z : KernelLine.t Q) : polled x y -> polled y z -> polled x z.
Proof. unfold polled. intros [? E1] [? E2]. rewrite E2. split; [lia|done]. Qed.
Lemma polled_refl (x : KernelLine.t Q) : polled x x.
Proof. done. Qed.

Ltac next_key Hs :=
  match type of Hs with supplied ?x (?k :: ?ks) =>
    let x' := fresh "x" in let E := fresh "E" in let Hs' := fresh "Hs" in let Hp := fresh "Hp" in
    destruct (pop_key_supply _ _ _ Hs) as (x' & E & Hs' & Hp & _); rewrite (st_bind_run _ _ _ _ _ E); clear E Hs; rename Hs' into Hs
  end.

(** Reading the bytes of a character gives the character. *)
Lemma to_utf8_encode c : is_scalar c = true -> exists b bs, encode_utf8 c = b :: bs /\ KernelLine.is_utf8 b = true /\
  (0 <= c < 0x80 /\ b = c \/ 0x80 <= b) /\
  forall (x : KernelLine.t Q) ks, supplied x (bs ++ ks) ->
  exists x', KernelLine.to_utf8 b x = Ret (c, x') /\ supplied x' ks /\ polled x x'.
Proof.
  intros Hc%is_scalar_range. unfold encode_utf8, KernelLine.is_utf8, KernelLine.to_utf8.
  destruct (Z.ltb_spec c 0x80) as [H1|H1].
  { exists c, []. destruct (byte_classes c ltac:(lia)) as (-> & _). rewrite (proj2 (Z.ltb_lt c 0x80)) by lia.
    split; [done|]. split; [done|]. split; [lia|]. intros x ks Hs. exists x. split; [done|]. split; [exact Hs|done]. }
  assert (Hd : forall n, Z.shiftr c n = c / 2 ^ n \/ n < 0) by (intros n; destruct (decide (n < 0)); [by right|left; apply Z.shiftr_div_pow2; lia]).
  destruct (Z.ltb_spec c 0x800) as [H2|H2]; [|destruct (Z.ltb_spec c 0x10000) as [H3|H3]].
  - exists (Z.lor 0xC0 (Z.shiftr c 6)), [Z.lor 0x80 (Z.land c 0x3F)]. split; [done|]. destruct (Hd 6) as [->|]; [|lia].
    assert (Hq : 0 <= c / 2 ^ 6 < 2 ^ 5) by (split; [apply Z.div_pos|apply Z.div_lt_upper_bound]; lia).
    pose proof (lor_add 5 0xC0 _ ltac:(lia) Hq eq_refl) as Eb. destruct (byte_classes (Z.lor 0xC0 (c / 2 ^ 6)) ltac:(lia)) as (-> & -> & _).
    rewrite (proj2 (Z.ltb_ge _ 0x80)), (proj2 (Z.leb_le 0xC0 _)), (proj2 (Z.ltb_lt _ 0xE0)) by lia.
    split; [done|]. split; [lia|]. intros x ks Hs. cbn [app andb] in Hs |- *. next_key Hs. rewrite cont_byte.
    change 0x1F with (Z.ones 5). rewrite lead_byte by (done || lia). rewrite join_bits by (try apply Z.mod_pos_bound; lia).
    replace (c / 2 ^ 6 * 2 ^ 6 + c mod 64) with c by (change (2 ^ 6) with 64; pose proof (Z.div_mod c 64); lia).
    eexists. split; [reflexivity|]. split; [exact Hs|]. by eauto using polled_trans.
  - exists (Z.lor 0xE0 (Z.shiftr c 12)), [Z.lor 0x80 (Z.land (Z.shiftr c 6) 0x3F); Z.lor 0x80 (Z.land c 0x3F)].
    split; [done|]. destruct (Hd 6) as [->|]; [|lia]. destruct (Hd 12) as [->|]; [|lia].
    assert (Hq : 0 <= c / 2 ^ 12 < 2 ^ 4) by (split; [apply Z.div_pos|apply Z.div_lt_upper_bound]; lia).
    pose proof (lor_add 4 0xE0 _ ltac:(lia) Hq eq_refl) as Eb. destruct (byte_classes (Z.lor 0xE0 (c / 2 ^ 12)) ltac:(lia)) as (-> & -> & -> & _).
    rewrite (proj2 (Z.ltb_ge _ 0x80)), (proj2 (Z.ltb_ge _ 0xE0)), andb_false_r, (proj2 (Z.leb_le 0xE0 _)), (proj2 (Z.ltb_lt _ 0xF0)) by lia.
    split; [done|]. split; [lia|]. intros x ks Hs. cbn [app andb] in Hs |- *. next_key Hs. next_key Hs. rewrite !cont_byte.
    change 0x0F with (Z.ones 4). rewrite lead_byte, join3 by (done || lia). eexists. split; [reflexivity|]. split; [exact Hs|]. by eauto using polled_trans.
  - exists (Z.lor 0xF0 (Z.shiftr c 18)), [Z.lor 0x80 (Z.land (Z.shiftr c 12) 0x3F); Z.lor 0x80 (Z.land (Z.shiftr c 6) 0x3F); Z.lor 0x80 (Z.land c 0x3F)].
    split; [done|]. destruct (Hd 6) as [->|]; [|lia]. destruct (Hd 12) as [->|]; [|lia]. destruct (Hd 18) as [->|]; [|lia].
    assert (Hq : 0 <= c / 2 ^ 18 < 2 ^ 3) by (split; [apply Z.div_pos|apply Z.div_lt_upper_bound]; lia).
    pose proof (lor_add 3 0xF0 _ ltac:(lia) Hq eq_refl) as Eb. destruct (byte_classes (Z.lor 0xF0 (c / 2 ^ 18)) ltac:(lia)) as (-> & -> & -> & ->).
    rewrite (proj2 (Z.ltb_ge _ 0x80)), (proj2 (Z.ltb_ge _ 0xE0)), (proj2 (Z.ltb_ge _ 0xF0)), !andb_false_r, (proj2 (Z.leb_le 0xF0 _)), (proj2 (Z.ltb_lt _ 0xF8)) by lia.
    split; [done|]. split; [lia|]. intros x ks Hs. cbn [app andb] in Hs |- *. next_key Hs. next_key Hs. next_key Hs. rewrite !cont_byte.
    change 0x07 with (Z.ones 3). rewrite lead_byte, join4 by (done || lia). eexists. split; [reflexivity|]. split; [exact Hs|]. by eauto using polled_trans.
Qed.

(** ** The lines that are typed *)
(** A typed character, or one of the two erasing keys. *)
Inductive event : Type := Typed (c : Z) | Erase (b : Z).
Definition keys_of (e : event) : list Z := match e with Typed c => encode_utf8 c | Erase b => [b] end.
Definition valid_event (e : event) : bool :=
  match e with
  | Typed c => is_scalar c && negb ((c =? 8) || (c =? 13) || (c =? 127))
  | Erase b => (b =? 8) || (b =? 127)
  end.
(** What an event makes of the line and of what is shown.  With nothing to erase, the
    erasing key itself goes into the line. *)
Definition edit_event (lo : str * str) (e : event) : str * str :=
  let '(line, o) := lo in
  match e with
  | Typed c => (line ++ [c], o ++ [c])
  | Erase b => if bool_decide (line = []) then ([b], o ++ [b]) else (pop line, o ++ [8; 32; 8])
  end.

(** [x] has shown [o] more than [x0], and was polled since. *)
Definition showed (n : nat) (o : str) (x0 x : KernelLine.t Q) : Prop :=
  (length (KernelLine.sched x) + n <= length (KernelLine.sched x0))%nat /\ KernelLine.shown x = KernelLine.shown x0 ++ o.
Lemma encode_ascii c : 0 <= c < 0x80 -> encode_utf8 c = [c].
Proof. intros. unfold encode_utf8. by rewrite (proj2 (Z.ltb_lt c 0x80)) by lia. Qed.

Lemma push_char c (line : str) (x x1 : KernelLine.t Q) ks b bs : encode_utf8 c = b :: bs -> is_scalar c = true ->
  KernelLine.pop_key x = Ret (b, x1) -> polled x x1 -> (length (KernelLine.sched x1) < length (KernelLine.sched x))%nat ->
  supplied x1 (bs ++ ks) -> c <> 13 -> ((c =? 8) || (c =? 127)) && negb (bool_decide (line = [])) = false ->
  exists x', KernelLine.round line x = Ret (inl (line ++ [c]), x') /\ supplied x' ks /\ showed 1 [c] x x'.
Proof.
  intros Ec Hc E1 [_ Hp1] Hl Hs H13 He. destruct (to_utf8_encode c Hc) as (b' & bs' & Ec' & Hu & Hb & Hd).
  rewrite Ec in Ec'. injection Ec' as <- <-. destruct (Hd x1 ks Hs) as (x2 & E2 & Hs2 & Hl2 & Hp2).
  unfold KernelLine.round. rewrite (st_bind_run _ _ _ _ _ E1).
  assert ((b =? 13) = false /\ ((b =? 8) || (b =? 127)) && negb (bool_decide (line = [])) = false) as [-> ->].
  { destruct Hb as [[Hr ->]|Hb]; [split; [by apply Z.eqb_neq|done]|].
    rewrite !(proj2 (Z.eqb_neq b _)) by lia. done. }
  rewrite Hu, (st_bind_run _ _ _ _ _ E2). unfold from_u32. rewrite Hc.
  exists (KernelLine.mk (KernelLine.sched x2) (KernelLine.buf x2) (KernelLine.shown x2 ++ [c])).
  split; [done|]. split; [exact Hs2|]. split; cbn; [lia|]. by rewrite Hp2, Hp1.
Qed.
Lemma round_event e line o (x : KernelLine.t Q) ks : valid_event e = true -> supplied x (keys_of e ++ ks) ->
  exists x' d, KernelLine.round line x = Ret (inl (edit_event (line, o) e).1, x') /\ supplied x' ks /\
    (edit_event (line, o) e).2 = o ++ d /\ showed 1 d x x'.
Proof.
  intros He Hs. destruct e as [c|b]; cbn [keys_of valid_event edit_event fst snd] in *.
  - apply andb_true_iff in He as [Hc Hn]. destruct (to_utf8_encode c Hc) as (b & bs & Eb & _). rewrite Eb in Hs.
    destruct (pop_key_supply _ _ _ Hs) as (x1 & E1 & Hs1 & Hp1 & Hl). rewrite !negb_orb, !andb_true_iff, !negb_true_iff in Hn.
    destruct Hn as [[H8 H13] H127]. destruct (push_char c line x x1 ks b bs) as (x' & E & Hs' & Hw);
      [done..|by apply Z.eqb_neq|by rewrite H8, H127|]. exists x', [c]. auto.
  - cbn [app] in Hs. destruct (pop_key_supply _ _ _ Hs) as (x1 & E1 & Hs1 & Hp1 & Hl).
    assert (Hb : b = 8 \/ b = 127) by (rewrite orb_true_iff, !Z.eqb_eq in He; lia). case_bool_decide as El.
    + subst line. destruct (push_char b [] x x1 ks b []) as (x' & E & Hs' & Hw);
        [apply encode_ascii; lia|by destruct Hb as [->| ->]|done..|lia|by rewrite andb_false_r|]. exists x', [b]. auto.
    + unfold KernelLine.round. rewrite (st_bind_run _ _ _ _ _ E1), (proj2 (Z.eqb_neq b 13)), He, (bool_decide_false _ El) by lia.
      exists (KernelLine.mk (KernelLine.sched x1) (KernelLine.buf x1) (KernelLine.shown x1 ++ [8; 32; 8])), [8; 32; 8]. split; [done|]. split; [exact Hs1|]. split; [done|]. split; cbn; [lia|]. by rewrite (proj2 Hp1).
Qed.
Lemma get_line_loop_events evs : forall fuel line o (x : KernelLine.t Q) rest, Forall (fun e => valid_event e = true) evs ->
  supplied x ((evs ≫= keys_of) ++ 13 :: rest) -> (length (KernelLine.sched x) < fuel)%nat ->
  exists x' d, KernelLine.get_line_loop fuel line x = Ret ((fold_left edit_event evs (line, o)).1, x') /\ supplied x' rest /\
    (fold_left edit_event evs (line, o)).2 = o ++ d /\ showed 0 (d ++ [10]) x x'.
Proof.
  induction evs as [|e evs IH]; intros fuel line o x rest Hv Hs Hf; (destruct fuel as [|fuel]; [lia|]); cbn [KernelLine.get_line_loop fold_left].
  - cbn in Hs. destruct (pop_key_supply _ _ _ Hs) as (x1 & E1 & Hs1 & Hp1 & Hl).
    unfold KernelLine.round. exists (KernelLine.mk (KernelLine.sched x1) (KernelLine.buf x1) (KernelLine.shown x1 ++ [10])), [].
    split; [|split; [exact Hs1|split; [by rewrite app_nil_r|]]].
    + unfold mbind, ST_bind at 1 2. rewrite E1. reflexivity.
    + split; cbn; [lia|]. by rewrite (proj2 Hp1).
  - apply Forall_cons in Hv as [He Hv]. rewrite bind_cons, <- app_assoc in Hs.
    destruct (round_event e line o x _ He Hs) as (x1 & d1 & E1 & Hs1 & Ed1 & Hl1 & Hw1). rewrite (st_bind_run _ _ _ _ _ E1).
    destruct (edit_event (line, o) e) as [line1 o1]. cbn [fst snd] in *.
    destruct (IH fuel line1 o1 x1 rest Hv Hs1 ltac:(lia)) as (x2 & d2 & E2 & Hs2 & Ed2 & Hl2 & Hw2).
    exists x2, (d1 ++ d2). split; [exact E2|]. split; [done|]. split; [by rewrite Ed2, Ed1, app_assoc|].
    split; [lia|]. by rewrite Hw2, Hw1, !app_assoc.
Qed.
End decode.

Section get_line.
Context {Q : Type} `{!ArrayQueue Q, !ArrayQueueLaws Q}.
(** [get_line] returns what was typed, whenever the keys arrive.  For any text of characters in UTF-8 and
    erasing keys, ended by the key 13 and arriving in any portions that the buffer can hold, it
    gives the edited line, has shown the edits and a new line, and leaves the
    keys after the line for the next reader; what it makes of characters alone is the same characters. *)
Theorem get_line_edits evs rest (x : KernelLine.t Q) :
  Forall (fun e => valid_event e = true) evs ->
  supply (KernelLine.sched x) (KernelLine.buf x) ((evs ≫= keys_of) ++ 13 :: rest) ->
  exists line x', KernelLine.get_line x = Ret (line, x') /\
    fold_left edit_event evs ([], KernelLine.shown x) = (line, take (length (KernelLine.shown x') - 1) (KernelLine.shown x')) /\
    last (KernelLine.shown x') = Some 10 /\
    supply (KernelLine.sched x') (KernelLine.buf x') rest /\
    (forall text, evs = Typed <$> text -> line = text).
Proof.
  intros Hv Hs. destruct (get_line_loop_events evs (S (length (KernelLine.sched x))) [] (KernelLine.shown x) x rest Hv Hs ltac:(lia))
    as (x' & d & E & Hs' & Ed & _ & Ew).
  destruct (fold_left edit_event evs ([], KernelLine.shown x)) as [line o] eqn:Ef. cbn [fst snd] in E, Ed.
  exists line, x'. split; [exact E|]. rewrite Ew, app_assoc, last_snoc, length_app, Nat.add_sub, take_app_length, <- Ed.
  split; [done|]. split; [done|]. split; [exact Hs'|]. intros text ->. revert Ef. clear.
  assert (forall text (l o' : str), (fold_left edit_event (Typed <$> text) (l, o')).1 = l ++ text) as H.
  { clear. induction text as [|c text IH]; intros l o; cbn; [by rewrite app_nil_r|]. rewrite IH, <- app_assoc. done. }
  intros Ef. specialize (H text [] (KernelLine.shown x)). rewrite Ef in H. exact H.
Qed.
End get_line.

(** ** [read_line] *)
(** Every key is one character for [read_line]. *)
Definition edit_key (lo : str * str) (k : Z) : str * str :=
  let '(line, o) := lo in
  if (k =? 8) || (k =? 127) then (pop line, o ++ [8; 32; 8]) else (line ++ [k], o ++ [k]).

Section read_line.
Context {D Q : Type} `{!BlockDevice D, !Chrono, !Bitflags, !ArrayQueue Q, !ArrayQueueLaws Q}.
Implicit Types x : UserLine.t D Q _.

(** The standard descriptors are those a process starts with. *)
Definition stdio x : Prop :=
  UserLine.files x !! 0 = Some (ResConsole Stdin) /\ UserLine.files x !! 1 = Some (ResConsole Stdout).
Definition text_of (o : list Output) : str := o ≫= out_bytes.

Lemma sys_read_supply x ks keys s : stdio x -> UserLine.sched x = keys :: s -> supply (keys :: s) (UserLine.buf x) ks ->
  exists x', stdio x' /\ UserLine.sched x' = s /\ UserLine.shown x' = UserLine.shown x /\
    ((UserLine.sys_read 0 (replicate 256 0) x = Ret ((Some 0, replicate 256 0), x') /\ supply s (UserLine.buf x') ks) \/
     exists k ks', ks = k :: ks' /\ UserLine.sys_read 0 (replicate 256 0) x = Ret ((Some 1, k :: replicate 255 0), x') /\
       supply s (UserLine.buf x') ks').
Proof.
  intros [Hin Hout] Es Hs. unfold UserLine.sys_read. rewrite Es. unfold ResSet.read. rewrite Hin.
  destruct (poll_supply _ _ _ _ Hs) as (q' & [(k & ks' & -> & E & Hs')|[E Hs']]); unfold Res.read; rewrite E.
  - exists (UserLine.mk s (<[0:=ResConsole Stdin]> (UserLine.files x)) q' (UserLine.shown x)).
    split; [unfold stdio; cbn; by rewrite lookup_insert_eq, lookup_insert_ne|]. split; [done|]. split; [done|]. right. by exists k, ks'.
  - exists (UserLine.mk s (<[0:=ResConsole Stdin]> (UserLine.files x)) q' (UserLine.shown x)).
    split; [unfold stdio; cbn; by rewrite lookup_insert_eq, lookup_insert_ne|]. split; [done|]. split; [done|]. by left.
Qed.
(** What [x'] keeps of [x] when it has shown [o]. *)
Definition wrote (o : bytes) x x' : Prop :=
  UserLine.sched x' = UserLine.sched x /\ UserLine.buf x' = UserLine.buf x /\ UserLine.files x' = UserLine.files x /\
  text_of (UserLine.shown x') = text_of (UserLine.shown x) ++ o.
Lemma sys_write_run o x : stdio x -> zlen o < 2 ^ 63 -> exists x', UserLine.sys_write 1 o x = Ret (Some (zlen o), x') /\ wrote o x x'.
Proof.
  intros [Hin Hout] Ho. unfold UserLine.sys_write, ResSet.write. rewrite Hout. cbn [Res.write].
  assert (0 <= zlen o) by (unfold zlen; lia).
  assert (E : as_isize (zlen o) = zlen o) by (unfold as_isize; by rewrite (proj2 (Z.ltb_lt _ _) Ho)).
  assert (Er : User.sys_write (as_usize (as_isize (zlen o))) = Some (zlen o)).
  { unfold User.sys_write. rewrite E. unfold as_usize. by rewrite Z.mod_small, E, (proj2 (Z.ltb_ge _ 0)) by lia. }
  rewrite Er. eexists. split; [reflexivity|]. split; [done|]. split; [done|]. split; [done|].
  unfold text_of. cbn. rewrite bind_app. cbn. by rewrite app_nil_r.
Qed.
Lemma on_byte_run k line x : stdio x -> k <> 13 -> exists line2 o2 x2, UserLine.on_byte k line x = Ret (inl line2, x2) /\
  edit_key (line, text_of (UserLine.shown x)) k = (line2, o2) /\ UserLine.sched x2 = UserLine.sched x /\
  UserLine.buf x2 = UserLine.buf x /\ UserLine.files x2 = UserLine.files x /\ text_of (UserLine.shown x2) = o2.
Proof.
  intros Hio Hk. unfold UserLine.on_byte, edit_key. rewrite (proj2 (Z.eqb_neq k 13)) by done.
  destruct ((k =? 8) || (k =? 127)).
  - destruct (sys_write_run [8; 32; 8] x Hio ltac:(done)) as (x2 & E2 & H1 & H2 & H3 & H4).
    rewrite (st_bind_run _ _ _ _ _ E2). exists (pop line), (text_of (UserLine.shown x2)), x2. by rewrite H4.
  - destruct (sys_write_run [k] x Hio ltac:(done)) as (x2 & E2 & H1 & H2 & H3 & H4).
    rewrite (st_bind_run _ _ _ _ _ E2). exists (line ++ [k]), (text_of (UserLine.shown x2)), x2. by rewrite H4.
Qed.
Lemma read_line_loop_keys fuel : forall line x typed rest, (13 ∉ typed) -> stdio x ->
  supply (UserLine.sched x) (UserLine.buf x) (typed ++ 13 :: rest) -> (length (UserLine.sched x) < fuel)%nat ->
  exists line' o' x', UserLine.read_line_loop fuel line x = Ret (line', x') /\
    fold_left edit_key typed (line, text_of (UserLine.shown x)) = (line', o') /\
    text_of (UserLine.shown x') = o' ++ [10] /\ supply (UserLine.sched x') (UserLine.buf x') rest /\ stdio x'.
Proof.
  induction fuel as [|fuel IH]; intros line x typed rest Ht Hio Hs Hf; [lia|]. cbn [UserLine.read_line_loop].
  destruct (UserLine.sched x) as [|keys s] eqn:Es; [by destruct typed; apply supply_polls in Hs|]. cbn [length] in Hf.
  destruct (sys_read_supply x _ keys s Hio Es Hs) as (x1 & Hio1 & Es1 & Ew1 & [[E1 Hs1]|(k & ks & Ek & E1 & Hs1)]);
    rewrite (st_bind_run _ _ _ _ _ E1).
  - cbn [seqZ seq]. rewrite <- Ew1. apply (IH line x1 typed rest Ht Hio1); [by rewrite Es1|rewrite Es1; lia].
  - change (seqZ 0 1) with [0]. cbn [UserLine.on_bytes]. change (index (k :: replicate 255 0) 0) with (Ret k).
    rewrite <- Ew1. clear E1 Ew1 Es Hs Hio. destruct typed as [|k' typed]; cbn [app] in Ek; injection Ek as <- <-.
    + destruct (sys_write_run [10] x1 Hio1 ltac:(done)) as (x2 & E2 & H1 & H2 & H3 & H4).
      exists line, (text_of (UserLine.shown x1)), x2. split; [|split; [done|]; split; [done|]].
      * unfold UserLine.on_byte, mbind, ST_bind. cbn [st_lift Z.eqb Pos.eqb]. by rewrite E2.
      * unfold stdio. by rewrite H1, H2, H3, Es1.
    + apply not_elem_of_cons in Ht as [Hk Ht]. cbn [fold_left].
      destruct (on_byte_run k' line x1 Hio1 ltac:(done)) as (line2 & o2 & x2 & E2 & -> & H1 & H2 & H3 & <-).
      unfold mbind at 1 2 3, ST_bind at 1 2 3. cbn [st_lift]. rewrite E2. cbn beta iota. unfold mret, ST_ret.
      apply (IH line2 x2 typed rest Ht); [unfold stdio; by rewrite H3|by rewrite H1, H2, Es1|rewrite H1, Es1; lia].
Qed.
End read_line.

(** Keys that erase nothing. *)
Lemma edit_keys_text text : (8 ∉ text) -> (127 ∉ text) -> forall line o,
  fold_left edit_key text (line, o) = (line ++ text, o ++ text).
Proof.
  induction text as [|k text IH]; intros H8 H127 line o; [by rewrite !app_nil_r|].
  apply not_elem_of_cons in H8 as [? H8]. apply not_elem_of_cons in H127 as [? H127]. cbn [fold_left edit_key].
  rewrite !(proj2 (Z.eqb_neq k _)) by done. cbn [orb]. rewrite IH, <- !app_assoc by done. done.
Qed.

Section read_line_spec.
Context {D Q : Type} `{!BlockDevice D, !Chrono, !Bitflags, !ArrayQueue Q, !ArrayQueueLaws Q}.
(** [read_line] returns what was typed, whenever the keys arrive.  For a process with its standard
    descriptors, and for any keys ended by the key 13 and arriving in any portions that the buffer can hold,
    it gives the line that the keys edit, one character per key, has shown the edits and a new line,
    and leaves the keys after the line for the next reader; a line of ASCII text comes out as it was typed. *)
Theorem read_line_keys typed rest (x : UserLine.t D Q _) :
  (13 ∉ typed) -> stdio x ->
  supply (UserLine.sched x) (UserLine.buf x) (typed ++ 13 :: rest) ->
  exists line o x', UserLine.read_line x = Ret (line, x') /\
    fold_left edit_key typed ([], text_of (UserLine.shown x)) = (line, o) /\
    text_of (UserLine.shown x') = o ++ [10] /\
    supply (UserLine.sched x') (UserLine.buf x') rest /\ stdio x' /\
    (forall text, ascii text -> (8 ∉ text) -> (127 ∉ text) -> typed = as_bytes text -> line = text).
Proof.
  intros Ht Hio Hs. destruct (read_line_loop_keys (S (length (UserLine.sched x))) [] x typed rest Ht Hio Hs ltac:(lia))
    as (line & o & x' & E & Ef & Ho & Hs' & Hio').
  exists line, o, x'. do 5 (split; [done|]). intros text Ha H8 H127 ->. rewrite as_bytes_ascii in Ef by done.
  rewrite edit_keys_text in Ef by done. by injection Ef as <- _.
Qed.
End read_line_spec.

(** ** Witnesses *)
Section demo.
#[local] Existing Instances demo_chrono demo_bitflags demo_ArrayQueue demo_ArrayQueueLaws.
(** The keys of [hé], a mistake that is erased, and Enter, in three portions. *)
Definition demo_arrivals : arrivals := [[104; 195]; []; [169; 120]; [127; 13; 7]] ++ replicate 7 [].
Definition demo_typing : KernelLine.t demo_queue := KernelLine.mk demo_arrivals Input.INPUT_BUF [].
Lemma demo_supply : supply demo_arrivals (Input.INPUT_BUF : demo_queue) [104; 195; 169; 120; 127; 13; 7].
Proof. split; [done|]. split; [done|]. split; [done|]. eexists _, 7%nat. split; [reflexivity|]. cbn. lia. Defined.
Lemma get_line_edits_witness : exists x', KernelLine.get_line demo_typing = Ret ([104; 233], x').
Proof.
  destruct (get_line_edits [Typed 104; Typed 233; Typed 120; Erase 127] [7] demo_typing) as (line & x' & E & _);
    [by repeat constructor|exact demo_supply|]. exists x'. rewrite E. pose proof E as E'. vm_compute in E'. by injection E' as <- _.
Defined.
Definition demo_process : UserLine.t MemDisk.t demo_queue _ := UserLine.mk demo_arrivals ResSet.default Input.INPUT_BUF [].
Lemma read_line_keys_witness : exists x', UserLine.read_line demo_process = Ret ([104; 195; 169], x').
Proof.
  destruct (read_line_keys [104; 195; 169; 120; 127] [7] demo_process) as (line & o & x' & E & _);
    [apply (bool_decide_unpack _); by vm_compute|by split|exact demo_supply|].
  exists x'. rewrite E. pose proof E as E'. vm_compute in E'. by injection E' as <- _.
Defined.

(** Three bytes that encode a surrogate, which is no character, stop the kernel. *)
Example surrogate_panics :
  KernelLine.get_line (KernelLine.mk ([[237; 160; 128; 13]] ++ replicate 4 []) (Input.INPUT_BUF : demo_queue) []) = Panic.
Proof. by vm_compute. Qed.
End demo.
