(* ===== verification/Fact.v ===== *)
(** * The factorial program [app/fact]

    Models [pkg/app/fact/src/main.rs]: it asks for a number on the console and prints its
    factorial modulo a prime.  The console is that of [Console.v], with the keys
    arriving while the program polls. *)

From Stdlib Require Import Ascii String Factorial.
From stdpp Require Import base numbers list gmap.
From S2P Require Import Prelude Bytes Device Str Num Fat16Name Fat16Entry Fat16Fs Fat16File Resource Syscall Console.

Definition MOD : Z := 1000000007.

(** The product is computed in [u64], and wraps when it does not fit. *)
Fixpoint factorial (n : nat) : Z :=
  match n with
  | O => 1
  | S m => u64 (Z.of_nat n * factorial m) mod MOD
  end.

Section program.
Context {D Q : Type} `{!BlockDevice D, !Chrono, !ArrayQueue Q}.
(** [process_list]: what the kernel prints for [sys_stat]. *)
Variable process_list : list Output.
Definition print (text : str) : ST (UserLine.t D Q _) unit := UserLine.sys_write 1 (as_bytes text);; mret tt.
Definition sys_stat : ST (UserLine.t D Q _) unit :=
  st_modify (fun x => UserLine.mk (UserLine.sched x) (UserLine.files x) (UserLine.buf x) (UserLine.shown x ++ process_list)).

Definition main : ST (UserLine.t D Q _) Z :=
  print (chars "Input n: ");;
  input ← UserLine.read_line;
  n ← st_lift (unwrap (from_str_radix 10 input));
  if 1000000 <? n then
    print (chars "n must be less than 1000000" ++ [10]);;
    mret 1
  else
    let result := factorial (Z.to_nat n) in
    sys_stat;;
    print (chars "The factorial of " ++ decimal n ++ chars " under modulo " ++ decimal MOD ++ chars " is " ++ decimal result ++ chars "." ++ [10]);;
    mret 0.
End program.

(** ** The factorial *)
Lemma factorial_range n : 0 <= factorial n < MOD.
Proof. destruct n; [done|]. cbn [factorial]. apply Z.mod_pos_bound. done. Qed.
(** No product wraps as long as [n * MOD] fits. *)
Lemma factorial_spec n : Z.of_nat n * MOD <= 2 ^ 64 -> factorial n = Z.of_nat (fact n) mod MOD.
Proof.
  induction n as [|n IH]; intros Hn; [done|]. pose proof (factorial_range n) as Hr. cbn [factorial].
  rewrite wrap_small by (unfold MOD in *; nia). rewrite IH by (unfold MOD in *; nia).
  rewrite Z.mul_mod_idemp_r by done. f_equal. change (fact (S n)) with (S n * fact n)%nat. lia.
Qed.

(** ** The program *)
Section spec.
Context {D Q : Type} `{!BlockDevice D, !Chrono, !Bitflags, !ArrayQueue Q, !ArrayQueueLaws Q} (process_list : list Output).
Implicit Types x : UserLine.t D Q _.

Definition prompt : str := chars "Input n: ".
Definition refusal : str := chars "n must be less than 1000000" ++ [10].
Definition answer (n r : Z) : str :=
  chars "The factorial of " ++ decimal n ++ chars " under modulo " ++ decimal MOD ++ chars " is " ++ decimal r ++ chars "." ++ [10].
Lemma ascii_answer n r : ascii (answer n r).
Proof. unfold answer. rewrite !ascii_app. repeat split; try apply ascii_decimal; by repeat constructor. Qed.
Lemma answer_length n r : zlen (answer n r) < 2 ^ 63.
Proof.
  unfold answer, zlen. rewrite !length_app. pose proof (digits_length 64 10 n []). pose proof (digits_length 64 10 r []).
  pose proof (digits_length 64 10 MOD []). unfold decimal. cbn [List.length] in *.
  assert (E : (List.length (chars "The factorial of ") + List.length (chars " under modulo ") + List.length (chars " is ") + List.length (chars ".") = 36)%nat) by done.
  lia.
Qed.
Lemma print_run text x : ascii text -> zlen text < 2 ^ 63 -> stdio x -> exists x', print text x = Ret (tt, x') /\ wrote text x x'.
Proof.
  intros Ha Hl Hio. unfold print. rewrite as_bytes_ascii by done. destruct (sys_write_run text x Hio Hl) as (x' & E & Hw).
  exists x'. split; [|done]. unfold mbind, ST_bind. by rewrite E.
Qed.

(** C32: [app/fact] answers what is typed.  For any line of ASCII text without editing keys, however its keys
    arrive: text that is no 64-bit number stops the program with a panic; a number above a
    million is refused with exit code 1; for every other number [n] the program prints the true factorial of [n]
    modulo 1000000007 (no product overflows) and ends with code 0; keys after the line are left for the next reader. *)
Theorem fact_answers s rest x : ascii s -> (8 ∉ s) -> (13 ∉ s) -> (127 ∉ s) -> stdio x ->
  supply (UserLine.sched x) (UserLine.buf x) (s ++ 13 :: rest) ->
  match from_str_radix 10 s with
  | None => main process_list x = Panic
  | Some n => exists x',
      main process_list x = Ret (if 1000000 <? n then 1 else 0, x') /\
      text_of (UserLine.shown x') = text_of (UserLine.shown x) ++ prompt ++ s ++ [10] ++
        (if 1000000 <? n then refusal
         else text_of process_list ++ answer n (Z.of_nat (fact (Z.to_nat n)) mod MOD)) /\
      supply (UserLine.sched x') (UserLine.buf x') rest
  end.
Proof.
  intros Ha H8 H13 H127 Hio Hs. unfold main.
  destruct (print_run prompt x) as (x1 & E1 & S1 & B1 & F1 & T1); [by repeat constructor|done|done|]. fold prompt. rewrite (st_bind_run _ _ _ _ _ E1).
  destruct (read_line_loop_keys (S (length (UserLine.sched x1))) [] x1 s rest) as (line & o & x2 & E2 & Ef & T2 & Hs2 & Hio2);
    [done|unfold stdio; by rewrite F1|by rewrite S1, B1|lia|].
  rewrite edit_keys_text in Ef by done. injection Ef as <- <-. rewrite (st_bind_run UserLine.read_line _ _ _ _ E2). cbn [app] in *.
  destruct (from_str_radix 10 s) as [n|] eqn:En; [|done]. cbn [unwrap]. rewrite st_lift_bind.
  destruct (Z.ltb_spec 1000000 n) as [Hn|Hn].
  - destruct (print_run refusal x2) as (x3 & E3 & S3 & B3 & F3 & T3); [by repeat constructor|done|done|].
    fold refusal. rewrite (st_bind_run _ _ _ _ _ E3). exists x3. split; [done|]. rewrite S3, B3. split; [|done].
    by rewrite T3, T2, T1, <- !app_assoc.
  - set (x2' := UserLine.mk (UserLine.sched x2) (UserLine.files x2) (UserLine.buf x2) (UserLine.shown x2 ++ process_list)).
    rewrite (st_bind_run (sys_stat process_list) _ _ tt x2' eq_refl).
    destruct (print_run (answer n (factorial (Z.to_nat n))) x2') as (x3 & E3 & S3 & B3 & F3 & T3); [apply ascii_answer|apply answer_length|exact Hio2|].
    unfold answer in E3. rewrite (st_bind_run _ _ _ _ _ E3). exists x3. split; [done|]. rewrite S3, B3. split; [|exact Hs2].
    rewrite T3, factorial_spec by (unfold MOD; lia). unfold text_of in *. unfold x2'. cbn [UserLine.shown]. rewrite bind_app, T2, T1, <- !app_assoc. done.
Qed.
End spec.

Section demo.
#[local] Existing Instances demo_chrono demo_bitflags demo_ArrayQueue demo_ArrayQueueLaws.
Definition demo_input (s : str) : UserLine.t MemDisk.t demo_queue _ :=
  UserLine.mk ([s; [13]] ++ replicate 10 []) ResSet.default Input.INPUT_BUF [].
Lemma fact_answers_witness : exists x', main [] (demo_input (chars "20")) = Ret (0, x') /\
  text_of (UserLine.shown x') = prompt ++ chars "20" ++ [10] ++ answer 20 146326063.
Proof.
  pose proof (fact_answers [] (chars "20") [] (demo_input (chars "20"))) as Hf.
  assert (En : from_str_radix 10 (chars "20") = Some 20) by done. rewrite En in Hf.
  destruct Hf as (x' & E & T & _).
  1-4: apply (bool_decide_unpack _); by vm_compute.
  - done.
  - split; [done|]. split; [done|]. split; [done|]. exists [chars "20"; [13]], 10%nat. split; [done|cbn; lia].
  - exists x'. split; [exact E|]. rewrite T. assert (Ef : Z.of_nat (fact (Z.to_nat 20)) mod MOD = 146326063).
    { rewrite <- factorial_spec by (vm_compute; discriminate). by vm_compute. }
    rewrite Ef. change (text_of (UserLine.shown (demo_input (chars "20")))) with ([] : str). change (1000000 <? 20) with false.
    change (text_of []) with ([] : str). cbn [app]. exact eq_refl.
Defined.
End demo.
