(* ===== verification/Interrupts.v ===== *)
(** * Interrupts

    Models [pkg/kernel/src/interrupt/{mod,consts,clock,serial,exceptions}.rs], the
    registration of [interrupt/syscall/mod.rs] and the task state segment of
    [pkg/kernel/src/memory/gdt.rs]: which code runs on which stack when an interrupt or
    an exception is delivered, and how the interrupt controllers are set up to deliver them.

    The interrupt descriptor table ([x86_64::structures::idt]) is the map from vectors to
    gates; the vectors of its named fields are those of the architecture. *)

From stdpp Require Import base numbers list gmap.
From S2P Require Import Prelude Bytes Device Str Ata Uart Apic Fat16Name Fat16Entry Fat16Fs Fat16File X86 Frames ElfMap Sync Resource Vm Process Manager Syscall.

(** ** Stacks ([gdt.rs]) *)
Definition DOUBLE_FAULT_IST_INDEX : Z := 0.
Definition PAGE_FAULT_IST_INDEX : Z := 1.
Definition TIMER_IST_INDEX : Z := 2.
Definition SYSCALL_IST_INDEX : Z := 3.
Definition IST_SIZES : list Z := [0x1000; 0x1000; 0x1000; 0x1000; 0x1000].

(** [x86_64::structures::tss::TaskStateSegment]; [0] is an empty slot. *)
Record TaskStateSegment : Type := {
  privilege_stack_table : list Z;
  interrupt_stack_table : list Z;
}.
(** [TSS], where [STACK i] is the address of the static buffer of the [i]th block. *)
Definition TSS (STACK : nat -> Z) : TaskStateSegment :=
  let stack_end i := u64 (STACK i + default 0 (IST_SIZES !! i)) in
  {| privilege_stack_table := <[0%nat := stack_end 0%nat]> (replicate 3 0);
     interrupt_stack_table :=
       <[Z.to_nat SYSCALL_IST_INDEX := stack_end 4%nat]>
       (<[Z.to_nat TIMER_IST_INDEX := stack_end 3%nat]>
       (<[Z.to_nat PAGE_FAULT_IST_INDEX := stack_end 2%nat]>
       (<[Z.to_nat DOUBLE_FAULT_IST_INDEX := stack_end 1%nat]> (replicate 7 0)))) |}.

(** ** The interrupt descriptor table *)
Inductive Handler : Type :=
| divide_error_handler | debug_handle | non_maskable_interrupt_handler | breakpoint_handler | overflow_handler
| bound_range_exceeded_handler | invalid_opcode_handler | device_not_available_handler | double_fault_handler
| invalid_tss_handler | segment_not_present_handler | stack_segment_fault_handler | general_protection_fault_handler
| page_fault_handler | x87_floating_point_handler | alignment_check_handler | machine_check_handler
| simd_floating_point_handler | virtualization_handler | cp_protection_exception_handler
| hv_injection_exception_handler | vmm_communication_exception_handler | security_exception_handler
| clock_handler | serial_handler | syscall_handler.
Global Instance Handler_eq_dec : EqDecision Handler.
Proof. solve_decision. Defined.

(** A gate: the code, the index of its stack if it has one of its own, and the ring that
    may call it with [int]. *)
Record Gate : Type := mk_gate { gate_handler : Handler; gate_stack : option Z; gate_ring : Z }.
Global Instance Gate_eq_dec : EqDecision Gate.
Proof. solve_decision. Defined.
Definition Idt : Type := gmap Z Gate.
Definition set_handler_fn (v : Z) (f : Handler) (idt : Idt) : Idt := <[v := mk_gate f None 0]> idt.
Definition set_stack_index (v i : Z) (idt : Idt) : Idt :=
  alter (fun g => mk_gate (gate_handler g) (Some i) (gate_ring g)) v idt.
Definition set_privilege_level (v r : Z) (idt : Idt) : Idt :=
  alter (fun g => mk_gate (gate_handler g) (gate_stack g) r) v idt.

Module Exceptions.
Definition register_idt (idt : Idt) : Idt :=
  let idt := set_handler_fn 0 divide_error_handler idt in
  let idt := set_handler_fn 1 debug_handle idt in
  let idt := set_handler_fn 2 non_maskable_interrupt_handler idt in
  let idt := set_handler_fn 3 breakpoint_handler idt in
  let idt := set_handler_fn 4 overflow_handler idt in
  let idt := set_handler_fn 5 bound_range_exceeded_handler idt in
  let idt := set_handler_fn 6 invalid_opcode_handler idt in
  let idt := set_handler_fn 7 device_not_available_handler idt in
  let idt := set_stack_index 8 DOUBLE_FAULT_IST_INDEX (set_handler_fn 8 double_fault_handler idt) in
  let idt := set_handler_fn 10 invalid_tss_handler idt in
  let idt := set_handler_fn 11 segment_not_present_handler idt in
  let idt := set_handler_fn 12 stack_segment_fault_handler idt in
  let idt := set_handler_fn 13 general_protection_fault_handler idt in
  let idt := set_stack_index 14 PAGE_FAULT_IST_INDEX (set_handler_fn 14 page_fault_handler idt) in
  let idt := set_handler_fn 16 x87_floating_point_handler idt in
  let idt := set_handler_fn 17 alignment_check_handler idt in
  let idt := set_handler_fn 18 machine_check_handler idt in
  let idt := set_handler_fn 19 simd_floating_point_handler idt in
  let idt := set_handler_fn 20 virtualization_handler idt in
  let idt := set_handler_fn 21 cp_protection_exception_handler idt in
  let idt := set_handler_fn 28 hv_injection_exception_handler idt in
  let idt := set_handler_fn 29 vmm_communication_exception_handler idt in
  set_handler_fn 30 security_exception_handler idt.
End Exceptions.
Module Clock.
Definition register_idt (idt : Idt) : Idt :=
  let v := u8 (Interrupts.IrqBase + Irq.Timer) in set_stack_index v TIMER_IST_INDEX (set_handler_fn v clock_handler idt).
(** [COUNTER], an [AtomicU64]: [fetch_add] returns the old value and wraps. *)
Definition read_counter : ST Z Z := st_get.
Definition inc_counter : ST Z Z := fun c => Ret (c, u64 (c + 1)).
End Clock.
Module Serial.
Definition register_idt (idt : Idt) : Idt := set_handler_fn (u8 (Interrupts.IrqBase + Irq.Serial0)) serial_handler idt.
End Serial.
Module SyscallGate.
Definition register_idt (idt : Idt) : Idt :=
  let v := Interrupts.Syscall in set_privilege_level v 3 (set_stack_index v SYSCALL_IST_INDEX (set_handler_fn v syscall_handler idt)).
End SyscallGate.
Definition IDT : Idt := SyscallGate.register_idt (Serial.register_idt (Clock.register_idt (Exceptions.register_idt ∅))).

(** ** Initialisation and acknowledgement *)
Section ops.
(** [supported]: what [XApic::support] reads from the processor's features; [offset] is where
    physical memory is mapped. *)
Context {H : Type} {MM : Mmio H} {IO : PortIO H} {BF : BitField} {FL : Bitflags} (fuel : nat) (supported : bool) (offset : Z).
Definition lapic_addr : Z := u64 (LAPIC_ADDR + offset).
Definition ioapic_regs : IoApic.t := IoApic.new (u64 (IOAPIC_ADDR + offset)).
Definition enable_irq (irq cpuid : Z) : ST H unit := IoApic.enable ioapic_regs irq cpuid.
Definition ack : ST H unit := XApic.eoi lapic_addr.
Definition init : ST H unit :=
  (if supported then XApic.cpu_init fuel lapic_addr else mret tt);;
  enable_irq Irq.Serial0 0.

(** The serial interrupt: the port, the controller and the key buffer. *)
Context {Q : Type} {AQ : ArrayQueue Q}.
Definition on_hw {A} (m : ST H A) : ST (H * Q) A := fun s => '(a, h) ← m s.1; Ret (a, (h, s.2)).
Definition receive (port : SerialPort.t) : ST (H * Q) unit :=
  data ← on_hw (SerialPort.receive port);
  match data with
  | Some data => st_modify (fun s => (s.1, Input.push_key data s.2))
  | None => mret tt
  end.
Definition run_serial_handler (port : SerialPort.t) : ST (H * Q) unit := receive port;; on_hw ack.
End ops.

(** What an exception does to the kernel: all handlers panic but that of page faults, for
    which [cr2] is the address and [protection] the cause. *)
Section exceptions.
Context {M D Q : Type} {L : Log} {X : X86} {MM : Machine M} {PF : Platform M} {BD : BlockDevice D}
  {C : Chrono} {BF : Bitflags} {UT : UnicodeTable} {AQ : ArrayQueue Q} {SE : Selectors} {EP : ElfParser}.
Definition run_exception (f : Handler) (cr2 : Z) (protection : bool) : option (ST (Kernel M D Q) unit) :=
  match f with
  | page_fault_handler => Some (Service.page_fault_handler cr2 protection)
  | clock_handler | serial_handler | syscall_handler => None
  | _ => Some st_panic
  end.
End exceptions.

(** ** Properties *)
Definition map_all (P : Z -> Gate -> bool) (m : Idt) : bool := forallb (fun vg => P vg.1 vg.2) (map_to_list m).
Lemma map_all_spec P m : map_all P m = true -> forall v g, m !! v = Some g -> P v g = true.
Proof.
  unfold map_all. rewrite forallb_forall. intros Hall v g Hg. apply (Hall (v, g)), list_elem_of_In. by apply elem_of_map_to_list.
Qed.

(** The gates with a stack of their own: one gate per stack, and the stack is there. *)
Definition stack_gates : list (Z * Z) := [(8, 0); (14, 1); (32, 2); (128, 3)].
Lemma idt_stacks v g i : IDT !! v = Some g -> gate_stack g = Some i -> (v, i) ∈ stack_gates.
Proof.
  intros Hg Hi. pose proof (map_all_spec (fun v g => match gate_stack g with Some i => bool_decide ((v, i) ∈ stack_gates) | None => true end)
    IDT ltac:(by vm_compute) v g Hg) as Hc. cbn in Hc. rewrite Hi in Hc. by apply bool_decide_eq_true in Hc.
Qed.
Lemma idt_rings v g : IDT !! v = Some g -> (0 < gate_ring g <-> gate_handler g = syscall_handler).
Proof.
  intros Hg. pose proof (map_all_spec (fun v g => Bool.eqb (0 <? gate_ring g) (bool_decide (gate_handler g = syscall_handler)))
    IDT ltac:(by vm_compute) v g Hg) as Hc. cbn in Hc. apply eqb_prop in Hc. rewrite <- Z.ltb_lt, Hc. apply bool_decide_eq_true.
Qed.
(** Every gate below 32 is an exception, and of those only the page fault can return. *)
Lemma idt_exceptions v g : IDT !! v = Some g -> v < 32 <-> gate_handler g ∉ [clock_handler; serial_handler; syscall_handler].
Proof.
  intros Hg. pose proof (map_all_spec (fun v g => Bool.eqb (v <? 32) (bool_decide (gate_handler g ∉ [clock_handler; serial_handler; syscall_handler])))
    IDT ltac:(by vm_compute) v g Hg) as Hc. cbn in Hc. apply eqb_prop in Hc. rewrite <- Z.ltb_lt, Hc. apply bool_decide_eq_true.
Qed.

(** Whatever the state of the kernel, an exception other than a page fault stops it: a user program
    that divides by zero takes the system down. *)
Lemma exceptions_fatal {M D Q : Type} {L : Log} {X : X86} {MM : Machine M} {BD : BlockDevice D} {C : Chrono} {BF : Bitflags}
    {UT : UnicodeTable} {AQ : ArrayQueue Q} {SE : Selectors} {EP : ElfParser} v g cr2 protection :
  IDT !! v = Some g -> v < 32 -> v <> 14 ->
  exists m : ST (Kernel M D Q) unit, run_exception (gate_handler g) cr2 protection = Some m /\ forall k, m k = Panic.
Proof.
  intros Hg Hv Hn. pose proof (proj1 (idt_exceptions v g Hg) Hv) as He. rewrite !not_elem_of_cons in He.
  assert (Hp : gate_handler g <> page_fault_handler).
  { pose proof (map_all_spec (fun v g => bool_decide (v = 14) || negb (bool_decide (gate_handler g = page_fault_handler))) IDT ltac:(by vm_compute) v g Hg) as Hc.
    cbn beta in Hc. rewrite bool_decide_false in Hc by done. cbn [orb] in Hc. by apply negb_true_iff, bool_decide_eq_false in Hc. }
  exists st_panic. split; [|done]. destruct (gate_handler g); try done; by destruct He as (? & ? & ? & _).
Qed.

Section wiring.
Context {H : Type} {MM : Mmio H} {IO : PortIO H} {BF : BitField} {FL : Bitflags} {BFL : BitFieldLaws} {FLL : BitflagsLaws}.
Context (fuel : nat) (offset : Z) (delay : nat) (lview : H -> lapic) (ioview : H -> ioapic)
  {HW : ApicHardware (lapic_addr offset) (ioapic_regs offset) delay lview ioview}.

(** The timer is on, periodic, and goes to [clock_handler]; the serial line goes to [serial_handler] on processor 0. *)
Definition wired (d : lapic) (io : ioapic) : Prop :=
  enabled d /\ Z.testbit (lreg d LvtTimer) 16 = false /\ Z.testbit (lreg d LvtTimer) 17 = true /\
  IDT !! (lreg d LvtTimer mod 256) = Some (mk_gate clock_handler (Some TIMER_IST_INDEX) 0) /\
  Z.testbit (ioreg io 24) 16 = false /\ Z.shiftr (ioreg io 25) 24 = 0 /\
  IDT !! (ioreg io 24 mod 256) = Some (mk_gate serial_handler None 0).
Lemma init_wires h : (delay < fuel)%nat -> exists h', init fuel true offset h = Ret (tt, h') /\ wired (lview h') (ioview h') /\
  (forall r, r <> 24 -> r <> 25 -> ioreg (ioview h') r = ioreg (ioview h) r) /\
  IDT !! (lreg (lview h') SPIV mod 256) = None /\ IDT !! (lreg (lview h') LvtError mod 256) = None.
Proof.
  intros Hf. unfold init, enable_irq, IoApic.enable.
  destruct (cpu_init_run fuel (lapic_addr offset) (ioapic_regs offset) delay lview ioview h Hf) as (h1 & E1 & Eio & Hi).
  rewrite (st_bind_run _ _ _ _ _ E1).
  destruct (write_irq_run (lapic_addr offset) (ioapic_regs offset) delay lview ioview 4 0 0 h1) as (h2 & E2 & El & R1 & R2 & R3); [lia..|].
  exists h2. split; [exact E2|]. unfold wired. rewrite El. destruct Hi as (I1 & I2 & I3 & I4 & I5 & _ & _ & _ & I9 & _).
  rewrite I2, I3, I9. change (0x10 + 2 * 4) with 24 in *. rewrite R1. change (24 + 1) with 25 in *. rewrite R2.
  split; [done|]. split; [intros r H1 H2; by rewrite R3, Eio|done].
Qed.

(** C38: Interrupts reach their handlers.  After [init], for every state the controllers can be in before:
    the timer of the local APIC is on, periodic, and its vector has the gate of [clock_handler]; line 4 of the I/O
    APIC is unmasked, goes to processor 0, and its vector has the gate of [serial_handler], while every other line
    is as it was.  The gate 0x80 is the only one that user code may call.  Every gate with a
    stack of its own finds it in the TSS, and no two gates share one.  The vectors given to spurious
    interrupts and to errors of the APIC have no gate. *)
Theorem interrupt_wiring STACK h : (delay < fuel)%nat -> exists h',
  init fuel true offset h = Ret (tt, h') /\
  wired (lview h') (ioview h') /\
  (forall r, r <> 24 -> r <> 25 -> ioreg (ioview h') r = ioreg (ioview h) r) /\
  (forall v g, IDT !! v = Some g -> (0 < gate_ring g <-> v = 0x80 /\ g = mk_gate syscall_handler (Some SYSCALL_IST_INDEX) 3)) /\
  (forall v g i, IDT !! v = Some g -> gate_stack g = Some i ->
     interrupt_stack_table (TSS STACK) !! Z.to_nat i = Some (u64 (STACK (Z.to_nat i + 1)%nat + 0x1000)) /\
     forall v' g', IDT !! v' = Some g' -> gate_stack g' = Some i -> v' = v) /\
  IDT !! (lreg (lview h') SPIV mod 256) = None /\ IDT !! (lreg (lview h') LvtError mod 256) = None.
Proof.
  intros Hf. destruct (init_wires h Hf) as (h2 & E2 & Hw & Hr & Hv). exists h2. split; [exact E2|]. split; [exact Hw|]. split; [exact Hr|].
  split; [|split; [|exact Hv]].
  - intros v g Hg. rewrite (idt_rings v g Hg). split; [|by intros [_ ->]]. intros Hs.
    pose proof (map_all_spec (fun v g => negb (bool_decide (gate_handler g = syscall_handler)) ||
      bool_decide (v = 0x80 /\ g = mk_gate syscall_handler (Some SYSCALL_IST_INDEX) 3)) IDT ltac:(by vm_compute) v g Hg) as Hc.
    cbn beta in Hc. rewrite bool_decide_true in Hc by done. by apply bool_decide_eq_true in Hc.
  - intros v g i Hg Hs. pose proof (idt_stacks v g i Hg Hs) as Hin. split.
    + unfold stack_gates in Hin. rewrite !elem_of_cons, elem_of_nil in Hin. by destruct Hin as [[= -> ->]|[[= -> ->]|[[= -> ->]|[[= -> ->]|[]]]]].
    + intros v' g' Hg' Hs'. pose proof (idt_stacks v' g' i Hg' Hs') as Hin'. unfold stack_gates in *. rewrite !elem_of_cons, elem_of_nil in Hin, Hin'.
      by destruct Hin as [[= -> ->]|[[= -> ->]|[[= -> ->]|[[= -> ->]|[]]]]], Hin' as [[= -> ]|[[= -> ]|[[= ->]|[[= ->]|[]]]]].
Qed.
End wiring.

Section serial.
Context {H : Type} {MM : Mmio H} {IO : PortIO H} (offset : Z) (delay udelay : nat) (lview : H -> lapic) (ioview : H -> ioapic)
  (uview : H -> uart) (port : SerialPort.t)
  {HW : ApicHardware (lapic_addr offset) (ioapic_regs offset) delay lview ioview} {UW : UartHardware port udelay uview}.
(** The registers of the serial port and those of the controllers are apart. *)
Class Apart : Prop := {
  apart_in p h : lview (in8 p h).2 = lview h;
  apart_write a v h : arrived (uview h) (uview (write_volatile a v h));
  apart_read a h : arrived (uview h) (uview (read_volatile a h).2);
}.
Context {AP : Apart} {Q : Type} {AQ : ArrayQueue Q} {AQL : ArrayQueueLaws Q}.

Lemma receive_lapic h : exists r h', SerialPort.receive port h = Ret (r, h') /\ lview h' = lview h.
Proof.
  unfold SerialPort.receive, SerialPort.read, mbind, ST_bind. pose proof (apart_in (SerialPort.line_status port) h) as E1.
  destruct (in8 _ h) as [s h1]. cbn in E1. destruct (negb _).
  - pose proof (apart_in (SerialPort.data port) h1) as E2. destruct (in8 _ h1) as [v h2]. cbn in E2. exists (Some v), h2. by rewrite E2.
  - by exists None, h1.
Qed.
Lemma ack_uart h h' : ack offset h = Ret (tt, h') -> arrived (uview h) (uview h').
Proof.
  unfold ack, XApic.eoi, XApic.write, XApic.read, mbind, ST_bind, mret, ST_ret.
  pose proof (apart_write (u64 (lapic_addr offset + register_offset EOI)) 0 h) as [n1 E1].
  set (h1 := write_volatile _ 0 h) in *. pose proof (apart_read (u64 (lapic_addr offset + register_offset ID)) h1) as [n2 E2].
  destruct (read_volatile _ h1) as [v h2]. cbn in E2. intros [= <-]. rewrite E2, E1. exists (n1 ++ n2). cbn. by rewrite app_assoc.
Qed.

(** A serial interrupt moves one byte.  The handler returns; the first byte that waits in the port, if there
    is one, is appended to the key buffer (dropped when the buffer is full), bytes behind it stay in the port, and the
    interrupt is acknowledged exactly once. *)
Theorem serial_interrupt h (q : Q) : configured (uview h) ->
  exists h' q' new, run_serial_handler offset port (h, q) = Ret (tt, (h', q')) /\
    lview h' = acknowledged (lview h) /\ configured (uview h') /\
    received (uview h') = tail (received (uview h)) ++ new /\
    queue_contents q' = queue_contents q ++
      (if bool_decide (zlen (queue_contents q) < queue_capacity q) then option_list (head (received (uview h))) else []).
Proof.
  intros Hc. destruct (receive_run port udelay uview h Hc) as (h1 & n1 & E1 & R1 & _ & C1).
  destruct (receive_lapic h) as (r & h1' & E1' & L1). rewrite E1 in E1'. injection E1' as <- <-.
  destruct (eoi_run (lapic_addr offset) (ioapic_regs offset) delay lview ioview h1) as (h2 & E2 & L2 & _).
  destruct (ack_uart h1 h2 E2) as [n2 U2]. unfold run_serial_handler, receive, on_hw, ack.
  assert (Hlast : lview h2 = acknowledged (lview h) /\ configured (uview h2) /\ received (uview h2) = tail (received (uview h)) ++ (n1 ++ n2)).
  { split; [by rewrite L2, L1|]. rewrite U2. split; [exact C1|]. cbn. by rewrite R1, app_assoc. }
  destruct (head (received (uview h))) as [b|].
  - exists h2, (Input.push_key b q), (n1 ++ n2). split.
    { unfold mbind, ST_bind. cbn. rewrite E1. cbn. by rewrite E2. }
    destruct Hlast as (HL & HC & HR). do 3 (split; [done|]). destruct (queue_push_spec b q) as (_ & Hq & _). unfold Input.push_key. rewrite Hq.
    repeat case_bool_decide; try lia; cbn; by rewrite ?app_nil_r.
  - exists h2, q, (n1 ++ n2). split.
    { unfold mbind, ST_bind. cbn. rewrite E1. cbn. by rewrite E2. }
    destruct Hlast as (HL & HC & HR). do 3 (split; [done|]). case_bool_decide; cbn; by rewrite app_nil_r.
Qed.
End serial.

(** ** A simulated board, for the witnesses *)
Module Board.
Record t : Type := mk { board_lapic : lapic; board_io : ioapic; board_uart : uart }.
Definition all_registers : list Registers :=
  [ID; VERSION; TPR; EOI; SPIV; ESR; ICRLO; ICRHI; LvtTimer; PMCR; LvtLINT0; LvtLINT1; LvtError; TICR; TDCR].
Definition register_at (a : Z) : option Registers := List.find (fun r => LAPIC_ADDR + register_offset r =? a) all_registers.
Definition write_lapic (r : Registers) (v : Z) (d : lapic) : lapic :=
  match r with
  | EOI => acknowledged d
  | ICRLO => set_delivering 3 (set_lreg ICRLO (v mod 2 ^ 32) d)
  | ID | VERSION => d
  | _ => if is_lvt r && negb (Z.testbit (lreg d SPIV) 8) then d else set_lreg r (v mod 2 ^ 32) d
  end.
Definition write (a v : Z) (b : t) : t :=
  match register_at a with
  | Some r => mk (write_lapic r v (board_lapic b)) (board_io b) (board_uart b)
  | None =>
      if a =? IOAPIC_ADDR then mk (board_lapic b) (set_selected v (board_io b)) (board_uart b)
      else if a =? IOAPIC_ADDR + 0x10 then mk (board_lapic b) (set_ioreg v (board_io b)) (board_uart b)
      else b
  end.
Definition read (a : Z) (b : t) : Z * t :=
  match register_at a with
  | Some ICRLO =>
      let d := board_lapic b in
      ((if decide (delivering d = 0%nat) then lreg d ICRLO else Z.lor (lreg d ICRLO) ApicRegisters.DS),
       mk (set_delivering (pred (delivering d)) d) (board_io b) (board_uart b))
  | Some r => (lreg (board_lapic b) r, b)
  | None => (ioreg (board_io b) (selected_reg (board_io b)), b)
  end.
End Board.
(** A board whose registers hold 32 bits; a write that would not fit is not taken. *)
Definition wide (b : Board.t) : bool :=
  forallb (fun r => (0 <=? lreg (Board.board_lapic b) r) && (lreg (Board.board_lapic b) r <? 2 ^ 32)) Board.all_registers.
Definition board : Type := { b : Board.t | wide b = true }.
Definition keep (b : board) (b' : Board.t) : board :=
  match bool_dec (wide b') true with left H => exist _ b' H | right _ => b end.
Lemma keep_view (b : board) b' : wide b' = true -> proj1_sig (keep b b') = b'.
Proof. intros H. unfold keep. by destruct (bool_dec (wide b') true). Qed.
Lemma wide_spec b r : wide b = true -> 0 <= lreg (Board.board_lapic b) r < 2 ^ 32.
Proof.
  unfold wide. rewrite forallb_forall. intros Hb.
  assert (Hr : In r Board.all_registers) by (destruct r; apply list_elem_of_In; apply (bool_decide_unpack _); by vm_compute).
  specialize (Hb r Hr). rewrite andb_true_iff, Z.leb_le, Z.ltb_lt in Hb. lia.
Qed.
Lemma wide_intro b : (forall r, 0 <= lreg (Board.board_lapic b) r < 2 ^ 32) -> wide b = true.
Proof. intros Hb. unfold wide. apply forallb_forall. intros r _. specialize (Hb r). rewrite andb_true_iff, Z.leb_le, Z.ltb_lt. lia. Qed.
#[local] Instance board_mmio : Mmio board := {|
  read_volatile a b := let '(v, b') := Board.read a (proj1_sig b) in (v, keep b b');
  write_volatile a v b := keep b (Board.write a v (proj1_sig b)) |}.
#[local] Instance board_ports : PortIO board := {|
  in8 p b := let '(v, u) := sim_in p (Board.board_uart (proj1_sig b)) in
    (v, keep b (Board.mk (Board.board_lapic (proj1_sig b)) (Board.board_io (proj1_sig b)) u));
  out8 p v b := keep b (Board.mk (Board.board_lapic (proj1_sig b)) (Board.board_io (proj1_sig b)) (sim_out p v (Board.board_uart (proj1_sig b))));
  in16 p b := (0, b); out16 p v b := b |}.
Definition lview (b : board) : lapic := Board.board_lapic (proj1_sig b).
Definition ioview (b : board) : ioapic := Board.board_io (proj1_sig b).
Definition uview (b : board) : uart := Board.board_uart (proj1_sig b).
Lemma board_width (b : board) r : 0 <= lreg (lview b) r < 2 ^ 32.
Proof. apply wide_spec. exact (proj2_sig b). Qed.
(** A register write that keeps the width. *)
Lemma board_set (b : board) r v d n : 0 <= v < 2 ^ 32 -> d = set_delivering n (set_lreg r v (lview b)) \/ d = set_lreg r v (lview b) \/ d = acknowledged (lview b) \/ d = set_delivering n (lview b) \/ d = lview b ->
  forall i u, wide (Board.mk d i u) = true.
Proof.
  intros Hv Hd i u. apply wide_intro. intros r'. cbn. destruct Hd as [->|[->|[->|[->| ->]]]]; cbn; try case_decide; try done; apply board_width.
Qed.

Lemma board_write (b : board) a v d i u : Board.write a v (proj1_sig b) = Board.mk d i u -> wide (Board.mk d i u) = true ->
  lview (write_volatile a v b) = d /\ ioview (write_volatile a v b) = i /\ uview (write_volatile a v b) = u.
Proof.
  intros E Hw. unfold lview, ioview, uview. change (write_volatile a v b) with (keep b (Board.write a v (proj1_sig b))).
  by rewrite E, keep_view.
Qed.
Lemma board_read (b : board) a v d i u : Board.read a (proj1_sig b) = (v, Board.mk d i u) -> wide (Board.mk d i u) = true ->
  exists b', read_volatile a b = (v, b') /\ lview b' = d /\ ioview b' = i /\ uview b' = u.
Proof.
  intros E Hw. exists (keep b (Board.mk d i u)). unfold lview, ioview, uview. rewrite keep_view by done.
  split; [|done]. unfold read_volatile, board_mmio. by rewrite E.
Qed.
Lemma board_register r : Board.register_at (u64 (lapic_addr 0 + register_offset r)) = Some r.
Proof. by destruct r. Qed.
Lemma board_eta (b : board) : proj1_sig b = Board.mk (lview b) (ioview b) (uview b).
Proof. unfold lview, ioview, uview. by destruct (proj1_sig b). Qed.

#[local] Instance board_apic : ApicHardware (lapic_addr 0) (ioapic_regs 0) 3 lview ioview.
Proof.
  split.
  - apply board_width.
  - intros b r v Hp He Hv. cbv zeta. destruct (board_write b (u64 (lapic_addr 0 + register_offset r)) v (set_lreg r v (lview b)) (ioview b) (uview b)) as (-> & -> & _); [| |done].
    + unfold Board.write. rewrite board_register. unfold Board.write_lapic, lview, ioview, uview.
      assert (Ec : is_lvt r && negb (Z.testbit (lreg (lview b) SPIV) 8) = false) by (destruct (is_lvt r); [|done]; by rewrite (He eq_refl)).
      unfold lview in Ec. rewrite Z.mod_small, Ec by done. by destruct r.
    + apply (board_set b r v _ 0%nat); [done || lia|auto 8].
  - intros b. cbv zeta. destruct (board_write b (u64 (lapic_addr 0 + register_offset EOI)) 0 (acknowledged (lview b)) (ioview b) (uview b)) as (-> & -> & _); [| |done].
    + unfold Board.write. rewrite board_register. done.
    + apply (board_set b EOI 0 _ 0%nat); [done || lia|auto 8].
  - intros b v Hv Hb. cbv zeta. destruct (board_write b (u64 (lapic_addr 0 + register_offset ICRLO)) v (set_delivering 3 (set_lreg ICRLO v (lview b))) (ioview b) (uview b)) as (-> & -> & _).
    + unfold Board.write. rewrite board_register. unfold Board.write_lapic. by rewrite Z.mod_small by done.
    + apply (board_set b ICRLO v _ 3%nat); [done || lia|auto 8].
    + split; [done|]. by exists 3%nat.
  - intros b r Hr1 Hr2. destruct (board_read b (u64 (lapic_addr 0 + register_offset r)) (lreg (lview b) r) (lview b) (ioview b) (uview b)) as (b' & -> & ? & ? & _); [| |done].
    + unfold Board.read. rewrite board_register, board_eta. by destruct r.
    + apply (board_set b r 0 _ 0%nat); [done || lia|auto 8].
  - intros b. destruct (board_read b (u64 (lapic_addr 0 + register_offset ICRLO)) (if decide (delivering (lview b) = 0%nat) then lreg (lview b) ICRLO else Z.lor (lreg (lview b) ICRLO) ApicRegisters.DS)
      (set_delivering (pred (delivering (lview b))) (lview b)) (ioview b) (uview b)) as (b' & -> & ? & ? & _); [| |done].
    + unfold Board.read. rewrite board_register, board_eta. done.
    + apply (board_set b ICRLO 0 _ (pred (delivering (lview b)))); [lia|auto 8].
  - intros b v Hv. cbv zeta. destruct (board_write b (IoApic.reg (ioapic_regs 0)) v (lview b) (set_selected v (ioview b)) (uview b)) as (-> & -> & _); [done| |done].
    apply (board_set b ID 0 _ 0%nat); [done || lia|auto 8].
  - intros b v Hv. cbv zeta. destruct (board_write b (IoApic.data (ioapic_regs 0)) v (lview b) (set_ioreg v (ioview b)) (uview b)) as (-> & -> & _); [done| |done].
    apply (board_set b ID 0 _ 0%nat); [done || lia|auto 8].
  - intros b. destruct (board_read b (IoApic.data (ioapic_regs 0)) (ioreg (ioview b) (selected_reg (ioview b))) (lview b) (ioview b) (uview b)) as (b' & -> & ? & ? & _); [| |done].
    + unfold Board.read. by rewrite board_eta.
    + apply (board_set b ID 0 _ 0%nat); [done || lia|auto 8].
Qed.

Lemma board_same (b : board) i u : wide (Board.mk (lview b) i u) = true.
Proof. apply (board_set b ID 0 _ 0%nat); [lia|auto 8]. Qed.
Lemma keep_uart (b : board) u : let b' := keep b (Board.mk (lview b) (ioview b) u) in lview b' = lview b /\ uview b' = u.
Proof. cbv zeta. pose proof (keep_view b _ (board_same b (ioview b) u)) as E. unfold lview, uview in *. by rewrite E. Qed.
Lemma board_out (b : board) p v : lview (out8 p v b) = lview b /\ uview (out8 p v b) = sim_out p v (uview b).
Proof. exact (keep_uart b (sim_out p v (uview b))). Qed.
Lemma board_in (b : board) p : (in8 p b).1 = (sim_in p (uview b)).1 /\ lview (in8 p b).2 = lview b /\ uview (in8 p b).2 = (sim_in p (uview b)).2.
Proof.
  unfold in8, board_ports. fold (uview b) (lview b) (ioview b). destruct (sim_in p (uview b)) as [v u]. cbn [fst snd].
  split; [done|]. exact (keep_uart b u).
Qed.
#[local] Instance board_serial : UartHardware COM1 2 uview.
Proof.
  pose proof (UW := sim_uart). split; intros b; intros.
  - destruct (board_out b (SerialPort.line_control COM1) v) as [_ ->]. apply (uart_lcr (UartHardware := sim_uart)).
  - destruct (board_out b (SerialPort.interrupt_enable COM1) v) as [_ ->]. apply (uart_ier (UartHardware := sim_uart)).
  - destruct (board_out b (SerialPort.interrupt_identification_fifo_control COM1) v) as [_ ->]. by apply (uart_fcr (UartHardware := sim_uart)).
  - destruct (board_out b (SerialPort.scratch COM1) v) as [_ ->]. apply (uart_scr (UartHardware := sim_uart)).
  - destruct (board_out b (SerialPort.data COM1) v) as [_ ->]. by apply (uart_divisor (UartHardware := sim_uart)).
  - destruct (board_out b (SerialPort.data COM1) v) as [_ ->]. by apply (uart_send (UartHardware := sim_uart)).
  - pose proof (uart_status (UartHardware := sim_uart) (uview b)) as Hs. destruct (board_in b (SerialPort.line_status COM1)) as (E1 & _ & E2).
    destruct (in8 (SerialPort.line_status COM1) b) as [s b']. cbn [fst snd] in E1, E2. rewrite E2, E1.
    cbn [in8 sim_uart_io] in Hs. by destruct (sim_in (SerialPort.line_status COM1) (uview b)).
  - destruct (board_in b (SerialPort.data COM1)) as (-> & _ & ->). by apply (uart_receive (UartHardware := sim_uart)).
Qed.
#[local] Instance board_apart : Apart lview uview.
Proof.
  split.
  - intros p b. apply board_in.
  - intros a v b. change (write_volatile a v b) with (keep b (Board.write a v (proj1_sig b))). unfold keep. destruct (bool_dec _ _) as [Hw|]; [|apply arrived_refl].
    unfold uview. cbn [proj1_sig]. unfold Board.write. repeat case_match; apply arrived_refl.
  - intros a b. unfold read_volatile, board_mmio, Board.read. repeat case_match; simplify_eq; cbn [fst snd]; unfold keep;
      destruct (bool_dec _ _); unfold uview; cbn [proj1_sig]; apply arrived_refl.
Qed.
#[local] Instance demo_bitfield : BitField := {|
  get_bit := Z.testbit;
  get_bits x lo hi := Z.shiftr x lo mod 2 ^ (hi - lo);
  set_bit x i b := if b then Z.setbit x i else Z.clearbit x i;
  set_bits x lo hi v := Z.lor (Z.ldiff x (Z.shiftl (Z.ones (hi - lo)) lo)) (Z.shiftl v lo) |}.
Lemma small_bits x : 0 <= x -> (forall j, 32 <= j -> Z.testbit x j = false) -> 0 <= x < 2 ^ 32.
Proof.
  intros Hx Hb. split; [done|]. assert (E : x = x mod 2 ^ 32).
  { apply Z.bits_inj'. intros j Hj. destruct (decide (j < 32)); [by rewrite Z.mod_pow2_bits_low by lia|].
    rewrite Z.mod_pow2_bits_high by lia. apply Hb. lia. }
  rewrite E. apply Z.mod_pos_bound. lia.
Qed.
Lemma high_bits x j : 0 <= x < 2 ^ 32 -> 32 <= j -> Z.testbit x j = false.
Proof. intros Hx Hj. rewrite <- (Z.mod_small x (2 ^ 32)) by lia. apply Z.mod_pow2_bits_high. lia. Qed.
#[local] Instance demo_bitfield_laws : BitFieldLaws.
Proof.
  split; [done|done| |].
  - intros x i b Hx Hi. assert (Hb : forall j, 0 <= j -> Z.testbit (set_bit x i b) j = if j =? i then b else Z.testbit x j).
    { intros j Hj. cbn. destruct b.
      - rewrite Z.setbit_eqb by lia. rewrite (Z.eqb_sym i j). by destruct (j =? i).
      - rewrite Z.clearbit_eqb. rewrite (Z.eqb_sym i j). destruct (j =? i); [apply andb_false_r|apply andb_true_r]. }
    split; [|done]. apply small_bits.
    + cbn. destruct b; [apply Z.lor_nonneg; split; [lia|apply Z.shiftl_nonneg; lia]|apply Z.ldiff_nonneg; lia].
    + intros j Hj. rewrite Hb, (proj2 (Z.eqb_neq j i)) by lia. by apply high_bits.
  - intros x lo hi v Hx Hl Hh Hv. assert (Hb : forall j, 0 <= j -> Z.testbit (set_bits x lo hi v) j =
      if (lo <=? j) && (j <? hi) then Z.testbit v (j - lo) else Z.testbit x j).
    { intros j Hj. cbn. rewrite Z.lor_spec, Z.ldiff_spec, !Z.shiftl_spec by lia.
      destruct (Z.leb_spec lo j); cbn [andb].
      - rewrite Z.testbit_ones_nonneg by lia. destruct (Z.ltb_spec j hi).
        + rewrite (proj2 (Z.ltb_lt (j - lo) (hi - lo))) by lia. cbn. by rewrite andb_false_r.
        + rewrite (proj2 (Z.ltb_ge (j - lo) (hi - lo))) by lia. cbn. rewrite andb_true_r.
          rewrite <- (Z.mod_small v (2 ^ (hi - lo))), Z.mod_pow2_bits_high by lia. apply orb_false_r.
      - rewrite !(Z.testbit_neg_r _ (j - lo)) by lia. cbn. by rewrite andb_true_r, orb_false_r. }
    split; [|done]. apply small_bits.
    + cbn. apply Z.lor_nonneg. split; [apply Z.ldiff_nonneg; lia|apply Z.shiftl_nonneg; lia].
    + intros j Hj. rewrite Hb, (proj2 (Z.ltb_ge j hi)), andb_false_r by lia. by apply high_bits.
Qed.

Section demo.
#[local] Existing Instances demo_bitflags demo_bitflags_laws demo_ArrayQueue demo_ArrayQueueLaws.
(** The state after a reset, with a byte waiting in a port that is set up. *)
Definition reset_lapic : lapic := mk_lapic (fun r => if is_lvt r then 0x10000 else if decide (r = SPIV) then 0xFF else 0) 0 [36; 32].
Definition demo_uart : uart := mk_uart 3 1 0xC7 0xAE 3 0 0 [] [104; 105].
Lemma demo_wide : wide (Board.mk reset_lapic (mk_ioapic 0 (fun _ => 0x10000)) demo_uart) = true.
Proof. by vm_compute. Qed.
Definition demo_board : board := exist _ _ demo_wide.

Lemma interrupt_wiring_witness : exists h', init 4 true 0 demo_board = Ret (tt, h') /\
  IDT !! (lreg (lview h') LvtTimer mod 256) = Some (mk_gate clock_handler (Some TIMER_IST_INDEX) 0) /\
  IDT !! (ioreg (ioview h') 24 mod 256) = Some (mk_gate serial_handler None 0).
Proof.
  destruct (interrupt_wiring 4 0 3 lview ioview (fun i => 0x1000 * Z.of_nat i) demo_board) as (h' & E & (_ & _ & _ & Ht & _ & _ & Hs) & _); [lia|].
  exists h'. split; [exact E|]. split; [exact Ht|exact Hs].
Defined.
Lemma serial_interrupt_witness : exists h' q', run_serial_handler 0 COM1 (demo_board, (Input.INPUT_BUF : demo_queue)) = Ret (tt, (h', q')) /\
  queue_contents q' = [104] /\ in_service (lview h') = [32].
Proof.
  destruct (serial_interrupt 0 3 2 lview ioview uview COM1 demo_board (Input.INPUT_BUF : demo_queue)) as (h' & q' & new & E & Hl & _ & _ & Hq); [done|].
  exists h', q'. split; [exact E|]. rewrite Hl. split; [exact Hq|reflexivity].
Defined.
End demo.
