(* ===== verification/Gdt.v ===== *)
(** * Segments

    Models the descriptor table of [pkg/kernel/src/memory/gdt.rs].  The crate [x86_64] builds descriptors and tables; [DescriptorTables] is what the
    kernel uses of it, and [DescriptorTableLaws] its documented behaviour: a table has room for seven entries beside the empty one, the descriptor of a task
    state segment takes two, and a selector leads to the descriptor for which it was returned, with the descriptor's privilege level as the
    requested one. *)

From stdpp Require Import base numbers list gmap.
From S2P Require Import Prelude Bytes X86 Frames Process Interrupts.

Class DescriptorTables : Type := {
  Descriptor : Type;
  kernel_code_segment : Descriptor;
  kernel_data_segment : Descriptor;
  user_code_segment : Descriptor;
  user_data_segment : Descriptor;
  tss_segment : TaskStateSegment -> Descriptor;
  GlobalDescriptorTable : Type;
  gdt_new : GlobalDescriptorTable;
  gdt_append : Descriptor -> GlobalDescriptorTable -> outcome (Z * GlobalDescriptorTable);
  (** the descriptor that a selector selects *)
  selected : GlobalDescriptorTable -> Z -> option Descriptor;
  room : GlobalDescriptorTable -> Z;
}.
Class DescriptorTableLaws (T : DescriptorTables) : Prop := {
  room_new : room gdt_new = 7;
  selected_new sel : selected gdt_new sel = None;
  append_spec d t (width level : Z) :
    (d = kernel_code_segment \/ d = kernel_data_segment) /\ width = 1 /\ level = 0 \/
    (d = user_code_segment \/ d = user_data_segment) /\ width = 1 /\ level = 3 \/
    (exists tss, d = tss_segment tss) /\ width = 2 /\ level = 0 ->
    width <= room t ->
    exists sel t', gdt_append d t = Ret (sel, t') /\ room t' = room t - width /\ sel mod 4 = level /\ 8 <= sel < 2 ^ 16 /\
      selected t sel = None /\ selected t' sel = Some d /\ forall s, s <> sel -> selected t' s = selected t s;
}.

Record KernelSelectors : Type := { code_selector : Z; data_selector : Z; tss_selector : Z }.
Record UserSelectors : Type := { us_code_selector : Z; us_data_selector : Z }.
(** The segment registers, the descriptor table in use, and the task register. *)
Record segments : Type := { cs_reg : Z; ds_reg : Z; ss_reg : Z; es_reg : Z; fs_reg : Z; gs_reg : Z; task_reg : Z }.

Section gdt.
Context {T : DescriptorTables} (STACK : nat -> Z).
(** [GDT] *)
Definition GDT : outcome (GlobalDescriptorTable * KernelSelectors * UserSelectors) :=
  '(code_selector, gdt) ← gdt_append kernel_code_segment gdt_new;
  '(data_selector, gdt) ← gdt_append kernel_data_segment gdt;
  '(tss_selector, gdt) ← gdt_append (tss_segment (TSS STACK)) gdt;
  '(user_code_selector, gdt) ← gdt_append user_code_segment gdt;
  '(user_data_selector, gdt) ← gdt_append user_data_segment gdt;
  Ret (gdt, {| code_selector := code_selector; data_selector := data_selector; tss_selector := tss_selector |},
       {| us_code_selector := user_code_selector; us_data_selector := user_data_selector |}).
(** [SegmentSelector::new(0, Ring0)] *)
Definition null_selector : Z := 0.
(** [init]: the table that is loaded, and the registers. *)
Definition gdt_init : ST (option GlobalDescriptorTable * segments) unit := fun _ =>
  '(gdt, ks, _) ← GDT;
  Ret (tt, (Some gdt, {| cs_reg := code_selector ks; ds_reg := data_selector ks; ss_reg := null_selector; es_reg := null_selector;
                         fs_reg := null_selector; gs_reg := null_selector; task_reg := tss_selector ks |})).
(** [get_user_selector], as contexts of processes use it; the flags are those of [RFlags]. *)
Definition get_user_selector (flags no_flags : Z) (us : UserSelectors) : Selectors :=
  {| user_code_selector := us_code_selector us; user_data_selector := us_data_selector us; user_flags := flags; empty_flags := no_flags |}.

Context {TL : DescriptorTableLaws T}.
(** The segments.  Building the table cannot fail: one entry is left in it.  After [init] the processor runs with it: the code and data
    segments are the kernel's, with privilege 0, and the task register has the stacks of [TSS].  Every process starts with the selectors of
    the user segments, with privilege 3, which are other ones, so that it is user code when the kernel returns to it. *)
Theorem segments_ready s0 : exists gdt ks us, GDT = Ret (gdt, ks, us) /\ room gdt = 1 /\
  (exists r, gdt_init s0 = Ret (tt, (Some gdt, r)) /\ selected gdt (cs_reg r) = Some kernel_code_segment /\ cs_reg r mod 4 = 0 /\
     selected gdt (ds_reg r) = Some kernel_data_segment /\ ds_reg r mod 4 = 0 /\ selected gdt (task_reg r) = Some (tss_segment (TSS STACK))) /\
  NoDup [code_selector ks; data_selector ks; tss_selector ks; us_code_selector us; us_data_selector us] /\
  forall flags no_flags entry top c, let c := @Context.init_stack_frame (get_user_selector flags no_flags us) entry top c in
    selected gdt (code_segment (stack_frame c)) = Some user_code_segment /\ code_segment (stack_frame c) mod 4 = 3 /\
    selected gdt (stack_segment (stack_frame c)) = Some user_data_segment /\ stack_segment (stack_frame c) mod 4 = 3.
Proof.
  unfold gdt_init, GDT. pose proof room_new as R0.
  destruct (append_spec kernel_code_segment gdt_new 1 0) as (s1 & t1 & E1 & R1 & L1 & B1 & N1 & S1 & O1); [auto|lia|].
  destruct (append_spec kernel_data_segment t1 1 0) as (s2 & t2 & E2 & R2 & L2 & B2 & N2 & S2 & O2); [auto|lia|].
  destruct (append_spec (tss_segment (TSS STACK)) t2 2 0) as (s3 & t3 & E3 & R3 & L3 & B3 & N3 & S3 & O3); [eauto 6|lia|].
  destruct (append_spec user_code_segment t3 1 3) as (s4 & t4 & E4 & R4 & L4 & B4 & N4 & S4 & O4); [auto|lia|].
  destruct (append_spec user_data_segment t4 1 3) as (s5 & t5 & E5 & R5 & L5 & B5 & N5 & S5 & O5); [auto 6|lia|].
  rewrite E1; cbn [mbind outcome_bind]; rewrite E2; cbn [mbind outcome_bind]; rewrite E3; cbn [mbind outcome_bind]; rewrite E4; cbn [mbind outcome_bind];
    rewrite E5; cbn [mbind outcome_bind].
  assert (s2 <> s1) by (intros ->; congruence). assert (s3 <> s2) by (intros ->; congruence). assert (s4 <> s3) by (intros ->; congruence).
  assert (s5 <> s4) by (intros ->; congruence). assert (s3 <> s1) by (intros ->; rewrite O2 in N3 by done; congruence).
  assert (s4 <> s2) by (intros ->; rewrite O3 in N4 by done; congruence). assert (s5 <> s3) by (intros ->; rewrite O4 in N5 by done; congruence).
  assert (s4 <> s1) by (intros ->; rewrite O3, O2 in N4 by done; congruence). assert (s5 <> s2) by (intros ->; rewrite O4, O3 in N5 by done; congruence).
  assert (s5 <> s1) by (intros ->; rewrite O4, O3, O2 in N5 by done; congruence).
  do 3 eexists. split; [reflexivity|]. split; [lia|]. split; [|split].
  - eexists. split; [reflexivity|]. cbn. rewrite (O5 s1), (O4 s1), (O3 s1), (O2 s1) by done. rewrite (O5 s2), (O4 s2), (O3 s2) by done. by rewrite (O5 s3), (O4 s3) by done.
  - cbn. rewrite !NoDup_cons, !not_elem_of_cons. split_and!; try done; try apply not_elem_of_nil; try apply NoDup_nil_2; by apply not_eq_sym.
  - cbn. intros _ _ _ _ _. by rewrite (O5 s4) by done.
Qed.
End gdt.

(** ** A table as a list of entries *)
Module Entries.
Inductive descriptor : Type := KCode | KData | UCode | UData | Tss (t : TaskStateSegment).
Definition width (d : descriptor) : nat := match d with Tss _ => 2 | _ => 1 end.
Definition level (d : descriptor) : Z := match d with UCode | UData => 3 | _ => 0 end.
(** The entries behind the empty one; the second entry of a wide descriptor is [None]. *)
Definition entries (d : descriptor) : list (option descriptor) := Some d :: replicate (width d - 1) None.
Definition append (d : descriptor) (t : list (option descriptor)) : outcome (Z * list (option descriptor)) :=
  if decide (length t + width d <= 7)%nat then Ret (8 * (1 + zlen t) + level d, t ++ entries d) else Panic.
Definition select (t : list (option descriptor)) (sel : Z) : option descriptor :=
  d ← mjoin (t !! (Z.to_nat (sel / 8 - 1)));
  if decide (8 <= sel /\ sel mod 8 = level d) then Some d else None.
Lemma level_range d : 0 <= level d < 8.
Proof. destruct d; cbn; lia. Qed.
Lemma length_entries d : length (entries d) = width d.
Proof. by destruct d. Qed.
Lemma lookup_entries d i e : entries d !! S i = Some e -> e = None.
Proof. destruct d; cbn; try done. by destruct i as [|[|i]]; intros [= <-]. Qed.
(** Appending changes what one selector selects. *)
Lemma select_append d t sel : select (t ++ entries d) sel = if decide (sel = 8 * (1 + zlen t) + level d) then Some d else select t sel.
Proof.
  unfold select, zlen. pose proof (level_range d) as Hl. destruct (decide (sel = _)) as [->|Hne].
  - replace (Z.to_nat _) with (length t) by zdiv. rewrite lookup_app_r, Nat.sub_diag by done. cbn. rewrite decide_True; [done|]. zdiv.
  - destruct (decide (Z.to_nat (sel / 8 - 1) < length t)%nat) as [Hlt|Hge]; [by rewrite lookup_app_l|].
    rewrite lookup_app_r, (lookup_ge_None_2 t) by lia. destruct (Z.to_nat (sel / 8 - 1) - length t)%nat as [|i] eqn:Ei.
    + cbn. rewrite decide_False; [done|]. intros [H1 H2]. apply Hne. zdiv.
    + destruct (entries d !! S i) as [e|] eqn:Ee; [|done]. by rewrite (lookup_entries _ _ _ Ee).
Qed.
End Entries.
#[local] Instance demo_tables : DescriptorTables := {|
  Descriptor := Entries.descriptor; kernel_code_segment := Entries.KCode; kernel_data_segment := Entries.KData; user_code_segment := Entries.UCode;
  user_data_segment := Entries.UData; tss_segment := Entries.Tss; GlobalDescriptorTable := list (option Entries.descriptor); gdt_new := [];
  gdt_append := Entries.append; selected := Entries.select; room t := 7 - zlen t |}.
#[local] Instance demo_table_laws : DescriptorTableLaws demo_tables.
Proof.
  split; [done|by intros|]. intros d t w l Hd Hw. cbn in *.
  assert (Hwl : w = Z.of_nat (Entries.width d) /\ l = Entries.level d) by (destruct Hd as [([-> | ->] & -> & ->)|[([-> | ->] & -> & ->)|([x ->] & -> & ->)]]; done).
  destruct Hwl as [-> ->]. unfold zlen in Hw. unfold Entries.append. rewrite decide_True by lia. do 2 eexists. split; [reflexivity|]. pose proof (Entries.level_range d).
  assert (Hm : Entries.level d mod 4 = Entries.level d) by by destruct d. unfold zlen. rewrite length_app, Entries.length_entries.
  split; [lia|]. split; [rewrite <- Hm at 2; zdiv|]. split; [lia|]. split; [|split].
  - unfold Entries.select. replace (Z.to_nat _) with (length t) by zdiv. by rewrite (lookup_ge_None_2 t).
  - by rewrite Entries.select_append, decide_True.
  - intros s Hs. by rewrite Entries.select_append, decide_False.
Qed.
Lemma segments_ready_witness : exists gdt ks us, GDT (fun i => 0x1000 * Z.of_nat i) = Ret (gdt, ks, us) /\ us = {| us_code_selector := 0x2b; us_data_selector := 0x33 |} /\
  selected gdt 0x2b = Some user_code_segment.
Proof.
  destruct (segments_ready (fun i => 0x1000 * Z.of_nat i) (None, {| cs_reg := 0; ds_reg := 0; ss_reg := 0; es_reg := 0; fs_reg := 0; gs_reg := 0; task_reg := 0 |}))
    as (gdt & ks & us & E & _ & _ & _ & Hu).
  exists gdt, ks, us. split; [exact E|]. assert (Eu : us = {| us_code_selector := 0x2b; us_data_selector := 0x33 |}) by (vm_compute in E; by injection E).
  split; [exact Eu|]. subst us. exact (proj1 (Hu 0 0 0 0 {| regs := {| r15 := 0; r14 := 0; r13 := 0; r12 := 0; r11 := 0; r10 := 0; r9 := 0; r8 := 0;
    rdi := 0; rsi := 0; rdx := 0; rcx := 0; rbx := 0; rax := 0; rbp := 0 |};
    stack_frame := {| instruction_pointer := 0; code_segment := 0; cpu_flags := 0; stack_pointer := 0; stack_segment := 0 |} |})).
Defined.
