(* ===== verification/KernelInit.v ===== *)
(** * The start of the kernel

    Models [init] and [spawn_init] of [pkg/kernel/src/{lib,main}.rs]: the components set up one after the other, on the state of the kernel
    and on the hardware.  The steps that only set up a crate (the log, the descriptor table, the kernel's own heap) leave no trace in the
    state, and [shutdown] is a call of the firmware. *)

From stdpp Require Import base numbers list gmap.
From S2P Require Import Prelude Bytes Device Str Fat16Name Fat16Entry Fat16Fs Fat16File Rootfs Size Ata Uart Apic X86 Frames ElfMap Boot Sync Resource Vm HeapLife Process Manager Syscall Interrupts.

Section state.
Context {M D Q : Type} {L : Log} {X : X86} {MM : Machine M} {PF : Platform M} {BD : BlockDevice D}
  {C : Chrono} {BF : Bitflags} {UT : UnicodeTable} {AQ : ArrayQueue Q} {SE : Selectors}
  {EP : ElfParser}.
Abbreviation K := (ST (Kernel M D Q)).

(** [memory::address::init] *)
Definition address_init (offset : Z) : K unit := on_sys (st_modify (set_physical_offset offset)).
(** The second half of [memory::init]: the frame allocator, then the heap of user programs. *)
Definition install (a : BootInfoFrameAllocator) : K unit :=
  on_sys (st_modify (set_frame_alloc a));;
  on_sys (mem_op (UserHeap.init heap_init)).
(** [memory::init]; printing a size that rounds to a tebibyte or more panics ([Size.v]). *)
Definition memory_mod_init `{Uefi} (memory_map : list MemoryDescriptor) : K unit :=
  let '(mem_size, usable_mem_size) := memory_sizes memory_map in
  _ ← st_lift (humanized_size (u64 (mem_size * PAGE_SIZE)));
  _ ← st_lift (humanized_size (u64 (usable_mem_size * PAGE_SIZE)));
  install (memory_init memory_map).
(** [ROOTFS.call_once] *)
Definition set_root (fs : Mount.t (Fat16Impl D)) : K unit := st_modify (set_rootfs fs).
(** [spawn_init]: the path is [app/sh]. *)
Definition spawn_init (fuel units : nat) : K Z :=
  pid ← Proc.spawn fuel units [97; 112; 112; 47; 115; 104]; st_lift (unwrap pid).

(** ** [init], with the hardware *)
Context {H : Type} {IO : PortIO H} {MI : Mmio H} {BFI : BitField}.
(** [polls] bounds the wait for the interrupt controller; [supported] is the answer of the processor to [XApic::support]; [mount] is [filesystem::init]. *)
Context (polls : nat) (supported : bool) (mount : ST H (Mount.t (Fat16Impl D))).
Definition on_kernel {A} (m : K A) : ST (Kernel M D Q * H) A := fun s => '(a, k) ← m s.1; Ret (a, (k, s.2)).
Definition on_hardware {A} (m : ST H A) : ST (Kernel M D Q * H) A := fun s => '(a, h) ← m s.2; Ret (a, (s.1, h)).
(** [init], without the calls whose state is not part of this model: the logger ([Logger.v]), the firmware's runtime table, the descriptor
    tables ([Gdt.v]), the allocator of the kernel's heap, and [grow_stack()], which tests the kernel's own stack by writing to it. *)
Definition kernel_init `{Uefi} (boot_info : BootInfo) : ST (Kernel M D Q * H) unit :=
  on_hardware (SerialPort.init COM1);;
  on_kernel (address_init (info_offset boot_info));;
  on_kernel (Proc.init (kernel_pages boot_info));;
  on_kernel (memory_mod_init (memory_map boot_info));;
  on_hardware (init polls supported (info_offset boot_info));;
  fs ← on_hardware mount;
  on_kernel (set_root fs).
End state.

(** [filesystem::init] on a disk: [open] is [AtaDrive::open(0, 0)]. *)
Definition mount_disk {D H} `{BlockDevice D} (open : ST H (option D)) : ST H (Mount.t (Fat16Impl (Partition.t D))) :=
  drive ← open; st_lift (filesystem_init drive).
