(* ===== verification/Sched.v ===== *)
(** * The scheduler, abstractly

    What the process manager promises: a state of process statuses, a ready queue
    and places where processes wait, and the transitions that the kernel's
    operations make on it.  [KernelRef.v] shows that the operations of [Manager.v]
    make exactly these transitions; here are the transitions' own properties. *)

From stdpp Require Import base numbers list gmap sets.
From S2P Require Import Prelude Bytes Sync Process Manager Vm.

Record Sched : Type := {
  a_status : gmap Z ProgramStatus;
  a_queue : list Z;
  a_wait : gmap Z (list Z);
  a_sems : gmap Z SemSet.t;
  a_cur : Z;
  a_counter : Z;
}.

(** The processor is given to the first ready process of the queue; those before it
    (dead ones) go to the end. *)
Inductive dispatch (s : Sched) : Sched -> Prop :=
| dispatch_intro pre pid post :
    a_queue s = pre ++ pid :: post ->
    Forall (fun p => a_status s !! p <> Some Ready) pre ->
    a_status s !! pid = Some Ready ->
    dispatch s {| a_status := <[pid := Running]> (a_status s); a_queue := post ++ pre;
                  a_wait := a_wait s; a_sems := a_sems s; a_cur := pid;
                  a_counter := a_counter s |}.

(** Status after [save]. *)
Definition requeued (st : ProgramStatus) : ProgramStatus :=
  if decide (st = Dead) then Dead else Ready.

Definition set_all (st : ProgramStatus) (ps : list Z) (m : gmap Z ProgramStatus)
    : gmap Z ProgramStatus := fold_left (fun m p => <[p := st]> m) ps m.

Inductive sched_event : Type :=
| ESwitch | EFork | EExit | EWait (target : Z) | ESemWait (ref key : Z) | ESemSignal (ref key : Z)
| ENewSem (ref key value : Z) | ERemoveSem (ref key : Z) | ESpawn (sems_ref : Z) | EDie | EQuiet.

Inductive sched_step : sched_event -> Sched -> Sched -> Prop :=
| step_switch s st s' :
    a_status s !! a_cur s = Some st ->
    dispatch {| a_status := <[a_cur s := requeued st]> (a_status s);
                a_queue := a_queue s ++ [a_cur s]; a_wait := a_wait s; a_sems := a_sems s;
                a_cur := a_cur s; a_counter := a_counter s |} s' ->
    sched_step ESwitch s s'
| step_fork s st s' :
    a_status s !! a_cur s = Some st ->
    let child := u16 (a_counter s + 1) in
    dispatch {| a_status := <[child := Ready]> (<[a_cur s := requeued st]> (a_status s));
                a_queue := a_queue s ++ [child; a_cur s]; a_wait := a_wait s; a_sems := a_sems s;
                a_cur := a_cur s; a_counter := child |} s' ->
    sched_step EFork s s'
| step_exit s st s' :
    a_status s !! a_cur s = Some st ->
    let ws := default [] (a_wait s !! a_cur s) in
    Forall (fun w => is_Some (a_status s !! w)) ws ->
    dispatch {| a_status := <[a_cur s := Dead]> (set_all Ready ws (a_status s));
                a_queue := a_queue s ++ ws; a_wait := delete (a_cur s) (a_wait s);
                a_sems := a_sems s; a_cur := a_cur s; a_counter := a_counter s |} s' ->
    sched_step EExit s s'
| step_wait s target st s' :
    a_status s !! target = Some st -> st <> Dead ->
    dispatch {| a_status := <[a_cur s := Blocked]> (a_status s); a_queue := a_queue s;
                a_wait := <[target := set_insert (a_cur s) (default [] (a_wait s !! target))]>
                            (a_wait s);
                a_sems := a_sems s; a_cur := a_cur s; a_counter := a_counter s |} s' ->
    sched_step (EWait target) s s'
| step_wait_dead s target :
    a_status s !! target = Some Dead ->
    sched_step (EWait target) s s
| step_sem_block s ref key set set' pid s' :
    a_sems s !! ref = Some set -> SemSet.wait key (a_cur s) set = (Block pid, set') ->
    dispatch {| a_status := <[a_cur s := Blocked]> (a_status s); a_queue := a_queue s;
                a_wait := a_wait s; a_sems := <[ref := set']> (a_sems s);
                a_cur := a_cur s; a_counter := a_counter s |} s' ->
    sched_step (ESemWait ref key) s s'
| step_sem_pass s ref key set set' r :
    a_sems s !! ref = Some set -> SemSet.wait key (a_cur s) set = (r, set') ->
    (r = SemOk \/ r = NotExist) ->
    sched_step (ESemWait ref key) s
      {| a_status := a_status s; a_queue := a_queue s; a_wait := a_wait s;
         a_sems := <[ref := set']> (a_sems s); a_cur := a_cur s; a_counter := a_counter s |}
| step_sem_wake s ref key set set' pid :
    a_sems s !! ref = Some set -> SemSet.signal key set = (WakeUp pid, set') ->
    is_Some (a_status s !! pid) ->
    sched_step (ESemSignal ref key) s
      {| a_status := <[pid := Ready]> (a_status s); a_queue := a_queue s ++ [pid];
         a_wait := a_wait s; a_sems := <[ref := set']> (a_sems s); a_cur := a_cur s;
         a_counter := a_counter s |}
| step_sem_signal s ref key set set' r :
    a_sems s !! ref = Some set -> SemSet.signal key set = (r, set') ->
    (r = SemOk \/ r = NotExist) ->
    sched_step (ESemSignal ref key) s
      {| a_status := a_status s; a_queue := a_queue s; a_wait := a_wait s;
         a_sems := <[ref := set']> (a_sems s); a_cur := a_cur s; a_counter := a_counter s |}
| step_new_sem s ref key value set :
    a_sems s !! ref = Some set ->
    sched_step (ENewSem ref key value) s
      {| a_status := a_status s; a_queue := a_queue s; a_wait := a_wait s;
         a_sems := <[ref := (SemSet.insert key value set).2]> (a_sems s); a_cur := a_cur s;
         a_counter := a_counter s |}
| step_remove_sem s ref key set :
    a_sems s !! ref = Some set ->
    sched_step (ERemoveSem ref key) s
      {| a_status := a_status s; a_queue := a_queue s; a_wait := a_wait s;
         a_sems := <[ref := (SemSet.remove key set).2]> (a_sems s); a_cur := a_cur s;
         a_counter := a_counter s |}
| step_spawn s r :
    let child := u16 (a_counter s + 1) in
    sched_step (ESpawn r) s
      {| a_status := <[child := Ready]> (a_status s); a_queue := a_queue s ++ [child];
         a_wait := a_wait s; a_sems := <[r := SemSet.new]> (a_sems s); a_cur := a_cur s;
         a_counter := child |}
| step_die s st :
    a_status s !! a_cur s = Some st ->
    sched_step EDie s
      {| a_status := <[a_cur s := Dead]> (a_status s); a_queue := a_queue s; a_wait := a_wait s;
         a_sems := a_sems s; a_cur := a_cur s; a_counter := a_counter s |}
| step_quiet s : sched_step EQuiet s s.

(** ** Where processes wait *)
Inductive place : Type := AtProc (pid : Z) | AtSem (ref key : Z).
Global Instance place_eq_dec : EqDecision place.
Proof. solve_decision. Defined.

Definition sem_queue (sems : gmap Z SemSet.t) (ref key : Z) : list Z :=
  match sems !! ref with
  | Some set => match set !! key with Some sem => wait_queue sem | None => [] end
  | None => []
  end.
Definition waits (s : Sched) (l : place) : list Z :=
  match l with
  | AtProc pid => default [] (a_wait s !! pid)
  | AtSem ref key => sem_queue (a_sems s) ref key
  end.

(** What holds between operations.  [core] is what holds also while no process is on
    the processor. *)
Record core (s : Sched) : Prop := {
  core_nodup : NoDup (a_queue s);
  core_queue p : p ∈ a_queue s -> a_status s !! p = Some Ready \/ a_status s !! p = Some Dead;
  core_ready p : a_status s !! p = Some Ready -> p ∈ a_queue s;
  core_wait_nodup l : NoDup (waits s l);
  core_wait_blocked l p : p ∈ waits s l -> a_status s !! p = Some Blocked;
  core_wait_once l l' p : p ∈ waits s l -> p ∈ waits s l' -> l = l';
  core_pids p : is_Some (a_status s !! p) -> 1 <= p <= a_counter s;
  core_counter : 1 <= a_counter s < 2 ^ 16;
}.

Record sched_inv (s : Sched) : Prop := {
  inv_core : core s;
  inv_cur : a_status s !! a_cur s = Some Running \/ a_status s !! a_cur s = Some Dead;
  inv_cur_queue : a_cur s ∉ a_queue s;
  inv_running p : a_status s !! p = Some Running -> p = a_cur s;
  inv_kernel : a_status s !! KERNEL_PID = Some Ready \/ a_status s !! KERNEL_PID = Some Running;
}.

(** The kernel process makes no system call that blocks or ends it, it is not
    killed, and process numbers have not run out. *)
Definition allowed (e : sched_event) (s : Sched) : Prop :=
  match e with
  | EExit | EWait _ | ESemWait _ _ | EDie => a_cur s <> KERNEL_PID
  | EFork | ESpawn _ => a_counter s + 1 < 2 ^ 16
  | _ => True
  end.

(** ** Preservation *)

Lemma dispatch_inv s s' :
  core s -> (forall p, a_status s !! p <> Some Running) ->
  a_status s !! KERNEL_PID = Some Ready -> dispatch s s' -> sched_inv s'.
Proof.
  intros Hc Hnr Hk Hd. destruct Hd as [pre pid post Eq Hpre Hpid].
  pose proof (core_nodup s Hc) as Hnd. rewrite Eq in Hnd.
  assert (Hperm : pre ++ pid :: post ≡ₚ pid :: post ++ pre)
    by (rewrite <- Permutation_middle; by rewrite (Permutation_app_comm pre)).
  rewrite Hperm in Hnd. apply NoDup_cons in Hnd as [Hnin Hnd].
  assert (Hq : forall p, p ∈ a_queue s <-> p = pid \/ p ∈ post ++ pre).
  { intros p. rewrite Eq, Hperm. apply elem_of_cons. }
  split; [split|..]; cbn [a_status a_queue a_wait a_sems a_cur a_counter].
  - done.
  - intros p Hp. rewrite lookup_insert_ne by (intros ->; done).
    apply (core_queue s Hc), Hq. auto.
  - intros p. destruct (decide (p = pid)) as [->|Hne]; [by rewrite lookup_insert_eq|].
    rewrite lookup_insert_ne by done. intros Hp%(core_ready s Hc)%Hq. by destruct Hp.
  - intros l. apply (core_wait_nodup s Hc l).
  - intros l p Hp. pose proof (core_wait_blocked s Hc l p Hp) as Hb.
    rewrite lookup_insert_ne; [done|]. intros ->. congruence.
  - intros l l' p. apply (core_wait_once s Hc l l' p).
  - intros p. destruct (decide (p = pid)) as [->|Hne].
    + intros _. apply (core_pids s Hc). eauto.
    + rewrite lookup_insert_ne by done. apply (core_pids s Hc).
  - apply (core_counter s Hc).
  - rewrite lookup_insert_eq. auto.
  - done.
  - intros p. destruct (decide (p = pid)) as [->|Hne]; [done|].
    rewrite lookup_insert_ne by done. intros Hp. by apply Hnr in Hp.
  - destruct (decide (pid = KERNEL_PID)) as [->|Hne].
    + rewrite lookup_insert_eq. auto.
    + rewrite lookup_insert_ne by done. auto.
Qed.

(** A ready process in the queue is found. *)
Lemma dispatch_exists s p :
  p ∈ a_queue s -> a_status s !! p = Some Ready -> exists s', dispatch s s'.
Proof.
  intros Hin Hp.
  assert (Hsplit : forall q, p ∈ q -> exists pre pid post, q = pre ++ pid :: post /\
    Forall (fun p => a_status s !! p <> Some Ready) pre /\ a_status s !! pid = Some Ready).
  { induction q as [|x q IH]; [by intros ?%elem_of_nil|]. intros Hx.
    destruct (decide (a_status s !! x = Some Ready)) as [Hr|Hr].
    - exists [], x, q. split_and!; done || constructor.
    - apply elem_of_cons in Hx as [->|Hx]; [done|].
      destruct (IH Hx) as (pre & pid & post & -> & Hpre & Hpid).
      exists (x :: pre), pid, post. split_and!; done || by constructor. }
  destruct (Hsplit _ Hin) as (pre & pid & post & E & Hpre & Hpid).
  eexists. by econstructor.
Qed.

Lemma set_insert_elem x y l : y ∈ set_insert x l <-> y = x \/ y ∈ l.
Proof.
  induction l as [|z l IH]; cbn; [rewrite elem_of_cons; tauto|].
  destruct (Z.ltb_spec x z); [rewrite elem_of_cons; tauto|].
  destruct (Z.eqb_spec x z) as [->|]; rewrite !elem_of_cons; [tauto|].
  rewrite IH. tauto.
Qed.

Lemma set_insert_NoDup x l : x ∉ l -> NoDup l -> NoDup (set_insert x l).
Proof.
  induction l as [|z l IH]; cbn; intros Hx Hnd; [apply NoDup_singleton|].
  destruct (Z.ltb_spec x z); [by constructor|].
  destruct (Z.eqb_spec x z); [done|].
  apply not_elem_of_cons in Hx as [_ Hx]. apply NoDup_cons in Hnd as [Hz Hnd].
  constructor; [|by apply IH]. rewrite set_insert_elem. intros [->|?]; [lia|done].
Qed.

Lemma set_all_lookup st ps m p :
  set_all st ps m !! p = if decide (p ∈ ps) then Some st else m !! p.
Proof.
  unfold set_all. revert m. induction ps as [|x ps IH]; intros m; cbn [fold_left].
  - by rewrite decide_False by apply not_elem_of_nil.
  - rewrite IH. destruct (decide (p = x)) as [->|Hne].
    + rewrite lookup_insert_eq, (decide_True (P := x ∈ x :: ps)) by (apply elem_of_cons; auto).
      by destruct (decide _).
    + rewrite lookup_insert_ne by done. destruct (decide (p ∈ ps)) as [Hp|Hp].
      * by rewrite decide_True by (apply elem_of_cons; auto).
      * rewrite decide_False; [done|]. by apply not_elem_of_cons.
Qed.

(** Taking a process aside: a status that is not [Ready], the queue unchanged. *)
Lemma core_park s p st :
  core s -> is_Some (a_status s !! p) -> p ∉ a_queue s -> (forall l, p ∉ waits s l) -> st <> Ready ->
  core {| a_status := <[p := st]> (a_status s); a_queue := a_queue s; a_wait := a_wait s;
          a_sems := a_sems s; a_cur := a_cur s; a_counter := a_counter s |}.
Proof.
  intros Hc Hp Hnq Hnw Hst. split; cbn [a_status a_queue a_wait a_sems a_cur a_counter].
  - apply (core_nodup s Hc).
  - intros x Hx. rewrite lookup_insert_ne by (intros ->; done). by apply (core_queue s Hc).
  - intros x. destruct (decide (x = p)) as [->|Hne].
    + rewrite lookup_insert_eq. congruence.
    + rewrite lookup_insert_ne by done. apply (core_ready s Hc).
  - apply (core_wait_nodup s Hc).
  - intros l x Hx. rewrite lookup_insert_ne by (intros ->; by eapply Hnw).
    by eapply (core_wait_blocked s Hc).
  - apply (core_wait_once s Hc).
  - intros x. destruct (decide (x = p)) as [->|Hne]; [intros _; by apply (core_pids s Hc)|].
    rewrite lookup_insert_ne by done. apply (core_pids s Hc).
  - apply (core_counter s Hc).
Qed.

(** Queueing a process that is ready (or dead: the timer queues those too). *)
Lemma core_enqueue s p st :
  core s -> 1 <= p <= a_counter s -> p ∉ a_queue s -> (forall l, p ∉ waits s l) ->
  st = Ready \/ st = Dead ->
  core {| a_status := <[p := st]> (a_status s); a_queue := a_queue s ++ [p]; a_wait := a_wait s;
          a_sems := a_sems s; a_cur := a_cur s; a_counter := a_counter s |}.
Proof.
  intros Hc Hp Hnq Hnw Hst. split; cbn [a_status a_queue a_wait a_sems a_cur a_counter].
  - apply NoDup_app; split_and!; [apply (core_nodup s Hc)| |apply NoDup_singleton].
    intros x Hx ->%list_elem_of_singleton. done.
  - intros x [Hx| ->%list_elem_of_singleton]%elem_of_app.
    + rewrite lookup_insert_ne by (intros ->; done). by apply (core_queue s Hc).
    + rewrite lookup_insert_eq. destruct Hst as [->| ->]; auto.
  - intros x Hx. apply elem_of_app. destruct (decide (x = p)) as [->|Hne].
    + right. by apply list_elem_of_singleton.
    + rewrite lookup_insert_ne in Hx by done. left. by apply (core_ready s Hc).
  - apply (core_wait_nodup s Hc).
  - intros l x Hx. rewrite lookup_insert_ne by (intros ->; by eapply Hnw).
    by eapply (core_wait_blocked s Hc).
  - apply (core_wait_once s Hc).
  - intros x. destruct (decide (x = p)) as [->|Hne]; [by intros _|].
    rewrite lookup_insert_ne by done. apply (core_pids s Hc).
  - apply (core_counter s Hc).
Qed.

(** Changing the places where processes wait, removing waiters or adding the
    blocked process [new] to one place. *)
Lemma core_waits s w sems :
  core s ->
  (forall l, NoDup (waits {| a_status := a_status s; a_queue := a_queue s; a_wait := w;
     a_sems := sems; a_cur := a_cur s; a_counter := a_counter s |} l)) ->
  (forall l p, p ∈ waits {| a_status := a_status s; a_queue := a_queue s; a_wait := w;
     a_sems := sems; a_cur := a_cur s; a_counter := a_counter s |} l ->
     p ∈ waits s l \/ a_status s !! p = Some Blocked /\ (forall l', p ∉ waits s l') /\
       forall l', p ∈ waits {| a_status := a_status s; a_queue := a_queue s; a_wait := w;
         a_sems := sems; a_cur := a_cur s; a_counter := a_counter s |} l' -> l' = l) ->
  core {| a_status := a_status s; a_queue := a_queue s; a_wait := w; a_sems := sems;
          a_cur := a_cur s; a_counter := a_counter s |}.
Proof.
  intros Hc Hnd Hw. split; cbn [a_status a_queue a_counter]; try apply Hc; try done.
  - intros l p Hp. destruct (Hw l p Hp) as [Hin|[Hb _]]; [by eapply (core_wait_blocked s Hc)|done].
  - intros l l' p Hl Hl'. destruct (Hw l p Hl) as [Hin|(_ & _ & Ho)]; [|symmetry; by apply Ho].
    destruct (Hw l' p Hl') as [Hin'|(_ & Hn & _)]; [by eapply (core_wait_once s Hc)|].
    by apply Hn in Hin.
Qed.

Lemma sem_queue_insert sems ref set set' ref' key' :
  sems !! ref = Some set ->
  sem_queue (<[ref := set']> sems) ref' key' =
  if decide (ref' = ref)
  then match set' !! key' with Some sem => wait_queue sem | None => [] end
  else sem_queue sems ref' key'.
Proof.
  intros Hs. unfold sem_queue. destruct (decide (ref' = ref)) as [->|Hne].
  - by rewrite lookup_insert_eq.
  - by rewrite lookup_insert_ne.
Qed.

(** How the operations on semaphores move the wait queues. *)
Lemma sem_wait_queues sems ref set key p r set' :
  sems !! ref = Some set -> SemSet.wait key p set = (r, set') ->
  (r = Block p \/ r = SemOk \/ r = NotExist) /\
  forall ref' key', sem_queue (<[ref := set']> sems) ref' key' =
    if decide (r = Block p /\ ref' = ref /\ key' = key)
    then sem_queue sems ref' key' ++ [p] else sem_queue sems ref' key'.
Proof.
  intros Hs Hw. unfold SemSet.wait in Hw. destruct (set !! key) as [sem|] eqn:Ek.
  - unfold Sem.wait in Hw. destruct (count sem =? 0); injection Hw as <- <-; (split; [auto|]);
      intros ref' key'; rewrite (sem_queue_insert _ _ set) by done; unfold sem_queue;
      destruct (decide (ref' = ref)) as [->|Hr]; rewrite ?Hs;
      try (by rewrite decide_False by tauto); (destruct (decide (key' = key)) as [->|Hk]);
      rewrite ?lookup_insert_eq, ?lookup_insert_ne by done; rewrite ?Ek;
      try (by rewrite decide_False by (intros (? & ? & ?); congruence)); by rewrite decide_True.
  - injection Hw as <- <-. split; [auto|]. intros ref' key'.
    rewrite decide_False by (by intros [? _]). by rewrite insert_id.
Qed.

Lemma sem_signal_queues sems ref set key r set' :
  sems !! ref = Some set -> SemSet.signal key set = (r, set') ->
  (r = SemOk \/ r = NotExist \/ exists p, r = WakeUp p) /\
  (forall p, r = WakeUp p -> sem_queue sems ref key = p :: sem_queue (<[ref := set']> sems) ref key) /\
  (forall ref' key', (ref', key') <> (ref, key) \/ (forall p, r <> WakeUp p) ->
     sem_queue (<[ref := set']> sems) ref' key' = sem_queue sems ref' key').
Proof.
  intros Hs Hw. unfold SemSet.signal in Hw. destruct (set !! key) as [sem|] eqn:Ek.
  - unfold Sem.signal in Hw.
    assert (Hother : forall set'' sem'', set'' = <[key := sem'']> set ->
      forall ref' key', (ref', key') <> (ref, key) \/ wait_queue sem'' = wait_queue sem ->
      sem_queue (<[ref := set'']> sems) ref' key' = sem_queue sems ref' key').
    { intros set'' sem'' -> ref' key' Hne. rewrite (sem_queue_insert _ _ set) by done.
      unfold sem_queue. destruct (decide (ref' = ref)) as [->|Hr]; [|done]. rewrite Hs.
      destruct (decide (key' = key)) as [->|Hk].
      - rewrite lookup_insert_eq, Ek. by destruct Hne.
      - by rewrite lookup_insert_ne. }
    destruct (wait_queue sem) as [|p q] eqn:Eq; injection Hw as <- <-.
    + split; [auto|]. split; [done|]. intros ref' key' Hne. eapply Hother; [done|]. right. done.
    + split; [eauto|]. split.
      * intros p' [= <-]. rewrite (sem_queue_insert _ _ set), decide_True, lookup_insert_eq by done.
        unfold sem_queue. by rewrite Hs, Ek.
      * intros ref' key' [Hne|Hne]; [|by destruct (Hne p)]. eapply Hother; [done|]. auto.
  - injection Hw as <- <-. split; [auto|]. split; [done|]. intros. by rewrite insert_id.
Qed.

Lemma sem_reset_queues sems ref set key set' ref' key' :
  sems !! ref = Some set ->
  set' !! key = None \/ (exists v, set' !! key = Some (Sem.new v)) ->
  (forall k, k <> key -> set' !! k = set !! k) ->
  sem_queue (<[ref := set']> sems) ref' key' =
  if decide (ref' = ref /\ key' = key) then [] else sem_queue sems ref' key'.
Proof.
  intros Hs Hk Ho. rewrite (sem_queue_insert _ _ set) by done. unfold sem_queue.
  destruct (decide (ref' = ref)) as [->|Hr]; [|by rewrite decide_False by tauto].
  destruct (decide (key' = key)) as [->|Hne].
  - rewrite decide_True by done. by destruct Hk as [->|[v ->]].
  - rewrite decide_False by tauto. by rewrite Ho, Hs.
Qed.

(** Facts about the running process. *)
Lemma cur_not_waiting s l : sched_inv s -> a_cur s ∉ waits s l.
Proof.
  intros Hi Hp%(core_wait_blocked s (inv_core s Hi)). destruct (inv_cur s Hi); congruence.
Qed.

Lemma kernel_ready s : sched_inv s -> a_cur s <> KERNEL_PID -> a_status s !! KERNEL_PID = Some Ready.
Proof.
  intros Hi Hne. destruct (inv_kernel s Hi) as [?|Hr]; [done|]. by apply (inv_running s Hi) in Hr.
Qed.

Lemma core_enqueue_all s ps :
  core s -> NoDup ps -> (forall p, p ∈ ps -> is_Some (a_status s !! p) /\ p ∉ a_queue s) ->
  (forall p l, p ∈ ps -> p ∉ waits s l) ->
  core {| a_status := set_all Ready ps (a_status s); a_queue := a_queue s ++ ps;
          a_wait := a_wait s; a_sems := a_sems s; a_cur := a_cur s; a_counter := a_counter s |}.
Proof.
  revert s. induction ps as [|p ps IH]; intros s Hc Hnd Hin Hnw.
  - rewrite app_nil_r. by destruct s.
  - apply NoDup_cons in Hnd as [Hp Hnd].
    destruct (Hin p ltac:(apply elem_of_cons; auto)) as [Hs Hq].
    assert (Hnp : forall l, p ∉ waits s l) by (intros l; apply Hnw, elem_of_cons; auto).
    pose proof (core_enqueue s p Ready Hc (core_pids s Hc p Hs) Hq Hnp (or_introl eq_refl)) as Hc1.
    apply IH in Hc1; [|done| |].
    + cbn [a_status a_queue a_wait a_sems a_cur a_counter] in Hc1.
      rewrite <- app_assoc in Hc1. exact Hc1.
    + intros q Hqs. cbn [a_status a_queue]. assert (q <> p) by (intros ->; done).
      destruct (Hin q ltac:(apply elem_of_cons; auto)) as [? ?].
      rewrite lookup_insert_ne by done. split; [done|].
      rewrite elem_of_app, list_elem_of_singleton. tauto.
    + intros q l Hqs. change (q ∉ waits s l). apply Hnw, elem_of_cons. auto.
Qed.

Lemma core_set_counter s n :
  core s -> a_counter s <= n < 2 ^ 16 ->
  core {| a_status := a_status s; a_queue := a_queue s; a_wait := a_wait s; a_sems := a_sems s;
          a_cur := a_cur s; a_counter := n |}.
Proof.
  intros Hc Hn. pose proof (core_counter s Hc).
  split; cbn [a_status a_queue a_counter]; try apply Hc; [|lia].
  intros p Hp%(core_pids s Hc). lia.
Qed.

Lemma fresh_pid s : core s -> a_counter s + 1 < 2 ^ 16 ->
  let c := u16 (a_counter s + 1) in
  c = a_counter s + 1 /\ a_status s !! c = None /\ (c ∉ a_queue s) /\ (forall l, c ∉ waits s l).
Proof.
  intros Hc Hn c. pose proof (core_counter s Hc). assert (Ec : c = a_counter s + 1).
  { unfold c. rewrite wrap_small; lia. }
  assert (Hf : a_status s !! c = None).
  { apply eq_None_not_Some. intros Hs%(core_pids s Hc). lia. }
  split; [done|]. split; [done|]. split.
  - intros Hq. destruct (core_queue s Hc c Hq); congruence.
  - intros l Hl%(core_wait_blocked s Hc). congruence.
Qed.

Lemma step_switch_inv s st s' :
  sched_inv s -> a_status s !! a_cur s = Some st ->
  dispatch {| a_status := <[a_cur s := requeued st]> (a_status s);
              a_queue := a_queue s ++ [a_cur s]; a_wait := a_wait s; a_sems := a_sems s;
              a_cur := a_cur s; a_counter := a_counter s |} s' -> sched_inv s'.
Proof.
  intros Hi Hst. apply dispatch_inv; cbn [a_status].
  - apply core_enqueue; [apply Hi| |apply Hi|intros l; by apply cur_not_waiting|].
    + apply (core_pids s (inv_core s Hi)). eauto.
    + unfold requeued. destruct (decide _); auto.
  - intros p. destruct (decide (p = a_cur s)) as [->|Hne].
    + rewrite lookup_insert_eq. unfold requeued. by destruct (decide _).
    + rewrite lookup_insert_ne by done. by intros ?%(inv_running s Hi).
  - destruct (decide (a_cur s = KERNEL_PID)) as [Ek|Hne].
    + rewrite Ek, lookup_insert_eq. unfold requeued. rewrite decide_False; [done|].
      rewrite Ek in Hst. destruct (inv_kernel s Hi); congruence.
    + rewrite lookup_insert_ne by done. by apply kernel_ready.
Qed.

Lemma step_fork_inv s st s' :
  sched_inv s -> a_counter s + 1 < 2 ^ 16 -> a_status s !! a_cur s = Some st ->
  let child := u16 (a_counter s + 1) in
  dispatch {| a_status := <[child := Ready]> (<[a_cur s := requeued st]> (a_status s));
              a_queue := a_queue s ++ [child; a_cur s]; a_wait := a_wait s; a_sems := a_sems s;
              a_cur := a_cur s; a_counter := child |} s' -> sched_inv s'.
Proof.
  intros Hi Hn Hst child Hd. pose proof (inv_core s Hi) as Hc.
  destruct (fresh_pid s Hc Hn) as (Ec & Hf & Hq & Hw). fold child in Ec, Hf, Hq, Hw.
  assert (Hne : a_cur s <> child) by congruence.
  pose proof (core_counter s Hc).
  pose proof (core_set_counter s child Hc ltac:(lia)) as Hc1.
  apply (fun H1 H2 H3 => core_enqueue _ child Ready Hc1 H1 H2 H3 (or_introl eq_refl)) in Hw as Hc2;
    [|cbn; lia|done].
  set (s2 := {| a_status := <[child := Ready]> (a_status s); a_queue := a_queue s ++ [child];
    a_wait := a_wait s; a_sems := a_sems s; a_cur := a_cur s; a_counter := child |}).
  assert (Hi2 : sched_inv s2).
  { split; cbn.
    - exact Hc2.
    - rewrite lookup_insert_ne by congruence. apply Hi.
    - rewrite elem_of_app, list_elem_of_singleton. intros [?|?]; [by apply (inv_cur_queue s Hi)|done].
    - intros p. destruct (decide (p = child)) as [->|]; [by rewrite lookup_insert_eq|].
      rewrite lookup_insert_ne by done. apply Hi.
    - destruct (decide (child = KERNEL_PID)) as [->|]; [rewrite lookup_insert_eq; auto|].
      rewrite lookup_insert_ne by done. apply Hi. }
  apply (step_switch_inv s2 st s' Hi2); cbn [a_status a_queue a_cur a_wait a_sems a_counter s2].
  - by rewrite lookup_insert_ne by congruence.
  - rewrite <- app_assoc. cbn [app]. by rewrite insert_insert_ne by congruence.
Qed.

Lemma step_exit_inv s st s' :
  sched_inv s -> a_cur s <> KERNEL_PID -> a_status s !! a_cur s = Some st ->
  let ws := default [] (a_wait s !! a_cur s) in
  dispatch {| a_status := <[a_cur s := Dead]> (set_all Ready ws (a_status s));
              a_queue := a_queue s ++ ws; a_wait := delete (a_cur s) (a_wait s);
              a_sems := a_sems s; a_cur := a_cur s; a_counter := a_counter s |} s' -> sched_inv s'.
Proof.
  intros Hi Hk Hst ws. pose proof (inv_core s Hi) as Hc.
  change ws with (waits s (AtProc (a_cur s))) in *. clear ws.
  set (ws := waits s (AtProc (a_cur s))).
  assert (Hws : forall p, p ∈ ws -> a_status s !! p = Some Blocked).
  { intros p. apply (core_wait_blocked s Hc (AtProc (a_cur s))). }
  assert (Hcw : a_cur s ∉ ws) by by apply cur_not_waiting.
  set (s1 := {| a_status := a_status s; a_queue := a_queue s;
    a_wait := delete (a_cur s) (a_wait s); a_sems := a_sems s; a_cur := a_cur s;
    a_counter := a_counter s |}).
  assert (Hw1 : forall l, waits s1 l = if decide (l = AtProc (a_cur s)) then [] else waits s l).
  { intros [p|r k]; cbn; [|by rewrite decide_False].
    destruct (decide (p = a_cur s)) as [->|Hne].
    - by rewrite lookup_delete_eq, decide_True.
    - rewrite lookup_delete_ne by done. rewrite decide_False; [done|congruence]. }
  assert (Hc1 : core s1).
  { apply core_waits; [done| |]; fold s1.
    - intros l. rewrite Hw1. destruct (decide _); [constructor|apply (core_wait_nodup s Hc)].
    - intros l p. rewrite Hw1. destruct (decide _); [by intros ?%elem_of_nil|auto]. }
  assert (Hc2 := core_enqueue_all s1 ws Hc1 (core_wait_nodup s Hc _)).
  assert (Hq : forall p, p ∈ ws -> is_Some (a_status s !! p) /\ p ∉ a_queue s).
  { intros p Hp%Hws. split; [eauto|]. intros Hq. destruct (core_queue s Hc p Hq); congruence. }
  specialize (Hc2 Hq).
  assert (Hnw : forall p l, p ∈ ws -> p ∉ waits s1 l).
  { intros p l Hp. rewrite Hw1. destruct (decide _) as [|Hne]; [apply not_elem_of_nil|].
    intros Hl. apply Hne. by eapply (core_wait_once s Hc). }
  specialize (Hc2 Hnw). apply dispatch_inv; cbn [a_status].
  - apply (core_park _ (a_cur s) Dead) in Hc2; [exact Hc2| | | |done]; cbn [a_status a_queue].
    + rewrite set_all_lookup, decide_False by done. eauto.
    + rewrite elem_of_app. intros [?|?]; [by apply (inv_cur_queue s Hi)|done].
    + intros l. change (a_cur s ∉ waits s1 l). rewrite Hw1. destruct (decide _);
        [apply not_elem_of_nil|by apply cur_not_waiting].
  - intros p. destruct (decide (p = a_cur s)) as [->|Hne]; [by rewrite lookup_insert_eq|].
    rewrite lookup_insert_ne, set_all_lookup by done. destruct (decide _); [done|].
    by intros ?%(inv_running s Hi).
  - rewrite lookup_insert_ne, set_all_lookup by done. destruct (decide _); [done|].
    by apply kernel_ready.
Qed.

(** The running process blocks and joins one place. *)
Lemma step_block_inv s w sems l0 s' :
  sched_inv s -> a_cur s <> KERNEL_PID ->
  let s1 := {| a_status := <[a_cur s := Blocked]> (a_status s); a_queue := a_queue s; a_wait := w;
               a_sems := sems; a_cur := a_cur s; a_counter := a_counter s |} in
  (forall l, l <> l0 -> waits s1 l = waits s l) ->
  NoDup (waits s1 l0) -> (forall p, p ∈ waits s1 l0 -> p = a_cur s \/ p ∈ waits s l0) ->
  dispatch s1 s' -> sched_inv s'.
Proof.
  intros Hi Hk s1 Hother Hnd Hl0. pose proof (inv_core s Hi) as Hc.
  assert (Hst : is_Some (a_status s !! a_cur s)) by (destruct (inv_cur s Hi) as [->| ->]; eauto).
  assert (Hc1 : core {| a_status := <[a_cur s := Blocked]> (a_status s); a_queue := a_queue s;
    a_wait := a_wait s; a_sems := a_sems s; a_cur := a_cur s; a_counter := a_counter s |}).
  { apply core_park; [done|done|apply Hi|intros l; by apply cur_not_waiting|done]. }
  assert (Hin : forall l p, p ∈ waits s1 l -> p ∈ waits s l \/ p = a_cur s /\ l = l0).
  { intros l p. destruct (decide (l = l0)) as [->|Hne]; [|rewrite Hother by done; auto].
    intros Hp%Hl0. tauto. }
  apply dispatch_inv; cbn [a_status s1].
  - apply (core_waits _ w sems Hc1).
    + intros l. change (NoDup (waits s1 l)). destruct (decide (l = l0)) as [->|Hne]; [done|].
      rewrite Hother by done. apply (core_wait_nodup s Hc).
    + intros l p Hp. change (p ∈ waits s1 l) in Hp.
      destruct (Hin l p Hp) as [?|[-> ->]]; [by left|right]. cbn [a_status].
      split; [by rewrite lookup_insert_eq|]. split; [intros l'; by apply (cur_not_waiting s l')|].
      intros l' Hl'. change (a_cur s ∈ waits s1 l') in Hl'.
      destruct (Hin l' _ Hl') as [?%cur_not_waiting|[_ ?]]; done.
  - intros p. destruct (decide (p = a_cur s)) as [->|Hne]; [by rewrite lookup_insert_eq|].
    rewrite lookup_insert_ne by done. by intros ?%(inv_running s Hi).
  - rewrite lookup_insert_ne by done. by apply kernel_ready.
Qed.

(** Changing semaphores so that waiters are only removed. *)
Lemma shrink_sems_inv s sems :
  sched_inv s ->
  let s1 := {| a_status := a_status s; a_queue := a_queue s; a_wait := a_wait s;
               a_sems := sems; a_cur := a_cur s; a_counter := a_counter s |} in
  (forall l, waits s1 l = waits s l \/ waits s1 l = [] \/ exists p, waits s l = p :: waits s1 l) ->
  sched_inv s1.
Proof.
  intros Hi s1 Hw. pose proof (inv_core s Hi) as Hc. split; try apply Hi.
  apply core_waits; [done| |].
  - intros l. change (NoDup (waits s1 l)). pose proof (core_wait_nodup s Hc l) as Hnd.
    destruct (Hw l) as [->|[->|[p E]]]; [done|constructor|].
    rewrite E in Hnd. by apply NoDup_cons in Hnd as [_ ?].
  - intros l p Hp. left. change (p ∈ waits s1 l) in Hp.
    destruct (Hw l) as [<-|[E|[q ->]]]; [done|by rewrite E in Hp; apply elem_of_nil in Hp|].
    apply elem_of_cons. auto.
Qed.

(** A blocked process that waits nowhere is queued. *)
Lemma wake_inv s p :
  sched_inv s -> a_status s !! p = Some Blocked -> (forall l, p ∉ waits s l) ->
  sched_inv {| a_status := <[p := Ready]> (a_status s); a_queue := a_queue s ++ [p];
    a_wait := a_wait s; a_sems := a_sems s; a_cur := a_cur s; a_counter := a_counter s |}.
Proof.
  intros Hi Hb Hnw. pose proof (inv_core s Hi) as Hc.
  assert (Hq : p ∉ a_queue s) by (intros Hq; destruct (core_queue s Hc p Hq); congruence).
  assert (Hne : a_cur s <> p) by (intros <-; destruct (inv_cur s Hi); congruence).
  split; cbn [a_status a_queue a_cur].
  - apply core_enqueue; [done| |done|done|auto]. apply (core_pids s Hc). eauto.
  - rewrite lookup_insert_ne by congruence. apply Hi.
  - rewrite elem_of_app, list_elem_of_singleton. intros [?|?]; [by apply (inv_cur_queue s Hi)|done].
  - intros q. destruct (decide (q = p)) as [->|]; [by rewrite lookup_insert_eq|].
    rewrite lookup_insert_ne by done. apply Hi.
  - destruct (decide (p = KERNEL_PID)) as [->|]; [rewrite lookup_insert_eq; auto|].
    rewrite lookup_insert_ne by done. apply Hi.
Qed.

Lemma step_spawn_inv s :
  sched_inv s -> a_counter s + 1 < 2 ^ 16 ->
  let child := u16 (a_counter s + 1) in
  sched_inv {| a_status := <[child := Ready]> (a_status s); a_queue := a_queue s ++ [child];
    a_wait := a_wait s; a_sems := a_sems s; a_cur := a_cur s; a_counter := child |}.
Proof.
  intros Hi Hn child. pose proof (inv_core s Hi) as Hc.
  destruct (fresh_pid s Hc Hn) as (Ec & Hf & Hq & Hw). fold child in Ec, Hf, Hq, Hw.
  assert (Hne : a_cur s <> child)
    by (intros E; destruct (inv_cur s Hi) as [Hx|Hx]; rewrite E in Hx; congruence).
  pose proof (core_counter s Hc). split; cbn [a_status a_queue a_cur].
  - pose proof (core_set_counter s child Hc ltac:(lia)) as Hc1.
    apply (core_enqueue _ child Ready Hc1); [cbn; lia|done|done|auto].
  - rewrite lookup_insert_ne by congruence. apply Hi.
  - rewrite elem_of_app, list_elem_of_singleton. intros [?|?]; [by apply (inv_cur_queue s Hi)|done].
  - intros q. destruct (decide (q = child)) as [->|]; [by rewrite lookup_insert_eq|].
    rewrite lookup_insert_ne by done. apply Hi.
  - destruct (decide (child = KERNEL_PID)) as [->|]; [rewrite lookup_insert_eq; auto|].
    rewrite lookup_insert_ne by done. apply Hi.
Qed.

Lemma step_die_inv s st :
  sched_inv s -> a_cur s <> KERNEL_PID -> a_status s !! a_cur s = Some st ->
  sched_inv {| a_status := <[a_cur s := Dead]> (a_status s); a_queue := a_queue s;
    a_wait := a_wait s; a_sems := a_sems s; a_cur := a_cur s; a_counter := a_counter s |}.
Proof.
  intros Hi Hk Hst. split; cbn [a_status a_queue a_cur].
  - apply core_park; [apply Hi|eauto|apply Hi|intros l; by apply cur_not_waiting|done].
  - rewrite lookup_insert_eq. auto.
  - apply Hi.
  - intros p. destruct (decide (p = a_cur s)) as [->|]; [by rewrite lookup_insert_eq|].
    rewrite lookup_insert_ne by done. apply Hi.
  - rewrite lookup_insert_ne by congruence. apply Hi.
Qed.

Lemma sched_step_inv e s s' : sched_inv s -> allowed e s -> sched_step e s s' -> sched_inv s'.
Proof.
  intros Hi Ha Hs. pose proof (inv_core s Hi) as Hc. destruct Hs; cbn [allowed] in Ha.
  - by eapply step_switch_inv.
  - by eapply step_fork_inv.
  - by eapply step_exit_inv.
  - eapply (step_block_inv s _ _ (AtProc target)); [done|done| | |..|eassumption].
    + intros [p|r k] Hne; cbn; [|done]. rewrite lookup_insert_ne; [done|congruence].
    + cbn. rewrite lookup_insert_eq. cbn. apply set_insert_NoDup.
      * apply (cur_not_waiting s (AtProc target) Hi).
      * apply (core_wait_nodup s Hc (AtProc target)).
    + cbn. rewrite lookup_insert_eq. cbn. intros p. by rewrite set_insert_elem.
  - done.
  - destruct (sem_wait_queues _ _ _ _ _ _ _ H H0) as [Hr Hq].
    assert (pid = a_cur s) as -> by (destruct Hr as [[= ->]|[?|?]]; done).
    eapply (step_block_inv s _ _ (AtSem ref key)); [done|done| | |..|eassumption].
    + intros [p|r k] Hne; cbn; [done|]. rewrite Hq, decide_False; [done|].
      intros (_ & -> & ->). done.
    + cbn. rewrite Hq, decide_True by done. apply NoDup_app. split_and!.
      * apply (core_wait_nodup s Hc (AtSem ref key)).
      * intros p Hp ->%list_elem_of_singleton. by apply (cur_not_waiting s (AtSem ref key) Hi).
      * apply NoDup_singleton.
    + cbn. rewrite Hq, decide_True by done. intros p.
      rewrite elem_of_app, list_elem_of_singleton. tauto.
  - destruct (sem_wait_queues _ _ _ _ _ _ _ H H0) as [_ Hq].
    apply shrink_sems_inv; [done|]. intros [p|r' k]; cbn; [by left|]. left. rewrite Hq.
    rewrite decide_False; [done|]. intros [-> _]. by destruct H1.
  - destruct (sem_signal_queues _ _ _ _ _ _ H H0) as (_ & Hp & Ho).
    specialize (Hp pid eq_refl).
    assert (Hi1 := shrink_sems_inv s (<[ref := set']> (a_sems s)) Hi).
    cbv zeta in Hi1. set (s1 := {| a_sems := <[ref := set']> (a_sems s) |}) in Hi1.
    assert (Hw1 : forall l, l <> AtSem ref key -> waits s1 l = waits s l).
    { intros [p|r' k] Hne; cbn; [done|]. apply Ho. left. congruence. }
    apply (wake_inv s1); cbn [a_status s1].
    + apply Hi1. intros l. destruct (decide (l = AtSem ref key)) as [->|Hne]; [|auto].
      right; right. exists pid. exact Hp.
    + apply (core_wait_blocked s Hc (AtSem ref key)). cbn. rewrite Hp. apply elem_of_cons. auto.
    + intros l. destruct (decide (l = AtSem ref key)) as [->|Hne].
      * pose proof (core_wait_nodup s Hc (AtSem ref key)) as Hnd. cbn in Hnd |- *. rewrite Hp in Hnd.
        by apply NoDup_cons in Hnd as [? _].
      * rewrite Hw1 by done. intros Hl. apply Hne.
        eapply (core_wait_once s Hc); [exact Hl|]. cbn. rewrite Hp. apply elem_of_cons. auto.
  - destruct (sem_signal_queues _ _ _ _ _ _ H H0) as (_ & _ & Ho).
    apply shrink_sems_inv; [done|]. intros [p|r' k]; cbn; [by left|]. left. apply Ho. right.
    intros p ->. by destruct H1.
  - apply shrink_sems_inv; [done|]. intros [p|r k]; cbn; [by left|].
    rewrite (sem_reset_queues _ _ set key); [|done| |].
    + destruct (decide _); auto.
    + right. exists value. cbn. by rewrite lookup_insert_eq.
    + intros k' Hk'. cbn. by rewrite lookup_insert_ne.
  - apply shrink_sems_inv; [done|]. intros [p|r k]; cbn; [by left|].
    rewrite (sem_reset_queues _ _ set key); [|done| |].
    + destruct (decide _); auto.
    + left. cbn. by rewrite lookup_delete_eq.
    + intros k' Hk'. cbn. by rewrite lookup_delete_ne.
  - apply (shrink_sems_inv _ (<[r := SemSet.new]> (a_sems s)) (step_spawn_inv s Hi Ha)).
    intros [p|r' k]; cbn; [by left|]. unfold sem_queue.
    destruct (decide (r' = r)) as [->|Hne]; [rewrite lookup_insert_eq; cbn; auto|].
    rewrite lookup_insert_ne by done. auto.
  - by eapply step_die_inv.
  - done.
Qed.
