(* ===== verification/KernelRef.v ===== *)
(** * The kernel refines the scheduler

    Relates the operations of [Manager.v] to the transitions of [Sched.v]. *)

From stdpp Require Import base numbers list gmap sets.
From S2P Require Import Prelude Bytes Device Str Fat16Name Fat16Entry Fat16Fs Fat16File X86 Frames ElfMap Sync Resource Vm Process Manager Listing Syscall Sched.

(** ** What memory operations leave alone *)

(** [g] is a part of the memory state that mapping operations do not touch; for [Stable], neither do the operations on heaps. *)
Class MemStable {M B : Type} (g : Sys M -> B) : Prop := {
  stable_machine m s : g (set_machine m s) = g s;
  stable_alloc a s : g (set_frame_alloc a s) = g s;
}.
Class Stable {M B : Type} (g : Sys M -> B) : Prop := {
  stable_mem :: MemStable g;
  stable_heap h s : g (set_heap_ends h s) = g s;
}.
#[export] Instance stable_pid {M} : Stable (@processor_pid M).
Proof. by repeat split. Qed.
#[export] Instance stable_regs {M} : Stable (@cr3_regs M).
Proof. by repeat split. Qed.
#[export] Instance stable_ends {M} : MemStable (@heap_ends M).
Proof. done. Qed.

Ltac sys_keeps :=
  repeat (cbv zeta; first
    [ apply keeps_modify; intros ?;
      first [done | apply stable_machine | apply stable_heap]
    | keeps_step ]).

Section mem_keeps.
Context {M : Type} {L : Log} {X : X86} {MM : Machine M}.
Context {B : Type} (g : Sys M -> B) {Hg : MemStable g}.

Lemma keeps_mem_op {T} (f : ST (M * BootInfoFrameAllocator) T) : keeps g (mem_op f).
Proof using Hg.
  intros s x s1. unfold mem_op. destruct (f _) as [[t [m a]]| |]; [|done..]. intros [= _ <-].
  by rewrite stable_alloc, stable_machine.
Qed.
Lemma keeps_get_pid : keeps g get_pid.
Proof. intros s x s1. unfold get_pid. destruct (_ =? _); [done|]. by intros [= _ <-]. Qed.
Lemma keeps_set_machine f : keeps g (st_modify (fun s => set_machine (f s) s)).
Proof using Hg. apply keeps_modify. intros s. apply stable_machine. Qed.
Lemma keeps_pt_get r : keeps g (@PageTableContext.get M r).
Proof. intros s x s1. unfold PageTableContext.get. destruct (_ !! _); [|done]. by intros [= _ <-]. Qed.
Hint Resolve keeps_mem_op keeps_get_pid keeps_set_machine keeps_pt_get : keeps.

Lemma keeps_mapper r : keeps g (@PageTableContext.mapper M r).
Proof. unfold PageTableContext.mapper. keeps_solve. Qed.
Lemma keeps_using_count r : keeps g (@PageTableContext.using_count M r).
Proof. unfold PageTableContext.using_count. keeps_solve. Qed.
Lemma keeps_load_end h : keeps g (@Heap.load_end M h).
Proof. intros s x s1. unfold Heap.load_end. destruct (_ !! _); [|done]. by intros [= _ <-]. Qed.
Hint Resolve keeps_mapper keeps_using_count keeps_load_end : keeps.
Lemma keeps_brk_trace r : keeps g (@Heap.brk_trace M L r).
Proof. unfold Heap.brk_trace. sys_keeps. Qed.
Lemma keeps_heap_usage h : keeps g (@Heap.memory_usage M h).
Proof. unfold Heap.memory_usage. sys_keeps. Qed.

Lemma keeps_stack_init l4 pid : keeps g (Stack.init l4 pid).
Proof using Hg. unfold Stack.init. sys_keeps. Qed.
Lemma keeps_grow_stack l4 addr st : keeps g (Stack.grow_stack l4 addr st).
Proof using Hg. unfold Stack.grow_stack. sys_keeps. Qed.
Hint Resolve keeps_grow_stack : keeps.
Lemma keeps_stack_fault l4 addr st : keeps g (Stack.handle_page_fault l4 addr st).
Proof using Hg. unfold Stack.handle_page_fault. sys_keeps. Qed.
Lemma keeps_stack_clean_up l4 st : keeps g (Stack.clean_up l4 st).
Proof using Hg. unfold Stack.clean_up. sys_keeps. Qed.
Lemma keeps_fork_map fuel l4 a n : keeps g (Stack.fork_map fuel l4 a n).
Proof using Hg.
  revert a. induction fuel as [|fuel IH]; intros a; cbn [Stack.fork_map]; [by intros s x s1|].
  sys_keeps.
Qed.
Hint Resolve keeps_stack_init keeps_stack_fault keeps_stack_clean_up keeps_fork_map : keeps.
Lemma keeps_stack_fork l4 n st : keeps g (Stack.fork l4 n st).
Proof using Hg. unfold Stack.fork, Stack.clone_range. sys_keeps. Qed.

Lemma keeps_vm_load_elf elf pid v : keeps g (ProcessVm.load_elf elf pid v).
Proof using Hg. unfold ProcessVm.load_elf, ProcessVm.load_elf_code. sys_keeps. Qed.
Lemma keeps_vm_fault addr v : keeps g (ProcessVm.handle_page_fault addr v).
Proof using Hg. unfold ProcessVm.handle_page_fault. sys_keeps. Qed.
Lemma keeps_free_code l4 rs : keeps g (ProcessVm.free_code l4 rs).
Proof using Hg. induction rs as [|r rs IH]; cbn [ProcessVm.free_code]; sys_keeps. Qed.
Lemma keeps_pt_load r : keeps g (PageTableContext.load r).
Proof using Hg. unfold PageTableContext.load. sys_keeps. Qed.
End mem_keeps.
#[export] Hint Resolve stable_pid stable_regs stable_ends stable_mem : keeps.
#[export] Hint Resolve keeps_mem_op keeps_get_pid keeps_set_machine keeps_pt_get keeps_mapper keeps_using_count keeps_load_end keeps_brk_trace keeps_heap_usage
  keeps_stack_init keeps_stack_fault keeps_stack_clean_up keeps_fork_map keeps_stack_fork keeps_vm_load_elf keeps_vm_fault keeps_free_code keeps_pt_load : keeps.

Section vm_keeps.
Context {M : Type} {L : Log} {X : X86} {MM : Machine M}.
Context {B : Type} (g : Sys M -> B) {Hg : Stable g}.
Lemma keeps_set_heap f : keeps g (st_modify (fun s => set_heap_ends (f s) s)).
Proof using Hg. apply keeps_modify. intros s. apply stable_heap. Qed.
Hint Resolve keeps_set_heap : keeps.
Lemma keeps_swap_end h e : keeps g (Heap.swap_end h e).
Proof using Hg. unfold Heap.swap_end. sys_keeps. Qed.
Hint Resolve keeps_swap_end : keeps.
Lemma keeps_heap_empty : keeps g (@Heap.empty M X).
Proof using Hg. unfold Heap.empty. sys_keeps. Qed.
Lemma keeps_heap_brk l4 h addr : keeps g (Heap.brk l4 h addr).
Proof using Hg. unfold Heap.brk. sys_keeps. Qed.
Lemma keeps_heap_clean_up l4 h : keeps g (Heap.clean_up l4 h).
Proof using Hg. unfold Heap.clean_up. sys_keeps. Qed.
Hint Resolve keeps_heap_empty keeps_heap_brk keeps_heap_clean_up : keeps.
Lemma keeps_vm_new pt : keeps g (ProcessVm.new pt).
Proof using Hg. unfold ProcessVm.new. sys_keeps. Qed.
Lemma keeps_vm_brk v addr : keeps g (ProcessVm.brk v addr).
Proof using Hg. unfold ProcessVm.brk. sys_keeps. Qed.
Lemma keeps_vm_clean_up v : keeps g (ProcessVm.clean_up v).
Proof using Hg. unfold ProcessVm.clean_up. sys_keeps. Qed.
End vm_keeps.
#[export] Hint Resolve keeps_vm_new keeps_vm_brk keeps_vm_clean_up : keeps.

(** Operations on the page table references still leave the processor alone. *)
Section pid_keeps.
Context {M : Type} {L : Log} {X : X86} {MM : Machine M}.
Abbreviation pid := (@processor_pid M).
Lemma keeps_pt_new : keeps pid PageTableContext.new.
Proof. unfold PageTableContext.new. sys_keeps. Qed.
Lemma keeps_pt_clone r : keeps pid (PageTableContext.clone_l4 r).
Proof. unfold PageTableContext.clone_l4. sys_keeps. Qed.
Lemma keeps_pt_fork r : keeps pid (PageTableContext.fork r).
Proof. unfold PageTableContext.fork. sys_keeps. Qed.
Lemma keeps_pt_release r : keeps pid (PageTableContext.release r).
Proof. unfold PageTableContext.release. sys_keeps. Qed.
Hint Resolve keeps_pt_new keeps_pt_clone keeps_pt_fork keeps_pt_release : keeps.
Lemma keeps_vm_fork n v : keeps pid (ProcessVm.fork n v).
Proof. unfold ProcessVm.fork. sys_keeps. Qed.
Lemma keeps_vm_drop v : keeps pid (ProcessVm.drop v).
Proof. unfold ProcessVm.drop. sys_keeps. Qed.
End pid_keeps.
#[export] Hint Resolve keeps_pt_new keeps_pt_clone keeps_pt_fork keeps_pt_release keeps_vm_fork
  keeps_vm_drop : keeps.

(** ** Operations that touch neither processes nor page tables *)

(** [g] is a part of the state that such operations leave alone. *)
Class KStable {M D Q B : Type} {C : Chrono} (g : Kernel M D Q -> B) : Prop := {
  kst_sys s k : processor_pid s = processor_pid (sys k) -> cr3_regs s = cr3_regs (sys k) ->
    g (set_sys s k) = g k;
  kst_res x k : g (set_res_sets x k) = g k;
  kst_input x k : g (set_input_buf x k) = g k;
  kst_console x k : g (set_console x k) = g k;
  kst_rootfs x k : g (set_rootfs x k) = g k;
}.
(** As [KStable], except that [g] may depend on the ends of the heaps. *)
Class KQuiet {M D Q B : Type} {C : Chrono} (g : Kernel M D Q -> B) : Prop := {
  kq_sys s k : processor_pid s = processor_pid (sys k) -> cr3_regs s = cr3_regs (sys k) -> heap_ends s = heap_ends (sys k) ->
    g (set_sys s k) = g k;
  kq_res x k : g (set_res_sets x k) = g k;
  kq_input x k : g (set_input_buf x k) = g k;
  kq_console x k : g (set_console x k) = g k;
  kq_rootfs x k : g (set_rootfs x k) = g k;
}.
#[export] Instance kstable_quiet {M D Q B : Type} {C : Chrono} (g : Kernel M D Q -> B) : KStable g -> KQuiet g.
Proof. intros H. split; intros; by apply H. Qed.

Section quiet.
Context {M D Q : Type} {L : Log} {X : X86} {MM : Machine M} {BD : BlockDevice D} {C : Chrono}
  {BF : Bitflags} {UT : UnicodeTable} {AQ : ArrayQueue Q} {SE : Selectors} {PF : Platform M}.
Context {B : Type} (g : Kernel M D Q -> B) {Hg : KQuiet g}.
Abbreviation Kern := (Kernel M D Q).

Lemma keeps_on_sys {T} (f : ST (Sys M) T) :
  keeps processor_pid f -> keeps cr3_regs f -> keeps heap_ends f -> keeps g (on_sys f).
Proof using Hg.
  intros Hp Hr Hh k x k1. unfold on_sys. destruct (f (sys k)) as [[t s1]| |] eqn:E; [|done..].
  intros [= _ <-]. apply kq_sys; [exact (Hp _ _ _ E)|exact (Hr _ _ _ E)|exact (Hh _ _ _ E)].
Qed.

Ltac kern_keeps :=
  repeat (cbv zeta; first
    [ apply keeps_on_sys; solve [sys_keeps]
    | apply keeps_modify; intros ?; first [done | apply kq_res | apply kq_input | apply kq_console]
    | keeps_step ]).

Lemma keeps_get_proc p : keeps g (@Manager.get_proc M D Q C p).
Proof. unfold Manager.get_proc. auto with keeps. Qed.
Hint Resolve keeps_get_proc : keeps.
Lemma keeps_the_proc p : keeps g (@Manager.the_proc M D Q C p).
Proof. unfold Manager.the_proc. keeps_solve. Qed.
Lemma keeps_current : keeps g (@Manager.current M D Q C).
Proof using Hg. unfold Manager.current. kern_keeps; auto using keeps_the_proc. Qed.
Hint Resolve keeps_the_proc keeps_current : keeps.

Lemma keeps_data p : keeps g (@Inner.data M D Q C p).
Proof. unfold Inner.data. kern_keeps. Qed.
Lemma keeps_vm p : keeps g (@Inner.vm M D Q C p).
Proof. unfold Inner.vm. kern_keeps. Qed.
Hint Resolve keeps_data keeps_vm : keeps.

Lemma keeps_with_data {A} (f : ProcessData -> ST Kern A) :
  (forall d, keeps g (f d)) -> keeps g (Manager.with_data f).
Proof using Hg. intros Hf. unfold Manager.with_data. kern_keeps. Qed.

Lemma keeps_get_resources d : keeps g (@Data.get_resources M D Q C d).
Proof using Hg. unfold Data.get_resources. kern_keeps. Qed.
Hint Resolve keeps_get_resources : keeps.
Lemma keeps_data_read d fd buf : keeps g (Data.read d fd buf).
Proof using Hg. unfold Data.read, Data.put_resources. kern_keeps. Qed.
Lemma keeps_data_write d fd buf : keeps g (Data.write d fd buf).
Proof using Hg. unfold Data.write. kern_keeps. Qed.
Lemma keeps_data_open fuel d path : keeps g (Data.open_file fuel d path).
Proof using Hg. unfold Data.open_file, Data.put_resources. kern_keeps. Qed.
Lemma keeps_data_close d fd : keeps g (Data.close_file d fd).
Proof using Hg. unfold Data.close_file, Data.put_resources. kern_keeps. Qed.
Hint Resolve keeps_data_read keeps_data_write keeps_data_open keeps_data_close : keeps.

Lemma keeps_user_bytes ptr len : keeps g (@Service.user_bytes M D Q MM C ptr len).
Proof using Hg. unfold Service.user_bytes. kern_keeps. Qed.
Hint Resolve keeps_user_bytes : keeps.
Lemma keeps_user_str ptr len : keeps g (@Service.user_str M D Q MM C ptr len).
Proof using Hg. unfold Service.user_str. kern_keeps. Qed.
Hint Resolve keeps_user_str : keeps.

Lemma keeps_sys_read a : keeps g (Service.sys_read a).
Proof using Hg.
  unfold Service.sys_read, Service.put_user_bytes, Proc.read, Manager.read.
  kern_keeps. apply keeps_with_data. auto with keeps.
Qed.
Lemma keeps_sys_write a : keeps g (Service.sys_write a).
Proof using Hg.
  unfold Service.sys_write, Proc.write, Manager.write. kern_keeps.
  apply keeps_with_data. auto with keeps.
Qed.
Lemma keeps_sys_open fuel a : keeps g (Service.sys_open_file fuel a).
Proof using Hg.
  unfold Service.sys_open_file, Proc.open_file, Manager.open_file. kern_keeps.
  apply keeps_with_data. auto with keeps.
Qed.
Lemma keeps_sys_close a : keeps g (Service.sys_close_file a).
Proof using Hg.
  unfold Service.sys_close_file, Proc.close_file, Manager.close_file.
  apply keeps_with_data. auto with keeps.
Qed.
Lemma keeps_ls fuel a : keeps g (Service.sys_list_dir fuel a).
Proof using Hg. unfold Service.sys_list_dir, Service.ls. kern_keeps. Qed.
Lemma keeps_allocate a : keeps g (Service.sys_allocate a).
Proof using Hg. unfold Service.sys_allocate. kern_keeps. Qed.
Lemma keeps_deallocate a : keeps g (Service.sys_deallocate a).
Proof using Hg. unfold Service.sys_deallocate. kern_keeps. Qed.
Lemma keeps_print_info a : keeps g (Service.sys_print_info a).
Proof using Hg.
  unfold Service.sys_print_info, Proc.still_alive, Manager.is_proc_alive. kern_keeps. apply Listing.reads_keeps, Listing.print_process_info_reads.
Qed.
Lemma keeps_list : keeps g Service.sys_list_process.
Proof. unfold Service.sys_list_process. kern_keeps. apply Listing.reads_keeps, Listing.print_process_list_reads. Qed.
Lemma keeps_time : keeps g (@Service.sys_time M D Q PF C).
Proof using Hg. unfold Service.sys_time. kern_keeps. Qed.
End quiet.
#[export] Hint Resolve keeps_get_proc keeps_the_proc keeps_current keeps_data keeps_vm keeps_with_data keeps_get_resources keeps_data_read keeps_data_write
  keeps_data_open keeps_data_close keeps_user_bytes keeps_user_str keeps_sys_read keeps_sys_write keeps_sys_open keeps_sys_close keeps_ls keeps_allocate
  keeps_deallocate keeps_print_info keeps_list keeps_time keeps_on_sys : keeps.

Section stable.
Context {M D Q : Type} {L : Log} {X : X86} {MM : Machine M} {BD : BlockDevice D} {C : Chrono}
  {BF : Bitflags} {UT : UnicodeTable} {AQ : ArrayQueue Q} {SE : Selectors} {PF : Platform M}.
Context {B : Type} (g : Kernel M D Q -> B) {Hg : KStable g}.
Abbreviation Kern := (Kernel M D Q).
Lemma keeps_on_mem {T} (f : ST (Sys M) T) : keeps processor_pid f -> keeps cr3_regs f -> keeps g (on_sys f).
Proof using Hg.
  intros Hp Hr k x k1. unfold on_sys. destruct (f (sys k)) as [[t s1]| |] eqn:E; [|done..].
  intros [= _ <-]. apply kst_sys; [exact (Hp _ _ _ E)|exact (Hr _ _ _ E)].
Qed.
Ltac mem_keeps := repeat (cbv zeta; first [ apply keeps_on_mem; solve [sys_keeps] | keeps_step ]).

Lemma keeps_brk addr : keeps g (Manager.brk addr).
Proof using Hg. unfold Manager.brk, Inner.brk. mem_keeps. Qed.
Hint Resolve keeps_brk : keeps.
Lemma keeps_sys_brk a : keeps g (Service.sys_brk a).
Proof using Hg. unfold Service.sys_brk, Proc.brk. mem_keeps. Qed.
Lemma keeps_load_elf elf pid p : keeps g (Inner.load_elf (D := D) (Q := Q) elf pid p).
Proof using Hg. unfold Inner.load_elf. mem_keeps. Qed.
Lemma keeps_inner_fault addr p : keeps g (Inner.handle_page_fault (D := D) (Q := Q) addr p).
Proof using Hg. unfold Inner.handle_page_fault. mem_keeps. Qed.
End stable.

#[export] Hint Resolve keeps_brk keeps_sys_brk keeps_load_elf keeps_inner_fault keeps_on_mem : keeps.

(** ** The abstract state of the kernel *)

Section refine.
Context {M D Q : Type} {L : Log} {X : X86} {MM : Machine M} {BD : BlockDevice D} {C : Chrono}
  {BF : Bitflags} {UT : UnicodeTable} {AQ : ArrayQueue Q} {SE : Selectors} {EP : ElfParser} {PF : Platform M}.
Abbreviation Kern := (Kernel M D Q).

Definition abs (k : Kern) : Sched := {|
  a_status := status <$> processes k;
  a_queue := ready_queue k;
  a_wait := waiting_processes k;
  a_sems := sem_sets k;
  a_cur := processor_pid (sys k);
  a_counter := pid_counter k;
|}.
#[export] Instance abs_stable : KStable abs.
Proof. split; intros; unfold abs; cbn; congruence. Qed.

Lemma on_sys_inv {T} (f : ST (Sys M) T) (k : Kern) x k1 :
  on_sys f k = Ret (x, k1) -> exists s1, f (sys k) = Ret (x, s1) /\ k1 = set_sys s1 k.
Proof.
  unfold on_sys. destruct (f (sys k)) as [[t s1]| |]; [|done..]. intros [= <- <-]. eauto.
Qed.

Lemma get_pid_inv (k : Kern) x k1 :
  on_sys get_pid k = Ret (x, k1) -> x = processor_pid (sys k) /\ k1 = k /\ x <> 0.
Proof.
  intros (s1 & E & ->)%on_sys_inv. unfold get_pid in E.
  destruct (Z.eqb_spec (processor_pid (sys k)) 0); [done|]. injection E as <- <-.
  split; [done|]. split; [by destruct k|done].
Qed.

Lemma the_proc_inv pid (k : Kern) p k1 :
  Manager.the_proc pid k = Ret (p, k1) -> processes k !! pid = Some p /\ k1 = k.
Proof. unfold Manager.the_proc, Manager.get_proc. intros H. st_inv H. done. Qed.

Lemma current_inv (k : Kern) pid p k1 :
  Manager.current k = Ret ((pid, p), k1) ->
  pid = processor_pid (sys k) /\ processes k !! pid = Some p /\ k1 = k.
Proof.
  unfold Manager.current. intros H. apply st_bind_inv in H as (x & k2 & E & H).
  apply get_pid_inv in E as (-> & -> & _). apply st_bind_inv in H as (p' & k2 & E & H).
  apply the_proc_inv in E as [E ->]. injection H as <- <- <-. done.
Qed.

Lemma keeps_on_sys_abs {T} (f : ST (Sys M) T) : keeps processor_pid f -> keeps abs (on_sys f).
Proof. intros Hf k x k1 (s1 & E & ->)%on_sys_inv. unfold abs. cbn. by rewrite (Hf _ _ _ E). Qed.

(** ** The next process *)

Lemma set_ready_queue_id (k : Kern) : set_ready_queue (ready_queue k) k = k.
Proof. by destruct k. Qed.
Lemma set_ready_queue_twice (k : Kern) q q' :
  set_ready_queue q (set_ready_queue q' k) = set_ready_queue q k.
Proof. done. Qed.

Lemma set_processes_twice (k : Kern) x y :
  set_processes x (set_processes y k) = set_processes x k.
Proof. done. Qed.
Lemma set_processes_under (k : Kern) x y s c :
  set_processes x (set_sys s (set_pid_counter c (set_processes y k))) =
  set_processes x (set_sys s (set_pid_counter c k)).
Proof. done. Qed.

Lemma next_ready_inv fuel : forall pid p (k : Kern) npid np k1,
  processes k !! pid = Some p ->
  Manager.next_ready fuel pid p k = Ret ((npid, np), k1) ->
  exists pre post, pid :: ready_queue k = pre ++ npid :: post /\
    Forall (fun x => (status <$> processes k) !! x <> Some Ready) pre /\
    processes k !! npid = Some np /\ status np = Ready /\ k1 = set_ready_queue (post ++ pre) k.
Proof.
  induction fuel as [|fuel IH]; intros pid p k npid np k1 Hp H; cbn [Manager.next_ready] in H.
  - unfold Inner.is_ready in H. case_bool_decide as Hr; [|done]. injection H as <- <- <-.
    exists [], (ready_queue k). rewrite app_nil_r, set_ready_queue_id. done.
  - unfold Inner.is_ready in H. case_bool_decide as Hr.
    { injection H as <- <- <-. exists [], (ready_queue k).
      rewrite app_nil_r, set_ready_queue_id. done. }
    apply st_bind_inv in H as (? & k2 & E & H). unfold Manager.push_ready in E. st_inv E.
    apply st_bind_inv in H as (x & k3 & E & H). unfold Manager.pop_ready in E. cbn in E.
    destruct (ready_queue k ++ [pid]) as [|y rest] eqn:Eq; [done|]. injection E as <- <-.
    apply st_bind_inv in H as (px & k4 & E & H). apply the_proc_inv in E as [E ->].
    destruct (IH _ _ _ _ _ _ E H) as (pre & post & E2 & Hpre & Hnp & Hst & ->).
    cbn in E2, Hpre, Hnp, E. rewrite E2 in Eq. clear H IH E2.
    destruct post as [|z post _] using rev_ind.
    { apply app_inj_tail in Eq as [_ <-]. rewrite Hp in Hnp. by injection Hnp as <-. }
    rewrite app_comm_cons, app_assoc in Eq. apply app_inj_tail in Eq as [Eq <-].
    exists (pid :: pre), post. rewrite Eq. split; [done|]. split; [|split; [done|split; [done|]]].
    + constructor; [|done]. rewrite lookup_fmap, Hp. cbn. congruence.
    + rewrite !set_ready_queue_twice. by rewrite <- app_assoc.
Qed.

Lemma switch_next_inv ctx (k : Kern) x k1 :
  Manager.switch_next ctx k = Ret (x, k1) ->
  exists pid p pre post s1, ready_queue k = pre ++ pid :: post /\
    Forall (fun x => (status <$> processes k) !! x <> Some Ready) pre /\
    processes k !! pid = Some p /\ status p = Ready /\ x = (pid, context p) /\
    PageTableContext.load (default 0 (ProcessVm.page_table <$> proc_vm p)) (sys k) = Ret (tt, s1) /\
    k1 = set_sys (set_processor_pid pid s1)
           (set_processes (<[pid := Inner.resume p]> (processes k))
              (set_ready_queue (post ++ pre) k)).
Proof.
  unfold Manager.switch_next. intros H.
  apply st_bind_inv in H as (fuel & k2 & E & H). st_inv E.
  apply st_bind_inv in H as (pid & k3 & E & H). unfold Manager.pop_ready in E.
  destruct (ready_queue k2) as [|y rest] eqn:Eq; [done|]. injection E as <- <-.
  apply st_bind_inv in H as (px & k4 & E & H). apply the_proc_inv in E as [E ->].
  apply st_bind_inv in H as ([npid np] & k5 & E2 & H).
  destruct (next_ready_inv _ _ _ _ _ _ _ E E2) as (pre & post & E3 & Hpre & Hnp & Hst & ->).
  cbn in E3, Hpre, Hnp. clear E E2.
  apply st_bind_inv in H as ([p' ctx'] & k6 & E & H).
  unfold Inner.restore, Inner.vm in E. cbn [proc_vm Inner.resume set_status] in E.
  apply st_bind_inv in E as (v & k7 & Ev & E). apply st_unwrap_inv in Ev as [Ev ->].
  apply st_bind_inv in E as (u & k7 & El & E). apply on_sys_inv in El as (s1 & El & ->).
  injection E as <- <- <-. destruct u. cbn in El.
  apply st_bind_inv in H as (u & k7 & E & H). unfold Manager.write_proc in E. st_inv E.
  apply st_bind_inv in H as (u & k7 & E & H). apply on_sys_inv in E as (s2 & E & ->).
  unfold set_pid in E. st_inv E. injection H as <- <-.
  exists npid, np, pre, post, s1. split; [done|]. split; [done|]. split; [done|]. split; [done|].
  split; [done|]. split; [|done]. by rewrite Ev.
Qed.

Lemma switch_next_refines ctx (k : Kern) x k1 :
  Manager.switch_next ctx k = Ret (x, k1) -> dispatch (abs k) (abs k1).
Proof.
  intros (pid & p & pre & post & s1 & Eq & Hpre & Hp & Hst & -> & El & ->)%switch_next_inv.
  assert (Hr : a_status (abs k) !! pid = Some Ready).
  { cbn. rewrite lookup_fmap, Hp. cbn. congruence. }
  pose proof (dispatch_intro (abs k) pre pid post Eq Hpre Hr) as Hd.
  unfold abs at 2. cbn. rewrite fmap_insert. exact Hd.
Qed.

(** ** Scheduling operations *)

Lemma save_status ctx p : status (Inner.save ctx (Inner.tick p)) = requeued (status p).
Proof. unfold Inner.save, requeued. cbn. by destruct (decide _). Qed.

Lemma save_current_inv ctx (k : Kern) pid k1 :
  Manager.save_current ctx k = Ret (pid, k1) ->
  exists p, processes k !! pid = Some p /\ pid = processor_pid (sys k) /\
    k1 = set_processes (<[pid := Inner.save ctx (Inner.tick p)]> (processes k)) k.
Proof.
  unfold Manager.save_current. intros H. apply st_bind_inv in H as ([pid' p] & k2 & E & H).
  apply current_inv in E as (-> & Hp & ->). unfold Manager.write_proc in H. st_inv H. eauto.
Qed.

Lemma switch_refines ctx (k : Kern) x k1 :
  Proc.switch ctx k = Ret (x, k1) -> sched_step ESwitch (abs k) (abs k1).
Proof.
  unfold Proc.switch. intros H. apply st_bind_inv in H as (pid & k2 & E & H).
  apply save_current_inv in E as (p & Hp & -> & ->).
  unfold Manager.push_ready in H. apply st_bind_inv in H as (u & k2 & E & H). st_inv E.
  apply st_bind_inv in H as (r & k2 & E & H). st_inv H. apply switch_next_refines in E.
  apply (step_switch (abs k) (status p)); [cbn; by rewrite lookup_fmap, Hp|].
  unfold abs at 1 in E. cbn in E. rewrite fmap_insert, save_status in E. exact E.
Qed.

Lemma block_proc_inv pid (k : Kern) x k1 :
  Manager.block_proc pid k = Ret (x, k1) ->
  exists p, processes k !! pid = Some p /\
    k1 = set_processes (<[pid := Inner.block p]> (processes k)) k.
Proof.
  unfold Manager.block_proc. intros H. apply st_bind_inv in H as (p & k2 & E & H).
  apply the_proc_inv in E as [Hp ->]. unfold Manager.write_proc in H. st_inv H. eauto.
Qed.

(** Saving the current process and blocking it. *)
Lemma save_block_inv ctx (k : Kern) pid pid' k1 u k2 :
  Manager.save_current ctx k = Ret (pid, k1) -> pid' = processor_pid (sys k) ->
  Manager.block_proc pid' k1 = Ret (u, k2) ->
  exists p, processes k !! pid' = Some p /\
    k2 = set_processes (<[pid' := Inner.block (Inner.save ctx (Inner.tick p))]> (processes k)) k.
Proof.
  intros (p & Hp & -> & ->)%save_current_inv -> (p' & Hp' & ->)%block_proc_inv.
  cbn in Hp'. rewrite lookup_insert_eq in Hp'. injection Hp' as <-.
  exists p. split; [done|]. unfold set_processes. cbn. by rewrite insert_insert_eq.
Qed.

Lemma is_proc_alive_inv pid (k : Kern) b k1 :
  Manager.is_proc_alive pid k = Ret (b, k1) ->
  k1 = k /\ (b = true <-> exists p, processes k !! pid = Some p /\ status p <> Dead).
Proof.
  unfold Manager.is_proc_alive, Manager.get_proc. intros H. st_inv H. split; [done|].
  destruct (processes k1 !! pid) as [p|].
  - rewrite bool_decide_eq_true. split; [eauto|]. by intros (p' & [= <-] & ?).
  - split; [done|]. by intros (p' & ? & _).
Qed.

Lemma wait_pid_refines pid ctx (k : Kern) x k1 :
  Proc.wait_pid pid ctx k = Ret (x, k1) -> sched_step (EWait pid) (abs k) (abs k1).
Proof.
  unfold Proc.wait_pid, Proc.still_alive. intros H. apply st_bind_inv in H as (b & k2 & E & H).
  apply is_proc_alive_inv in E as [-> Hb]. destruct b.
  - destruct (proj1 Hb eq_refl) as (pt & Hpt & Hst). unfold Proc.get_pid in H.
    apply st_bind_inv in H as (now & k2 & E & H). apply get_pid_inv in E as (-> & -> & _).
    apply st_bind_inv in H as (pid1 & k2 & E1 & H). apply st_bind_inv in H as (u & k3 & E2 & H).
    destruct (save_block_inv _ _ _ _ _ _ _ E1 eq_refl E2) as (p & Hp & ->). clear E1 E2.
    apply st_bind_inv in H as (u2 & k3 & E & H). unfold Manager.add_waiting in E.
    apply st_bind_inv in E as (now & k4 & E' & E). apply get_pid_inv in E' as (-> & -> & _).
    st_inv E. apply st_bind_inv in H as (r & k3 & E & H). st_inv H. apply switch_next_refines in E.
    apply (step_wait (abs k) pid (status pt)); [cbn; by rewrite lookup_fmap, Hpt|done|].
    unfold abs at 1 in E. cbn in E. rewrite fmap_insert in E. exact E.
  - apply st_bind_inv in H as (c & k2 & E & H). unfold Manager.get_exit_code in E.
    apply st_bind_inv in E as (p & k3 & E' & E). apply the_proc_inv in E' as [Hp ->]. st_inv E.
    st_inv H. apply step_wait_dead. cbn. rewrite lookup_fmap, Hp. cbn. f_equal.
    destruct (decide (status p = Dead)); [done|]. assert (false = true) by (apply Hb; eauto). done.
Qed.

(** A waiter after it was woken with exit code [ret]. *)
Definition woken_proc (ret : Z) (p : ProcessInner) : ProcessInner :=
  Inner.pause (set_context (Context.set_rax (as_usize ret) (context p)) p).

Lemma wake_all_inv ret pids : forall (k : Kern) x k1,
  Manager.wake_all ret pids k = Ret (x, k1) ->
  exists procs, k1 = set_ready_queue (ready_queue k ++ pids) (set_processes procs k) /\
    Forall (fun w => is_Some (processes k !! w)) pids /\
    forall w, procs !! w =
      if decide (w ∈ pids) then woken_proc ret <$> processes k !! w else processes k !! w.
Proof.
  induction pids as [|pid pids IH]; intros k x k1 H; cbn [Manager.wake_all] in H.
  - st_inv H. exists (processes k1). rewrite app_nil_r.
    split; [by destruct k1|]. split; [done|]. intros w. by rewrite decide_False by apply not_elem_of_nil.
  - apply st_bind_inv in H as (p & k2 & E & H). apply the_proc_inv in E as [Hp ->].
    apply st_bind_inv in H as (u & k2 & E & H). unfold Manager.write_proc in E. st_inv E.
    apply st_bind_inv in H as (u & k2 & E & H). unfold Manager.wake_up in E.
    apply st_bind_inv in E as (p' & k3 & E' & E). apply the_proc_inv in E' as [Hp' ->].
    cbn in Hp'. rewrite lookup_insert_eq in Hp'. injection Hp' as <-.
    unfold Manager.write_proc, Manager.push_ready in E. st_inv E.
    destruct (IH _ _ _ H) as (procs & -> & Hall & Hlk). cbn in Hall, Hlk.
    exists procs. split; [cbn; unfold set_ready_queue, set_processes; cbn; by rewrite <- app_assoc|].
    assert (Hl : forall w, w <> pid -> <[pid := Inner.pause (set_context
        (Context.set_rax (as_usize ret) (context p)) p)]> (<[pid := set_context
        (Context.set_rax (as_usize ret) (context p)) p]> (processes k)) !! w = processes k !! w).
    { intros w Hw. by rewrite !lookup_insert_ne. }
    split.
    + constructor; [eauto|]. eapply Forall_impl; [exact Hall|]. intros w. cbn.
      destruct (decide (w = pid)) as [->|Hne]; [by eauto|]. by rewrite Hl.
    + intros w. rewrite Hlk. destruct (decide (w = pid)) as [->|Hne].
      * rewrite lookup_insert_eq, Hp. rewrite (decide_True (P := pid ∈ pid :: pids))
          by (apply elem_of_cons; auto). by destruct (decide _).
      * rewrite Hl by done. destruct (decide (w ∈ pids)) as [Hw|Hw].
        -- by rewrite decide_True by (apply elem_of_cons; auto).
        -- rewrite decide_False; [done|]. by apply not_elem_of_cons.
Qed.

(** [wake_waiting]: the waiters of the current process, with its exit code. *)
Lemma wake_waiting_inv ret (k : Kern) x k1 :
  Manager.wake_waiting ret k = Ret (x, k1) ->
  let cur := processor_pid (sys k) in
  let ws := default [] (waiting_processes k !! cur) in
  exists procs, k1 = set_waiting_processes (delete cur (waiting_processes k))
      (set_ready_queue (ready_queue k ++ ws) (set_processes procs k)) /\
    Forall (fun w => is_Some (processes k !! w)) ws /\
    forall w, procs !! w =
      if decide (w ∈ ws) then woken_proc ret <$> processes k !! w else processes k !! w.
Proof.
  unfold Manager.wake_waiting. intros H. apply st_bind_inv in H as (pid & k2 & E & H).
  apply get_pid_inv in E as (-> & -> & _). apply st_bind_inv in H as (w & k2 & E & H). st_inv E.
  cbv zeta. destruct (waiting_processes k2 !! processor_pid (sys k2)) as [ws|] eqn:Ew.
  - apply st_bind_inv in H as (u & k3 & E & H). st_inv E.
    destruct (wake_all_inv _ _ _ _ _ H) as (procs & -> & Hall & Hlk). exists procs. done.
  - st_inv H. exists (processes k1). cbn. split; [|split; [done|]].
    + rewrite app_nil_r, delete_id by done. by destruct k1.
    + intros w. by rewrite decide_False by apply not_elem_of_nil.
Qed.

Lemma kill_inv pid ret (k : Kern) x k1 p :
  Manager.kill pid ret k = Ret (x, k1) -> processes k !! pid = Some p ->
  exists p' s1, k1 = set_processes (<[pid := p']> (processes k)) (set_sys s1 k) /\
    processor_pid s1 = processor_pid (sys k) /\ status p' = Dead /\
    if decide (status p = Dead) then p' = p /\ s1 = sys k
    else exit_code p' = Some ret /\ proc_vm p' = None /\ proc_data p' = None /\
      match proc_vm p with
      | Some v => ProcessVm.drop v (sys k) = Ret (tt, s1)
      | None => s1 = sys k
      end.
Proof.
  unfold Manager.kill, Manager.get_proc. intros H Hp. apply st_bind_inv in H as (o & k2 & E & H).
  st_inv E. rewrite Hp in H. destruct (decide (status p = Dead)) as [Hd|Hd].
  - st_inv H. exists p, (sys k1). split; [|done]. rewrite insert_id by done. by destruct k1.
  - apply st_bind_inv in H as (p' & k3 & E & H). unfold Inner.kill in E.
    apply st_bind_inv in E as (u & k4 & E' & E). st_inv E. unfold Manager.write_proc in H. st_inv H.
    cbn in E'.
    assert (Hk4 : exists s1, k3 = set_sys s1 k2 /\ processor_pid s1 = processor_pid (sys k2) /\
      match proc_vm p with
      | Some v => ProcessVm.drop v (sys k2) = Ret (tt, s1)
      | None => s1 = sys k2
      end).
    { destruct (proc_vm p) as [v|].
      - apply on_sys_inv in E' as (s1 & E' & ->). destruct u. exists s1. split; [done|].
        split; [|done]. by apply (keeps_vm_drop v) in E'.
      - st_inv E'. exists (sys k3). split; [by destruct k3|done]. }
    destruct Hk4 as (s1 & -> & Hs1 & Hdrop). eexists _, s1. split; [done|]. split; [done|]. done.
Qed.

Lemma exit_refines ret ctx (k : Kern) x k1 :
  Proc.exit ret ctx k = Ret (x, k1) ->
  is_Some (processes k !! processor_pid (sys k)) -> sched_step EExit (abs k) (abs k1).
Proof.
  unfold Proc.exit. intros H [pc Hpc]. apply st_bind_inv in H as (u & k2 & E & H).
  apply wake_waiting_inv in E as (procs & -> & Hall & Hlk).
  apply st_bind_inv in H as (u2 & k3 & E & H). unfold Manager.kill_self in E.
  apply st_bind_inv in E as (pid & k4 & E' & E). apply get_pid_inv in E' as (-> & -> & _).
  cbn in E. set (ws := default [] (waiting_processes k !! processor_pid (sys k))) in *.
  assert (Hpc' : exists pc', procs !! processor_pid (sys k) = Some pc').
  { rewrite Hlk, Hpc. destruct (decide _); cbn; eauto. }
  destruct Hpc' as [pc' Hpc']. destruct (kill_inv _ _ _ _ _ _ E Hpc') as (p' & s1 & -> & Hs1 & Hd & _).
  apply st_bind_inv in H as (r & k4 & E2 & H). st_inv H. apply switch_next_refines in E2.
  apply (step_exit (abs k) (status pc)).
  - cbn. by rewrite lookup_fmap, Hpc.
  - cbn. eapply Forall_impl; [exact Hall|]. intros w [pw Hw]. cbn. rewrite lookup_fmap, Hw. eauto.
  - unfold abs at 1 in E2. cbn in E2, Hs1. rewrite fmap_insert, Hd, Hs1 in E2.
    assert (Est : status <$> procs = set_all Ready ws (status <$> processes k)).
    { apply map_eq. intros w. rewrite lookup_fmap, Hlk, set_all_lookup, lookup_fmap.
      destruct (decide (w ∈ ws)) as [Hw|Hw]; [|done].
      destruct (proj1 (Forall_forall _ _) Hall w Hw) as [pw ->]. done. }
    rewrite Est in E2. exact E2.
Qed.

Definition child_sp (p : ProcessInner) (v : ProcessVm.t) : Z :=
  Z.lor (Z.land (Context.stack_top (context p)) Inner.LOW32)
        (Z.land (Stack.stack_min_addr (ProcessVm.stack v)) (2 ^ 64 - 1 - Inner.LOW32)).

(** What [Process::fork] makes: the child [c] of [p], named [pid], in state [k]. *)
Definition forked (k : Kern) (pid : Z) (p c : ProcessInner) (s1 : Sys M) : Prop :=
  exists v cv d top, proc_vm p = Some v /\ proc_data p = Some d /\
    ProcessVm.fork (u64 (u64 (zlen (children p) + 1) * Stack.STACK_MAX_PAGES)) v (sys k) = Ret (cv, s1) /\
    VirtAddr_new (child_sp p cv) = Ret top /\
    c = {| name := name p; parent := Some pid; children := []; ticks_passed := 0; status := Ready;
           exit_code := None;
           context := Context.set_rax 0 (Context.update_stack_frame top (context p));
           proc_data := Some d; proc_vm := Some cv |}.

Lemma process_fork_inv pid p (k : Kern) r k1 :
  Process.fork pid p k = Ret (r, k1) ->
  let child := u16 (pid_counter k + 1) in
  exists c s1, r = (child, set_context (Context.set_rax child (context p))
      (set_children (children p ++ [child]) p), c) /\
    forked (set_pid_counter child k) pid p c s1 /\
    k1 = set_sys s1 (set_pid_counter child k).
Proof.
  intros H child. unfold Process.fork in H. apply st_bind_inv in H as (cp & k2 & E & H).
  unfold ProcessId_new in E. injection E as <- <-. fold child in H.
  apply st_bind_inv in H as (c & k3 & E & H). unfold Inner.fork, Inner.vm, Inner.data in E.
  apply st_bind_inv in E as (v & k4 & Ev & E). apply st_unwrap_inv in Ev as [Ev ->].
  apply st_bind_inv in E as (cv & k4 & Ec & E). apply on_sys_inv in Ec as (s1 & Ec & ->).
  apply st_bind_inv in E as (d & k4 & Ed & E). apply st_unwrap_inv in Ed as [Ed ->].
  apply st_bind_inv in E as (top & k4 & Et & E). apply st_lift_inv in Et as [Et ->].
  st_inv E. st_inv H. eexists _, s1. split; [done|]. split; [|done].
  exists v, cv, d, top. done.
Qed.

Lemma forked_status k pid p c s1 : forked k pid p c s1 ->
  status c = Ready /\ processor_pid s1 = processor_pid (sys k).
Proof.
  intros (v & cv & d & top & _ & _ & E & _ & ->). split; [done|]. by apply (keeps_vm_fork _ v) in E.
Qed.

Lemma fork_state (k : Kern) pid child p1 p2 c s1 :
  let k1 := set_sys s1 (set_pid_counter child (set_processes (<[pid := p1]> (processes k)) k)) in
  let k2 := set_processes (<[pid := p2]> (processes k1)) k1 in
  let k3 := set_processes (<[child := c]> (processes k2)) k2 in
  let k4 := set_ready_queue (ready_queue k3 ++ [child]) k3 in
  set_ready_queue (ready_queue k4 ++ [pid]) k4 =
  set_ready_queue (ready_queue k ++ [child; pid])
    (set_processes (<[child := c]> (<[pid := p2]> (processes k)))
      (set_sys s1 (set_pid_counter child k))).
Proof.
  intros k1 k2 k3 k4. unfold k4 at 2. rewrite set_ready_queue_twice.
  assert (Hq : ready_queue k4 ++ [pid] = ready_queue k ++ [child; pid])
    by (change (ready_queue k4) with (ready_queue k ++ [child]); by rewrite <- app_assoc).
  rewrite Hq. f_equal.
  assert (Hp : processes k2 = <[pid := p2]> (processes k)).
  { change (processes k2) with (<[pid := p2]> (<[pid := p1]> (processes k))).
    by rewrite insert_insert_eq. }
  unfold k3. rewrite Hp. unfold k2. rewrite set_processes_twice. unfold k1.
  by rewrite set_processes_under.
Qed.

(** The state in which [fork] asks for the next process: parent and child are in
    the table, and queued, the child first. *)
Lemma fork_inv ctx (k : Kern) x k1 :
  Proc.fork ctx k = Ret (x, k1) ->
  let pid := processor_pid (sys k) in
  let child := u16 (pid_counter k + 1) in
  exists p c s1 r, processes k !! pid = Some p /\
    let p1 := Inner.save ctx (Inner.tick p) in
    forked (set_pid_counter child (set_processes (<[pid := p1]> (processes k)) k)) pid p1 c s1 /\
    Manager.switch_next ctx
      (set_ready_queue (ready_queue k ++ [child; pid])
        (set_processes (<[child := c]> (<[pid := set_context (Context.set_rax child (context p1))
             (set_children (children p1 ++ [child]) p1)]> (processes k)))
          (set_sys s1 (set_pid_counter child k)))) = Ret (r, k1) /\ x = r.2.
Proof.
  intros H pid child. unfold Proc.fork in H. apply st_bind_inv in H as (pid' & k2 & E & H).
  apply save_current_inv in E as (p & Hp & -> & ->). fold pid in H.
  apply st_bind_inv in H as (ch & k3 & E & H). unfold Manager.fork in E.
  apply st_bind_inv in E as ([pid' p'] & k4 & E' & E). apply current_inv in E' as (-> & Hp' & ->).
  cbn [sys set_processes] in E. fold pid in E. cbn in Hp'. fold pid in Hp'.
  rewrite lookup_insert_eq in Hp'. injection Hp' as <-.
  apply st_bind_inv in E as (r & k4 & E' & E).
  apply process_fork_inv in E' as (c & s1 & -> & Hf & ->). cbn in E.
  unfold Manager.write_proc, Manager.add_proc in E. st_inv E.
  unfold Manager.push_ready in H. apply st_bind_inv in H as (u & k3 & E & H). st_inv E.
  apply st_bind_inv in H as (u & k3 & E & H). st_inv E.
  apply st_bind_inv in H as (r & k3 & E & H). st_inv H.
  exists p, c, s1, r. split; [done|]. split; [exact Hf|]. split; [|done].
  rewrite <- E. f_equal. symmetry. apply fork_state.
Qed.

Lemma fork_refines ctx (k : Kern) x k1 :
  Proc.fork ctx k = Ret (x, k1) -> sched_step EFork (abs k) (abs k1).
Proof.
  intros (p & c & s1 & r & Hp & Hf & E & _)%fork_inv. apply switch_next_refines in E.
  destruct (forked_status _ _ _ _ _ Hf) as [Hc Hs]. cbn in Hs.
  apply (step_fork (abs k) (status p)); [cbn; by rewrite lookup_fmap, Hp|].
  unfold abs at 1 in E. cbn in E. rewrite !fmap_insert, Hc, Hs in E. cbn [status set_context set_children] in E.
  rewrite save_status in E. exact E.
Qed.

(** ** Semaphores *)

Lemma with_data_inv {A} (f : ProcessData -> ST Kern A) (k : Kern) x k1 :
  Manager.with_data f k = Ret (x, k1) ->
  exists p d, processes k !! processor_pid (sys k) = Some p /\ proc_data p = Some d /\
    f d k = Ret (x, k1).
Proof.
  unfold Manager.with_data, Inner.data. intros H. apply st_bind_inv in H as ([pid p] & k2 & E & H).
  apply current_inv in E as (-> & Hp & ->). apply st_bind_inv in H as (d & k2 & E & H).
  apply st_unwrap_inv in E as [Hd ->]. eauto.
Qed.

(** An operation on the semaphore set of the current process. *)
Lemma sem_op_inv {A} (op : SemSet.t -> A * SemSet.t) (k : Kern) x k1 :
  Manager.with_data (fun d => s ← Data.get_semaphores d;
      let '(r, s') := op s in Data.put_semaphores d s';; mret r) k = Ret (x, k1) ->
  exists p d set, processes k !! processor_pid (sys k) = Some p /\ proc_data p = Some d /\
    sem_sets k !! semaphores_ref d = Some set /\ x = (op set).1 /\
    k1 = set_sem_sets (<[semaphores_ref d := (op set).2]> (sem_sets k)) k.
Proof.
  intros (p & d & Hp & Hd & H)%with_data_inv. apply st_bind_inv in H as (set & k2 & E & H).
  unfold Data.get_semaphores in E. apply st_bind_inv in E as (k3 & k4 & E' & E).
  injection E' as <- <-. apply st_unwrap_inv in E as [Hs ->].
  destruct (op set) as [r s'] eqn:Eop. unfold Data.put_semaphores in H. st_inv H.
  exists p, d, set. rewrite Eop. done.
Qed.

Lemma sem_wait_refines key ctx (k : Kern) x k1 :
  Proc.sem_wait key ctx k = Ret (x, k1) -> exists ref, sched_step (ESemWait ref key) (abs k) (abs k1).
Proof.
  unfold Proc.sem_wait, Proc.get_pid. intros H. apply st_bind_inv in H as (pid & k2 & E & H).
  apply get_pid_inv in E as (-> & -> & _). apply st_bind_inv in H as (r & k2 & E & H).
  unfold Data.sem_wait in E. apply (sem_op_inv (SemSet.wait key (processor_pid (sys k)))) in E
    as (p & d & set & Hp & Hd & Hs & -> & ->). exists (semaphores_ref d).
  destruct (SemSet.wait key (processor_pid (sys k)) set) as [r set'] eqn:Ew. cbn in H.
  destruct r as [| |pid|pid]; [st_inv H|st_inv H| |done].
  - eapply (step_sem_pass (abs k)); [exact Hs|exact Ew|auto].
  - eapply (step_sem_pass (abs k)); [exact Hs|exact Ew|auto].
  - apply st_bind_inv in H as (pid1 & k2 & E1 & H). apply st_bind_inv in H as (u & k3 & E2 & H).
    destruct (save_block_inv _ _ _ _ _ _ _ E1 eq_refl E2) as (p' & Hp' & ->). clear E1 E2.
    apply st_bind_inv in H as (r & k3 & E & H). st_inv H. apply switch_next_refines in E.
    eapply (step_sem_block (abs k)); [exact Hs|exact Ew|].
    unfold abs at 1 in E. cbn in E. rewrite fmap_insert in E. exact E.
Qed.

Lemma sem_signal_refines key ctx (k : Kern) x k1 :
  Proc.sem_signal key ctx k = Ret (x, k1) ->
  exists ref, sched_step (ESemSignal ref key) (abs k) (abs k1).
Proof.
  unfold Proc.sem_signal. intros H. apply st_bind_inv in H as (r & k2 & E & H).
  unfold Data.sem_signal in E. apply (sem_op_inv (SemSet.signal key)) in E
    as (p & d & set & Hp & Hd & Hs & -> & ->). exists (semaphores_ref d).
  destruct (SemSet.signal key set) as [r set'] eqn:Ew. cbn in H.
  destruct r as [| |pid|pid]; [st_inv H|st_inv H|done|].
  - eapply (step_sem_signal (abs k)); [exact Hs|exact Ew|auto].
  - eapply (step_sem_signal (abs k)); [exact Hs|exact Ew|auto].
  - apply st_bind_inv in H as (u & k2 & E & H). st_inv H. unfold Manager.wake_up in E.
    apply st_bind_inv in E as (q & k2 & E' & E). apply the_proc_inv in E' as [Hq ->]. cbn in Hq.
    unfold Manager.write_proc, Manager.push_ready in E. st_inv E.
    unfold abs at 2. cbn. rewrite fmap_insert.
    eapply (step_sem_wake (abs k)); [exact Hs|exact Ew|]. cbn. rewrite lookup_fmap, Hq. eauto.
Qed.
Lemma new_sem_refines key value (k : Kern) x k1 :
  Proc.new_sem key value k = Ret (x, k1) ->
  exists ref, sched_step (ENewSem ref key value) (abs k) (abs k1).
Proof.
  unfold Proc.new_sem. intros H. apply st_bind_inv in H as (r & k2 & E & H). st_inv H.
  unfold Data.new_sem in E. apply (sem_op_inv (SemSet.insert key value)) in E
    as (p & d & set & Hp & Hd & Hs & -> & ->). exists (semaphores_ref d).
  by apply (step_new_sem (abs k)).
Qed.

Lemma remove_sem_refines key (k : Kern) x k1 :
  Proc.remove_sem key k = Ret (x, k1) ->
  exists ref, sched_step (ERemoveSem ref key) (abs k) (abs k1).
Proof.
  unfold Proc.remove_sem. intros H. apply st_bind_inv in H as (r & k2 & E & H). st_inv H.
  unfold Data.remove_sem in E. apply (sem_op_inv (SemSet.remove key)) in E
    as (p & d & set & Hp & Hd & Hs & -> & ->). exists (semaphores_ref d).
  by apply (step_remove_sem (abs k)).
Qed.

(** ** New processes *)

Lemma data_default_inv (k : Kern) d k1 :
  Data.default k = Ret (d, k1) ->
  abs k1 = {| a_status := a_status (abs k); a_queue := a_queue (abs k); a_wait := a_wait (abs k);
              a_sems := <[semaphores_ref d := SemSet.new]> (a_sems (abs k));
              a_cur := a_cur (abs k); a_counter := a_counter (abs k) |}.
Proof. unfold Data.default. intros [= <- <-]. done. Qed.

Lemma keeps_clone_page_table p : keeps abs (Inner.clone_page_table (D := D) (Q := Q) p).
Proof. unfold Inner.clone_page_table. keeps_solve. apply keeps_on_sys_abs. auto with keeps. Qed.

Lemma spawn_refines elf nm par (k : Kern) x k1 :
  Manager.spawn elf nm par None k = Ret (x, k1) ->
  x = u16 (pid_counter k + 1) /\ exists ref, sched_step (ESpawn ref) (abs k) (abs k1).
Proof.
  unfold Manager.spawn. intros H. apply st_bind_inv in H as (kp & k2 & E & H).
  apply the_proc_inv in E as [_ ->]. apply st_bind_inv in H as (pt & k2 & E & H).
  apply keeps_clone_page_table in E. apply st_bind_inv in H as (v & k3 & E2 & H).
  apply (keeps_on_sys_abs _ (keeps_vm_new processor_pid _)) in E2. rewrite E in E2.
  apply st_bind_inv in H as ([pid p] & k4 & E3 & H). unfold Process.new in E3.
  apply st_bind_inv in E3 as (pid' & k5 & E4 & E3). unfold ProcessId_new in E4.
  injection E4 as <- <-. apply st_bind_inv in E3 as (v' & k5 & E4 & E3). st_inv E4.
  apply st_bind_inv in E3 as (d & k5 & E4 & E3). apply data_default_inv in E4. st_inv E3.
  apply st_bind_inv in H as ([top p'] & k6 & E5 & H). apply (keeps_load_elf abs) in E5.
  apply st_bind_inv in H as (entry & k7 & E6 & H). st_inv E6.
  unfold Manager.add_proc, Manager.push_ready in H. st_inv H.
  assert (Ec : pid_counter k3 = pid_counter k) by (by injection E2).
  split; [by rewrite Ec|]. exists (semaphores_ref d). rewrite E4 in E5. cbn in E5.
  injection E5 as Es Eq Ew Ems Ecu Ecn. injection E2 as Fs Fq Fw Fms Fcu Fcn.
  unfold abs at 2. cbn. rewrite fmap_insert, Es, Eq, Ew, Ems, Ecu, Ecn, Fs, Fq, Fw, Fms, Fcu, Fcn.
  apply (step_spawn (abs k)).
Qed.

(** ** Page faults and exits *)

Lemma page_fault_refines addr prot (k : Kern) x k1 :
  Service.page_fault_handler addr prot k = Ret (x, k1) -> abs k1 = abs k.
Proof.
  unfold Service.page_fault_handler, Proc.handle_page_fault, Manager.handle_page_fault. intros H.
  apply st_bind_inv in H as (ok & k2 & E & H). apply st_bind_inv in E as ([pid p] & k3 & E1 & E).
  apply current_inv in E1 as (-> & Hp & ->). destruct prot; cbn in E.
  - st_inv E. discriminate H.
  - apply st_bind_inv in E as ([ok' p'] & k3 & E1 & E). unfold Manager.write_proc in E. st_inv E.
    st_inv H. unfold Inner.handle_page_fault in E1. apply st_bind_inv in E1 as (v & k4 & E2 & E1).
    unfold Inner.vm in E2. apply st_unwrap_inv in E2 as [Hv ->].
    apply st_bind_inv in E1 as ([ok v'] & k4 & E2 & E1). apply on_sys_inv in E2 as (s1 & E2 & ->).
    st_inv E1. apply (keeps_vm_fault processor_pid) in E2. unfold abs. cbn.
    rewrite fmap_insert, E2. f_equal. cbn. apply insert_id. by rewrite lookup_fmap, Hp.
Qed.

Lemma process_exit_refines ret (k : Kern) x k1 :
  Proc.process_exit ret k = Ret (x, k1) ->
  is_Some (processes k !! processor_pid (sys k)) -> sched_step EDie (abs k) (abs k1).
Proof.
  unfold Proc.process_exit, Manager.kill_current. intros H [p Hp].
  apply st_bind_inv in H as (pid & k2 & E & H). apply get_pid_inv in E as (-> & -> & _).
  destruct (kill_inv _ _ _ _ _ _ H Hp) as (p' & s1 & -> & Hs1 & Hd & _).
  unfold abs at 2. cbn. rewrite fmap_insert, Hs1, Hd.
  apply (step_die (abs k) (status p)). cbn. by rewrite lookup_fmap, Hp.
Qed.
End refine.

