(* ===== verification/KernelEntry.v ===== *)
(** * Entries into the kernel

    Everything that happens to the kernel's state happens in an entry: the timer
    interrupt, a system call, a page fault, a key from the serial line, and the two
    things the kernel's own code does, starting the shell and ending a process.
    Here every entry is shown to be a transition of the scheduler of [Sched.v], and
    with it what holds in every state that can be reached from boot. *)

From stdpp Require Import base numbers list gmap sets.
From S2P Require Import Prelude Bytes Device Str Fat16Name Fat16Entry Fat16Fs Fat16File X86 Frames ElfMap Sync Resource Vm Process Manager Syscall KernelInit Sched Demo KernelRef.

(** [fuel] and [units] bound the loops of the file system, as in [Proc.spawn]. *)
Inductive entry : Type :=
| Timer (ctx : ProcessContext)
| Trap (fuel units : nat) (ctx : ProcessContext)
| Fault (addr : Z) (protection_violation : bool)
| KeyIrq (key : Z)
| KernelSpawn (fuel units : nat) (path : str)
| ProcessExit (ret : Z).

Section entries.
Context {M D Q : Type} {L : Log} {X : X86} {MM : Machine M} {PF : Platform M} {BD : BlockDevice D}
  {C : Chrono} {BF : Bitflags} {UT : UnicodeTable} {AQ : ArrayQueue Q} {SE : Selectors}
  {EP : ElfParser}.
Abbreviation Kern := (Kernel M D Q).
Abbreviation K := (ST (Kernel M D Q)).

Definition enter (e : entry) : K unit :=
  match e with
  | Timer ctx => Service.clock ctx;; mret tt
  | Trap fuel units ctx => Service.dispatcher fuel units ctx;; mret tt
  | Fault addr prot => Service.page_fault_handler addr prot
  | KeyIrq key => Service.key_pressed key
  | KernelSpawn fuel units path => Proc.spawn fuel units path;; mret tt
  | ProcessExit ret => Proc.process_exit ret
  end.

(** The scheduler's view of a system call, by its number and arguments. *)
Definition trap_event (ctx : ProcessContext) (ev : sched_event) : Prop :=
  let a := Service.args_of ctx in
  match syscall a with
  | Fork => ev = EFork
  | Exit => ev = EExit
  | WaitPid => ev = EWait (u16 (arg0 a))
  | Spawn => exists ref, ev = ESpawn ref
  | Sem =>
      if arg0 a =? 0 then exists ref, ev = ENewSem ref (u32 (arg1 a)) (arg2 a)
      else if arg0 a =? 1 then exists ref, ev = ERemoveSem ref (u32 (arg1 a))
      else if arg0 a =? 2 then exists ref, ev = ESemSignal ref (u32 (arg1 a))
      else if arg0 a =? 3 then exists ref, ev = ESemWait ref (u32 (arg1 a))
      else ev = EQuiet
  | _ => ev = EQuiet
  end.
Definition entry_event (e : entry) (ev : sched_event) : Prop :=
  match e with
  | Timer _ => ev = ESwitch
  | Trap _ _ ctx => trap_event ctx ev
  | Fault _ _ | KeyIrq _ => ev = EQuiet
  | KernelSpawn _ _ _ => exists ref, ev = ESpawn ref
  | ProcessExit _ => ev = EDie
  end.

(** The kernel process makes no system calls and does not end, a process that has
    ended makes no system calls (it halts), and process numbers have not run out. *)
Definition entry_allowed (e : entry) (k : Kern) : Prop :=
  match e with
  | Trap _ _ _ => processor_pid (sys k) <> KERNEL_PID /\ pid_counter k + 1 < 2 ^ 16 /\
      status <$> processes k !! processor_pid (sys k) = Some Running
  | KernelSpawn _ _ _ => pid_counter k + 1 < 2 ^ 16
  | ProcessExit _ => processor_pid (sys k) <> KERNEL_PID
  | _ => True
  end.

Lemma entry_event_allowed e ev (k : Kern) : entry_event e ev -> entry_allowed e k -> allowed ev (abs k).
Proof.
  destruct e as [ctx|f u ctx| | | |]; cbn; try (intros ->; done); [|intros [r ->]; done].
  unfold trap_event. intros H (Hc & Hn & _). destruct (syscall _); try (subst; done).
  - by destruct H as [r ->].
  - repeat (destruct (_ =? _); [by destruct H as [r ->]|]). by subst.
Qed.

(** ** Refinement *)

Lemma proc_spawn_refines fuel units path (k : Kern) x k1 :
  Proc.spawn fuel units path k = Ret (x, k1) ->
  exists ref, sched_step (ESpawn ref) (abs k) (abs k1).
Proof.
  unfold Proc.spawn, Proc.elf_spawn. intros H. cbv zeta in H.
  apply st_bind_inv in H as (fs & k2 & E & H). injection E as <- <-.
  apply st_lift_bind_inv in H as (r & _ & H). apply st_lift_bind_inv in H as (h & _ & H).
  apply st_lift_bind_inv in H as ([[res u] buf] & _ & H).
  apply st_lift_bind_inv in H as (u' & _ & H). apply st_lift_bind_inv in H as (elf & _ & H).
  apply st_bind_inv in H as ([pid p] & k2 & E & H). apply current_inv in E as (_ & _ & ->).
  apply st_bind_inv in H as (pid' & k2 & E & H). st_inv H. by apply spawn_refines in E as [_ ?].
Qed.

Lemma sys_sem_refines ctx (k : Kern) x k1 :
  let a := Service.args_of ctx in
  syscall a = Sem -> Service.sys_sem a ctx k = Ret (x, k1) ->
  exists ev, trap_event ctx ev /\ sched_step ev (abs k) (abs k1).
Proof.
  intros a Ha H. unfold trap_event. fold a. rewrite Ha. unfold Service.sys_sem in H.
  destruct (arg0 a =? 0); [|destruct (arg0 a =? 1); [|destruct (arg0 a =? 2); [|destruct (arg0 a =? 3)]]].
  - apply st_bind_inv in H as (r & k2 & E & H). st_inv H.
    apply new_sem_refines in E as [ref Hs]. eauto.
  - apply st_bind_inv in H as (r & k2 & E & H). st_inv H.
    apply remove_sem_refines in E as [ref Hs]. eauto.
  - apply sem_signal_refines in H as [ref Hs]. eauto.
  - apply sem_wait_refines in H as [ref Hs]. eauto.
  - st_inv H. eauto using step_quiet.
Qed.

Lemma quiet_step (m : K ProcessContext) (k : Kern) x k1 :
  keeps abs m -> m k = Ret (x, k1) -> sched_step EQuiet (abs k) (abs k1).
Proof. intros Hm H. rewrite (Hm _ _ _ H). constructor. Qed.

Lemma keeps_returning {B} (g : Kern -> B) (m : K Z) ctx : keeps g m -> keeps g (Service.returning m ctx).
Proof. intros Hm. unfold Service.returning. keeps_solve. Qed.

(** The calls that the scheduler does not see. *)
Definition quiet_call (c : Syscall) : Prop :=
  match c with Fork | Exit | WaitPid | Spawn | Sem => False | _ => True end.

Lemma dispatcher_no_brk {B} (g : Kern -> B) {Hg : KQuiet g} fuel units ctx :
  quiet_call (syscall (Service.args_of ctx)) -> syscall (Service.args_of ctx) <> Brk -> keeps g (Service.dispatcher fuel units ctx).
Proof.
  unfold Service.dispatcher. generalize (Service.args_of ctx). intros a Hq.
  destruct (syscall a); try done; intros _;
    solve [ apply keeps_returning; unfold Service.sys_get_pid, Proc.get_pid; keeps_solve
          | keeps_solve ].
Qed.
Lemma dispatcher_quiet {B} (g : Kern -> B) {Hg : KStable g} fuel units ctx :
  quiet_call (syscall (Service.args_of ctx)) -> keeps g (Service.dispatcher fuel units ctx).
Proof.
  intros Hq. destruct (decide (syscall (Service.args_of ctx) = Brk)) as [E|E]; [|by apply dispatcher_no_brk; [apply _|..]].
  unfold Service.dispatcher. rewrite E. apply keeps_returning. keeps_solve.
Qed.

Lemma sys_spawn_refines fuel units a ctx (k : Kern) x k1 :
  Service.returning (Service.sys_spawn_process fuel units a) ctx k = Ret (x, k1) ->
  exists ref, sched_step (ESpawn ref) (abs k) (abs k1).
Proof.
  unfold Service.returning, Service.sys_spawn_process. intros H.
  apply st_bind_inv in H as (r & k2 & E & H). st_inv H.
  apply st_bind_inv in E as (path & k2 & E1 & E). apply (keeps_user_str abs) in E1.
  apply st_bind_inv in E as (r' & k3 & E2 & E). st_inv E.
  apply proc_spawn_refines in E2 as [ref Hs]. rewrite E1 in Hs. eauto.
Qed.

Lemma dispatcher_refines fuel units ctx (k : Kern) x k1 :
  Service.dispatcher fuel units ctx k = Ret (x, k1) ->
  is_Some (processes k !! processor_pid (sys k)) ->
  exists ev, trap_event ctx ev /\ sched_step ev (abs k) (abs k1).
Proof.
  intros H Hc. pose proof (dispatcher_quiet abs fuel units ctx) as Hquiet.
  pose proof (sys_sem_refines ctx k x k1) as Hsem. cbv zeta in Hsem.
  unfold Service.dispatcher in *. unfold trap_event in *.
  set (a := Service.args_of ctx) in *. clearbody a.
  destruct (syscall a);
    try (exists EQuiet; split; [done|]; exact (quiet_step _ _ _ _ (Hquiet I) H)).
  - exists EFork. split; [done|]. by apply (fork_refines ctx k x).
  - apply sys_spawn_refines in H as [ref Hs]. eauto.
  - exists EExit. split; [done|]. by eapply exit_refines.
  - eexists. split; [done|]. by eapply wait_pid_refines.
  - by apply Hsem.
Qed.
Lemma enter_step e (k : Kern) u k1 :
  enter e k = Ret (u, k1) -> is_Some (processes k !! processor_pid (sys k)) ->
  exists ev, entry_event e ev /\ sched_step ev (abs k) (abs k1).
Proof.
  destruct e as [ctx|f n ctx|addr prot|key|f n path|ret]; cbn [enter entry_event]; intros H Hc.
  - apply st_bind_inv in H as (x & k2 & E & H). st_inv H. unfold Service.clock in E.
    apply switch_refines in E. eauto.
  - apply st_bind_inv in H as (x & k2 & E & H). st_inv H. by eapply dispatcher_refines.
  - apply page_fault_refines in H. rewrite H. eauto using step_quiet.
  - unfold Service.key_pressed in H. st_inv H. eexists. split; [done|]. apply step_quiet.
  - apply st_bind_inv in H as (x & k2 & E & H). st_inv H.
    apply proc_spawn_refines in E as [ref Hs]. eauto.
  - apply process_exit_refines in H; [|done]. eauto.
Qed.

(** C1: every entry into the kernel is a transition of the scheduler.  Whenever the
    timer interrupt, any of the nineteen system calls, a page fault, a key interrupt,
    the start of a program or the end of a process returns, the statuses, the ready
    queue, the places where processes wait and the process on the processor changed
    as the corresponding step of the abstract scheduler allows, and in no other
    way. *)
Theorem kernel_entry_refines e (k : Kern) u k1 :
  enter e k = Ret (u, k1) -> is_Some (processes k !! processor_pid (sys k)) ->
  exists ev, entry_event e ev /\ sched_step ev (abs k) (abs k1).
Proof. apply enter_step. Qed.

(** ** Reachable states *)

(** Before [proc::init]: no processes, no semaphores, no page tables in use. *)
Definition at_boot (k : Kern) : Prop :=
  processes k = ∅ /\ ready_queue k = [] /\ waiting_processes k = ∅ /\ sem_sets k = ∅ /\
  pid_counter k = 0 /\ cr3_regs (sys k) = ∅.

(** [reach_memory] and [reach_root] are what [init] does after [proc::init] ([KernelInit.v]); that they come first, and once, plays no role. *)
Inductive reachable : Kern -> Prop :=
| reach_init k pages u k1 : at_boot k -> Proc.init pages k = Ret (u, k1) -> reachable k1
| reach_memory k a u k1 : reachable k -> install a k = Ret (u, k1) -> reachable k1
| reach_root k fs u k1 : reachable k -> set_root fs k = Ret (u, k1) -> reachable k1
| reach_enter k e u k1 :
    reachable k -> entry_allowed e k -> enter e k = Ret (u, k1) -> reachable k1.

Lemma inv_current (k : Kern) : sched_inv (abs k) -> is_Some (processes k !! processor_pid (sys k)).
Proof.
  intros Hi. pose proof (inv_cur _ Hi) as Hc. cbn in Hc. rewrite lookup_fmap in Hc.
  destruct (processes k !! _); [eauto|by destruct Hc].
Qed.

Lemma init_abs (k : Kern) pages u k1 :
  at_boot k -> Proc.init pages k = Ret (u, k1) ->
  exists ref, abs k1 = {| a_status := {[KERNEL_PID := Running]}; a_queue := []; a_wait := ∅;
    a_sems := {[ref := SemSet.new]}; a_cur := KERNEL_PID; a_counter := 1 |}.
Proof.
  intros (Hp & Hq & Hw & Hs & Hc & _) H. unfold Proc.init, Proc.manager_init in H.
  apply st_bind_inv in H as (pt & k2 & E & H). apply (keeps_on_sys_abs _ keeps_pt_new) in E.
  apply st_bind_inv in H as (v & k3 & E2 & H).
  apply (keeps_on_sys_abs _ (keeps_vm_new processor_pid _)) in E2. rewrite E in E2. clear E.
  cbv zeta in H. apply st_bind_inv in H as ([pid p] & k4 & E & H). unfold Process.new in E.
  apply st_bind_inv in E as (pid' & k5 & E4 & E). unfold ProcessId_new in E4.
  injection E4 as <- <-. apply st_bind_inv in E as (v' & k5 & E4 & E). st_inv E4.
  apply st_bind_inv in E as (d & k5 & E4 & E). apply data_default_inv in E4. st_inv E.
  unfold Manager.add_proc, set_pid in H.
  apply st_bind_inv in H as (u' & k5 & E & H). apply on_sys_inv in E as (s1 & E & ->). st_inv E.
  st_inv H. exists (semaphores_ref d).
  unfold abs in E2. injection E2 as Fs Fq Fw Fms Fcu Fcn.
  cbn in E4. injection E4 as Es Eq Ew Ems Ecu Ecn.
  unfold abs. cbn. rewrite fmap_insert, Es, Eq, Ew, Ems, Ecn, Fs, Fq, Fw, Fms, Fcn, Hp, Hq, Hw, Hs, Hc.
  done.
Qed.
Lemma boot_inv ref : sched_inv
  {| a_status := {[KERNEL_PID := Running]}; a_queue := []; a_wait := ∅;
     a_sems := {[ref := SemSet.new]}; a_cur := KERNEL_PID; a_counter := 1 |}.
Proof.
  assert (Hst : forall p st, ({[KERNEL_PID := Running]} : gmap Z _) !! p = Some st ->
    p = KERNEL_PID /\ st = Running) by (by intros p st [<- <-]%lookup_singleton_Some).
  set (s := Build_Sched _ _ _ _ _ _).
  assert (Hw : forall l, waits s l = []).
  { intros [p|r key]; cbn; [by rewrite lookup_empty|]. unfold sem_queue.
    destruct ({[ref := SemSet.new]} !! r) as [set|] eqn:E; [|done].
    apply lookup_singleton_Some in E as [_ <-]. unfold SemSet.new. by rewrite lookup_empty. }
  split; [split|..]; cbn [a_status a_queue a_cur a_counter s].
  - constructor.
  - by intros p ?%elem_of_nil.
  - by intros p [_ ?]%Hst.
  - intros l. rewrite Hw. constructor.
  - intros l p. rewrite Hw. by intros ?%elem_of_nil.
  - intros l l' p. rewrite Hw. by intros ?%elem_of_nil.
  - intros p [st [-> _]%Hst]. unfold KERNEL_PID. lia.
  - lia.
  - left. apply lookup_singleton_eq.
  - apply not_elem_of_nil.
  - by intros p [-> _]%Hst.
  - right. apply lookup_singleton_eq.
Qed.

(** The rest of [init] changes neither processes nor page tables. *)
Lemma keeps_install {B} (g : Kern -> B) {Hg : KQuiet g} a : keeps g (install a).
Proof.
  unfold install. apply keeps_bind; [|intros _]; apply keeps_on_sys; try done; (by apply keeps_modify) || (by apply keeps_mem_op, _).
Qed.
Lemma keeps_set_root {B} (g : Kern -> B) {Hg : KQuiet g} fs : keeps g (set_root fs).
Proof. apply keeps_modify. intros k. apply kq_rootfs. Qed.
Lemma reachable_sched_inv (k : Kern) : reachable k -> sched_inv (abs k).
Proof.
  induction 1 as [k pages u k1 Hb H|k a u k1 _ IH H|k fs u k1 _ IH H|k e u k1 _ IH Ha H].
  - destruct (init_abs _ _ _ _ Hb H) as [ref ->]. apply boot_inv.
  - by rewrite (keeps_install abs a _ _ _ H).
  - by rewrite (keeps_set_root abs fs _ _ _ H).
  - apply enter_step in H as (ev & He & Hs); [|by apply inv_current].
    eapply sched_step_inv; [exact IH| |exact Hs]. by eapply entry_event_allowed.
Qed.

(** C2: the scheduling invariant.  In every state that the kernel reaches from boot
    by entries that return (the kernel process making no system calls, and process
    numbers not exhausted): the process on the processor is running, or has ended
    since it was given the processor, and it is the only one running and not queued;
    the ready queue has no duplicates, holds every ready process, and otherwise only
    dead ones; every process waits in at most one place, once, and is blocked
    whenever it waits; the kernel process is ready or running; and process numbers
    are between 1 and the counter. *)
Theorem kernel_reachable_inv (k : Kern) : reachable k -> sched_inv (abs k).
Proof. apply reachable_sched_inv. Qed.
End entries.

(** ** Witnesses *)

#[local] Existing Instances demo_log demo_x86 demo_x86_laws demo_uefi demo_selectors demo_elf_parser
  demo_platform demo_ArrayQueue demo_chrono demo_bitflags demo_unicode.

Lemma demo_at_boot : at_boot demo_boot.
Proof. repeat split. Qed.
Lemma demo_started_reachable : reachable demo_started.
Proof. eapply (reach_init demo_boot [] tt); [apply demo_at_boot|vm_compute; reflexivity]. Qed.
(** One more entry. *)
Ltac demo_step k e H :=
  eapply (reach_enter k e tt);
  [ apply H
  | vm_compute; repeat match goal with |- _ /\ _ => split end; first [discriminate|reflexivity|exact I]
  | vm_compute; reflexivity ].

Lemma demo_spawned_reachable : reachable demo_spawned.
Proof. demo_step demo_started (KernelSpawn 4 64 demo_a) demo_started_reachable. Qed.
Lemma demo_running_reachable : reachable demo_running.
Proof. demo_step demo_spawned (Timer demo_ctx) demo_spawned_reachable. Qed.
Lemma demo_forked_reachable : reachable demo_forked.
Proof. demo_step demo_running (Trap 4 64 (call_ctx 58 0 0 0)) demo_running_reachable. Qed.
Lemma demo_child_reachable : reachable demo_child.
Proof. demo_step demo_forked (Timer demo_ctx) demo_forked_reachable. Qed.
Lemma demo_parent_reachable : reachable demo_parent.
Proof. demo_step demo_child (Timer demo_ctx) demo_child_reachable. Qed.
Lemma demo_waiting_reachable : reachable demo_waiting.
Proof. demo_step demo_parent (Trap 4 64 (call_ctx 61 3 0 0)) demo_parent_reachable. Qed.
Lemma demo_joining_reachable : reachable demo_joining.
Proof. demo_step demo_waiting (Timer demo_ctx) demo_waiting_reachable. Qed.
Lemma demo_sem_reachable : reachable demo_sem.
Proof. demo_step demo_parent (Trap 4 64 (call_ctx 64 0 7 0)) demo_parent_reachable. Qed.
Lemma demo_blocked_reachable : reachable demo_blocked.
Proof. demo_step demo_sem (Trap 4 64 (call_ctx 64 3 7 0)) demo_sem_reachable. Qed.
Lemma demo_other_reachable : reachable demo_other.
Proof. demo_step demo_blocked (Timer demo_ctx) demo_blocked_reachable. Qed.
Lemma demo_again_reachable : reachable demo_again.
Proof. demo_step demo_other (Trap 4 64 (call_ctx 64 0 7 1)) demo_other_reachable. Qed.

Lemma kernel_entry_refines_witness :
  exists ev, entry_event (Trap 4 64 (call_ctx 58 0 0 0)) ev /\
    sched_step ev (abs demo_running) (abs demo_forked).
Proof.
  apply (kernel_entry_refines _ demo_running tt); [vm_compute; reflexivity|].
  eexists. vm_compute. reflexivity.
Defined.

Lemma kernel_reachable_inv_witness :
  ready_queue demo_child = [2; 1] /\ sched_inv (abs demo_child).
Proof.
  split; [vm_compute; reflexivity|]. apply kernel_reachable_inv, demo_child_reachable.
Defined.
