(* ===== verification/KernelView.v ===== *)
(** * What scheduling leaves alone

    A part [g] of the memory state and a part [view] of every process that switching, waiting and waking do not change.  The invariants of
    [KernelMem] and [KernelHeap] are about such parts, and are preserved by these operations for this reason. *)

From stdpp Require Import base numbers list gmap sets.
From S2P Require Import Prelude Bytes Device Str Fat16Name Fat16Entry Fat16Fs Fat16File X86 Frames ElfMap Sync Resource Vm Process Manager Syscall Sched Demo KernelRef KernelEntry.

Class ProcView {V : Type} (view : ProcessInner -> V) : Prop := {
  view_save ctx p : view (Inner.save ctx (Inner.tick p)) = view p;
  view_status st p : status p <> Dead -> st <> Dead -> view (set_status st p) = view p;
  view_context c p : view (set_context c p) = view p;
  view_children c p : view (set_children c p) = view p;
}.
Class SysView {M B : Type} {MM : Machine M} (g : Sys M -> B) : Prop := {
  lv_load r s u s1 : PageTableContext.load r s = Ret (u, s1) -> g s1 = g s;
  lv_pid pid s : g (set_processor_pid pid s) = g s;
}.

Section views.
Context {M D Q : Type} {L : Log} {X : X86} {MM : Machine M} {PF : Platform M} {BD : BlockDevice D}
  {C : Chrono} {BF : Bitflags} {UT : UnicodeTable} {AQ : ArrayQueue Q} {SE : Selectors}
  {EP : ElfParser}.
Abbreviation Kern := (Kernel M D Q).
Context {B V : Type} (g : Sys M -> B) (view : ProcessInner -> V) {HG : SysView g} {HV : ProcView view}.

Definition kview (k : Kern) : B * gmap Z V := (g (sys k), view <$> processes k).

Lemma view_insert (procs : gmap Z ProcessInner) pid p p' :
  procs !! pid = Some p -> view p' = view p -> view <$> <[pid := p']> procs = view <$> procs.
Proof. intros Hp Hv. rewrite fmap_insert, Hv. apply insert_id. by rewrite lookup_fmap, Hp. Qed.

Lemma switch_next_pv ctx (k : Kern) x k1 : Manager.switch_next ctx k = Ret (x, k1) -> kview k1 = kview k.
Proof.
  intros (pid & p & pre & post & s1 & _ & _ & Hp & Hst & _ & El & ->)%switch_next_inv.
  unfold kview. cbn. apply lv_load in El. rewrite lv_pid, El.
  rewrite (view_insert _ _ p); [done|done|]. apply view_status; congruence.
Qed.

Lemma switch_pv ctx (k : Kern) x k1 : Proc.switch ctx k = Ret (x, k1) -> kview k1 = kview k.
Proof.
  unfold Proc.switch. intros H. apply st_bind_inv in H as (pid & k2 & E & H).
  apply save_current_inv in E as (p & Hp & -> & ->).
  unfold Manager.push_ready in H. apply st_bind_inv in H as (u & k2 & E & H). st_inv E.
  apply st_bind_inv in H as (r & k2 & E & H). st_inv H. apply switch_next_pv in E. rewrite E.
  unfold kview. cbn. rewrite (view_insert _ _ p); [done|done|]. apply view_save.
Qed.

(** Saving and blocking the current process. *)
Lemma view_save_block ctx p :
  status p <> Dead -> view (Inner.block (Inner.save ctx (Inner.tick p))) = view p.
Proof.
  intros H. unfold Inner.block. rewrite view_status; [apply view_save| |done].
  rewrite save_status. unfold requeued. by destruct (decide _).
Qed.

Lemma wait_pid_pv pid ctx (k : Kern) x k1 :
  Proc.wait_pid pid ctx k = Ret (x, k1) ->
  (forall p, processes k !! processor_pid (sys k) = Some p -> status p <> Dead) -> kview k1 = kview k.
Proof.
  unfold Proc.wait_pid, Proc.still_alive. intros H Hc. apply st_bind_inv in H as (b & k2 & E & H).
  apply is_proc_alive_inv in E as [-> _]. destruct b.
  - unfold Proc.get_pid in H.
    apply st_bind_inv in H as (now & k2 & E & H). apply get_pid_inv in E as (-> & -> & _).
    apply st_bind_inv in H as (pid1 & k2 & E1 & H). apply st_bind_inv in H as (u & k3 & E2 & H).
    destruct (save_block_inv _ _ _ _ _ _ _ E1 eq_refl E2) as (p & Hp & ->). clear E1 E2.
    apply st_bind_inv in H as (u2 & k3 & E & H). unfold Manager.add_waiting in E.
    apply st_bind_inv in E as (now & k4 & E' & E). apply get_pid_inv in E' as (-> & -> & _).
    st_inv E. apply st_bind_inv in H as (r & k3 & E & H). st_inv H. apply switch_next_pv in E.
    rewrite E. unfold kview. cbn. rewrite (view_insert _ _ p); [done|done|].
  apply view_save_block. eauto.
  - apply st_bind_inv in H as (c & k2 & E & H). unfold Manager.get_exit_code in E.
    apply st_bind_inv in E as (p & k3 & E' & E). apply the_proc_inv in E' as [Hp ->]. st_inv E.
    st_inv H. done.
Qed.

Lemma sem_wait_pv key ctx (k : Kern) x k1 :
  Proc.sem_wait key ctx k = Ret (x, k1) ->
  (forall p, processes k !! processor_pid (sys k) = Some p -> status p <> Dead) -> kview k1 = kview k.
Proof.
  unfold Proc.sem_wait, Proc.get_pid. intros H Hc. apply st_bind_inv in H as (pid & k2 & E & H).
  apply get_pid_inv in E as (-> & -> & _). apply st_bind_inv in H as (r & k2 & E & H).
  unfold Data.sem_wait in E. apply (sem_op_inv (SemSet.wait key (processor_pid (sys k)))) in E
    as (p & d & set & Hp & Hd & Hs & -> & ->).
  destruct (SemSet.wait key (processor_pid (sys k)) set) as [r set'] eqn:Ew. cbn in H.
  destruct r as [| |pid|pid]; [by st_inv H|by st_inv H| |done].
  apply st_bind_inv in H as (pid1 & k2 & E1 & H). apply st_bind_inv in H as (u & k3 & E2 & H).
  destruct (save_block_inv _ _ _ _ _ _ _ E1 eq_refl E2) as (p' & Hp' & ->). clear E1 E2.
  apply st_bind_inv in H as (r & k3 & E & H). st_inv H. apply switch_next_pv in E.
  rewrite E. unfold kview. cbn. rewrite (view_insert _ _ p'); [done|done|].
  apply view_save_block. eauto.
Qed.
Lemma sem_signal_pv key ctx (k : Kern) x k1 :
  Proc.sem_signal key ctx k = Ret (x, k1) -> sched_inv (abs k) -> kview k1 = kview k.
Proof.
  unfold Proc.sem_signal. intros H Hi. apply st_bind_inv in H as (r & k2 & E & H).
  unfold Data.sem_signal in E. apply (sem_op_inv (SemSet.signal key)) in E
    as (p & d & set & Hp & Hd & Hs & -> & ->).
  destruct (SemSet.signal key set) as [r set'] eqn:Ew. cbn in H.
  destruct r as [| |pid|pid]; [by st_inv H|by st_inv H|done|].
  apply st_bind_inv in H as (u & k2 & E & H). st_inv H. unfold Manager.wake_up in E.
  apply st_bind_inv in E as (q & k2 & E' & E). apply the_proc_inv in E' as [Hq ->]. cbn in Hq.
  unfold Manager.write_proc, Manager.push_ready in E. st_inv E.
  assert (Hb : status q = Blocked).
  { pose proof (sem_signal_queues _ (semaphores_ref d) _ _ _ _ Hs Ew) as (_ & Hw & _).
    pose proof (core_wait_blocked _ (inv_core _ Hi) (AtSem (semaphores_ref d) key) pid) as Hst.
    cbn in Hst. rewrite (Hw pid eq_refl), lookup_fmap, Hq in Hst.
    assert (Some (status q) = Some Blocked) as [= ->] by (apply Hst, elem_of_cons; auto). done. }
  unfold kview. cbn. rewrite (view_insert _ _ q); [done|done|]. apply view_status; congruence.
Qed.

Lemma new_sem_pv key value (k : Kern) x k1 : Proc.new_sem key value k = Ret (x, k1) -> kview k1 = kview k.
Proof.
  unfold Proc.new_sem. intros H. apply st_bind_inv in H as (r & k2 & E & H). st_inv H.
  unfold Data.new_sem in E. apply (sem_op_inv (SemSet.insert key value)) in E
    as (p & d & set & _ & _ & _ & _ & ->). done.
Qed.
Lemma remove_sem_pv key (k : Kern) x k1 : Proc.remove_sem key k = Ret (x, k1) -> kview k1 = kview k.
Proof.
  unfold Proc.remove_sem. intros H. apply st_bind_inv in H as (r & k2 & E & H). st_inv H.
  unfold Data.remove_sem in E. apply (sem_op_inv (SemSet.remove key)) in E
    as (p & d & set & _ & _ & _ & _ & ->). done.
Qed.

Lemma sys_sem_pv a ctx (k : Kern) x k1 :
  Service.sys_sem a ctx k = Ret (x, k1) -> sched_inv (abs k) ->
  (forall p, processes k !! processor_pid (sys k) = Some p -> status p <> Dead) -> kview k1 = kview k.
Proof.
  intros H Hi Hc. unfold Service.sys_sem in H.
  destruct (arg0 a =? 0); [|destruct (arg0 a =? 1); [|destruct (arg0 a =? 2); [|destruct (arg0 a =? 3)]]].
  - apply st_bind_inv in H as (r & k2 & E & H). st_inv H. by apply new_sem_pv in E.
  - apply st_bind_inv in H as (r & k2 & E & H). st_inv H. by apply remove_sem_pv in E.
  - by apply sem_signal_pv in H.
  - by apply sem_wait_pv in H.
  - by st_inv H.
Qed.

(** Waking the processes that wait for the current one. *)
Lemma wake_waiting_pv ret (k : Kern) x k1 : Manager.wake_waiting ret k = Ret (x, k1) -> sched_inv (abs k) ->
  kview k1 = kview k /\ sys k1 = sys k /\ (is_Some (processes k !! processor_pid (sys k)) -> is_Some (processes k1 !! processor_pid (sys k1))).
Proof using HV.
  intros (procs & -> & Hall & Hlk)%wake_waiting_inv Hi. set (ws := default [] (waiting_processes k !! processor_pid (sys k))) in *.
  split; [|split; [done|]].
  - unfold kview. cbn. f_equal. apply map_eq. intros w. rewrite !lookup_fmap, Hlk. destruct (decide (w ∈ ws)) as [Hw|]; [|done].
    destruct (proj1 (Forall_forall _ _) Hall w Hw) as [pw Hpw]. rewrite Hpw. cbn. f_equal.
    pose proof (core_wait_blocked _ (inv_core _ Hi) (AtProc (processor_pid (sys k))) w Hw) as Hb.
    cbn in Hb. rewrite lookup_fmap, Hpw in Hb. injection Hb as Hb.
    unfold woken_proc, Inner.pause. rewrite view_status; [apply view_context| |done]. cbn. congruence.
  - intros [p Hp]. cbn. rewrite Hlk, Hp. destruct (decide _); cbn; eauto.
Qed.
End views.
