(* ===== verification/KernelMem.v ===== *)
(** * Page tables of the running kernel

    The page table of a process is shared with its forks behind a reference count
    ([Arc<Cr3RegValue>]), and freed by the last of them.  Here the counts are shown
    to be exact in every reachable state, which makes the timer interrupt total: it
    never panics and never loops. *)

From stdpp Require Import base numbers list gmap sets.
From S2P Require Import Prelude Bytes Device Str Fat16Name Fat16Entry Fat16Fs Fat16File X86 Frames ElfMap Sync Resource Vm Process Manager Syscall Sched Demo KernelRef KernelEntry KernelView.

(** What is counted of a process: its page table, whether it has data, whether it is
    dead. *)
Definition view (p : ProcessInner) : option Z * bool * bool :=
  (ProcessVm.page_table <$> proc_vm p, bool_decide (is_Some (proc_data p)),
   bool_decide (status p = Dead)).

(** The number of processes that use table [r]. *)
Definition users (vs : gmap Z (option Z * bool * bool)) (r : Z) : Z :=
  Z.of_nat (base.size (filter (fun x => x.2.1.1 = Some r) vs)).
Definition count (regs : gmap Z Cr3RegValue) (r : Z) : Z :=
  match regs !! r with Some v => reg_count v | None => 0 end.

Record mem_ok (regs : gmap Z Cr3RegValue) (vs : gmap Z (option Z * bool * bool)) : Prop := {
  mem_count r : count regs r = users vs r;
  mem_positive r v : regs !! r = Some v -> 1 <= reg_count v;
  mem_alive pid o d : vs !! pid = Some (o, d, false) -> is_Some o /\ d = true;
  mem_dead pid o d : vs !! pid = Some (o, d, true) -> o = None;
}.

Lemma users_insert_new vs pid o d b r :
  vs !! pid = None ->
  users (<[pid := (o, d, b)]> vs) r = users vs r + (if decide (o = Some r) then 1 else 0).
Proof.
  intros Hp. unfold users. destruct (decide (o = Some r)) as [->|Hne].
  - rewrite map_filter_insert_True by done. rewrite map_size_insert_None; [lia|].
    rewrite map_lookup_filter_None. auto.
  - rewrite map_filter_insert_False by done. rewrite delete_id by done. lia.
Qed.

Lemma users_delete vs pid o d b r :
  vs !! pid = Some (o, d, b) ->
  users vs r = users (delete pid vs) r + (if decide (o = Some r) then 1 else 0).
Proof.
  intros Hp. rewrite <- (insert_delete_id vs pid _ Hp) at 1. rewrite users_insert_new; [done|].
  apply lookup_delete_eq.
Qed.

(** An alive process has a live table. *)
Lemma mem_table regs vs pid o d :
  mem_ok regs vs -> vs !! pid = Some (o, d, false) -> exists r v, o = Some r /\ regs !! r = Some v.
Proof.
  intros Hm Hp. destruct (mem_alive _ _ Hm _ _ _ Hp) as [[r ->] _]. exists r.
  pose proof (mem_count _ _ Hm r) as Hc. rewrite (users_delete _ _ _ _ _ r Hp) in Hc.
  rewrite decide_True in Hc by done. unfold count in Hc.
  destruct (regs !! r); [eauto|]. unfold users in Hc. lia.
Qed.

(** ** How the counts change *)

(** Another process with table [r]. *)
Lemma mem_ok_add regs vs r v v' pid :
  mem_ok regs vs -> (regs !! r = Some v \/ regs !! r = None /\ reg_count v = 0) ->
  reg_count v' = reg_count v + 1 -> vs !! pid = None ->
  mem_ok (<[r := v']> regs) (<[pid := (Some r, true, false)]> vs).
Proof.
  intros Hm Hr Hv Hp. split.
  - intros q. rewrite users_insert_new by done. rewrite <- (mem_count _ _ Hm q). unfold count.
    destruct (decide (q = r)) as [->|Hne].
    + rewrite lookup_insert_eq, decide_True by done. destruct Hr as [->|[-> E]]; lia.
    + rewrite lookup_insert_ne by done. rewrite decide_False by congruence. lia.
  - intros q w. destruct (decide (q = r)) as [->|Hne].
    + rewrite lookup_insert_eq. intros [= <-].
      destruct Hr as [Hr|[_ E]]; [pose proof (mem_positive _ _ Hm _ _ Hr)|]; lia.
    + rewrite lookup_insert_ne by done. apply (mem_positive _ _ Hm).
  - intros q o d. destruct (decide (q = pid)) as [->|Hne].
    + rewrite lookup_insert_eq. intros [= <- <-]. eauto.
    + rewrite lookup_insert_ne by done. apply (mem_alive _ _ Hm).
  - intros q o d. destruct (decide (q = pid)) as [->|Hne].
    + by rewrite lookup_insert_eq.
    + rewrite lookup_insert_ne by done. apply (mem_dead _ _ Hm).
Qed.

(** What [release] makes of the counts. *)
Definition released (regs : gmap Z Cr3RegValue) (r : Z) (v : Cr3RegValue) : gmap Z Cr3RegValue :=
  if reg_count v =? 1 then delete r regs
  else <[r := {| reg_addr := reg_addr v; reg_flags := reg_flags v; reg_count := reg_count v - 1 |}]>
         regs.

Lemma count_released regs r v q :
  regs !! r = Some v ->
  count (released regs r v) q = count regs q - (if decide (q = r) then 1 else 0).
Proof.
  intros Hr. unfold count, released. destruct (Z.eqb_spec (reg_count v) 1), (decide (q = r)) as [->|Hne].
  - rewrite lookup_delete_eq, Hr. lia.
  - rewrite lookup_delete_ne by done. lia.
  - rewrite lookup_insert_eq, Hr. done.
  - rewrite lookup_insert_ne by done. lia.
Qed.

(** A process with table [r] dies. *)
Lemma mem_ok_die regs vs pid r v :
  mem_ok regs vs -> vs !! pid = Some (Some r, true, false) -> regs !! r = Some v ->
  mem_ok (released regs r v) (<[pid := (None, false, true)]> vs).
Proof.
  intros Hm Hp Hr. split.
  - intros q. rewrite count_released, (mem_count _ _ Hm q), (users_delete _ _ _ _ _ q Hp) by done.
    rewrite <- insert_delete_eq, users_insert_new by apply lookup_delete_eq.
    repeat destruct (decide _); simplify_eq; lia.
  - intros q w. unfold released. pose proof (mem_positive _ _ Hm _ _ Hr).
    destruct (Z.eqb_spec (reg_count v) 1).
    + intros [_ Hq]%lookup_delete_Some. by eapply (mem_positive _ _ Hm).
    + intros [[<- <-]|[_ Hq]]%lookup_insert_Some; [cbn; lia|]. by eapply (mem_positive _ _ Hm).
  - intros q o d [[_ ?]|[_ Hq]]%lookup_insert_Some; [done|]. by eapply (mem_alive _ _ Hm).
  - intros q o d [[_ ?]|[_ Hq]]%lookup_insert_Some; [by simplify_eq|]. by eapply (mem_dead _ _ Hm).
Qed.

(** ** What the operations do to the tables *)
Section vm.
Context {M : Type} {L : Log} {X : X86} {MM : Machine M}.

Lemma pt_get_inv r (s : Sys M) v s1 :
  PageTableContext.get r s = Ret (v, s1) -> cr3_regs s !! r = Some v /\ s1 = s.
Proof. unfold PageTableContext.get. destruct (_ !! _); [|done]. by intros [= -> ->]. Qed.

Lemma pt_fork_inv r (s : Sys M) r' s1 :
  PageTableContext.fork r s = Ret (r', s1) ->
  r' = r /\ exists v v', cr3_regs s !! r = Some v /\ reg_count v' = reg_count v + 1 /\
    cr3_regs s1 = <[r := v']> (cr3_regs s).
Proof.
  unfold PageTableContext.fork. intros H. apply st_bind_inv in H as (v & s2 & E & H).
  apply pt_get_inv in E as [Hv ->]. st_inv H. split; [done|]. eexists _, _. split; [done|].
  split; [|done]. done.
Qed.

Lemma vm_fork_inv n v (s : Sys M) cv s1 :
  ProcessVm.fork n v s = Ret (cv, s1) ->
  ProcessVm.page_table cv = ProcessVm.page_table v /\
  exists w w', cr3_regs s !! ProcessVm.page_table v = Some w /\ reg_count w' = reg_count w + 1 /\
    cr3_regs s1 = <[ProcessVm.page_table v := w']> (cr3_regs s).
Proof.
  unfold ProcessVm.fork. intros H. apply st_bind_inv in H as (r & s2 & E & H).
  apply pt_fork_inv in E as (-> & w & w' & Hw & Hc & Hs2).
  apply st_bind_inv in H as (l4 & s3 & E & H). apply (keeps_mapper cr3_regs) in E.
  apply st_bind_inv in H as (st & s4 & E2 & H). apply (keeps_stack_fork cr3_regs) in E2.
  st_inv H. split; [done|]. exists w, w'. split; [done|]. split; [done|]. congruence.
Qed.

Lemma vm_drop_inv v (s : Sys M) u s1 :
  ProcessVm.drop v s = Ret (u, s1) ->
  exists w, cr3_regs s !! ProcessVm.page_table v = Some w /\
    cr3_regs s1 = released (cr3_regs s) (ProcessVm.page_table v) w.
Proof.
  unfold ProcessVm.drop. intros H. apply st_bind_inv in H as (r & s2 & E & H).
  apply (keeps_vm_clean_up cr3_regs) in E. unfold PageTableContext.release in H.
  apply st_bind_inv in H as (w & s3 & E2 & H). apply pt_get_inv in E2 as [Hw ->]. st_inv H.
  exists w. rewrite E in Hw. split; [done|]. cbn. by rewrite E.
Qed.

Lemma vm_new_table r (s : Sys M) v s1 :
  ProcessVm.new r s = Ret (v, s1) -> ProcessVm.page_table v = r.
Proof. unfold ProcessVm.new. intros H. apply st_bind_inv in H as (h & s2 & _ & H). by st_inv H. Qed.

Lemma vm_load_table elf pid v (s : Sys M) r s1 :
  ProcessVm.load_elf elf pid v s = Ret (r, s1) -> ProcessVm.page_table r.2 = ProcessVm.page_table v.
Proof.
  unfold ProcessVm.load_elf. intros H. apply st_bind_inv in H as (l4 & s2 & _ & H).
  apply st_bind_inv in H as (v' & s3 & E & H). unfold ProcessVm.load_elf_code in E.
  apply st_bind_inv in E as (off & s4 & _ & E). apply st_bind_inv in E as (c & s5 & _ & E).
  apply st_lift_bind_inv in E as (code & _ & E). st_inv E.
  apply st_bind_inv in H as (x & s6 & _ & H). by st_inv H.
Qed.

Lemma vm_fault_table addr v (s : Sys M) r s1 :
  ProcessVm.handle_page_fault addr v s = Ret (r, s1) ->
  ProcessVm.page_table r.2 = ProcessVm.page_table v.
Proof.
  unfold ProcessVm.handle_page_fault. intros H. apply st_bind_inv in H as (l4 & s2 & _ & H).
  apply st_bind_inv in H as (x & s3 & _ & H). by st_inv H.
Qed.

Lemma pt_clone_inv r (s : Sys M) r' s1 :
  PageTableContext.clone_l4 r s = Ret (r', s1) ->
  exists v, cr3_regs s !! r' = None /\ reg_count v = 1 /\ cr3_regs s1 = <[r' := v]> (cr3_regs s).
Proof.
  unfold PageTableContext.clone_l4. intros H. apply st_bind_inv in H as (v & s2 & E & H).
  apply pt_get_inv in E as [_ ->]. apply st_bind_inv in H as (f & s2 & E & H).
  apply (keeps_mem_op cr3_regs) in E. apply st_lift_bind_inv in H as (fr & _ & H).
  apply st_bind_inv in H as (u & s3 & E2 & H). st_inv E2. apply st_bind_inv in H as (r2 & s3 & E2 & H).
  st_inv E2. st_inv H. cbn. rewrite E. eexists. split; [apply fresh_ref_fresh|]. split; [|done]. done.
Qed.
End vm.

Section kernel.
Context {M D Q : Type} {L : Log} {X : X86} {MM : Machine M} {PF : Platform M} {BD : BlockDevice D}
  {C : Chrono} {BF : Bitflags} {UT : UnicodeTable} {AQ : ArrayQueue Q} {SE : Selectors}
  {EP : ElfParser}.
Abbreviation Kern := (Kernel M D Q).

Abbreviation pv := (kview (M := M) (D := D) (Q := Q) cr3_regs view).
Definition mem_inv (k : Kern) : Prop := mem_ok (cr3_regs (sys k)) (view <$> processes k).
#[export] Instance pv_stable : KStable pv.
Proof. split; intros; unfold kview; cbn; congruence. Qed.
#[export] Instance regs_view : SysView (cr3_regs (M := M)).
Proof. split; [intros r; apply (keeps_pt_load cr3_regs)|done]. Qed.
#[export] Instance table_view : ProcView view.
Proof.
  split; [|intros st p H1 H2|done..].
  - intros ctx p. unfold view, Inner.save. cbn. destruct (decide (status p = Dead)) as [E|E]; [done|]. cbn. f_equal. by rewrite !bool_decide_eq_false_2.
  - unfold view. cbn. f_equal. by rewrite !bool_decide_eq_false_2.
Qed.

Lemma mem_inv_pv (k k1 : Kern) : pv k1 = pv k -> mem_inv k -> mem_inv k1.
Proof. unfold mem_inv, kview. intros [= -> ->]. done. Qed.

Lemma page_fault_pv addr prot (k : Kern) x k1 :
  Service.page_fault_handler addr prot k = Ret (x, k1) -> pv k1 = pv k.
Proof.
  unfold Service.page_fault_handler, Proc.handle_page_fault, Manager.handle_page_fault. intros H.
  apply st_bind_inv in H as (ok & k2 & E & H). apply st_bind_inv in E as ([pid p] & k3 & E1 & E).
  apply current_inv in E1 as (-> & Hp & ->). destruct prot; cbn in E.
  - st_inv E. discriminate H.
  - apply st_bind_inv in E as ([ok' p'] & k3 & E1 & E). unfold Manager.write_proc in E. st_inv E.
    st_inv H. unfold Inner.handle_page_fault in E1. apply st_bind_inv in E1 as (v & k4 & E2 & E1).
    unfold Inner.vm in E2. apply st_unwrap_inv in E2 as [Hv ->].
    apply st_bind_inv in E1 as ([ok v'] & k4 & E2 & E1). apply on_sys_inv in E2 as (s1 & E2 & ->).
    st_inv E1. pose proof (vm_fault_table _ _ _ _ _ E2) as Ht. apply (keeps_vm_fault cr3_regs) in E2.
    unfold kview. cbn. rewrite E2, (view_insert view _ _ p); [done|done|].
    unfold view. cbn. cbn in Ht. by rewrite Hv, Ht.
Qed.

(** [kill] of the current process. *)
Lemma kill_mem pid ret (k : Kern) x k1 p :
  Manager.kill pid ret k = Ret (x, k1) -> processes k !! pid = Some p -> mem_inv k -> mem_inv k1.
Proof.
  intros H Hp Hm. destruct (kill_inv _ _ _ _ _ _ H Hp) as (p' & s1 & -> & _ & Hd & Hk).
  unfold mem_inv. cbn. rewrite fmap_insert. destruct (decide (status p = Dead)) as [Hdead|Hdead].
  - destruct Hk as [-> ->]. rewrite insert_id; [done|]. by rewrite lookup_fmap, Hp.
  - destruct Hk as (_ & Hv & Hdata & Hdrop).
    assert (Hvp : (view <$> processes k) !! pid = Some (ProcessVm.page_table <$> proc_vm p,
      bool_decide (is_Some (proc_data p)), false)).
    { rewrite lookup_fmap, Hp. cbn. unfold view. by rewrite (bool_decide_eq_false_2 (status p = Dead)). }
    destruct (mem_alive _ _ Hm _ _ _ Hvp) as [_ Ed]. rewrite Ed in Hvp.
    destruct (proc_vm p) as [v|].
    + apply vm_drop_inv in Hdrop as (w & Hw & ->).
      replace (view p') with (@None Z, false, true); [by apply mem_ok_die|].
      unfold view. rewrite Hv, Hdata. cbn. by rewrite bool_decide_eq_true_2.
    + destruct (mem_alive _ _ Hm _ _ _ Hvp) as [[r ?] _]. done.
Qed.

Lemma exit_mem ret ctx (k : Kern) x k1 :
  Proc.exit ret ctx k = Ret (x, k1) -> sched_inv (abs k) -> mem_inv k -> mem_inv k1.
Proof.
  unfold Proc.exit. intros H Hi Hm. destruct (inv_current _ Hi) as [pc Hpc].
  apply st_bind_inv in H as (u & k2 & E & H).
  apply (wake_waiting_pv cr3_regs view) in E as (Ev & Es & Hs); [|done].
  apply st_bind_inv in H as (u2 & k3 & E & H). unfold Manager.kill_self in E.
  apply st_bind_inv in E as (pid & k4 & E' & E). apply get_pid_inv in E' as (-> & -> & _).
  destruct (Hs ltac:(by eexists)) as [pc' Hpc']. eapply kill_mem in E; [|exact Hpc'|by eapply mem_inv_pv].
  apply st_bind_inv in H as (r & k4 & E2 & H). st_inv H. apply (switch_next_pv cr3_regs view) in E2. by eapply mem_inv_pv.
Qed.

Lemma process_exit_mem ret (k : Kern) x k1 :
  Proc.process_exit ret k = Ret (x, k1) -> sched_inv (abs k) -> mem_inv k -> mem_inv k1.
Proof.
  unfold Proc.process_exit, Manager.kill_current. intros H Hi Hm. destruct (inv_current _ Hi) as [p Hp].
  apply st_bind_inv in H as (pid & k2 & E & H). apply get_pid_inv in E as (-> & -> & _).
  by eapply kill_mem.
Qed.

(** The next process number is unused. *)
Lemma next_pid_fresh (k : Kern) :
  sched_inv (abs k) -> pid_counter k + 1 < 2 ^ 16 -> processes k !! u16 (pid_counter k + 1) = None.
Proof.
  intros Hi Hn. pose proof (core_counter _ (inv_core _ Hi)) as Hc. cbn in Hc.
  rewrite wrap_small by lia. apply eq_None_not_Some. intros [p Hp].
  pose proof (core_pids _ (inv_core _ Hi) (pid_counter k + 1)) as Hx. cbn in Hx.
  rewrite lookup_fmap, Hp in Hx. specialize (Hx ltac:(eauto)). lia.
Qed.
Lemma fork_mem ctx (k : Kern) x k1 :
  Proc.fork ctx k = Ret (x, k1) -> sched_inv (abs k) -> pid_counter k + 1 < 2 ^ 16 ->
  mem_inv k -> mem_inv k1.
Proof.
  intros (p & c & s1 & r & Hp & Hf & E & _)%fork_inv Hi Hn Hm. apply (switch_next_pv cr3_regs view) in E.
  eapply mem_inv_pv; [exact E|]. unfold mem_inv. cbn.
  destruct Hf as (v & cv & d & top & Hv & Hd & Ef & _ & ->). cbn in Ef.
  apply vm_fork_inv in Ef as (Ht & w & w' & Hw & Hc & ->).
  rewrite fmap_insert, (view_insert view _ _ p); [|done|by rewrite view_context, view_children, view_save].
  unfold view at 1. cbn. rewrite Ht. eapply mem_ok_add; [exact Hm|by left|done|].
  by rewrite lookup_fmap, next_pid_fresh.
Qed.

(** The parts of a run of [spawn]: the table, the memory and the process that it makes. *)
Lemma spawn_inv elf nm par (k : Kern) x k1 : Manager.spawn elf nm par None k = Ret (x, k1) -> let pid := u16 (pid_counter k + 1) in
  exists kt pt s1 v s2 top v2 p, PageTableContext.clone_l4 kt (sys k) = Ret (pt, s1) /\ ProcessVm.new pt s1 = Ret (v, s2) /\
    ProcessVm.load_elf elf pid v s2 = Ret ((top, v2), sys k1) /\ processes k1 = <[pid := p]> (processes k) /\
    proc_vm p = Some v2 /\ is_Some (proc_data p) /\ status p = Ready.
Proof.
  unfold Manager.spawn. intros H. apply st_bind_inv in H as (kp & k2 & E & H).
  apply the_proc_inv in E as [_ ->]. apply st_bind_inv in H as (pt & k2 & E & H).
  unfold Inner.clone_page_table, Inner.vm in E. apply st_lift_bind_inv in E as (kv & _ & E).
  apply on_sys_inv in E as (s1 & E & ->). apply st_bind_inv in H as (v & k3 & E2 & H). apply on_sys_inv in E2 as (s2 & E2 & ->). cbn in E2.
  apply st_bind_inv in H as ([pid p] & k4 & E3 & H). unfold Process.new in E3.
  apply st_bind_inv in E3 as (pid' & k5 & E4 & E3). unfold ProcessId_new in E4.
  injection E4 as <- <-. apply st_bind_inv in E3 as (v' & k5 & E4 & E3). st_inv E4.
  apply st_bind_inv in E3 as (d & k5 & E4 & E3). unfold Data.default in E4. injection E4 as <- <-.
  injection E3 as <- <- <-.
  apply st_bind_inv in H as ([top p'] & k6 & E5 & H). unfold Inner.load_elf, Inner.vm in E5.
  apply st_lift_bind_inv in E5 as (v1 & Ev & E5). cbn in Ev. injection Ev as <-.
  apply st_bind_inv in E5 as ([top' v2] & k7 & E6 & E5). apply on_sys_inv in E6 as (s3 & E6 & ->).
  injection E5 as <- <- <-. apply st_lift_bind_inv in H as (entry & _ & H).
  unfold Manager.add_proc, Manager.push_ready in H. st_inv H.
  eexists _, pt, s1, _, s2, top', v2, _. split; [exact E|]. split; [exact E2|]. split; [exact E6|]. split; [reflexivity|]. cbn. eauto.
Qed.
Lemma spawn_mem elf nm par (k : Kern) x k1 :
  Manager.spawn elf nm par None k = Ret (x, k1) -> sched_inv (abs k) ->
  pid_counter k + 1 < 2 ^ 16 -> mem_inv k -> mem_inv k1.
Proof.
  intros (kt & pt & s1 & v & s2 & top & v2 & p & E1 & E2 & E3 & Hk & Hv & Hd & Hst)%spawn_inv Hi Hn Hm.
  apply pt_clone_inv in E1 as (w & Hf & Hw & Hs1). pose proof (vm_new_table _ _ _ _ E2) as Ht. apply (keeps_vm_new cr3_regs) in E2.
  pose proof (vm_load_table _ _ _ _ _ _ E3) as Ht2. apply (keeps_vm_load_elf cr3_regs) in E3.
  unfold mem_inv. rewrite E3, E2, Hs1, Hk, fmap_insert.
  replace (view p) with (Some pt, true, false) by (unfold view; rewrite Hv, Hst, bool_decide_eq_true_2 by done; cbn in Ht2 |- *; by rewrite Ht2, Ht).
  eapply (mem_ok_add _ _ _ {| reg_addr := 0; reg_flags := 0; reg_count := 0 |}); [exact Hm|by right|done|].
  by rewrite lookup_fmap, next_pid_fresh.
Qed.

Lemma proc_spawn_mem fuel units path (k : Kern) x k1 :
  Proc.spawn fuel units path k = Ret (x, k1) -> sched_inv (abs k) ->
  pid_counter k + 1 < 2 ^ 16 -> mem_inv k -> mem_inv k1.
Proof.
  unfold Proc.spawn, Proc.elf_spawn. intros H Hi Hn Hm. cbv zeta in H.
  apply st_bind_inv in H as (fs & k2 & E & H). injection E as <- <-.
  apply st_lift_bind_inv in H as (r & _ & H). apply st_lift_bind_inv in H as (h & _ & H).
  apply st_lift_bind_inv in H as ([[res u] buf] & _ & H).
  apply st_lift_bind_inv in H as (u' & _ & H). apply st_lift_bind_inv in H as (elf & _ & H).
  apply st_bind_inv in H as ([pid p] & k2 & E & H). apply current_inv in E as (_ & _ & ->).
  apply st_bind_inv in H as (pid' & k2 & E & H). st_inv H. by eapply spawn_mem.
Qed.

Lemma dispatcher_mem fuel units ctx (k : Kern) x k1 :
  Service.dispatcher fuel units ctx k = Ret (x, k1) -> sched_inv (abs k) ->
  entry_allowed (Trap fuel units ctx) k -> mem_inv k -> mem_inv k1.
Proof.
  intros H Hi (_ & Hn & Hr) Hm.
  assert (Hc : forall p, processes k !! processor_pid (sys k) = Some p -> status p <> Dead).
  { intros p Hp. rewrite Hp in Hr. cbn in Hr. congruence. }
  pose proof (dispatcher_quiet pv fuel units ctx) as Hquiet. unfold Service.dispatcher in *.
  set (a := Service.args_of ctx) in *. clearbody a.
  destruct (syscall a); try (exact (mem_inv_pv _ _ (Hquiet I _ _ _ H) Hm)).
  - by eapply (fork_mem ctx).
  - unfold Service.returning, Service.sys_spawn_process in H.
    apply st_bind_inv in H as (r & k2 & E & H). st_inv H.
    apply st_bind_inv in E as (path & k2 & E1 & E).
    pose proof (keeps_user_str abs _ _ _ _ _ E1) as Ea. pose proof (keeps_user_str pv _ _ _ _ _ E1) as Ep.
    apply st_bind_inv in E as (r' & k3 & E2 & E). st_inv E.
    eapply proc_spawn_mem; [exact E2| | |by eapply mem_inv_pv].
    + by rewrite Ea.
    + unfold abs in Ea. injection Ea as _ _ _ _ _ ->. done.
  - by eapply exit_mem.
  - eapply mem_inv_pv; [|exact Hm]. by eapply (wait_pid_pv cr3_regs view).
  - eapply mem_inv_pv; [|exact Hm]. by eapply (sys_sem_pv cr3_regs view).
Qed.

Lemma enter_mem e (k : Kern) u k1 :
  enter e k = Ret (u, k1) -> sched_inv (abs k) -> entry_allowed e k -> mem_inv k -> mem_inv k1.
Proof.
  destruct e as [ctx|f n ctx|addr prot|key|f n path|ret]; cbn [enter]; intros H Hi Ha Hm.
  - apply st_bind_inv in H as (x & k2 & E & H). st_inv H. apply (switch_pv cr3_regs view) in E. by eapply mem_inv_pv.
  - apply st_bind_inv in H as (x & k2 & E & H). st_inv H. by eapply dispatcher_mem.
  - apply page_fault_pv in H. by eapply mem_inv_pv.
  - unfold Service.key_pressed in H. by st_inv H.
  - apply st_bind_inv in H as (x & k2 & E & H). st_inv H. by eapply proc_spawn_mem.
  - by eapply process_exit_mem.
Qed.

Lemma init_inv (k : Kern) pages u k1 : processes k = ∅ -> Proc.init pages k = Ret (u, k1) -> let pid := u16 (pid_counter k + 1) in
  exists pt s1 v s2 p, PageTableContext.new (sys k) = Ret (pt, s1) /\ ProcessVm.new pt s1 = Ret (v, s2) /\ sys k1 = set_processor_pid pid s2 /\
    processes k1 = {[pid := p]} /\ proc_vm p = Some (ProcessVm.init_kernel_vm pages v) /\ is_Some (proc_data p) /\ status p = Running.
Proof.
  intros Hp H. unfold Proc.init, Proc.manager_init in H.
  apply st_bind_inv in H as (pt & k2 & E & H). apply on_sys_inv in E as (s1 & E & ->).
  apply st_bind_inv in H as (v & k3 & E2 & H). apply on_sys_inv in E2 as (s2 & E2 & ->). cbn in E2.
  cbv zeta in H. unfold Process.new in H. apply st_bind_inv in H as ([pid p] & k4 & E3 & H).
  apply st_bind_inv in E3 as (pid' & k5 & E4 & E3). injection E4 as <- <-.
  apply st_bind_inv in E3 as (v' & k5 & E4 & E3). st_inv E4.
  apply st_bind_inv in E3 as (d & k5 & E4 & E3). unfold Data.default in E4. injection E4 as <- <-.
  injection E3 as <- <- <-. unfold Manager.add_proc, set_pid in H.
  apply st_bind_inv in H as (u' & k5 & E3 & H). apply on_sys_inv in E3 as (s3 & E3 & ->). st_inv E3.
  st_inv H. eexists pt, s1, _, s2, _. split; [exact E|]. split; [exact E2|]. split; [reflexivity|]. cbn -[u16]. rewrite Hp. split; [reflexivity|]. eauto.
Qed.
Lemma init_mem (k : Kern) pages u k1 :
  at_boot k -> Proc.init pages k = Ret (u, k1) -> mem_inv k1.
Proof.
  intros (Hp & _ & _ & _ & _ & Hr) (pt & s1 & v & s2 & p & E & E2 & Hs & Hk & Hv & Hd & Hst)%init_inv; [|done].
  unfold PageTableContext.new in E. apply st_bind_inv in E as (r & s3 & E1 & E). st_inv E1. st_inv E.
  pose proof (vm_new_table _ _ _ _ E2) as Ht. apply (keeps_vm_new cr3_regs) in E2. cbn in E2.
  unfold mem_inv. rewrite Hs, Hk. cbn -[u16]. rewrite E2, map_fmap_singleton.
  match goal with |- mem_ok (<[?r := _]> _) _ => replace (view p) with (Some r, true, false) by (unfold view; rewrite Hv, Hst, bool_decide_eq_true_2 by done; cbn; by rewrite Ht) end.
  eapply (mem_ok_add _ ∅ _ {| reg_addr := 0; reg_flags := 0; reg_count := 0 |}).
  - rewrite Hr. split; [done|..]; intros *; by rewrite lookup_empty.
  - right. split; [apply fresh_ref_fresh|done].
  - done.
  - by rewrite lookup_empty.
Qed.
Lemma reachable_mem (k : Kern) : reachable k -> mem_inv k.
Proof.
  induction 1 as [k pages u k1 Hb H|k a u k1 Hk IH H|k fs u k1 Hk IH H|k e u k1 Hk IH Ha H]; [by eapply init_mem|..].
  { eapply mem_inv_pv; [exact (keeps_install pv a _ _ _ H)|exact IH]. }
  { eapply mem_inv_pv; [exact (keeps_set_root pv fs _ _ _ H)|exact IH]. }
  eapply enter_mem; [exact H|by apply reachable_sched_inv|done|done].
Qed.

(** C3: page tables are counted exactly.  In every reachable state the reference
    count of every page table is the number of processes that use it, every process
    that is not dead has its data and a table whose count the code reads as that
    number (so the table is freed when, and only when, its last user dies), and dead
    processes hold no table. *)
Theorem page_table_counts (k : Kern) :
  reachable k ->
  (forall r, count (cr3_regs (sys k)) r = users (view <$> processes k) r) /\
  (forall pid p, processes k !! pid = Some p -> status p <> Dead ->
     exists v d, proc_vm p = Some v /\ proc_data p = Some d /\
       PageTableContext.using_count (ProcessVm.page_table v) (sys k) =
       Ret (users (view <$> processes k) (ProcessVm.page_table v), sys k)) /\
  (forall pid p, processes k !! pid = Some p -> status p = Dead -> proc_vm p = None).
Proof.
  intros Hm%reachable_mem. split; [apply Hm|]. split; intros pid p Hp Hst.
  - assert (Hv : (view <$> processes k) !! pid = Some (ProcessVm.page_table <$> proc_vm p,
      bool_decide (is_Some (proc_data p)), false)).
    { rewrite lookup_fmap, Hp. cbn. unfold view. by rewrite (bool_decide_eq_false_2 (status p = Dead)). }
    destruct (mem_alive _ _ Hm _ _ _ Hv) as [Ho Hd].
    destruct (mem_table _ _ _ _ _ Hm Hv) as (r & w & Er & Hw).
    destruct (proc_vm p) as [v|]; [|done]. injection Er as <-. rewrite bool_decide_eq_true in Hd.
    destruct Hd as [d Hd]. exists v, d. split; [done|]. split; [done|].
    rewrite <- (mem_count _ _ Hm). unfold count. rewrite Hw.
    unfold PageTableContext.using_count, PageTableContext.get, mbind, ST_bind. by rewrite Hw.
  - assert (Hv : (view <$> processes k) !! pid = Some (ProcessVm.page_table <$> proc_vm p,
      bool_decide (is_Some (proc_data p)), true)).
    { rewrite lookup_fmap, Hp. cbn. unfold view. by rewrite (bool_decide_eq_true_2 (status p = Dead)). }
    apply (mem_dead _ _ Hm) in Hv. by destruct (proc_vm p).
Qed.

(** ** The timer interrupt returns *)

Lemma the_proc_run pid p (k : Kern) :
  processes k !! pid = Some p -> Manager.the_proc pid k = Ret (p, k).
Proof. intros Hp. unfold Manager.the_proc, Manager.get_proc, mbind, ST_bind, st_gets. by rewrite Hp. Qed.
Lemma pop_ready_run y rest (k : Kern) :
  ready_queue k = y :: rest -> Manager.pop_ready k = Ret (y, set_ready_queue rest k).
Proof. intros Eq. unfold Manager.pop_ready. by rewrite Eq. Qed.

Lemma next_ready_run fuel : forall pid p (k : Kern),
  processes k !! pid = Some p ->
  (forall x, x ∈ ready_queue k -> is_Some (processes k !! x)) ->
  (exists i x q, (pid :: ready_queue k) !! i = Some x /\ (i <= fuel)%nat /\
     processes k !! x = Some q /\ status q = Ready) ->
  exists r k1, Manager.next_ready fuel pid p k = Ret (r, k1).
Proof.
  induction fuel as [|fuel IH]; intros pid p k Hp Hall (i & x & q & Hi & Hle & Hx & Hq);
    cbn [Manager.next_ready]; unfold Inner.is_ready; case_bool_decide as Hr; try by eexists _, _.
  - assert (i = 0%nat) as -> by lia. injection Hi as <-. congruence.
  - destruct i as [|i]; [injection Hi as <-; congruence|]. cbn in Hi.
    destruct (ready_queue k) as [|y rest] eqn:Eq; [done|].
    destruct (Hall y) as [py Hy]; [apply elem_of_cons; auto|].
    rewrite (st_bind_run _ _ _ tt (set_ready_queue ((y :: rest) ++ [pid]) k))
      by (unfold Manager.push_ready, st_modify; by rewrite Eq).
    rewrite (st_bind_run _ _ _ _ _ (pop_ready_run _ _ (set_ready_queue ((y :: rest) ++ [pid]) k) eq_refl)).
    erewrite st_bind_run by (apply the_proc_run; exact Hy).
    apply IH; [done| |].
    + cbn. intros z [Hz|Hz]%elem_of_app; [apply Hall, elem_of_cons; auto|].
      apply list_elem_of_singleton in Hz as ->. eauto.
    + exists i, x, q. split; [|split; [lia|done]]. exact (lookup_app_l_Some (y :: rest) [pid] i x Hi).
Qed.

(** With a ready process in the queue, and the tables in order. *)
Lemma switch_next_run ctx (k : Kern) x q :
  mem_inv k -> (forall x, x ∈ ready_queue k -> is_Some (processes k !! x)) ->
  x ∈ ready_queue k -> processes k !! x = Some q -> status q = Ready ->
  exists r k1, Manager.switch_next ctx k = Ret (r, k1).
Proof.
  intros Hm Hall Hin Hx Hq. unfold Manager.switch_next.
  destruct (ready_queue k) as [|y rest] eqn:Eq; [by apply elem_of_nil in Hin|].
  rewrite (st_bind_run _ _ _ _ _ eq_refl). rewrite Eq.
  rewrite (st_bind_run _ _ _ _ _ (pop_ready_run _ _ _ Eq)). destruct (Hall y) as [py Hy]; [apply elem_of_cons; auto|].
  rewrite (st_bind_run _ _ _ _ _ (the_proc_run y py (set_ready_queue rest k) Hy)). apply list_elem_of_lookup in Hin as [i Hi].
  destruct (next_ready_run (length (y :: rest)) y py (set_ready_queue rest k)) as ([np nq] & k1 & E).
  - done.
  - cbn. intros z Hz. apply Hall, elem_of_cons. auto.
  - exists i, x, q. cbn [ready_queue set_ready_queue processes]. split; [done|].
    split; [|done]. apply lookup_lt_Some in Hi. lia.
  - rewrite (st_bind_run _ _ _ _ _ E).
    destruct (next_ready_inv _ y py (set_ready_queue rest k) _ _ _ Hy E) as (pre & post & _ & _ & Hnp & Hst & ->). cbn in Hnp.
    assert (Hv : (view <$> processes k) !! np = Some (ProcessVm.page_table <$> proc_vm nq,
      bool_decide (is_Some (proc_data nq)), false)).
    { rewrite lookup_fmap, Hnp. cbn. unfold view. by rewrite (bool_decide_eq_false_2 (status nq = Dead)) by congruence. }
    destruct (mem_table _ _ _ _ _ Hm Hv) as (r & w & Er & Hw).
    destruct (proc_vm nq) as [v|] eqn:Ev; [|done]. injection Er as <-.
    eexists _, _. unfold mbind, ST_bind, Inner.restore, Inner.vm. cbn. rewrite Ev. cbn.
    unfold on_sys, PageTableContext.load, PageTableContext.get, mbind, ST_bind. cbn. rewrite Hw. reflexivity.
Qed.

Lemma current_run (k : Kern) p :
  sched_inv (abs k) -> processes k !! processor_pid (sys k) = Some p ->
  on_sys get_pid k = Ret (processor_pid (sys k), k) /\
  Manager.current k = Ret ((processor_pid (sys k), p), k).
Proof.
  intros Hi Hp.
  assert (Eg : on_sys get_pid k = Ret (processor_pid (sys k), k)).
  { pose proof (core_pids _ (inv_core _ Hi) (processor_pid (sys k))) as Hx. cbn in Hx.
    rewrite lookup_fmap, Hp in Hx. specialize (Hx ltac:(eauto)).
    unfold on_sys, get_pid. rewrite (proj2 (Z.eqb_neq _ _)) by lia. by destruct k as [[]]. }
  split; [done|]. unfold Manager.current. rewrite (st_bind_run _ _ _ _ _ Eg).
  by rewrite (st_bind_run _ _ _ _ _ (the_proc_run _ _ _ Hp)).
Qed.

(** The table of a process that is not dead. *)
Lemma table_run (k : Kern) pid p v :
  mem_inv k -> processes k !! pid = Some p -> status p <> Dead -> proc_vm p = Some v ->
  exists w, cr3_regs (sys k) !! ProcessVm.page_table v = Some w.
Proof.
  intros Hm Hp Hst Hv. destruct (mem_table _ _ pid (Some (ProcessVm.page_table v))
    (bool_decide (is_Some (proc_data p))) Hm) as (r & w & [= <-] & Hw); [|eauto].
  rewrite lookup_fmap, Hp. cbn. unfold view. rewrite Hv.
  by rewrite (bool_decide_eq_false_2 (status p = Dead)).
Qed.

Lemma clock_run ctx (k : Kern) :
  sched_inv (abs k) -> mem_inv k -> exists ctx' k1, Service.clock ctx k = Ret (ctx', k1).
Proof.
  intros Hi Hm. destruct (inv_current _ Hi) as [p Hp]. set (pid := processor_pid (sys k)) in *.
  set (k1 := set_processes (<[pid := Inner.save ctx (Inner.tick p)]> (processes k)) k).
  assert (Es : Manager.save_current ctx k = Ret (pid, k1)).
  { unfold Manager.save_current. by rewrite (st_bind_run _ _ _ _ _ (proj2 (current_run _ _ Hi Hp))). }
  unfold Service.clock, Proc.switch. rewrite (st_bind_run _ _ _ _ _ Es).
  rewrite (st_bind_run _ _ _ _ _ eq_refl). set (k2 := set_ready_queue _ _).
  assert (Hm2 : mem_inv k2).
  { eapply mem_inv_pv; [|exact Hm]. unfold kview. cbn. rewrite (view_insert view _ _ p); [done|done|].
    apply view_save. }
  assert (Hall : forall x, x ∈ ready_queue k2 -> is_Some (processes k2 !! x)).
  { cbn. intros x. destruct (decide (x = pid)) as [->|Hne]; [rewrite lookup_insert_eq; eauto|].
    rewrite lookup_insert_ne by done. intros [Hx|Hx%list_elem_of_singleton]%elem_of_app; [|done].
    pose proof (core_queue _ (inv_core _ Hi) x Hx) as Hst. cbn in Hst. rewrite lookup_fmap in Hst.
    destruct (processes k !! x); [eauto|by destruct Hst]. }
  assert (Hready : exists x q, x ∈ ready_queue k2 /\ processes k2 !! x = Some q /\ status q = Ready).
  { destruct (decide (pid = KERNEL_PID)) as [Ek|Ek].
    - exists pid, (Inner.save ctx (Inner.tick p)). cbn. split; [apply elem_of_app; right; by apply list_elem_of_singleton|].
      split; [apply lookup_insert_eq|]. rewrite save_status. unfold requeued.
      pose proof (inv_kernel _ Hi) as Hk. cbn in Hk. rewrite <- Ek, lookup_fmap, Hp in Hk.
      destruct (decide _); [|done]. destruct Hk as [[=]|[=]]; congruence.
    - pose proof (kernel_ready _ Hi Ek) as Hk. cbn in Hk. rewrite lookup_fmap in Hk.
      destruct (processes k !! KERNEL_PID) as [q|] eqn:Eq; [|done]. injection Hk as Hk.
      exists KERNEL_PID, q. cbn. split.
      + apply elem_of_app; left. apply (core_ready _ (inv_core _ Hi)). cbn. rewrite lookup_fmap, Eq. cbn. congruence.
      + by rewrite lookup_insert_ne. }
  destruct Hready as (x & q & Hin & Hx & Hq).
  destruct (switch_next_run ctx k2 x q Hm2 Hall Hin Hx Hq) as (r & k3 & E).
  eexists _, k3. rewrite (st_bind_run _ _ _ _ _ E). reflexivity.
Qed.

(** C4: the timer interrupt always returns.  In every reachable state, whatever the
    interrupted context, [clock] finds a ready process within one round of the ready
    queue and restores it: none of the [unwrap]s on the way panics and the loop over
    processes that are not ready ends. *)
Theorem clock_returns ctx (k : Kern) :
  reachable k -> exists ctx' k1, Service.clock ctx k = Ret (ctx', k1).
Proof. intros Hk. apply clock_run; [by apply reachable_sched_inv|by apply reachable_mem]. Qed.
End kernel.

(** ** Witnesses *)

#[local] Existing Instances demo_log demo_x86 demo_x86_laws demo_uefi demo_selectors demo_elf_parser
  demo_platform demo_ArrayQueue demo_chrono demo_bitflags demo_unicode.

Lemma page_table_counts_witness :
  count (cr3_regs (sys demo_child)) 2 = 2 /\ users (view <$> processes demo_child) 2 = 2.
Proof.
  destruct (page_table_counts demo_child demo_child_reachable) as [Hc _].
  split; [vm_compute; reflexivity|]. rewrite <- Hc. vm_compute. reflexivity.
Defined.

Lemma clock_returns_witness :
  exists ctx' k1, Service.clock demo_ctx demo_child = Ret (ctx', k1).
Proof. apply clock_returns, demo_child_reachable. Defined.
