(* ===== verification/KernelHeap.v ===== *)
(** * Heaps of the running kernel

    The end of a heap is shared by a process and its forks ([Arc<AtomicU64>]), like their page table, and [brk], [fork], [spawn] and the end of a
    process work on it through either.  Here it is shown that in every reachable state it lies in the heap region, and that two processes share it
    exactly when they share the page table in which the heap is mapped. *)

From stdpp Require Import base numbers list gmap sets.
From S2P Require Import Prelude Bytes Device Str Fat16Name Fat16Entry Fat16Fs Fat16File X86 Frames ElfMap Sync Resource Vm Process Manager Listing Syscall Sched Demo KernelRef KernelEntry KernelView KernelMem.

(** The table and the heap of a process. *)
Definition heap_of (p : ProcessInner) : option (Z * Heap.t) := (fun v => (ProcessVm.page_table v, ProcessVm.heap v)) <$> proc_vm p.
#[export] Instance heap_of_view : ProcView heap_of.
Proof. split; try done. intros ctx p. unfold heap_of, Inner.save. cbn. by destruct (decide _). Qed.

Definition in_region (e : Z) : Prop := Heap.HEAP_START <= e <= Heap.HEAP_END.
Record heaps_ok (ends : gmap Z Z) (vs : gmap Z (option (Z * Heap.t))) : Prop := {
  heap_known pid t h : vs !! pid = Some (Some (t, h)) -> Heap.base h = Heap.HEAP_START /\ exists e, ends !! Heap.end_ref h = Some e /\ in_region e;
  heap_shared p q t h t' h' : vs !! p = Some (Some (t, h)) -> vs !! q = Some (Some (t', h')) -> t = t' <-> Heap.end_ref h = Heap.end_ref h';
}.
(** The ends that were in the region still are. *)
Definition evolve (ends ends1 : gmap Z Z) : Prop := forall r e, ends !! r = Some e -> in_region e -> exists e1, ends1 !! r = Some e1 /\ in_region e1.
#[export] Instance evolve_preorder : PreOrder evolve.
Proof. split; [intros m r e; eauto|]. intros a b c H1 H2 r e Hr He. destruct (H1 r e Hr He) as (e1 & Hr1 & He1). eauto. Qed.
Lemma evolve_insert ends r e : in_region e -> evolve ends (<[r := e]> ends).
Proof. intros He q x Hq Hx. destruct (decide (q = r)) as [->|Hne]; [exists e; by rewrite lookup_insert_eq|]. exists x. by rewrite lookup_insert_ne. Qed.

Lemma heaps_ok_evolve ends ends1 vs : evolve ends ends1 -> heaps_ok ends vs -> heaps_ok ends1 vs.
Proof. intros He [Hk Hs]. split; [|done]. intros pid t h Hp. destruct (Hk pid t h Hp) as (Hb & e & Hr & Hin). split; [done|]. by eapply He. Qed.
Lemma heaps_ok_add ends vs pid t h e : heaps_ok ends vs -> Heap.base h = Heap.HEAP_START -> ends !! Heap.end_ref h = Some e -> in_region e ->
  (forall q t' h', vs !! q = Some (Some (t', h')) -> t = t' <-> Heap.end_ref h = Heap.end_ref h') ->
  heaps_ok ends (<[pid := Some (t, h)]> vs).
Proof.
  intros [Hk Hs] Hb Hr Hin Hsh. split.
  - intros q t' h' [[_ [= <- <-]]|[_ Hq]]%lookup_insert_Some; eauto.
  - intros p q t1 h1 t2 h2 [[_ [= <- <-]]|[_ Hp]]%lookup_insert_Some [[_ [= <- <-]]|[_ Hq]]%lookup_insert_Some; eauto; [done|].
    specialize (Hsh _ _ _ Hp). split; intros E; symmetry; by apply Hsh.
Qed.
Lemma heaps_ok_drop ends vs pid : heaps_ok ends vs -> heaps_ok ends (<[pid := None]> vs).
Proof.
  intros [Hk Hs]. split.
  - intros q t h [[_ ?]|[_ Hq]]%lookup_insert_Some; [done|eauto].
  - intros p q t h t' h' [[_ ?]|[_ Hp]]%lookup_insert_Some [[_ ?]|[_ Hq]]%lookup_insert_Some; [done..|eauto].
Qed.

(** ** What the operations do to the ends *)
Section ends.
Context {M : Type} {L : Log} {X : X86} {XL : X86Laws} {MM : Machine M}.
Definition evolves {A} (m : ST (Sys M) A) : Prop := forall s x s1, m s = Ret (x, s1) -> evolve (heap_ends s) (heap_ends s1).
Lemma evolves_keeps {A} (m : ST (Sys M) A) : keeps heap_ends m -> evolves m.
Proof. intros Hm s x s1 E. by rewrite (Hm _ _ _ E). Qed.
Lemma evolves_bind {A B} (m : ST (Sys M) A) (f : A -> ST (Sys M) B) : evolves m -> (forall x, evolves (f x)) -> evolves (m ≫= f).
Proof. intros Hm Hf s y s2 (x & s1 & E1 & E2)%st_bind_inv. etrans; [by eapply Hm|by eapply Hf]. Qed.
Lemma evolves_try {A B E} (m : ST (Sys M) (result A E)) (f : A -> ST (Sys M) (result B E)) : evolves m -> (forall x, evolves (f x)) -> evolves (st_try m f).
Proof. intros Hm Hf s y s2 [(x & s1 & E1 & E2)|(e & E1 & _)]%st_try_inv; [|by eapply Hm]. etrans; [by eapply Hm|by eapply Hf]. Qed.
Lemma evolves_swap h e : in_region e -> evolves (Heap.swap_end h e).
Proof.
  intros He s x s1 H. unfold Heap.swap_end in H. apply st_bind_inv in H as (old & s2 & E & H). apply (keeps_load_end heap_ends) in E.
  st_inv H. cbn. rewrite <- E. by apply evolve_insert.
Qed.
Ltac ends_step := repeat (cbv zeta; match goal with
  | |- evolves (Heap.swap_end _ _) => apply evolves_swap; done
  | |- evolves _ => solve [auto]
  | |- evolves _ => apply evolves_keeps; solve [keeps_solve]
  | |- evolves (st_try _ _) => apply evolves_try; [|intros ?]
  | |- evolves (mbind _ _) => apply evolves_bind; [|intros ?]
  | |- evolves (if ?b then _ else _) => destruct b
  | |- evolves (match ?x with _ => _ end) => destruct x
  end).
Lemma brk_evolves l4 h addr : evolves (Heap.brk l4 h addr).
Proof.
  unfold Heap.brk. destruct addr as [n|]; [|ends_step]. destruct (Z.leb_spec Heap.HEAP_START n), (Z.leb_spec n Heap.HEAP_END); cbn [andb]; [|ends_step..].
  assert (in_region n) by done. ends_step.
Qed.
Lemma heap_clean_up_evolves l4 h : Heap.base h = Heap.HEAP_START -> evolves (Heap.clean_up l4 h).
Proof. intros Hb. assert (in_region (Heap.base h)) by (rewrite Hb; done). unfold Heap.clean_up. ends_step. Qed.
Lemma vm_brk_evolves v addr : evolves (ProcessVm.brk v addr).
Proof. unfold ProcessVm.brk. apply evolves_bind; [|intros l4; apply brk_evolves]. ends_step. Qed.
Lemma drop_evolves v : Heap.base (ProcessVm.heap v) = Heap.HEAP_START -> evolves (ProcessVm.drop v).
Proof.
  intros Hb. unfold ProcessVm.drop, ProcessVm.clean_up, PageTableContext.release.
  pose proof (fun l4 => heap_clean_up_evolves l4 _ Hb). ends_step.
Qed.
Lemma vm_new_inv r (s : Sys M) v s1 : ProcessVm.new r s = Ret (v, s1) -> ProcessVm.page_table v = r /\ Heap.base (ProcessVm.heap v) = Heap.HEAP_START /\
  heap_ends s !! Heap.end_ref (ProcessVm.heap v) = None /\ heap_ends s1 = <[Heap.end_ref (ProcessVm.heap v) := Heap.HEAP_START]> (heap_ends s).
Proof.
  unfold ProcessVm.new, Heap.empty. intros H. apply st_bind_inv in H as (h & s2 & E & H). st_inv H.
  apply st_lift_bind_inv in E as (b & Eb & E). apply st_bind_inv in E as (r' & s3 & E1 & E). st_inv E1. st_inv E. cbn.
  split; [done|]. split; [|split; [apply fresh_ref_fresh|done]]. rewrite VirtAddr_new_low in Eb by done. congruence.
Qed.
Lemma vm_load_heap elf pid v (s : Sys M) r s1 : ProcessVm.load_elf elf pid v s = Ret (r, s1) -> ProcessVm.heap r.2 = ProcessVm.heap v.
Proof.
  unfold ProcessVm.load_elf. intros H. apply st_bind_inv in H as (l4 & s2 & _ & H). apply st_bind_inv in H as (v' & s3 & E & H). unfold ProcessVm.load_elf_code in E.
  apply st_bind_inv in E as (off & s4 & _ & E). apply st_bind_inv in E as (c & s5 & _ & E). apply st_lift_bind_inv in E as (code & _ & E). st_inv E.
  apply st_bind_inv in H as (x & s6 & _ & H). by st_inv H.
Qed.
Lemma vm_fault_heap addr v (s : Sys M) r s1 : ProcessVm.handle_page_fault addr v s = Ret (r, s1) -> ProcessVm.heap r.2 = ProcessVm.heap v.
Proof.
  unfold ProcessVm.handle_page_fault. intros H. apply st_bind_inv in H as (l4 & s2 & _ & H). apply st_bind_inv in H as (x & s3 & _ & H). by st_inv H.
Qed.
Lemma vm_fork_heap n v (s : Sys M) cv s1 : ProcessVm.fork n v s = Ret (cv, s1) ->
  ProcessVm.page_table cv = ProcessVm.page_table v /\ ProcessVm.heap cv = ProcessVm.heap v /\ heap_ends s1 = heap_ends s.
Proof.
  intros H. split; [by eapply vm_fork_inv|]. unfold ProcessVm.fork in H. apply st_bind_inv in H as (r & s2 & E & H).
  assert (Hk : keeps heap_ends (PageTableContext.fork (M := M) (ProcessVm.page_table v))) by (unfold PageTableContext.fork; sys_keeps). apply Hk in E.
  apply st_bind_inv in H as (l4 & s3 & E2 & H). apply (keeps_mapper heap_ends) in E2.
  apply st_bind_inv in H as (st & s4 & E3 & H). apply (keeps_stack_fork heap_ends) in E3. st_inv H. split; [|congruence].
  cbn. unfold Heap.fork. by destruct (ProcessVm.heap v).
Qed.
End ends.

Section kernel.
Context {M D Q : Type} {L : Log} {X : X86} {XL : X86Laws} {MM : Machine M} {PF : Platform M} {BD : BlockDevice D}
  {C : Chrono} {BF : Bitflags} {UT : UnicodeTable} {AQ : ArrayQueue Q} {SE : Selectors} {EP : ElfParser}.
Abbreviation Kern := (Kernel M D Q).
Abbreviation hv := (kview (M := M) (D := D) (Q := Q) heap_ends heap_of).

Definition heaps_inv (k : Kern) : Prop := heaps_ok (heap_ends (sys k)) (heap_of <$> processes k).
#[export] Instance ends_view : SysView (heap_ends (M := M)).
Proof. split; [intros r; apply (keeps_pt_load heap_ends)|done]. Qed.
#[export] Instance hv_quiet : KQuiet hv.
Proof. split; intros; unfold kview; cbn; congruence. Qed.
#[export] Instance heaps_stable : KStable (fun k : Kern => heap_of <$> processes k).
Proof. done. Qed.
Lemma heaps_inv_hv (k k1 : Kern) : hv k1 = hv k -> heaps_inv k -> heaps_inv k1.
Proof. unfold heaps_inv, kview. by intros [= -> ->]. Qed.

Lemma fault_heap addr prot (k : Kern) x k1 : Service.page_fault_handler addr prot k = Ret (x, k1) -> hv k1 = hv k.
Proof.
  unfold Service.page_fault_handler, Proc.handle_page_fault, Manager.handle_page_fault. intros H.
  apply st_bind_inv in H as (ok & k2 & E & H). apply st_bind_inv in E as ([pid p] & k3 & E1 & E).
  apply current_inv in E1 as (-> & Hp & ->). destruct prot; cbn in E; [st_inv E; discriminate H|].
  apply st_bind_inv in E as ([ok' p'] & k3 & E1 & E). unfold Manager.write_proc in E. st_inv E.
  st_inv H. unfold Inner.handle_page_fault in E1. apply st_bind_inv in E1 as (v & k4 & E2 & E1).
  unfold Inner.vm in E2. apply st_unwrap_inv in E2 as [Hv ->].
  apply st_bind_inv in E1 as ([ok v'] & k4 & E2 & E1). apply on_sys_inv in E2 as (s1 & E2 & ->).
  st_inv E1. pose proof (vm_fault_table _ _ _ _ _ E2) as Ht. pose proof (vm_fault_heap _ _ _ _ _ E2) as Hh. apply (keeps_vm_fault heap_ends) in E2.
  unfold kview. cbn. rewrite E2, (view_insert heap_of _ _ p); [done|done|]. unfold heap_of. cbn in *. by rewrite Hv, Ht, Hh.
Qed.
Lemma kill_heaps pid ret (k : Kern) x k1 p : Manager.kill pid ret k = Ret (x, k1) -> processes k !! pid = Some p -> heaps_inv k -> heaps_inv k1.
Proof.
  intros H Hp Hm. destruct (kill_inv _ _ _ _ _ _ H Hp) as (p' & s1 & -> & _ & Hd & Hk).
  unfold heaps_inv. cbn. rewrite fmap_insert. destruct (decide (status p = Dead)) as [Hdead|Hdead].
  - destruct Hk as [-> ->]. rewrite insert_id; [done|]. by rewrite lookup_fmap, Hp.
  - destruct Hk as (_ & Hv & _ & Hdrop). unfold heap_of at 1. rewrite Hv. apply heaps_ok_drop.
    destruct (proc_vm p) as [v|] eqn:Ev; [|by rewrite Hdrop]. eapply heaps_ok_evolve; [|exact Hm]. eapply (drop_evolves v); [|exact Hdrop].
    eapply (heap_known _ _ Hm pid (ProcessVm.page_table v)). rewrite lookup_fmap, Hp. unfold heap_of. cbn. by rewrite Ev.
Qed.
Lemma exit_heaps ret ctx (k : Kern) x k1 : Proc.exit ret ctx k = Ret (x, k1) -> sched_inv (abs k) -> heaps_inv k -> heaps_inv k1.
Proof.
  unfold Proc.exit. intros H Hi Hm. destruct (inv_current _ Hi) as [pc Hpc]. apply st_bind_inv in H as (u & k2 & E & H).
  apply (wake_waiting_pv heap_ends heap_of) in E as (Ev & Es & Hs); [|done]. apply st_bind_inv in H as (u2 & k3 & E & H). unfold Manager.kill_self in E.
  apply st_bind_inv in E as (pid & k4 & E' & E). apply get_pid_inv in E' as (-> & -> & _). destruct (Hs ltac:(by eexists)) as [pc' Hpc'].
  eapply kill_heaps in E; [|exact Hpc'|by eapply heaps_inv_hv].
  apply st_bind_inv in H as (r & k4 & E2 & H). st_inv H. apply (switch_next_pv heap_ends heap_of) in E2. by eapply heaps_inv_hv.
Qed.
Lemma fork_heaps ctx (k : Kern) x k1 : Proc.fork ctx k = Ret (x, k1) -> heaps_inv k -> heaps_inv k1.
Proof.
  intros (p & c & s1 & r & Hp & Hf & E & _)%fork_inv Hm. apply (switch_next_pv heap_ends heap_of) in E. eapply heaps_inv_hv; [exact E|]. unfold heaps_inv. cbn.
  destruct Hf as (v & cv & d & top & Hv & Hd & Ef & _ & ->). cbn in Ef. apply vm_fork_heap in Ef as (Ht & Hh & ->).
  rewrite fmap_insert, (view_insert heap_of _ _ p); [|done|by rewrite view_context, view_children, view_save].
  assert (Hvs : (heap_of <$> processes k) !! processor_pid (sys k) = Some (Some (ProcessVm.page_table v, ProcessVm.heap v))).
  { rewrite lookup_fmap, Hp. cbn. rewrite <- (view_save (view := heap_of) ctx p). unfold heap_of. by rewrite Hv. }
  destruct (heap_known _ _ Hm _ _ _ Hvs) as (Hb & e & He & Hin). unfold heap_of at 1. cbn. rewrite Ht, Hh.
  eapply heaps_ok_add; [exact Hm|done|exact He|done|]. intros q t' h' Hq. by eapply (heap_shared _ _ Hm).
Qed.
Lemma table_live (k : Kern) q t h : mem_inv k -> (heap_of <$> processes k) !! q = Some (Some (t, h)) -> is_Some (cr3_regs (sys k) !! t).
Proof.
  intros Hm. rewrite lookup_fmap. destruct (processes k !! q) as [p|] eqn:Hp; [|done]. cbn. unfold heap_of. destruct (proc_vm p) as [v|] eqn:Hv; [|done].
  intros [= <- <-]. assert (Hvs : forall b, bool_decide (status p = Dead) = b ->
    (view <$> processes k) !! q = Some (Some (ProcessVm.page_table v), bool_decide (is_Some (proc_data p)), b)).
  { intros b <-. rewrite lookup_fmap, Hp. cbn. unfold view. by rewrite Hv. }
  destruct (bool_decide (status p = Dead)) eqn:Ed; [by apply (mem_dead _ _ Hm) in Hvs|].
  destruct (mem_table _ _ _ _ _ Hm (Hvs _ eq_refl)) as (r & w & [= <-] & Hw). eauto.
Qed.
Lemma spawn_heaps elf nm par (k : Kern) x k1 : Manager.spawn elf nm par None k = Ret (x, k1) -> mem_inv k -> heaps_inv k -> heaps_inv k1.
Proof.
  intros (kt & pt & s1 & v & s2 & top & v2 & p & E1 & E2 & E3 & Hk & Hv & _)%spawn_inv Hm Hh.
  assert (Hends : keeps heap_ends (PageTableContext.clone_l4 (M := M) kt)) by (unfold PageTableContext.clone_l4; sys_keeps). pose proof (Hends _ _ _ E1) as Ee.
  apply pt_clone_inv in E1 as (w & Hf & _ & _). apply vm_new_inv in E2 as (Ht & Hb & Hr & Hn). rewrite Ee in Hr, Hn.
  pose proof (vm_load_table _ _ _ _ _ _ E3) as Ht2. pose proof (vm_load_heap _ _ _ _ _ _ E3) as Hh2. apply (keeps_vm_load_elf heap_ends) in E3. cbn in Ht2, Hh2.
  unfold heaps_inv. rewrite E3, Hn, Hk, fmap_insert. unfold heap_of at 1. rewrite Hv. cbn [fmap option_fmap option_map]. rewrite Ht2, Hh2, Ht.
  assert (Hin : in_region Heap.HEAP_START) by done.
  eapply heaps_ok_add; [by eapply heaps_ok_evolve; [apply evolve_insert|]|exact Hb|apply lookup_insert_eq|exact Hin|].
  intros q t' h' Hq. split; intros Eq; exfalso.
  - destruct (table_live _ _ _ _ Hm Hq) as [y Hy]. congruence.
  - destruct (heap_known _ _ Hh _ _ _ Hq) as (_ & e & He & _). congruence.
Qed.
Lemma proc_spawn_heaps fuel units path (k : Kern) x k1 : Proc.spawn fuel units path k = Ret (x, k1) -> mem_inv k -> heaps_inv k -> heaps_inv k1.
Proof.
  unfold Proc.spawn, Proc.elf_spawn. intros H Hm Hh. cbv zeta in H.
  apply st_bind_inv in H as (fs & k2 & E & H). injection E as <- <-.
  apply st_lift_bind_inv in H as (r & _ & H). apply st_lift_bind_inv in H as (h & _ & H). apply st_lift_bind_inv in H as ([[res u] buf] & _ & H).
  apply st_lift_bind_inv in H as (u' & _ & H). apply st_lift_bind_inv in H as (elf & _ & H).
  apply st_bind_inv in H as ([pid p] & k2 & E & H). apply current_inv in E as (_ & _ & ->).
  apply st_bind_inv in H as (pid' & k2 & E & H). st_inv H. by eapply spawn_heaps.
Qed.
Lemma brk_heaps a (k : Kern) x k1 : Service.sys_brk a k = Ret (x, k1) -> heaps_inv k -> heaps_inv k1.
Proof.
  intros H Hh. unfold heaps_inv. rewrite (keeps_sys_brk (fun k : Kern => heap_of <$> processes k) a _ _ _ H). eapply heaps_ok_evolve; [|exact Hh].
  assert (Hm : forall addr (k : Kern) r k1, Manager.brk addr k = Ret (r, k1) -> evolve (heap_ends (sys k)) (heap_ends (sys k1))).
  { clear. unfold Manager.brk, Inner.brk, Inner.vm. intros addr k r k1 H. apply st_bind_inv in H as (pid & k2 & E & H). apply get_pid_inv in E as (-> & -> & _).
    apply st_bind_inv in H as (o & k2 & E & H). unfold Manager.get_proc in E. st_inv E. destruct (processes _ !! _) as [p|]; [|by st_inv H].
    apply st_lift_bind_inv in H as (v & _ & H). apply on_sys_inv in H as (s1 & E & ->). by apply vm_brk_evolves in E. }
  unfold Service.sys_brk, Proc.brk in H. destruct (arg0 a =? 0).
  - apply st_bind_inv in H as (r & k2 & E & H). st_inv H. eauto.
  - apply st_lift_bind_inv in H as (va & _ & H). apply st_bind_inv in H as (r & k2 & E & H). st_inv H. eauto.
Qed.

Lemma dispatcher_heaps fuel units ctx (k : Kern) x k1 : Service.dispatcher fuel units ctx k = Ret (x, k1) -> sched_inv (abs k) ->
  entry_allowed (Trap fuel units ctx) k -> mem_inv k -> heaps_inv k -> heaps_inv k1.
Proof.
  intros H Hi (_ & Hn & Hr) Hm Hh.
  assert (Hc : forall p, processes k !! processor_pid (sys k) = Some p -> status p <> Dead).
  { intros p Hp. rewrite Hp in Hr. cbn in Hr. congruence. }
  pose proof (dispatcher_no_brk hv fuel units ctx) as Hquiet. unfold Service.dispatcher in *. set (a := Service.args_of ctx) in *. clearbody a.
  destruct (syscall a); try (exact (heaps_inv_hv _ _ (Hquiet I ltac:(discriminate) _ _ _ H) Hh)).
  - unfold Service.returning in H. apply st_bind_inv in H as (r & k2 & E & H). st_inv H. apply st_bind_inv in E as (r' & k2 & E & H). st_inv H. by eapply brk_heaps.
  - by eapply (fork_heaps ctx).
  - unfold Service.returning, Service.sys_spawn_process in H. apply st_bind_inv in H as (r & k2 & E & H). st_inv H.
    apply st_bind_inv in E as (path & k2 & E1 & E). pose proof (keeps_user_str hv _ _ _ _ _ E1) as Ep.
    assert (Hm2 : mem_inv k2) by (eapply mem_inv_pv; [exact (keeps_user_str (kview cr3_regs view) _ _ _ _ _ E1)|exact Hm]).
    apply st_bind_inv in E as (r' & k3 & E2 & E). st_inv E. eapply proc_spawn_heaps; [exact E2|exact Hm2|by eapply heaps_inv_hv].
  - by eapply exit_heaps.
  - eapply heaps_inv_hv; [|exact Hh]. by eapply (wait_pid_pv heap_ends heap_of).
  - eapply heaps_inv_hv; [|exact Hh]. by eapply (sys_sem_pv heap_ends heap_of).
Qed.
Lemma enter_heaps e (k : Kern) u k1 : enter e k = Ret (u, k1) -> sched_inv (abs k) -> entry_allowed e k -> mem_inv k -> heaps_inv k -> heaps_inv k1.
Proof.
  destruct e as [ctx|f n ctx|addr prot|key|f n path|ret]; cbn [enter]; intros H Hi Ha Hm Hh.
  - apply st_bind_inv in H as (x & k2 & E & H). st_inv H. apply (switch_pv heap_ends heap_of) in E. by eapply heaps_inv_hv.
  - apply st_bind_inv in H as (x & k2 & E & H). st_inv H. by eapply dispatcher_heaps.
  - apply fault_heap in H. by eapply heaps_inv_hv.
  - unfold Service.key_pressed in H. by st_inv H.
  - apply st_bind_inv in H as (x & k2 & E & H). st_inv H. by eapply proc_spawn_heaps.
  - unfold Proc.process_exit, Manager.kill_current in H. destruct (inv_current _ Hi) as [p Hp].
    apply st_bind_inv in H as (pid & k2 & E & H). apply get_pid_inv in E as (-> & -> & _). by eapply kill_heaps.
Qed.
Lemma init_heaps (k : Kern) pages u k1 : at_boot k -> Proc.init pages k = Ret (u, k1) -> heaps_inv k1.
Proof.
  intros (Hp & _) (pt & s1 & v & s2 & p & _ & E2 & Hs & Hk & Hv & _)%init_inv; [|done]. apply vm_new_inv in E2 as (Ht & Hb & _ & Hn).
  unfold heaps_inv. rewrite Hs, Hk. cbn -[u16]. rewrite Hn, map_fmap_singleton. unfold heap_of. rewrite Hv. cbn.
  assert (Hin : in_region Heap.HEAP_START) by done. eapply (heaps_ok_add _ ∅); [split; by intros *|exact Hb|apply lookup_insert_eq|exact Hin|by intros *].
Qed.
Lemma reachable_heaps (k : Kern) : reachable k -> heaps_inv k.
Proof.
  induction 1 as [k pages u k1 Hb H|k a u k1 Hk IH H|k fs u k1 Hk IH H|k e u k1 Hk IH Ha H]; [by eapply init_heaps|..].
  { eapply heaps_inv_hv; [exact (keeps_install hv a _ _ _ H)|exact IH]. }
  { eapply heaps_inv_hv; [exact (keeps_set_root hv fs _ _ _ H)|exact IH]. }
  eapply enter_heaps; [exact H|by apply reachable_sched_inv|done|by apply reachable_mem|done].
Qed.

(** The heap of a process in a reachable state. *)
Lemma reachable_heap (k : Kern) pid p v : reachable k -> processes k !! pid = Some p -> proc_vm p = Some v -> Heap.base (ProcessVm.heap v) = Heap.HEAP_START /\
  exists e, heap_ends (sys k) !! Heap.end_ref (ProcessVm.heap v) = Some e /\ in_region e.
Proof.
  intros Hr Hp Hv. eapply (heap_known _ _ (reachable_heaps k Hr) pid (ProcessVm.page_table v)). rewrite lookup_fmap, Hp. cbn. unfold heap_of. by rewrite Hv.
Qed.
(** C5: Heaps.  In every reachable state the heap of every process ends in the heap region; processes share the end exactly when they share the page
    table in which the heap is mapped, so that a fork of a process sees the pages that the other one's [brk] adds; and the process on the
    processor can ask for the end of its heap at any time: the call cannot panic, changes nothing, and gives that end. *)
Theorem heaps_in_region (k : Kern) : reachable k ->
  (forall pid p v, processes k !! pid = Some p -> proc_vm p = Some v ->
     exists e, heap_ends (sys k) !! Heap.end_ref (ProcessVm.heap v) = Some e /\ Heap.HEAP_START <= e <= Heap.HEAP_END) /\
  (forall pid p v pid' p' v', processes k !! pid = Some p -> proc_vm p = Some v -> processes k !! pid' = Some p' -> proc_vm p' = Some v' ->
     ProcessVm.page_table v = ProcessVm.page_table v' <-> Heap.end_ref (ProcessVm.heap v) = Heap.end_ref (ProcessVm.heap v')) /\
  (forall p v e fuel units ctx, processes k !! processor_pid (sys k) = Some p -> proc_vm p = Some v -> heap_ends (sys k) !! Heap.end_ref (ProcessVm.heap v) = Some e ->
     syscall (Service.args_of ctx) = Brk -> arg0 (Service.args_of ctx) = 0 -> Service.dispatcher fuel units ctx k = Ret (Context.set_rax e ctx, k)).
Proof.
  intros Hr. split; [|split].
  - intros pid p v Hp Hv. by destruct (reachable_heap k pid p v Hr Hp Hv).
  - intros pid p v pid' p' v' Hp Hv Hp' Hv'. eapply (heap_shared _ _ (reachable_heaps k Hr) pid pid'); rewrite lookup_fmap; [rewrite Hp|rewrite Hp']; cbn; unfold heap_of; [by rewrite Hv|by rewrite Hv'].
  - intros p v e fuel units ctx Hp Hv He Hs Ha. destruct (reachable_heap k _ p v Hr Hp Hv) as (_ & e' & He' & Hin).
    rewrite He in He'. injection He' as <-. destruct (table_live k (processor_pid (sys k)) (ProcessVm.page_table v) (ProcessVm.heap v) (reachable_mem k Hr)) as [w Hw].
    { rewrite lookup_fmap, Hp. cbn. unfold heap_of. by rewrite Hv. }
    assert (Eb : Manager.brk None k = Ret (Some e, k)).
    { unfold Manager.brk. rewrite (st_bind_run _ _ _ _ _ (proj1 (current_run k p (reachable_sched_inv k Hr) Hp))).
      assert (Eg : Manager.get_proc (processor_pid (sys k)) k = Ret (Some p, k)) by (unfold Manager.get_proc, st_gets; by rewrite Hp).
      rewrite (st_bind_run _ _ _ _ _ Eg). unfold Inner.brk, Inner.vm. rewrite Hv. cbn [unwrap]. rewrite st_lift_bind. unfold on_sys, ProcessVm.brk.
      assert (Em : PageTableContext.mapper (ProcessVm.page_table v) (sys k) = Ret (reg_addr w, sys k)) by (unfold PageTableContext.mapper, PageTableContext.get, mbind, ST_bind; by rewrite Hw).
      rewrite (st_bind_run _ _ _ _ _ Em), (brk_none _ _ _ e He Hin). by destruct k. }
    unfold Service.dispatcher. rewrite Hs. unfold Service.returning, Service.sys_brk, Proc.brk. rewrite Ha. cbn [Z.eqb].
    rewrite (st_bind_run _ _ k e k); [done|]. rewrite (st_bind_run _ _ k (as_isize e) k); [|by rewrite (st_bind_run _ _ _ _ _ Eb)].
    unfold in_region, Heap.HEAP_END, Heap.HEAP_SIZE, Heap.HEAP_PAGES, Heap.HEAP_START, PAGE_SIZE in Hin.
    unfold mret, ST_ret, as_usize, as_isize. rewrite (proj2 (Z.ltb_lt e (2 ^ 63))) by lia. by rewrite Z.mod_small by lia.
Qed.
End kernel.

(** The heap of a process and of its child. *)
#[local] Existing Instances demo_log demo_x86 demo_x86_laws demo_uefi demo_selectors demo_elf_parser demo_platform
  demo_ArrayQueue demo_chrono demo_bitflags demo_unicode.
Lemma process_with_heap {M D Q} {C : Chrono} (k : Kernel M D Q) pid : match processes k !! pid ≫= heap_of with Some _ => true | None => false end = true ->
  exists p v, processes k !! pid = Some p /\ proc_vm p = Some v.
Proof.
  destruct (processes k !! pid) as [p|]; [|done]. cbn. unfold heap_of. destruct (proc_vm p) as [v|] eqn:Hv; [|done]. intros _. by exists p, v.
Qed.
Lemma demo_with_heap : exists p v, processes demo_forked !! 2 = Some p /\ proc_vm p = Some v.
Proof. apply process_with_heap. vm_compute. reflexivity. Qed.
Lemma heaps_in_region_witness : exists p v e, processes demo_forked !! 2 = Some p /\ proc_vm p = Some v /\
  heap_ends (sys demo_forked) !! Heap.end_ref (ProcessVm.heap v) = Some e /\ Heap.HEAP_START <= e <= Heap.HEAP_END.
Proof.
  destruct demo_with_heap as (p & v & Hp & Hv). destruct (proj1 (heaps_in_region demo_forked demo_forked_reachable) 2 p v Hp Hv) as (e & He & Hr).
  exists p, v, e. exact (conj Hp (conj Hv (conj He Hr))).
Defined.
