(* ===== verification/StatCall.v ===== *)
(** * What [Stat] shows

    The process list of [Listing.v] in the reachable states of the kernel. *)

From stdpp Require Import base numbers list gmap sets sorting.
From S2P Require Import Prelude Bytes Device Str Fat16Name Fat16Entry Fat16Fs Fat16File Size X86 Frames ElfMap Sync Resource Vm Process Manager Listing Syscall Sched Demo KernelRef KernelEntry KernelView KernelMem KernelHeap.

(** ** The order of a [BTreeMap] *)
Lemma elem_of_in_order procs pid : pid ∈ Listing.in_order procs <-> is_Some (procs !! pid).
Proof.
  unfold Listing.in_order. rewrite merge_sort_Permutation. rewrite list_elem_of_fmap. split.
  - intros ([i p] & -> & Hp%elem_of_map_to_list). by exists p.
  - intros [p Hp]. exists (pid, p). split; [done|]. by apply elem_of_map_to_list.
Qed.
Lemma in_order_ascending procs : StronglySorted Z.lt (Listing.in_order procs).
Proof.
  unfold Listing.in_order. pose proof (StronglySorted_merge_sort Z.le (map_to_list procs).*1) as Hs.
  assert (Hd : NoDup (merge_sort Z.le (map_to_list procs).*1)) by (rewrite merge_sort_Permutation; apply NoDup_fst_map_to_list).
  revert Hs Hd. generalize (merge_sort Z.le (map_to_list procs).*1). intros l Hs. induction Hs as [|x l Hs IH Hx]; intros Hd; [constructor|].
  apply NoDup_cons in Hd as [Hn Hd]. constructor; [auto|]. rewrite Forall_forall in Hx |- *. intros y Hy. specialize (Hx y Hy).
  assert (x <> y) by (intros ->; done). lia.
Qed.

Section stat.
Context {M D Q : Type} {L : Log} {X : X86} {XL : X86Laws} {MM : Machine M} {PF : Platform M} {BD : BlockDevice D}
  {C : Chrono} {BF : Bitflags} {UT : UnicodeTable} {AQ : ArrayQueue Q} {SE : Selectors} {EP : ElfParser}.
Abbreviation Kern := (Kernel M D Q).

(** The stack and the code of every process are below a quarter of a tebibyte; the heap is 4 GiB at most. *)
Definition modest (k : Kern) : Prop := forall pid p v, processes k !! pid = Some p -> proc_vm p = Some v ->
  0 <= ProcessVm.code_usage v /\ Stack.memory_usage (ProcessVm.stack v) + ProcessVm.code_usage v < 2 ^ 38.
(** Frames in use, as the code counts them, and all frames, in bytes. *)
Definition bytes_used (k : Kern) : Z := let a := frame_alloc (sys k) in u64 (u64 (frames_used a - frames_recycled a) * PAGE_SIZE).
Definition bytes_total (k : Kern) : Z := u64 (frames_total (frame_alloc (sys k)) * PAGE_SIZE).
Definition living (k : Kern) (pid : Z) : Prop := exists p, processes k !! pid = Some p /\ status p <> Dead.
(** A row shows a process: the memory is the bytes of stack, heap and code, in the unit of [Size.v]. *)
Definition shows (k : Kern) (r : ProcessRow) : Prop := exists p v e, processes k !! row_pid r = Some p /\ proc_vm p = Some v /\
  row_parent r = default 0 (parent p) /\ row_name r = name p /\ row_ticks r = ticks_passed p /\ row_status r = status p /\ status p <> Dead /\
  heap_ends (sys k) !! Heap.end_ref (ProcessVm.heap v) = Some e /\
  humanized_size (Stack.memory_usage (ProcessVm.stack v) + (e - Heap.HEAP_START) + ProcessVm.code_usage v) = Ret (row_memory r).

Lemma fmt_run (k : Kern) pid p : reachable k -> modest k -> processes k !! pid = Some p -> status p <> Dead ->
  exists row, Listing.fmt pid p k = Ret (row, k) /\ row_pid row = pid /\ shows k row.
Proof.
  intros Hr Hm Hp Hst. assert (Hvm : exists v, proc_vm p = Some v).
  { assert (Hv : (view <$> processes k) !! pid = Some (ProcessVm.page_table <$> proc_vm p, bool_decide (is_Some (proc_data p)), false))
      by (rewrite lookup_fmap, Hp; cbn; unfold view; by rewrite (bool_decide_eq_false_2 (status p = Dead))).
    destruct (mem_alive _ _ (reachable_mem k Hr) _ _ _ Hv) as [[t Ht] _]. destruct (proc_vm p) as [v|]; [by exists v|done]. }
  destruct Hvm as [v Hv]. destruct (reachable_heap k pid p v Hr Hp Hv) as (Hb & e & He & Hin). destruct (Hm pid p v Hp Hv) as [Hc0 Hc].
  assert (Hs0 : 0 <= Stack.memory_usage (ProcessVm.stack v)) by (unfold Stack.memory_usage, wrap; apply Z.mod_pos_bound; lia).
  unfold in_region, Heap.HEAP_END, Heap.HEAP_SIZE, Heap.HEAP_PAGES, PAGE_SIZE in Hin.
  assert (Eu : Listing.memory_of p k = Ret (Stack.memory_usage (ProcessVm.stack v) + (e - Heap.HEAP_START) + ProcessVm.code_usage v, k)).
  { unfold Listing.memory_of. rewrite Hv. unfold on_sys, ProcessVm.memory_usage, Heap.memory_usage, Heap.load_end, mbind, ST_bind. rewrite He. cbn [mret ST_ret].
    rewrite Hb, (wrap_small 64 (e - _)), (wrap_small 64 (_ + (e - _))), wrap_small by lia. by destruct k. }
  destruct (humanized_size_small (Stack.memory_usage (ProcessVm.stack v) + (e - Heap.HEAP_START) + ProcessVm.code_usage v)) as [m Em]; [lia|].
  unfold Listing.fmt. rewrite (st_bind_run _ _ _ _ _ Eu), Em, st_lift_bind. eexists. split; [reflexivity|]. split; [done|]. exists p, v, e. cbn. auto 10.
Qed.
Lemma print_rows_run (k : Kern) pids : reachable k -> modest k -> StronglySorted Z.lt pids -> (forall pid, pid ∈ pids -> is_Some (processes k !! pid)) ->
  exists rs, Listing.print_rows pids k = Ret (rs, k) /\ StronglySorted Z.lt (row_pid <$> rs) /\
    (forall pid, pid ∈ row_pid <$> rs <-> pid ∈ pids /\ living k pid) /\ Forall (shows k) rs.
Proof.
  intros Hr Hm Hs. induction Hs as [|pid pids Hs IH Hx]; intros Hall; cbn [Listing.print_rows].
  { exists []. split; [done|]. split; [constructor|]. split; [|constructor]. intros pid. rewrite !elem_of_nil. tauto. }
  destruct (Hall pid ltac:(left)) as [p Hp]. rewrite (st_bind_run _ _ _ _ _ (the_proc_run _ _ _ Hp)).
  destruct IH as (rs & E & Hsr & Hin & Hsh); [intros q Hq; apply Hall; by right|]. destruct (decide (status p <> Dead)) as [Ha|Hd].
  - destruct (fmt_run k pid p Hr Hm Hp Ha) as (row & Er & Hrp & Hrow). rewrite (st_bind_run _ _ _ _ _ Er), (st_bind_run _ _ _ _ _ E).
    exists (row :: rs). split; [done|]. rewrite fmap_cons, Hrp. split; [constructor; [done|]|split; [|by constructor]].
    + rewrite Forall_forall in Hx |- *. intros q Hq. apply Hx. by apply Hin.
    + intros q. rewrite !elem_of_cons, Hin. split; [intros [->|[H1 H2]]; [split; [by left|by exists p]|split; [by right|done]]|]. intros [[->|Hq] Hl]; auto.
  - exists rs. split; [done|]. split; [done|]. split; [|done]. intros q. rewrite elem_of_cons, Hin. split; [intros [H1 H2]; auto|].
    intros [[->|Hq] Hl]; [|done]. destruct Hl as (p' & Hp' & Hl). exfalso. apply Hd. congruence.
Qed.
(** C39: What [ps] shows.  In every reachable state, with processes of a modest size and less than half a tebibyte of memory: the call returns, changes nothing, and the
    list has one row for each process that has not ended, in the order of their numbers, with its state and the bytes of its stack, heap and code; the
    rows that are ready are those of the queue that is shown, and only the process on the processor is shown as running.  The memory in use is that of the
    allocator's counter, which also counts requests that failed: when it passes one tebibyte, the call panics. *)
Theorem process_list_shows (k : Kern) fuel units ctx : reachable k -> modest k -> bytes_total k < 2 ^ 39 -> syscall (Service.args_of ctx) = Stat ->
  (bytes_used k < 2 ^ 39 -> Service.dispatcher fuel units ctx k = Ret (ctx, k) /\
     exists l, Listing.print_process_list k = Ret (l, k) /\
       StronglySorted Z.lt (row_pid <$> rows l) /\ (forall pid, pid ∈ row_pid <$> rows l <-> living k pid) /\ Forall (shows k) (rows l) /\
       humanized_size (bytes_used k) = Ret (usage_used (memory_line l)) /\ humanized_size (bytes_total k) = Ret (usage_total (memory_line l)) /\
       (forall r, r ∈ rows l -> row_status r = Ready <-> row_pid r ∈ queue_line l) /\
       (forall r, r ∈ rows l -> row_status r = Running -> processors_line l = [(0%nat, row_pid r)])) /\
  (2 ^ 40 <= bytes_used k -> Service.dispatcher fuel units ctx k = Panic).
Proof.
  intros Hr Hm Ht Hs. destruct (print_rows_run k (Listing.in_order (processes k)) Hr Hm) as (rs & E & Hsr & Hin & Hsh).
  { apply in_order_ascending. }
  { intros pid Hp. by apply elem_of_in_order. }
  assert (Hu0 : 0 <= bytes_used k < 2 ^ 64) by (unfold bytes_used, wrap; apply Z.mod_pos_bound; lia).
  assert (Ht0 : 0 <= bytes_total k) by (unfold bytes_total, wrap; apply Z.mod_pos_bound; lia).
  assert (El : Listing.print_process_list k = st_lift (format_usage (bytes_used k) (bytes_total k)) k ≫= (fun '(m, k) =>
    Ret ({| rows := rs; memory_line := m; queue_line := ready_queue k; processors_line := Listing.print_processors (sys k) |}, k))).
  { unfold Listing.print_process_list. rewrite (st_bind_run _ _ k k k eq_refl), (st_bind_run _ _ _ _ _ E). cbv zeta. fold (bytes_used k) (bytes_total k).
    unfold mbind at 1, ST_bind, st_lift. by destruct (format_usage _ _). }
  assert (Ed : Service.dispatcher fuel units ctx k = Listing.print_process_list k ≫= (fun '(_, k) => Ret (ctx, k))).
  { unfold Service.dispatcher. rewrite Hs. unfold Service.sys_list_process. unfold mbind, ST_bind, outcome_bind. by destruct (Listing.print_process_list k) as [[l k']| |]. }
  split; intros Hu.
  - destruct (humanized_size_small (bytes_used k) ltac:(lia)) as [u Eu]. destruct (humanized_size_small (bytes_total k) ltac:(lia)) as [t Et].
    unfold format_usage in El. rewrite Eu, Et in El. cbn in El. split; [by rewrite Ed, El|]. eexists. split; [exact El|]. cbn.
    split; [done|]. split; [intros pid; rewrite Hin, elem_of_in_order; split; [tauto|]; intros (p & Hp & Hst); split; [by exists p|by exists p]|].
    split; [done|]. split; [done|]. split; [done|]. pose proof (reachable_sched_inv k Hr) as Hi. rewrite Forall_forall in Hsh. split; intros r Hrow.
    + destruct (Hsh r Hrow) as (p & v & e & Hp & _ & _ & _ & _ & Hst & Hal & _). rewrite Hst. split; intros Hq.
      * apply (core_ready _ (inv_core _ Hi)). cbn. by rewrite lookup_fmap, Hp, <- Hq.
      * destruct (core_queue _ (inv_core _ Hi) _ Hq) as [Hx|Hx]; cbn in Hx; rewrite lookup_fmap, Hp in Hx; cbn in Hx; congruence.
    + intros Hrun. destruct (Hsh r Hrow) as (p & v & e & Hp & _ & _ & _ & _ & Hst & _ & _).
      assert (Hc : row_pid r = processor_pid (sys k)) by (apply (inv_running _ Hi); cbn; rewrite lookup_fmap, Hp; cbn; congruence).
      assert (H1 : 1 <= row_pid r) by (apply (core_pids _ (inv_core _ Hi)); cbn; rewrite lookup_fmap, Hp; by eexists).
      unfold Listing.print_processors. rewrite <- Hc. by rewrite (proj2 (Z.eqb_neq _ _)) by lia.
  - rewrite Ed, El. unfold format_usage, humanized_size. destruct (humanized_size_run (bytes_used k) false) as [Hp _]; [lia|]. by rewrite (Hp ltac:(unfold TOO_LARGE; lia)).
Qed.
End stat.

(** A parent and its child. *)
#[local] Existing Instances demo_log demo_x86 demo_x86_laws demo_uefi demo_selectors demo_elf_parser demo_platform
  demo_ArrayQueue demo_chrono demo_bitflags demo_unicode.
Definition modest_bool (procs : gmap Z ProcessInner) : bool := forallb (fun '(_, p) => match proc_vm p with
  | Some v => (0 <=? ProcessVm.code_usage v) && (Stack.memory_usage (ProcessVm.stack v) + ProcessVm.code_usage v <? 2 ^ 38) | None => true end) (map_to_list procs).
Lemma modest_bool_spec {M D Q} {C : Chrono} (k : Kernel M D Q) : modest_bool (processes k) = true -> modest k.
Proof.
  unfold modest_bool. rewrite forallb_forall. intros H pid p v Hp Hv. specialize (H (pid, p)). cbn in H. rewrite Hv in H.
  assert (Hin : In (pid, p) (map_to_list (processes k))) by by apply list_elem_of_In, elem_of_map_to_list.
  apply H, andb_true_iff in Hin as [H1 H2]. lia.
Qed.
Lemma demo_modest : modest demo_forked.
Proof. apply modest_bool_spec. vm_compute. reflexivity. Qed.
Lemma process_list_shows_witness : exists l, Listing.print_process_list demo_forked = Ret (l, demo_forked) /\
  Service.dispatcher 4 64 (call_ctx 65532 0 0 0) demo_forked = Ret (call_ctx 65532 0 0 0, demo_forked) /\ forall pid, pid ∈ row_pid <$> rows l <-> living demo_forked pid.
Proof.
  destruct (process_list_shows demo_forked 4 64 (call_ctx 65532 0 0 0) demo_forked_reachable demo_modest) as [H _];
    [vm_compute; reflexivity|vm_compute; reflexivity|].
  destruct H as (Hd & l & El & _ & Hin & _); [vm_compute; reflexivity|]. exists l. split; [exact El|]. split; [exact Hd|exact Hin].
Defined.
