(* ===== verification/KernelStart.v ===== *)
(** * From boot to the shell

    [init] of [KernelInit.v] as one step: from the state in which the boot loader leaves the kernel to the states whose invariants
    [KernelEntry.v] and [KernelMem.v] prove, with the first program started from the root file system. *)

From stdpp Require Import base numbers list gmap.
From S2P Require Import Prelude Bytes Device Str Fat16Name Fat16Entry Fat16Fs Fat16File Rootfs Size Ata Uart Apic X86 Frames ElfMap Boot Sync Resource Vm HeapLife Process Manager Syscall Interrupts KernelInit Sched Demo KernelRef KernelEntry.

(** The kernel's process runs, and there is no other. *)
Definition alone (sems : Z) : Sched := {|
  a_status := {[KERNEL_PID := Running]}; a_queue := []; a_wait := ∅; a_sems := {[sems := SemSet.new]}; a_cur := KERNEL_PID; a_counter := 1 |}.
Lemma spawn_step_result r s s' : sched_step (ESpawn r) s s' -> let child := u16 (a_counter s + 1) in
  s' = {| a_status := <[child := Ready]> (a_status s); a_queue := a_queue s ++ [child]; a_wait := a_wait s;
          a_sems := <[r := SemSet.new]> (a_sems s); a_cur := a_cur s; a_counter := child |}.
Proof. by inversion 1. Qed.

Section start.
Context {M D Q : Type} {L : Log} {X : X86} {XL : X86Laws} {MM : Machine M} {ML : MachineLaws M} {PF : Platform M} {BD : BlockDevice D}
  {C : Chrono} {BF : Bitflags} {BFL : BitflagsLaws} {UT : UnicodeTable} {AQ : ArrayQueue Q} {SE : Selectors} {EP : ElfParser} {UE : Uefi}.
Context {H : Type} {IO : PortIO H} {MI : Mmio H} {BI : BitField} {BIL : BitFieldLaws}.
Abbreviation Kern := (Kernel M D Q).

Lemma on_kernel_run {A} (m : ST Kern A) k (h : H) a k1 : m k = Ret (a, k1) -> on_kernel m (k, h) = Ret (a, (k1, h)).
Proof. unfold on_kernel. cbn. by intros ->. Qed.
Lemma on_hardware_run {A} (m : ST H A) (k : Kern) h a h1 : m h = Ret (a, h1) -> on_hardware m (k, h) = Ret (a, (k, h1)).
Proof. unfold on_hardware. cbn. by intros ->. Qed.

(** Creating the process of the kernel cannot fail, and touches no memory. *)
Lemma vm_new_run pt (s : Sys M) : exists v s1, ProcessVm.new pt s = Ret (v, s1) /\ machine s1 = machine s /\ physical_offset s1 = physical_offset s.
Proof.
  eexists _, _. split.
  - unfold ProcessVm.new, Heap.empty. erewrite st_bind_run; [|rewrite VirtAddr_new_low, st_lift_bind by (unfold low, Heap.HEAP_START; lia); reflexivity]. reflexivity.
  - by split.
Qed.
Lemma proc_init_run pages (k : Kern) : exists k1, Proc.init pages k = Ret (tt, k1) /\ machine (sys k1) = machine (sys k) /\
  physical_offset (sys k1) = physical_offset (sys k).
Proof.
  unfold Proc.init. erewrite st_bind_run by reflexivity.
  match goal with |- context [on_sys (ProcessVm.new ?pt) ≫= _] => match goal with |- context [(on_sys (ProcessVm.new pt) ≫= _) ?k2] =>
    destruct (vm_new_run pt (sys k2)) as (v & s1 & E & Hm & Ho);
    assert (Ek : on_sys (ProcessVm.new pt) k2 = Ret (v, set_sys s1 k2)) by (unfold on_sys; by rewrite E) end end.
  rewrite (st_bind_run _ _ _ _ _ Ek). cbv zeta. eexists. split.
  - erewrite st_bind_run by reflexivity. cbv beta iota. unfold Proc.manager_init. erewrite st_bind_run by reflexivity. reflexivity.
  - by split.
Qed.

Context (polls : nat) (mount : ST H (Mount.t (Fat16Impl D))) (boot_info : BootInfo) (delay : nat) (lview : H -> lapic) (ioview : H -> ioapic)
  {HW : ApicHardware (lapic_addr (info_offset boot_info)) (ioapic_regs (info_offset boot_info)) delay lview ioview}.
(** Starting the allocator of the heap leaves the page tables alone; [filesystem::init] ends, and the ports of the disk are not the registers of the
    interrupt controllers. *)
Hypothesis heap_init_maps : forall m x n l4 p, translate_page (heap_init m x n) l4 p = translate_page m l4 p.
Hypothesis mount_ends : forall h, mount h <> Timeout.
Hypothesis mount_apart : forall h fs h', mount h = Ret (fs, h') -> lview h' = lview h /\ ioview h' = ioview h.

(** The first program, when it can be started: it waits for the processor behind the kernel. *)
Definition shell_queued (k2 : Kern) : Prop :=
  reachable k2 /\ ready_queue k2 = [2] /\ status <$> processes k2 !! 2 = Some Ready /\ processor_pid (sys k2) = KERNEL_PID.
Lemma spawn_init_queues ref k1 fuel units pid k2 : reachable k1 -> abs k1 = alone ref -> spawn_init fuel units k1 = Ret (pid, k2) -> shell_queued k2.
Proof.
  intros Hr Ha E. assert (Hc : pid_counter k1 = 1) by exact (f_equal a_counter Ha).
  unfold spawn_init in E. apply st_bind_inv in E as (r & k3 & E & E2). st_inv E2. split.
  - eapply (reach_enter k1 (KernelSpawn fuel units [97; 112; 112; 47; 115; 104]) tt); [exact Hr|cbn; lia|]. cbn. by rewrite (st_bind_run _ _ _ _ _ E).
  - apply proc_spawn_refines in E as [r Hs]. apply spawn_step_result in Hs. rewrite Ha in Hs.
    split; [exact (f_equal a_queue Hs)|]. split; [|exact (f_equal a_cur Hs)]. rewrite <- lookup_fmap. change (a_status (abs k3) !! 2 = Some Ready). by rewrite Hs.
Qed.
(** Printing the sizes comes first. *)
Lemma memory_mod_init_run mm (k : Kern) : memory_mod_init mm k = Panic \/ memory_mod_init mm k = install (memory_init mm) k.
Proof.
  unfold memory_mod_init. destruct (memory_sizes mm) as [x y].
  destruct (humanized_size_returns (u64 (x * PAGE_SIZE))) as [->|[r ->]]; [by left|]. rewrite st_lift_bind.
  destruct (humanized_size_returns (u64 (y * PAGE_SIZE))) as [->|[r' ->]]; [by left|]. rewrite st_lift_bind. by right.
Qed.
(** The memory of the kernel after [memory::init]. *)
Definition heap_mapped (m m' : M) : Prop :=
  forall q, q ∈ pages_from UserHeap.USER_HEAP_START 255 -> is_Some (translate_page m' (Cr3_read m).1 q).
Lemma install_run a (k : Kern) : frames_in_range a ->
  install a k = Panic \/ exists k1, install a k = Ret (tt, k1) /\ heap_mapped (machine (sys k)) (machine (sys k1)) /\ physical_offset (sys k1) = physical_offset (sys k).
Proof.
  intros Ha. destruct (user_heap_short frames_in_range heap_init (machine (sys k)) a frames_in_range_closed Ha heap_init_maps) as (r & m' & a' & E & Hr).
  unfold install. erewrite st_bind_run by reflexivity. unfold on_sys, mem_op. cbn [machine frame_alloc sys set_sys set_frame_alloc].
  unfold UserHeap.init. unfold mbind, ST_bind. rewrite E. destruct r as [[]|e]; [right|by left].
  eexists. split; [reflexivity|]. split; [|done]. intros q Hq. cbn. by apply (proj1 (Hr eq_refl)).
Qed.

(** C7: The kernel starts.  From the state in which the boot loader leaves it, with a valid memory map, [init] panics (when there is about a tebibyte of memory or more, the heap for user programs cannot be
    mapped, or there is no root file system), or it returns in a state from which the invariants of the scheduler and of the page tables hold ever
    after: the kernel's process is running and alone, physical memory is at the offset of the boot information, the pages of the user heap
    but the last are mapped, the root file system is the mounted one, and the timer and the serial line reach their handlers.  Whenever the
    first program can be started then, it is process 2, ready, and next in the queue. *)
Theorem kernel_starts k h : at_boot k -> map_ok (memory_map boot_info) -> (delay < polls)%nat ->
  kernel_init polls true mount boot_info (k, h) = Panic \/
  exists k1 h1, kernel_init polls true mount boot_info (k, h) = Ret (tt, (k1, h1)) /\
    reachable k1 /\ (exists sems, abs k1 = alone sems) /\ physical_offset (sys k1) = info_offset boot_info /\
    heap_mapped (machine (sys k)) (machine (sys k1)) /\ (exists h0, mount h0 = Ret (rootfs k1, h1)) /\ wired (lview h1) (ioview h1) /\
    forall fuel units pid k2, spawn_init fuel units k1 = Ret (pid, k2) -> shell_queued k2.
Proof.
  intros Hb Hm Hd. unfold kernel_init. erewrite st_bind_run by (apply on_hardware_run; reflexivity).
  set (h0 := out8 _ _ _). clearbody h0. erewrite st_bind_run by (apply on_kernel_run; reflexivity).
  set (k0 := set_sys _ k). assert (Hb0 : at_boot k0) by exact Hb.
  destruct (proc_init_run (kernel_pages boot_info) k0) as (k2 & E2 & Hm2 & Ho2). rewrite (st_bind_run _ _ _ _ _ (on_kernel_run _ _ _ _ _ E2)).
  destruct (install_run (memory_init (memory_map boot_info)) k2) as [E3|(k3 & E3 & Hh & Ho3)].
  { eapply Forall_impl; [exact (create_frame_iter_range _ Hm)|]. by intros x [Hx _]. }
  { left. unfold mbind, ST_bind, on_kernel at 1. cbn [fst]. by destruct (memory_mod_init_run (memory_map boot_info) k2) as [-> | ->]; rewrite ?E3. }
  destruct (memory_mod_init_run (memory_map boot_info) k2) as [Ep|Er].
  { left. unfold mbind, ST_bind, on_kernel at 1. cbn [fst]. by rewrite Ep. }
  assert (E3' : memory_mod_init (memory_map boot_info) k2 = Ret (tt, k3)) by (rewrite Er; exact E3). rewrite (st_bind_run _ _ _ _ _ (on_kernel_run _ _ _ _ _ E3')).
  destruct (init_wires polls (info_offset boot_info) delay lview ioview h0 Hd) as (h2 & E4 & Hw & _). rewrite (st_bind_run _ _ _ _ _ (on_hardware_run _ _ _ _ _ E4)).
  destruct (mount h2) as [[fs h3]| |] eqn:E5; [right| |by destruct (mount_ends h2)].
  2:{ left. unfold mbind, ST_bind, on_hardware. cbn. by rewrite E5. }
  rewrite (st_bind_run _ _ _ _ _ (on_hardware_run _ _ _ _ _ E5)).
  assert (Hr2 : reachable k2) by (eapply reach_init; [exact Hb0|exact E2]). destruct (init_abs _ _ _ _ Hb0 E2) as [sems Ha2].
  assert (Hr : reachable (set_rootfs fs k3)) by (eapply reach_root; [eapply reach_memory; [exact Hr2|exact E3]|reflexivity]).
  assert (Ha : abs (set_rootfs fs k3) = alone sems) by (etransitivity; [exact (keeps_install abs _ _ _ _ E3)|exact Ha2]).
  exists (set_rootfs fs k3), h3. split; [reflexivity|]. split; [exact Hr|]. split; [by exists sems|]. split; [cbn; by rewrite Ho3, Ho2|].
  split; [cbn; rewrite Hm2 in Hh; exact Hh|]. split; [by exists h2|]. destruct (mount_apart _ _ _ E5) as [-> ->]. split; [exact Hw|].
  intros fuel units pid k4 E6. by eapply spawn_init_queues.
Qed.
End start.

(** ** A small computer *)
#[local] Existing Instances demo_log demo_x86 demo_x86_laws demo_uefi demo_selectors demo_elf_parser demo_platform demo_ArrayQueue demo_chrono demo_bitflags
  demo_bitflags_laws demo_unicode board_mmio board_ports board_apic demo_bitfield demo_bitfield_laws.
Definition demo_mount : ST board (Mount.t (Fat16Impl (Partition.t MemDisk.t))) := mount_disk (mret (Some demo_root_disk)).
Definition demo_boot_info : BootInfo := {|
  memory_map := [{| ty := 7; phys_start := 0x100000; page_count := 512 |}]; info_offset := 0; info_log_level := []; loaded_apps := None; kernel_pages := [] |}.
(** The kernel before [init]: nothing is mounted, and any value stands for the root. *)
Definition demo_before (root : Mount.t (Fat16Impl (Partition.t MemDisk.t))) : Kernel demo_machine (Partition.t MemDisk.t) demo_queue := {|
  sys := {| machine := demo_mem; frame_alloc := {| Frames.size := 0; used := 0; frames := []; recycled := [] |}; cr3_regs := ∅; heap_ends := ∅;
            physical_offset := 0; processor_pid := 0 |};
  envs := ∅; res_sets := ∅; sem_sets := ∅; pid_counter := 0; processes := ∅; ready_queue := []; waiting_processes := ∅; input_buf := Input.INPUT_BUF;
  console := []; rootfs := root |}.
Lemma demo_start_run root : match kernel_init 4 true demo_mount demo_boot_info (demo_before root, demo_board) with Panic => false | _ => true end = true.
Proof. vm_compute. reflexivity. Qed.
Lemma demo_root_some : match filesystem_init (Some demo_root_disk) with Ret _ => true | _ => false end = true.
Proof. vm_compute. reflexivity. Qed.
Lemma demo_mount_run h : match demo_mount h with Ret (_, h') => h' = h | _ => False end.
Proof.
  pose proof demo_root_some as H. unfold demo_mount, mount_disk, mbind, ST_bind, mret, ST_ret, st_lift.
  destruct (filesystem_init (Some demo_root_disk)); [reflexivity|discriminate H..].
Qed.
Lemma demo_map_valid : map_ok (memory_map demo_boot_info).
Proof. split; cbn; repeat constructor; cbn; lia || reflexivity || discriminate. Qed.
Lemma kernel_starts_witness : exists root k1 h1, kernel_init 4 true demo_mount demo_boot_info (demo_before root, demo_board) = Ret (tt, (k1, h1)) /\
  reachable k1 /\ ready_queue k1 = [] /\ is_Some (translate_page (machine (sys k1)) 0 0x400000001000).
Proof.
  destruct (demo_mount demo_board) as [[root h]| |] eqn:Er; [|pose proof (demo_mount_run demo_board) as H; rewrite Er in H; contradiction..]. exists root. clear Er h.
  destruct (kernel_starts 4 demo_mount demo_boot_info 3 lview ioview) with (k := demo_before root) (h := demo_board) as [E|(k1 & h1 & E & Hr & [sems Ha] & _ & Hh & _)].
  - reflexivity.
  - intros h E. pose proof (demo_mount_run h) as H. by rewrite E in H.
  - intros h fs h' E. pose proof (demo_mount_run h) as H. rewrite E in H. by subst h'.
  - repeat split.
  - exact demo_map_valid.
  - lia.
  - pose proof (demo_start_run root) as H. rewrite E in H. discriminate H.
  - exists k1, h1. split; [exact E|]. split; [exact Hr|]. split; [exact (f_equal a_queue Ha)|].
    apply (Hh 0x400000001000), (list_elem_of_lookup_2 _ 1). reflexivity.
Defined.
