(* ===== verification/KernelMain.v ===== *)
(** * The kernel's main loop

    Models [kernel_main] of [pkg/kernel/src/main.rs] and [wait] of [pkg/kernel/src/lib.rs]: the kernel's own process halts until the shell
    has ended.  What happens while it halts is any sequence of entries into the kernel. *)

From stdpp Require Import base numbers list gmap.
From S2P Require Import Prelude Bytes Device Str Fat16Name Fat16Entry Fat16Fs Fat16File Ata Uart Apic X86 Frames ElfMap Boot Sync Resource Vm Process Manager Syscall Interrupts KernelInit Sched Demo KernelRef KernelEntry.

(** ** The dead stay dead *)
Lemma dispatch_dead s s' p : dispatch s s' -> a_status s !! p = Some Dead -> a_status s' !! p = Some Dead.
Proof. intros [pre pid post _ _ Hr] Hp. cbn. rewrite lookup_insert_ne; [done|congruence]. Qed.
Lemma sem_woken key set pid set' : SemSet.signal key set = (WakeUp pid, set') -> exists sem, set !! key = Some sem /\ pid ∈ wait_queue sem.
Proof.
  unfold SemSet.signal, Sem.signal. destruct (set !! key) as [sem|]; [|done]. destruct (wait_queue sem) as [|q qs] eqn:E; [done|].
  intros [= <- _]. exists sem. rewrite E. split; [done|left].
Qed.
(** A process that blocks was running. *)
Definition blocking (ev : sched_event) : bool := match ev with EWait _ | ESemWait _ _ => true | _ => false end.
Lemma waiting_not_dead s l p q : sched_inv s -> a_status s !! p = Some Dead -> q ∈ waits s l -> p <> q.
Proof. intros Hi Hp Hq%(core_wait_blocked s (inv_core s Hi)). congruence. Qed.
Lemma dead_step ev s s' p : sched_inv s -> allowed ev s -> (blocking ev = true -> a_status s !! a_cur s = Some Running) ->
  sched_step ev s s' -> a_status s !! p = Some Dead -> a_status s' !! p = Some Dead.
Proof.
  intros Hi Ha Hb Hs Hp. pose proof (inv_core s Hi) as Hc.
  assert (Hcur : blocking ev = true -> p <> a_cur s) by (intros Hx%Hb; congruence).
  destruct Hs as [s st s' Hst Hd|s st s' Hst child Hd|s st s' Hst ws Hws Hd|s t st s' Ht Hne Hd|s t Ht|s ref key set set' pid s' Hr Hw Hd
    |s ref key set set' r Hr Hw Hor|s ref key set set' pid Hr Hw Hpid|s ref key set set' r Hr Hw Hor|s ref key value set Hr|s ref key set Hr|s r child|s st Hst|s];
    cbn [a_status] in *; try exact Hp; try (eapply dispatch_dead; [exact Hd|]; cbn [a_status]).
  - destruct (decide (p = a_cur s)) as [->|Hne]; [|by rewrite lookup_insert_ne]. rewrite lookup_insert_eq. replace st with Dead by congruence. done.
  - destruct (fresh_pid s Hc Ha) as (_ & Hf & _). rewrite lookup_insert_ne by (unfold child; congruence).
    destruct (decide (p = a_cur s)) as [->|Hne]; [|by rewrite lookup_insert_ne]. rewrite lookup_insert_eq. replace st with Dead by congruence. done.
  - destruct (decide (p = a_cur s)) as [->|Hne]; [by rewrite lookup_insert_eq|]. rewrite lookup_insert_ne, set_all_lookup by done.
    destruct (decide (p ∈ ws)) as [Hin|]; [|done]. by destruct (waiting_not_dead s (AtProc (a_cur s)) p p Hi Hp Hin).
  - rewrite lookup_insert_ne; [done|]. symmetry. by apply Hcur.
  - rewrite lookup_insert_ne; [done|]. symmetry. by apply Hcur.
  - destruct (sem_woken _ _ _ _ Hw) as (sem & Hk & Hq). rewrite lookup_insert_ne; [done|]. symmetry.
    eapply (waiting_not_dead s (AtSem ref key)); [done|done|]. cbn. unfold sem_queue. by rewrite Hr, Hk.
  - destruct (fresh_pid s Hc Ha) as (_ & Hf & _). rewrite lookup_insert_ne; [done|]. unfold child. congruence.
  - destruct (decide (p = a_cur s)) as [->|Hne]; [by rewrite lookup_insert_eq|by rewrite lookup_insert_ne].
Qed.

Section main.
Context {M D Q : Type} {L : Log} {X : X86} {MM : Machine M} {PF : Platform M} {BD : BlockDevice D}
  {C : Chrono} {BF : Bitflags} {UT : UnicodeTable} {AQ : ArrayQueue Q} {SE : Selectors}
  {EP : ElfParser}.
Abbreviation Kern := (Kernel M D Q).
Abbreviation K := (ST (Kernel M D Q)).

(** The entries while the processor halts, one after the other. *)
Fixpoint enter_all (es : list entry) : K unit :=
  match es with [] => mret tt | e :: es => enter e;; enter_all es end.
(** [wait]: [hlt] is over when the entries of the next batch are. *)
Fixpoint kernel_wait (init : Z) (batches : list (list entry)) : K unit :=
  alive ← Proc.still_alive init;
  if (alive : bool) then
    match batches with
    | [] => st_lift Timeout
    | es :: batches => enter_all es;; kernel_wait init batches
    end
  else mret tt.

Definition dead (pid : Z) (k : Kern) : Prop := status <$> processes k !! pid = Some Dead.
Lemma dead_abs pid k : dead pid k <-> a_status (abs k) !! pid = Some Dead.
Proof. unfold dead. cbn. by rewrite lookup_fmap. Qed.
Lemma dead_enter pid e (k : Kern) u k1 : reachable k -> entry_allowed e k -> enter e k = Ret (u, k1) -> dead pid k -> dead pid k1.
Proof.
  intros Hr Ha E. pose proof (reachable_sched_inv _ Hr) as Hi. destruct (enter_step e k u k1 E (inv_current k Hi)) as (ev & Hev & Hs).
  rewrite !dead_abs. eapply dead_step; [exact Hi|by eapply entry_event_allowed| |exact Hs].
  intros Hb. destruct e as [|f n ctx| | | |]; cbn in Hev, Ha; try (by subst ev).
  - cbn. rewrite lookup_fmap. by destruct Ha as (_ & _ & ->).
  - by destruct Hev as [r ->].
Qed.

(** A run of allowed entries that return, batch by batch: [ks] are the states after the batches. *)
Inductive batch : Kern -> list entry -> Kern -> Prop :=
| batch_done k : batch k [] k
| batch_enter k e es u k1 k2 : entry_allowed e k -> enter e k = Ret (u, k1) -> batch k1 es k2 -> batch k (e :: es) k2.
Inductive course : Kern -> list (list entry) -> list Kern -> Prop :=
| course_done k : course k [] []
| course_batch k es k1 bs ks : batch k es k1 -> course k1 bs ks -> course k (es :: bs) (k1 :: ks).
Lemma batch_run k es k2 : batch k es k2 -> enter_all es k = Ret (tt, k2).
Proof. induction 1 as [k|k e es [] k1 k2 _ E _ IH]; [done|]. cbn [enter_all]. by rewrite (st_bind_run _ _ _ _ _ E). Qed.
Lemma batch_keeps pid k es k2 : batch k es k2 -> reachable k -> reachable k2 /\ (dead pid k -> dead pid k2).
Proof.
  induction 1 as [k|k e es u k1 k2 Ha E _ IH]; intros Hr; [auto|].
  destruct IH as [Hr2 Hd2]; [by eapply reach_enter|]. split; [done|]. intros Hd. eapply Hd2, dead_enter; [exact Hr|exact Ha|exact E|exact Hd].
Qed.
Definition alive (pid : Z) (k : Kern) : bool := match processes k !! pid with Some p => bool_decide (status p <> Dead) | None => false end.
Lemma still_alive_run pid (k : Kern) : Proc.still_alive pid k = Ret (alive pid k, k).
Proof. reflexivity. Qed.
Lemma dead_alive pid k : dead pid k -> alive pid k = false.
Proof. unfold dead, alive. destruct (processes k !! pid) as [p|]; [|done]. intros [= ->]. done. Qed.

(** The loop ends in the first state, among those in which it looks, where the process is not alive. *)
Lemma kernel_wait_run pid k bs ks : course k bs ks -> kernel_wait pid bs k =
  match List.find (fun k => negb (alive pid k)) (k :: ks) with Some k' => Ret (tt, k') | None => Timeout end.
Proof.
  induction 1 as [k|k es k1 bs ks Hb _ IH]; cbn [kernel_wait List.find] in *; rewrite (st_bind_run _ _ _ _ _ (still_alive_run pid k));
    destruct (alive pid k); try reflexivity. cbn [negb]. by rewrite (st_bind_run _ _ _ _ _ (batch_run _ _ _ Hb)).
Qed.
Lemma course_keeps pid k bs ks : course k bs ks -> reachable k -> Forall reachable (k :: ks) /\ (dead pid k -> Forall (dead pid) (k :: ks)).
Proof.
  induction 1 as [k|k es k1 bs ks Hb _ IH]; intros Hr; [by repeat constructor|].
  destruct (batch_keeps pid _ _ _ Hb Hr) as [Hr1 Hd1]. destruct (IH Hr1) as [Hr2 Hd2]. split; [by constructor|]. intros Hd. constructor; auto.
Qed.
(** The course from its [i]th state on. *)
Lemma course_from k bs ks i ki : course k bs ks -> reachable k -> (k :: ks) !! i = Some ki -> exists bs', course ki bs' (drop i ks) /\ reachable ki.
Proof.
  intros Hc. revert i. induction Hc as [k|k es k1 bs ks Hb Hc IH]; intros i Hr Hi.
  - destruct i as [|i]; [|done]. injection Hi as <-. exists []. split; [constructor|done].
  - destruct i as [|i]; [injection Hi as <-; exists (es :: bs); split; [by econstructor|done]|]. apply (IH i); [|done]. by eapply (batch_keeps 0).
Qed.
(** C8: The kernel waits for its shell.  Whatever the programs, the devices and the clock do while the kernel halts, as long as every entry into the kernel
    returns: each state is again one of those for which the invariants hold; a process that is dead stays dead, so the end of the shell
    cannot be missed; and the loop ends at the first look after it, and not before. *)
Theorem kernel_waits pid k bs ks : reachable k -> course k bs ks ->
  Forall reachable (k :: ks) /\
  (forall i j ki kj, (i <= j)%nat -> (k :: ks) !! i = Some ki -> (k :: ks) !! j = Some kj -> dead pid ki -> dead pid kj) /\
  (forall i ki, (k :: ks) !! i = Some ki -> dead pid ki ->
     exists j kj, (j <= i)%nat /\ (k :: ks) !! j = Some kj /\ kernel_wait pid bs k = Ret (tt, kj)) /\
  (forall k', kernel_wait pid bs k = Ret (tt, k') -> alive pid k' = false) /\
  (Forall (fun k => alive pid k = true) (k :: ks) -> kernel_wait pid bs k = Timeout).
Proof.
  intros Hr Hc. split; [by apply (course_keeps pid k bs ks)|]. split.
  { intros i j ki kj Hij Hi Hj Hd. destruct (course_from k bs ks i ki Hc Hr Hi) as (bs' & Hc' & Hr').
    destruct (course_keeps pid _ _ _ Hc' Hr') as [_ Hall]. eapply (Forall_lookup_1 _ _ (j - i)); [exact (Hall Hd)|].
    rewrite <- Hj. destruct (j - i)%nat as [|n] eqn:E; [replace j with i by lia; by rewrite Hi|].
    replace j with (S (i + n)) by lia. change (drop i ks !! n = ks !! (i + n)%nat). apply lookup_drop. }
  rewrite (kernel_wait_run pid k bs ks Hc). split; [|split].
  - generalize (k :: ks) as l. clear. intros l. induction l as [|x l IH]; intros i ki Hi Hd; [done|]. cbn [List.find].
    destruct (negb (alive pid x)) eqn:E; [exists 0%nat, x; split; [lia|done]|].
    destruct i as [|i]; [injection Hi as <-; by rewrite (dead_alive _ _ Hd) in E|]. destruct (IH i ki Hi Hd) as (j & kj & Hj & Hl & Hw).
    exists (S j), kj. split; [lia|]. by split.
  - intros k' Hk. destruct (List.find _ _) as [x|] eqn:E; [|done]. injection Hk as <-. apply find_some in E as [_ E]. by apply negb_true_iff in E.
  - intros Hall. destruct (List.find _ _) as [x|] eqn:E; [|done]. apply find_some in E as [Hin E]. rewrite Forall_forall in Hall.
    apply list_elem_of_In in Hin. by rewrite (Hall x Hin) in E.
Qed.

(** [kernel_main], up to the call of [shutdown]. *)
Context {H : Type} {IO : PortIO H} {MI : Mmio H} {BFI : BitField} {UE : Uefi}.
Definition kernel_main (fuel units polls : nat) (supported : bool) (mount : ST H (Mount.t (Fat16Impl D))) (batches : list (list entry)) (boot_info : BootInfo)
    : ST (Kern * H) unit :=
  kernel_init polls supported mount boot_info;;
  pid ← on_kernel (spawn_init fuel units);
  on_kernel (kernel_wait pid batches).
(** Once [init] and the start of the shell have succeeded, [kernel_main] reaches [shutdown] exactly when the shell is found dead. *)
Theorem kernel_main_shuts_down fuel units polls supported mount bs boot_info k h k1 h1 pid k2 ks :
  kernel_init polls supported mount boot_info (k, h) = Ret (tt, (k1, h1)) -> spawn_init fuel units k1 = Ret (pid, k2) -> course k2 bs ks ->
  kernel_main fuel units polls supported mount bs boot_info (k, h) =
    match List.find (fun k => negb (alive pid k)) (k2 :: ks) with Some k' => Ret (tt, (k', h1)) | None => Timeout end.
Proof.
  intros E1 E2 Hc. unfold kernel_main. rewrite (st_bind_run _ _ _ _ _ E1).
  assert (E3 : on_kernel (spawn_init fuel units) (k1, h1) = Ret (pid, (k2, h1))) by (unfold on_kernel; cbn; by rewrite E2).
  rewrite (st_bind_run _ _ _ _ _ E3). unfold on_kernel. cbn [fst snd]. rewrite (kernel_wait_run _ _ _ _ Hc). by destruct (List.find _ _).
Qed.
End main.

(** The shell gets the processor and ends. *)
#[local] Existing Instances demo_log demo_x86 demo_x86_laws demo_uefi demo_selectors demo_elf_parser demo_platform
  demo_ArrayQueue demo_chrono demo_bitflags demo_unicode.
Definition demo_ended : demo_kernel := run_or demo_running (Service.dispatcher 4 64 (call_ctx 60 0 0 0)).
Definition demo_batch : list entry := [Timer demo_ctx; Trap 4 64 (call_ctx 60 0 0 0)].
Lemma demo_course : course demo_spawned [demo_batch] [demo_ended].
Proof.
  eapply course_batch; [|apply course_done].
  eapply (batch_enter demo_spawned _ _ tt demo_running); [exact I|vm_compute; reflexivity|].
  eapply (batch_enter demo_running _ _ tt demo_ended); [|vm_compute; reflexivity|apply batch_done].
  vm_compute. repeat match goal with |- _ /\ _ => split end; first [discriminate|reflexivity].
Qed.
Lemma kernel_waits_witness : kernel_wait 2 [] demo_spawned = Timeout /\
  exists k', kernel_wait 2 [demo_batch] demo_spawned = Ret (tt, k') /\ reachable k'.
Proof.
  split; [vm_compute; reflexivity|].
  destruct (kernel_waits 2 demo_spawned [demo_batch] [demo_ended] demo_spawned_reachable demo_course) as (Hr & _ & Hw & _).
  destruct (Hw 1%nat demo_ended) as (j & kj & _ & Hj & E); [reflexivity|vm_compute; reflexivity|].
  exists kj. split; [exact E|]. eapply Forall_lookup_1; [exact Hr|exact Hj].
Defined.
