(* ===== verification/Fairness.v ===== *)
(** * No starvation

    How long a ready process waits: the ready processes queued before it are its
    rank; no step of the scheduler raises it, and every timer interrupt lowers it. *)

From stdpp Require Import base numbers list gmap sets.
From S2P Require Import Prelude Bytes Device Str Fat16Name Fat16Entry Fat16Fs Fat16File X86 Frames ElfMap Sync Resource Vm Process Manager Syscall Sched Demo KernelRef KernelEntry.

(** What is queued before [p]. *)
Fixpoint before (p : Z) (q : list Z) : list Z :=
  match q with
  | [] => []
  | x :: q' => if decide (x = p) then [] else x :: before p q'
  end.
Definition ready_in (st : gmap Z ProgramStatus) (l : list Z) : nat :=
  length (filter (fun x => st !! x = Some Ready) l).
Definition rank (s : Sched) (p : Z) : nat := ready_in (a_status s) (before p (a_queue s)).

Lemma before_app p q q' : p ∈ q -> before p (q ++ q') = before p q.
Proof.
  induction q as [|x q IH]; cbn; [by intros ?%elem_of_nil|].
  intros Hp. destruct (decide (x = p)) as [|Hne]; [done|]. f_equal. apply IH.
  by apply elem_of_cons in Hp as [->|].
Qed.
Lemma before_skip p pre q : p ∉ pre -> before p (pre ++ q) = pre ++ before p q.
Proof.
  induction pre as [|x pre IH]; cbn; [done|]. intros [Hne Hp]%not_elem_of_cons.
  rewrite decide_False by congruence. f_equal. auto.
Qed.
Lemma before_in p q x : x ∈ before p q -> x ∈ q.
Proof.
  induction q as [|y q IH]; cbn; [done|]. destruct (decide (y = p)); [by intros ?%elem_of_nil|].
  rewrite !elem_of_cons. tauto.
Qed.

Lemma ready_in_ext st st' l : (forall x, x ∈ l -> st' !! x = st !! x) -> ready_in st' l = ready_in st l.
Proof.
  unfold ready_in. induction l as [|x l IH]; intros Heq; [done|].
  rewrite !filter_cons, (Heq x) by (apply elem_of_cons; auto).
  assert (Hl : length (filter (fun x => st' !! x = Some Ready) l) =
               length (filter (fun x => st !! x = Some Ready) l))
    by (apply IH; intros y Hy; apply Heq, elem_of_cons; auto).
  destruct (decide _); cbn; by rewrite Hl.
Qed.
Lemma ready_in_le st st' l :
  (forall x, st' !! x = Some Ready -> st !! x = Some Ready) -> (ready_in st' l <= ready_in st l)%nat.
Proof.
  intros Hle. unfold ready_in. induction l as [|x l IH]; [done|]. rewrite !filter_cons.
  destruct (decide (st' !! x = Some Ready)) as [Hx|].
  - rewrite decide_True by auto. cbn. lia.
  - destruct (decide (st !! x = Some Ready)); cbn; lia.
Qed.
Lemma ready_in_none st l : Forall (fun x => st !! x <> Some Ready) l -> ready_in st l = 0%nat.
Proof.
  unfold ready_in. induction 1 as [|x l Hx Hl IH]; [done|]. by rewrite filter_cons, decide_False.
Qed.
Lemma ready_in_app st l l' : ready_in st (l ++ l') = (ready_in st l + ready_in st l')%nat.
Proof. unfold ready_in. by rewrite filter_app, length_app. Qed.

(** [s1] has the queue of [s] and perhaps more after it, with the same statuses. *)
Definition extends (s s1 : Sched) : Prop :=
  (exists extra, a_queue s1 = a_queue s ++ extra) /\
  forall x, x ∈ a_queue s -> a_status s1 !! x = a_status s !! x.

Lemma extends_rank s s1 p : extends s s1 -> p ∈ a_queue s -> rank s1 p = rank s p.
Proof.
  intros [[extra Eq] Hst] Hp. unfold rank. rewrite Eq, before_app by done.
  apply ready_in_ext. intros x Hx%before_in. auto.
Qed.

(** The process is still waiting, at rank at most [n]. *)
Definition waiting_at (s : Sched) (p : Z) (n : nat) : Prop :=
  a_status s !! p = Some Ready /\ p ∈ a_queue s /\ (rank s p <= n)%nat.

Lemma extends_waiting s s1 p n : extends s s1 -> waiting_at s p n -> waiting_at s1 p n.
Proof.
  intros He (Hr & Hp & Hn). pose proof (extends_rank _ _ _ He Hp) as Ek.
  destruct He as [[extra Eq] Hst]. split; [by rewrite Hst|]. split; [|lia].
  rewrite Eq. apply elem_of_app. auto.
Qed.

(** A dispatch gives the processor to [p], or brings it one closer. *)
Lemma dispatch_rank s s1 s' p n :
  extends s s1 -> dispatch s1 s' -> waiting_at s p n ->
  a_cur s' = p \/ exists n', n = S n' /\ waiting_at s' p n'.
Proof.
  intros He Hd Hw. apply (extends_waiting _ _ _ _ He) in Hw as (Hr & Hp & Hn). clear He s.
  destruct Hd as [pre pid post Eq Hpre Hpid]. cbn [a_cur].
  destruct (decide (pid = p)) as [|Hne]; [by left|]. right.
  assert (Hnpre : p ∉ pre).
  { intros Hin. by apply (proj1 (Forall_forall _ _) Hpre p Hin). }
  assert (Hpost : p ∈ post).
  { rewrite Eq in Hp. apply elem_of_app in Hp as [?|[->|?]%elem_of_cons]; done. }
  assert (Hrank : rank s1 p = S (ready_in (a_status s1) (before p post))).
  { unfold rank. rewrite Eq, before_skip by done. cbn [before]. rewrite decide_False by done.
    rewrite ready_in_app, ready_in_none by done. unfold ready_in. by rewrite filter_cons, decide_True. }
  destruct n as [|n']; [lia|]. exists n'. split; [done|].
  split; [|split]; cbn [a_status a_queue].
  - by rewrite lookup_insert_ne.
  - apply elem_of_app. auto.
  - unfold rank. cbn [a_status a_queue]. rewrite before_app by done.
    pose proof (ready_in_le (a_status s1) (<[pid := Running]> (a_status s1)) (before p post)) as Hle.
    rewrite Hrank in Hn. assert (forall x, <[pid := Running]> (a_status s1) !! x = Some Ready ->
      a_status s1 !! x = Some Ready) as Hx; [|specialize (Hle Hx); lia].
    intros x [[_ ?]|[_ ?]]%lookup_insert_Some; done.
Qed.

Lemma queued_known s x st : sched_inv s -> a_status s !! x = Some st -> st <> Ready -> st <> Dead ->
  x ∉ a_queue s.
Proof. intros Hi Hx H1 H2 [?|?]%(core_queue s (inv_core s Hi)); congruence. Qed.

(** One step of the scheduler. *)
Lemma step_rank e s s' p n :
  sched_inv s -> allowed e s -> sched_step e s s' -> waiting_at s p n ->
  a_cur s' = p \/ waiting_at s' p n /\ (e = ESwitch -> exists n', n = S n' /\ waiting_at s' p n').
Proof.
  intros Hi Ha Hs Hw.
  assert (Hcur : forall x st, x ∈ a_queue s -> <[a_cur s := st]> (a_status s) !! x = a_status s !! x).
  { intros x st Hx. rewrite lookup_insert_ne; [done|]. intros <-. by apply (inv_cur_queue s Hi). }
  assert (Hfin : forall s1, extends s s1 -> dispatch s1 s' -> a_cur s' = p \/
    waiting_at s' p n /\ (e = ESwitch -> exists n', n = S n' /\ waiting_at s' p n')).
  { intros s1 He Hd. destruct (dispatch_rank _ _ _ _ _ He Hd Hw) as [?|(n' & -> & Hn')]; [by left|].
    right. split; [|eauto]. destruct Hn' as (? & ? & ?). split; [done|]. split; [done|]. lia. }
  assert (Hstay : extends s s' -> e <> ESwitch -> a_cur s' = p \/
    waiting_at s' p n /\ (e = ESwitch -> exists n', n = S n' /\ waiting_at s' p n')).
  { intros He Hne. right. split; [by eapply extends_waiting|done]. }
  assert (Hfresh : a_counter s + 1 < 2 ^ 16 -> u16 (a_counter s + 1) ∉ a_queue s).
  { intros Hc. apply (fresh_pid s (inv_core s Hi) Hc). }
  destruct Hs; cbn [allowed] in Ha.
  - eapply Hfin; [|eassumption]. split; [eauto|]. cbn. auto.
  - eapply Hfin; [|eassumption]. split; [eauto|]. cbn. intros x Hx.
    rewrite lookup_insert_ne; [by apply Hcur|]. intros <-. by apply Hfresh in Hx.
  - eapply Hfin; [|eassumption]. split; [eauto|]. cbn. intros x Hx.
    rewrite lookup_insert_ne by (intros <-; by apply (inv_cur_queue s Hi)).
    rewrite set_all_lookup, decide_False; [done|]. intros Hin.
    pose proof (core_wait_blocked s (inv_core s Hi) (AtProc (a_cur s)) x Hin) as Hb.
    by apply (queued_known s x Blocked) in Hx.
  - eapply Hfin; [|eassumption]. split; [exists []; cbn; by rewrite app_nil_r|]. cbn. auto.
  - apply Hstay; [|done]. split; [exists []; by rewrite app_nil_r|done].
  - eapply Hfin; [|eassumption]. split; [exists []; cbn; by rewrite app_nil_r|]. cbn. auto.
  - apply Hstay; [|done]. split; [exists []; cbn; by rewrite app_nil_r|done].
  - apply Hstay; [|done]. split; [eauto|]. cbn. intros x Hx. rewrite lookup_insert_ne; [done|].
    intros <-. destruct (sem_signal_queues _ _ _ _ _ _ H H0) as (_ & Hp & _).
    apply (queued_known s pid Blocked) in Hx; [done..| |done|done].
    apply (core_wait_blocked s (inv_core s Hi) (AtSem ref key)). cbn. rewrite (Hp pid eq_refl).
    apply elem_of_cons. auto.
  - apply Hstay; [|done]. split; [exists []; cbn; by rewrite app_nil_r|done].
  - apply Hstay; [|done]. split; [exists []; cbn; by rewrite app_nil_r|done].
  - apply Hstay; [|done]. split; [exists []; cbn; by rewrite app_nil_r|done].
  - apply Hstay; [|done]. split; [eauto|]. cbn. intros x Hx. rewrite lookup_insert_ne; [done|].
    intros <-. by apply Hfresh in Hx.
  - apply Hstay; [|done]. split; [exists []; cbn; by rewrite app_nil_r|]. cbn. auto.
  - apply Hstay; [|done]. split; [exists []; by rewrite app_nil_r|done].
Qed.

(** ** The kernel *)
Section kernel.
Context {M D Q : Type} {L : Log} {X : X86} {MM : Machine M} {PF : Platform M} {BD : BlockDevice D}
  {C : Chrono} {BF : Bitflags} {UT : UnicodeTable} {AQ : ArrayQueue Q} {SE : Selectors}
  {EP : ElfParser}.
Abbreviation Kern := (Kernel M D Q).

(** A run of the kernel: the entries with the states after them. *)
Inductive run : Kern -> list (entry * Kern) -> Prop :=
| run_nil k : run k []
| run_cons k e u k1 tr :
    entry_allowed e k -> enter e k = Ret (u, k1) -> run k1 tr -> run k ((e, k1) :: tr).

Definition is_timer (x : entry * Kern) : bool := match x.1 with Timer _ => true | _ => false end.
Definition timers (tr : list (entry * Kern)) : nat := length (List.filter is_timer tr).

Lemma run_rank k tr p n :
  reachable k -> run k tr -> waiting_at (abs k) p n -> (n < timers tr)%nat ->
  exists e k', (e, k') ∈ tr /\ processor_pid (sys k') = p.
Proof.
  intros Hk Hrun. revert n Hk. induction Hrun as [k|k e u k1 tr Ha E Hrun IH]; intros n Hk Hw Hn.
  - cbn in Hn. lia.
  - pose proof (reachable_sched_inv k Hk) as Hi.
    destruct (enter_step _ _ _ _ E (inv_current _ Hi)) as (ev & Hev & Hs).
    pose proof (entry_event_allowed _ _ _ Hev Ha) as Hal.
    destruct (step_rank _ _ _ _ _ Hi Hal Hs Hw) as [Hp|[Hw1 Ht]].
    + exists e, k1. split; [apply elem_of_cons; auto|done].
    + assert (Hk1 : reachable k1) by by eapply reach_enter.
      assert (Hgo : exists n', waiting_at (abs k1) p n' /\ (n' < timers tr)%nat).
      { unfold timers in Hn. cbn [List.filter] in Hn. unfold is_timer at 1 in Hn. cbn [fst] in Hn.
        destruct e; cbn in Hev; try (exists n; split; [done|exact Hn]).
        destruct (Ht Hev) as (n' & -> & Hw'). exists n'. cbn in Hn. split; [done|]. unfold timers. lia. }
      destruct Hgo as (n' & Hw' & Hn'). destruct (IH n' Hk1 Hw' Hn') as (e' & k' & Hin & Hp).
      exists e', k'. split; [apply elem_of_cons; auto|done].
Qed.

(** C6: no ready process starves.  If a process is ready in a reachable state, with
    [n] ready processes before it in the queue, then in every run from there,
    whatever system calls, faults and interrupts happen in between, it has been given
    the processor by the time of the [n+1]-st timer interrupt. *)
Theorem no_starvation (k : Kern) tr p :
  reachable k -> run k tr ->
  status <$> processes k !! p = Some Ready ->
  (ready_in (status <$> processes k) (before p (ready_queue k)) < timers tr)%nat ->
  exists e k', (e, k') ∈ tr /\ processor_pid (sys k') = p.
Proof.
  intros Hk Hrun Hp Hn. eapply run_rank; [done|done| |exact Hn].
  pose proof (reachable_sched_inv k Hk) as Hi.
  assert (Hr : a_status (abs k) !! p = Some Ready) by (cbn; by rewrite lookup_fmap).
  split; [done|]. split; [|done]. by apply (core_ready _ (inv_core _ Hi)).
Qed.
End kernel.

(** ** Witness: the forked child, third in the queue. *)

#[local] Existing Instances demo_log demo_x86 demo_x86_laws demo_uefi demo_selectors demo_elf_parser
  demo_platform demo_ArrayQueue demo_chrono demo_bitflags demo_unicode.

Lemma no_starvation_witness :
  exists e k', (e, k') ∈ [(Timer demo_ctx, demo_child)] /\ processor_pid (sys k') = 3.
Proof.
  apply (no_starvation demo_forked [(Timer demo_ctx, demo_child)] 3).
  - apply demo_forked_reachable.
  - eapply (run_cons _ _ tt); [exact I|vm_compute; reflexivity|constructor].
  - vm_compute. reflexivity.
  - vm_compute. apply le_n.
Defined.
