(* ===== verification/KernelProps.v ===== *)
(** * What the system calls do

    The results of the system calls that create, end and synchronise processes, as
    user programs see them, and the ways a user program can bring the kernel down. *)

From stdpp Require Import base numbers list gmap sets.
From S2P Require Import Prelude Bytes Device Str Fat16Name Fat16Entry Fat16Fs Fat16File X86 Frames ElfMap Sync Resource Vm Process Manager Syscall Sched Demo KernelRef KernelEntry KernelMem Fairness.

(** ** System call numbers *)

(** system call numbers round trip.  Decoding the number of a call gives the call
    back, the numbers are distinct, and every other number is [Unknown], which
    changes nothing. *)
Theorem syscall_roundtrip (c : Syscall) (n : Z) :
  Syscall_from (syscall_number c) = c /\
  (Syscall_from n = c -> c <> Unknown -> n = syscall_number c).
Proof.
  split; [by destruct c|]. unfold Syscall_from. intros <- Hu.
  destruct (List.find _ all_syscalls) as [c|] eqn:E; [|done]. cbn.
  apply find_some in E as [_ E]. by apply Z.eqb_eq in E.
Qed.

Section kernel.
Context {M D Q : Type} {L : Log} {X : X86} {MM : Machine M} {PF : Platform M} {BD : BlockDevice D}
  {C : Chrono} {BF : Bitflags} {UT : UnicodeTable} {AQ : ArrayQueue Q} {SE : Selectors}
  {EP : ElfParser}.
Abbreviation Kern := (Kernel M D Q).

(** Choosing the next process only makes that process running. *)
Lemma switch_next_proc ctx (k : Kern) x k1 w p :
  Manager.switch_next ctx k = Ret (x, k1) -> processes k !! w = Some p ->
  exists p1, processes k1 !! w = Some p1 /\ (p1 = p \/ p1 = Inner.resume p /\ status p = Ready).
Proof.
  intros (pid & q & pre & post & s1 & _ & _ & Hq & Hst & _ & _ & ->)%switch_next_inv Hp. cbn.
  destruct (decide (w = pid)) as [->|Hne].
  - rewrite lookup_insert_eq. eexists. split; [done|]. right. by assert (q = p) as -> by congruence.
  - rewrite lookup_insert_ne by done. eauto.
Qed.

(** ** Waiting for the end of a process *)

Lemma wait_pid_dead pid p code ctx (k : Kern) :
  processes k !! pid = Some p -> status p = Dead -> exit_code p = Some code ->
  Proc.wait_pid pid ctx k = Ret (Context.set_rax (as_usize code) ctx, k).
Proof.
  intros Hp Hd Hc. unfold Proc.wait_pid, Proc.still_alive.
  assert (Ea : Manager.is_proc_alive pid k = Ret (false, k)).
  { unfold Manager.is_proc_alive, Manager.get_proc, mbind, ST_bind, st_gets. rewrite Hp.
    by rewrite bool_decide_eq_false_2 by (intros ?; done). }
  rewrite (st_bind_run _ _ _ _ _ Ea). unfold Manager.get_exit_code.
  assert (Ee : (p ← Manager.the_proc pid; mret (exit_code p)) k = Ret (Some code, k)).
  { rewrite (st_bind_run _ _ _ _ _ (the_proc_run _ _ _ Hp)). by rewrite Hc. }
  rewrite (st_bind_run _ _ _ _ _ Ee). reflexivity.
Qed.

(** C15: a process's exit code reaches everyone who waits for it.  When [exit] returns,
    every process that was waiting for the caller is ready or running again with the
    code in [rax], nothing else of its context changed; the caller is dead with that
    code; whoever waits for it from then on gets the code at once; and the user
    library reads it back as the value passed to [exit]. *)
Theorem exit_code_delivered ret ctx (k : Kern) x k1 :
  reachable k -> - 2 ^ 63 <= ret < 2 ^ 63 ->
  status <$> processes k !! processor_pid (sys k) = Some Running ->
  Proc.exit ret ctx k = Ret (x, k1) ->
  let cur := processor_pid (sys k) in
  (forall w p, w ∈ default [] (waiting_processes k !! cur) -> processes k !! w = Some p ->
     exists p1, processes k1 !! w = Some p1 /\ (status p1 = Ready \/ status p1 = Running) /\
       context p1 = Context.set_rax (as_usize ret) (context p)) /\
  (exists pc, processes k1 !! cur = Some pc /\ status pc = Dead /\ exit_code pc = Some ret) /\
  (forall ctx', Proc.wait_pid cur ctx' k1 = Ret (Context.set_rax (as_usize ret) ctx', k1)) /\
  User.sys_wait_pid (as_usize ret) = ret.
Proof.
  intros Hk%reachable_sched_inv Hret Hrun H cur. unfold Proc.exit in H.
  destruct (processes k !! processor_pid (sys k)) as [pc|] eqn:Hpc; [|done]. cbn in Hrun.
  apply st_bind_inv in H as (u & k2 & E & H). apply wake_waiting_inv in E as (procs & -> & Hall & Hlk).
  fold cur in Hlk, Hall, Hpc. set (ws := default [] (waiting_processes k !! cur)) in *.
  assert (Hcw : cur ∉ ws) by exact (cur_not_waiting _ (AtProc cur) Hk).
  apply st_bind_inv in H as (u2 & k3 & E & H). unfold Manager.kill_self in E.
  apply st_bind_inv in E as (pid & k4 & E' & E). apply get_pid_inv in E' as (-> & -> & _).
  cbn in E. fold cur in E.
  assert (Hpc' : procs !! cur = Some pc) by (rewrite Hlk, decide_False by done; done).
  destruct (kill_inv _ _ _ _ _ _ E Hpc') as (p' & s1 & -> & _ & Hd & Hkd). clear E.
  rewrite decide_False in Hkd by congruence. destruct Hkd as (Hcode & _).
  apply st_bind_inv in H as (r & k4 & E2 & H). st_inv H.
  assert (Hdead : exists pc, processes k1 !! cur = Some pc /\ status pc = Dead /\ exit_code pc = Some ret).
  { destruct (switch_next_proc _ _ _ _ cur p' E2) as (p1 & Hp1 & Hor); [cbn; apply lookup_insert_eq|].
    exists p1. destruct Hor as [->|[_ ?]]; [done|congruence]. }
  split; [|split; [exact Hdead|split]].
  - intros w p Hw Hp.
    destruct (switch_next_proc _ _ _ _ w (woken_proc ret p) E2) as (p1 & Hp1 & Hor).
    { cbn. rewrite lookup_insert_ne by (intros <-; done). by rewrite Hlk, decide_True, Hp by done. }
    exists p1. split; [done|]. destruct Hor as [->|[-> _]]; cbn; auto.
  - intros ctx'. destruct Hdead as (q & Hq & Hqd & Hqc). by eapply wait_pid_dead.
  - by apply as_isize_usize.
Qed.

(** ** Fork *)

Lemma fork_result ctx (k : Kern) x k1 p :
  Proc.fork ctx k = Ret (x, k1) -> reachable k -> pid_counter k + 1 < 2 ^ 16 ->
  processes k !! processor_pid (sys k) = Some p -> status p = Running ->
  let pid := processor_pid (sys k) in
  let child := pid_counter k + 1 in
  exists v cv top pp c s1, proc_vm p = Some v /\
    ProcessVm.fork (u64 (u64 (zlen (children p) + 1) * Stack.STACK_MAX_PAGES)) v (sys k) = Ret (cv, s1) /\
    VirtAddr_new (child_sp (set_context ctx p) cv) = Ret top /\
    processes k1 !! pid = Some pp /\ processes k1 !! child = Some c /\ child <> pid /\
    context pp = Context.set_rax child ctx /\
    context c = Context.set_rax 0 (Context.update_stack_frame top ctx) /\
    proc_data c = proc_data p /\ proc_data pp = proc_data p /\ proc_vm c = Some cv /\
    proc_vm pp = Some v /\ parent c = Some pid /\ children pp = children p ++ [child].
Proof.
  intros H Hk Hn Hp Hst pid child. pose proof (reachable_sched_inv _ Hk) as Hi.
  apply fork_inv in H as (p' & c & s1 & r & Hp' & Hf & E & _).
  assert (p' = p) as -> by congruence.
  assert (Es : Inner.save ctx (Inner.tick p) = Inner.pause (set_context ctx (Inner.tick p))).
  { unfold Inner.save. by rewrite decide_False by (cbn; congruence). }
  rewrite Es in Hf, E. destruct Hf as (v & cv & d & top & Hv & Hd & Ef & Htop & ->).
  pose proof (core_counter _ (inv_core _ Hi)) as Hc. cbn in Hc.
  assert (Ec : u16 (pid_counter k + 1) = child) by (apply wrap_small; unfold child; lia).
  rewrite Ec in *.
  assert (Hne : child <> pid).
  { pose proof (core_pids _ (inv_core _ Hi) pid) as Hx. cbn in Hx. rewrite lookup_fmap in Hx.
    fold pid in Hp. rewrite Hp in Hx. specialize (Hx ltac:(eauto)). unfold child. lia. }
  fold pid in E. set (c := {| name := _ |}) in E. set (pp := set_context _ _) in E.
  destruct (switch_next_proc _ _ _ _ child c E) as (c1 & Hc1 & Hcor); [cbn; apply lookup_insert_eq|].
  destruct (switch_next_proc _ _ _ _ pid pp E) as (pp1 & Hpp1 & Hpor).
  { cbn. rewrite lookup_insert_ne by done. apply lookup_insert_eq. }
  exists v, cv, top, pp1, c1, s1. split; [done|]. split; [exact Ef|]. split; [exact Htop|].
  split; [done|]. split; [done|]. split; [done|].
  destruct Hcor as [->|[-> _]], Hpor as [->|[-> _]]; cbn; cbn in Hd; rewrite Hd; done.
Qed.

Lemma fork_map_inv {XL : X86Laws} fuel : forall l4 a n (s : Sys M) b s1,
  Stack.fork_map fuel l4 a n s = Ret (b, s1) -> low a ->
  exists j, 0 <= j /\ b = a - j * 2 ^ 32 /\ low b.
Proof.
  induction fuel as [|fuel IH]; intros l4 a n s b s1 H Ha; [done|]. cbn [Stack.fork_map] in H.
  apply st_bind_inv in H as (r & s2 & _ & H). destruct r as [?|?].
  - injection H as <- _. exists 0. split; [lia|]. split; [lia|done].
  - apply st_lift_bind_inv in H as (lower & El & H).
    apply VirtAddr_sub_exact in El as [-> Hl]; [|done|by vm_compute].
    apply IH in H as (j & Hj & -> & Hb); [|done]. exists (j + 1). split; [lia|]. split; [|done].
    change Stack.STACK_MAX_SIZE with (2 ^ 32). lia.
Qed.

(** The stack of a child lies a whole number of slots below its parent's. *)
Lemma stack_fork_inv {XL : X86Laws} l4 i st (s : Sys M) st' s1 :
  Stack.fork l4 (i * Stack.STACK_MAX_PAGES) st s = Ret (st', s1) ->
  0 <= i < 2 ^ 32 -> low (start (Stack.range st)) -> page_aligned (start (Stack.range st)) ->
  exists j, i <= j /\ start (Stack.range st') = start (Stack.range st) - j * 2 ^ 32 /\
    low (start (Stack.range st')) /\ Stack.usage st' = Stack.usage st.
Proof.
  intros H Hi Hl Ha. unfold Stack.fork in H. apply st_lift_bind_inv in H as (min & Em & H).
  apply Page_sub_exact in Em as [-> Hm]; [|done|done|].
  2: { unfold Stack.STACK_MAX_PAGES. lia. }
  apply st_bind_inv in H as (b & s2 & E & H). apply fork_map_inv in E as (j & Hj & -> & Hb); [|done].
  apply st_bind_inv in H as (u & s3 & _ & H). apply st_lift_bind_inv in H as (e & _ & H).
  injection H as <- _. cbn. rewrite Page_containing_low by done.
  unfold Stack.STACK_MAX_PAGES, page_aligned in *. exists (i + j).
  set (b := _ - j * 2 ^ 32) in *.
  assert (Hmod : b mod 4096 = 0) by (subst b; zdiv). rewrite Hmod.
  split; [lia|]. split; [subst b; lia|]. split; [by rewrite Z.sub_0_r|done].
Qed.

Lemma low32 a : Z.land a Inner.LOW32 = a mod 2 ^ 32.
Proof. exact (Z.land_ones a 32 ltac:(lia)). Qed.
Lemma high32 a : low a -> Z.land a (2 ^ 64 - 1 - Inner.LOW32) = a - a mod 2 ^ 32.
Proof.
  unfold low. intros Ha. change (2 ^ 64 - 1 - Inner.LOW32) with (2 ^ 64 - 2 ^ 32).
  apply land_high_mask; lia.
Qed.

Lemma lor_parts a b : 0 <= b < 2 ^ 32 -> a mod 2 ^ 32 = 0 -> Z.lor b a = a + b.
Proof. by apply (lor_disjoint 32). Qed.

(** C14: [fork] makes a copy.  When [fork] returns, parent and child are in the process
    table under different numbers, both with the parent's registers except that
    [rax] is the child's number in the parent and 0 in the child; they share the page
    table, the heap and the process data; the child's stack lies a whole number of
    4 GiB slots (at least one) below the parent's, has the same size, and its stack
    pointer is moved by the same amount. *)
Theorem fork_copies {XL : X86Laws} ctx (k : Kern) x k1 p v :
  reachable k -> pid_counter k + 1 < 2 ^ 16 ->
  processes k !! processor_pid (sys k) = Some p -> status p = Running -> proc_vm p = Some v ->
  zlen (children p) < 2 ^ 16 ->
  let sp := Context.stack_top ctx in
  let bottom := start (Stack.range (ProcessVm.stack v)) in
  low bottom -> page_aligned bottom -> low sp -> sp - sp mod 2 ^ 32 = bottom - bottom mod 2 ^ 32 ->
  Proc.fork ctx k = Ret (x, k1) ->
  let pid := processor_pid (sys k) in
  let child := pid_counter k + 1 in
  exists pp c cv j, processes k1 !! pid = Some pp /\ processes k1 !! child = Some c /\
    child <> pid /\ parent c = Some pid /\ children pp = children p ++ [child] /\
    context pp = Context.set_rax child ctx /\
    context c = Context.set_rax 0 (Context.update_stack_frame (sp - j * 2 ^ 32) ctx) /\
    proc_data pp = proc_data p /\ proc_data c = proc_data p /\
    proc_vm pp = Some v /\ proc_vm c = Some cv /\ ProcessVm.page_table cv = ProcessVm.page_table v /\
    ProcessVm.heap cv = ProcessVm.heap v /\ 1 <= j /\
    start (Stack.range (ProcessVm.stack cv)) = bottom - j * 2 ^ 32 /\
    Stack.usage (ProcessVm.stack cv) = Stack.usage (ProcessVm.stack v).
Proof.
  intros Hk Hn Hp Hst Hv Hch sp bottom Hlb Hab Hls Hslot H pid child.
  destruct (fork_result _ _ _ _ _ H Hk Hn Hp Hst) as (v' & cv & top & pp & c & s1 & Hv' & Ef & Htop &
    Hpp & Hc & Hne & Hcp & Hcc & Hdc & Hdp & Hvc & Hvp & Hpar & Hcld).
  assert (v' = v) as -> by congruence. clear Hv'.
  assert (Hi : 0 <= zlen (children p)) by (unfold zlen; lia).
  assert (En : u64 (u64 (zlen (children p) + 1) * Stack.STACK_MAX_PAGES) =
               (zlen (children p) + 1) * Stack.STACK_MAX_PAGES).
  { unfold Stack.STACK_MAX_PAGES. rewrite (wrap_small 64 (_ + 1)) by lia.
    rewrite wrap_small by lia. done. }
  rewrite En in Ef. unfold ProcessVm.fork in Ef. apply st_bind_inv in Ef as (r & s2 & E1 & Ef).
  apply pt_fork_inv in E1 as (-> & _). apply st_bind_inv in Ef as (l4 & s3 & _ & Ef).
  apply st_bind_inv in Ef as (st & s4 & E1 & Ef). injection Ef as <- _.
  apply stack_fork_inv in E1 as (j & Hj & Hstart & Hlow & Hus); [|lia|done|done].
  exists pp, c. eexists _, j. split; [done|]. split; [done|]. split; [done|]. split; [done|].
  split; [done|]. split; [done|]. split.
  - rewrite Hcc. do 2 f_equal. unfold child_sp in Htop. cbn in Htop. fold sp in Htop.
    unfold Stack.stack_min_addr in Htop. rewrite Hstart in Htop, Hlow. fold bottom in Htop, Hlow.
    rewrite low32, high32, lor_parts in Htop; unfold low in *.
    1: rewrite VirtAddr_new_low in Htop by (unfold low; zdiv); injection Htop as <-; zdiv.
    all: zdiv.
  - repeat (split; [done|]). split; [by destruct v as [? ? []]|]. split; [lia|]. split; [exact Hstart|exact Hus].
Qed.

(** ** Page faults *)

(** a page fault that no one handles is taken for handled.  When a process touches
    an unmapped page outside its stack slot, [page_fault_handler] returns, with the
    kernel exactly as it was: the access is not reported and nothing is killed, and
    the process faults again at the same instruction. *)
Theorem unhandled_fault_restarts addr (k : Kern) p v :
  reachable k -> processes k !! processor_pid (sys k) = Some p -> status p <> Dead ->
  proc_vm p = Some v -> Stack.is_on_stack (ProcessVm.stack v) addr = false ->
  Service.page_fault_handler addr false k = Ret (tt, k).
Proof.
  intros Hk Hp Hst Hv Hs. pose proof (reachable_sched_inv _ Hk) as Hi.
  destruct (table_run _ _ _ _ (reachable_mem _ Hk) Hp Hst Hv) as [w Hw].
  unfold Service.page_fault_handler, Proc.handle_page_fault, Manager.handle_page_fault.
  assert (Ef : Inner.handle_page_fault addr p k = Ret ((false, p), k)).
  { unfold Inner.handle_page_fault, Inner.vm, on_sys, ProcessVm.handle_page_fault,
      PageTableContext.mapper, PageTableContext.get, Stack.handle_page_fault, mbind, ST_bind.
    rewrite Hv. cbn. rewrite Hw. cbn. rewrite Hs. cbn.
    assert (Es : set_sys (sys k) k = k) by (by destruct k). rewrite Es.
    assert (Ep : set_proc_vm (Some v) p = p) by (rewrite <- Hv; by destruct p).
    rewrite <- Ep at 2. by destruct v. }
  rewrite (st_bind_run _ _ _ true k); [done|].
  rewrite (st_bind_run _ _ _ _ _ (proj2 (current_run _ _ Hi Hp))). cbn [negb].
  rewrite (st_bind_run _ _ _ _ _ Ef). unfold Manager.write_proc. cbn.
  rewrite (st_bind_run _ _ _ tt k); [done|]. unfold st_modify. rewrite insert_id by done. by destruct k.
Qed.

(** ** User programs and the kernel's panics *)

Lemma dispatch_wait_pid fuel units ctx (k : Kern) :
  rax (regs ctx) = syscall_number WaitPid ->
  Service.dispatcher fuel units ctx k = Proc.wait_pid (u16 (rdi (regs ctx))) ctx k.
Proof. intros Ha. unfold Service.dispatcher, Service.args_of. cbn. by rewrite Ha. Qed.

(** system calls that bring the kernel down.  Whatever state the kernel is in, a
    user program panics it by calling [brk] with an address that is not canonical,
    by waiting for a process number that does not exist, or by allocating or
    deallocating with a null layout pointer. *)
Theorem user_can_panic_kernel {XL : X86Laws} fuel units ctx (k : Kern) :
  (rax (regs ctx) = syscall_number Brk -> 2 ^ 47 <= rdi (regs ctx) < 2 ^ 64 - 2 ^ 47 ->
     Service.dispatcher fuel units ctx k = Panic) /\
  (rax (regs ctx) = syscall_number WaitPid -> processes k !! u16 (rdi (regs ctx)) = None ->
     Service.dispatcher fuel units ctx k = Panic) /\
  (rax (regs ctx) = syscall_number Allocate -> rdi (regs ctx) = 0 ->
     Service.dispatcher fuel units ctx k = Panic) /\
  (rax (regs ctx) = syscall_number Deallocate -> rsi (regs ctx) = 0 ->
     Service.dispatcher fuel units ctx k = Panic).
Proof.
  split; [|split; [|split]]; intros Ha Hx.
  - unfold Service.dispatcher, Service.args_of. cbn. rewrite Ha. cbn.
    unfold Service.returning, Service.sys_brk. cbn. rewrite (proj2 (Z.eqb_neq _ _)) by lia.
    unfold mbind, ST_bind, st_lift. by rewrite VirtAddr_new_noncanonical.
  - rewrite dispatch_wait_pid by done. unfold Proc.wait_pid, Proc.still_alive, Manager.is_proc_alive,
      Manager.get_exit_code, Manager.the_proc, Manager.get_proc, mbind, ST_bind, st_gets.
    rewrite Hx. cbn. by rewrite Hx.
  - unfold Service.dispatcher, Service.args_of. cbn. rewrite Ha. cbn.
    unfold Service.returning, Service.sys_allocate. cbn. by rewrite Hx.
  - unfold Service.dispatcher, Service.args_of. cbn. rewrite Ha. cbn.
    unfold Service.sys_deallocate. cbn. by rewrite Hx.
Qed.

(** ** Results the user library misreads *)

(** Running an operation on the data of the current process. *)
Lemma with_data_run {A} (f : ProcessData -> ST Kern A) (k : Kern) p d :
  sched_inv (abs k) -> processes k !! processor_pid (sys k) = Some p -> proc_data p = Some d ->
  Manager.with_data f k = f d k.
Proof.
  intros Hi Hp Hd. unfold Manager.with_data.
  rewrite (st_bind_run _ _ _ _ _ (proj2 (current_run _ _ Hi Hp))). unfold Inner.data. cbn [snd].
  rewrite Hd. reflexivity.
Qed.

(** [close] always reports the opposite.  The kernel answers 1 for a descriptor it
    closed and 0 for one that was not open, and the user library takes 0 for
    success: [sys_close_file] is true exactly when nothing was closed. *)
Theorem close_result_inverted fuel units ctx (k : Kern) p d s :
  reachable k -> processes k !! processor_pid (sys k) = Some p -> proc_data p = Some d ->
  res_sets k !! resources_ref d = Some s -> rax (regs ctx) = syscall_number Close ->
  let fd := u8 (rdi (regs ctx)) in
  exists x k1, Service.dispatcher fuel units ctx k = Ret (x, k1) /\
    res_sets k1 = <[resources_ref d := delete fd s]> (res_sets k) /\
    User.sys_close_file (rax (regs x)) = negb (bool_decide (is_Some (s !! fd))).
Proof.
  intros Hi%reachable_sched_inv Hp Hd Hs Ha fd.
  assert (Ec : Service.sys_close_file (Service.args_of ctx) k =
    Ret ((ResSet.close fd s).1, set_res_sets (<[resources_ref d := (ResSet.close fd s).2]> (res_sets k)) k)).
  { unfold Service.sys_close_file, Proc.close_file, Manager.close_file.
    rewrite (with_data_run _ _ _ _ Hi Hp Hd).
    unfold Data.close_file, Data.get_resources, Data.put_resources, mbind, ST_bind. cbn. by rewrite Hs. }
  assert (Ecall : syscall (Service.args_of ctx) = Close).
  { unfold Service.args_of. cbn. by rewrite Ha. }
  unfold Service.dispatcher. cbv zeta. rewrite Ecall. unfold Service.returning.
  eexists _, _. rewrite (st_bind_run _ _ _ (if (ResSet.close fd s).1 then 1 else 0)
    (set_res_sets (<[resources_ref d := (ResSet.close fd s).2]> (res_sets k)) k));
    [split; [reflexivity|]|by rewrite (st_bind_run _ _ _ _ _ Ec)].
  split; [done|]. unfold ResSet.close. cbn. by destruct (bool_decide _).
Qed.

Lemma dispatch_sem fuel units ctx (k : Kern) :
  rax (regs ctx) = syscall_number Sem ->
  Service.dispatcher fuel units ctx k = Service.sys_sem (Service.args_of ctx) ctx k.
Proof. intros Ha. unfold Service.dispatcher, Service.args_of. cbn. by rewrite Ha. Qed.

(** a semaphore call that blocks or wakes someone reports failure.  A [wait] that
    has to block leaves the system call number 64 in the saved [rax], and a [signal]
    that wakes a process changes neither its own nor the woken process's [rax]: both
    callers then see [false], though the semaphore was taken and released. *)
Theorem blocking_sem_reports_failure fuel units ctx (k : Kern) x k1 p d set :
  reachable k -> processes k !! processor_pid (sys k) = Some p -> status p = Running ->
  proc_data p = Some d -> sem_sets k !! semaphores_ref d = Some set ->
  rax (regs ctx) = syscall_number Sem ->
  Service.dispatcher fuel units ctx k = Ret (x, k1) ->
  let key := u32 (rsi (regs ctx)) in
  let pid := processor_pid (sys k) in
  (rdi (regs ctx) = 3 -> (exists w, (SemSet.wait key pid set).1 = Block w) ->
     exists p1, processes k1 !! pid = Some p1 /\ status p1 = Blocked /\ context p1 = ctx /\
       User.sys_sem_wait (rax (regs (context p1))) = false) /\
  (forall w, rdi (regs ctx) = 2 -> (SemSet.signal key set).1 = WakeUp w ->
     User.sys_sem_signal (rax (regs x)) = false /\
     exists pw pw1, processes k !! w = Some pw /\ processes k1 !! w = Some pw1 /\
       status pw1 = Ready /\ context pw1 = context pw).
Proof.
  intros Hk Hp Hst Hd Hs Ha H key pid. pose proof (reachable_sched_inv _ Hk) as Hi.
  rewrite dispatch_sem in H by done. unfold Service.sys_sem in H. cbn [Service.args_of arg0 arg1] in H.
  fold key in H. split.
  - intros H3 [w Hw]. rewrite H3 in H. cbn in H. unfold Proc.sem_wait, Proc.get_pid in H.
    rewrite (st_bind_run _ _ _ _ _ (proj1 (current_run _ _ Hi Hp))) in H.
    apply st_bind_inv in H as (r & k2 & E & H). unfold Data.sem_wait in E. fold pid in E.
    apply (sem_op_inv (SemSet.wait key pid)) in E as (p' & d' & set' & Hp' & Hd' & Hs' & -> & ->).
    assert (p' = p) as -> by congruence. assert (d' = d) as -> by congruence.
    assert (set' = set) as -> by congruence. fold pid in H. rewrite Hw in H. cbn in H.
    apply st_bind_inv in H as (pid1 & k2 & E1 & H). apply st_bind_inv in H as (u & k3 & E2 & H).
    destruct (save_block_inv _ _ _ _ _ _ _ E1 eq_refl E2) as (q & Hq & ->). clear E1 E2. cbn in Hq.
    assert (q = p) as -> by congruence.
    apply st_bind_inv in H as (r & k3 & E & H). st_inv H.
    destruct (switch_next_proc _ _ _ _ pid (Inner.block (Inner.save ctx (Inner.tick p))) E)
      as (p1 & Hp1 & Hor); [cbn; apply lookup_insert_eq|].
    exists p1. split; [done|]. destruct Hor as [->|[_ ?]]; [|done]. cbn.
    assert (Ec : context (Inner.save ctx (Inner.tick p)) = ctx).
    { unfold Inner.save. by rewrite decide_False by (cbn; congruence). }
    rewrite Ec, Ha. done.
  - intros w H2 Hw. rewrite H2 in H. cbn in H. unfold Proc.sem_signal in H.
    apply st_bind_inv in H as (r & k2 & E & H). unfold Data.sem_signal in E.
    apply (sem_op_inv (SemSet.signal key)) in E as (p' & d' & set' & Hp' & Hd' & Hs' & -> & ->).
    assert (p' = p) as -> by congruence. assert (d' = d) as -> by congruence.
    assert (set' = set) as -> by congruence. rewrite Hw in H. cbn in H.
    apply st_bind_inv in H as (u & k2 & E & H). st_inv H. rewrite Ha. split; [done|].
    unfold Manager.wake_up in E. apply st_bind_inv in E as (q & k2 & E' & E).
    apply the_proc_inv in E' as [Hq ->]. cbn in Hq. unfold Manager.write_proc, Manager.push_ready in E.
    st_inv E. eexists q, _. split; [done|]. cbn. split; [apply lookup_insert_eq|done].
Qed.
End kernel.

(** ** Waiters that are forgotten *)

(** Blocked, and waiting nowhere. *)
Definition stranded (s : Sched) (p : Z) : Prop :=
  a_status s !! p = Some Blocked /\ forall l, p ∉ waits s l.

Lemma dispatch_stranded s s' p : stranded s p -> dispatch s s' -> stranded s' p.
Proof.
  intros [Hb Hw] Hd. destruct Hd as [pre pid post _ _ Hpid]. split; cbn [a_status].
  - rewrite lookup_insert_ne; [done|]. congruence.
  - intros l. exact (Hw l).
Qed.

Lemma step_stranded e s s' p :
  sched_inv s -> allowed e s -> sched_step e s s' -> stranded s p -> stranded s' p.
Proof.
  intros Hi Ha Hs [Hb Hw].
  assert (Hcur : a_cur s <> p) by (intros <-; destruct (inv_cur s Hi); congruence).
  assert (Hset : forall st, <[a_cur s := st]> (a_status s) !! p = Some Blocked)
    by (intros st; by rewrite lookup_insert_ne).
  assert (Hfresh : a_counter s + 1 < 2 ^ 16 -> u16 (a_counter s + 1) <> p).
  { intros Hc <-. destruct (fresh_pid s (inv_core s Hi) Hc) as (_ & E & _). congruence. }
  destruct Hs; cbn [allowed] in Ha; try (eapply dispatch_stranded; [|eassumption]).
  - split; [apply Hset|exact Hw].
  - split; [|exact Hw]. cbn. rewrite lookup_insert_ne; [apply Hset|auto].
  - split; cbn [a_status].
    + rewrite lookup_insert_ne by done. rewrite set_all_lookup, decide_False; [done|].
      exact (Hw (AtProc (a_cur s))).
    + intros [q|r key]; [|exact (Hw (AtSem r key))]. cbn.
      destruct (decide (q = a_cur s)) as [->|Hne].
      * rewrite lookup_delete_eq. apply not_elem_of_nil.
      * rewrite lookup_delete_ne by done. exact (Hw (AtProc q)).
  - split; [apply Hset|]. intros [q|r key]; [|exact (Hw (AtSem r key))]. cbn.
    destruct (decide (q = target)) as [->|Hne].
    + rewrite lookup_insert_eq. cbn. rewrite set_insert_elem. intros [->|Hin]; [done|].
      by apply (Hw (AtProc target)).
    + rewrite lookup_insert_ne by done. exact (Hw (AtProc q)).
  - by split.
  - split; [apply Hset|]. intros [q|r k]; [exact (Hw (AtProc q))|]. cbn.
    destruct (sem_wait_queues _ _ _ _ _ _ _ H H0) as [_ ->].
    destruct (decide _); [|exact (Hw (AtSem r k))].
    rewrite elem_of_app, list_elem_of_singleton. intros [Hin| ->]; [|done]. by apply (Hw (AtSem r k)).
  - split; [done|]. intros [q|r' k]; [exact (Hw (AtProc q))|]. cbn.
    destruct (sem_wait_queues _ _ _ _ _ _ _ H H0) as [_ ->].
    destruct (decide _) as [[-> _]|]; [by destruct H1|exact (Hw (AtSem r' k))].
  - destruct (sem_signal_queues _ _ _ _ _ _ H H0) as (_ & Hp & Ho). specialize (Hp pid eq_refl).
    pose proof (Hw (AtSem ref key)) as Hk. cbn in Hk. rewrite Hp in Hk.
    apply not_elem_of_cons in Hk as [Hne Hk]. split; cbn [a_status]; [by rewrite lookup_insert_ne|].
    intros [q|r k]; [exact (Hw (AtProc q))|]. cbn.
    destruct (decide ((r, k) = (ref, key))) as [[= -> ->]|Hrk]; [exact Hk|].
    rewrite Ho by auto. exact (Hw (AtSem r k)).
  - destruct (sem_signal_queues _ _ _ _ _ _ H H0) as (_ & _ & Ho). split; [done|].
    intros [q|r' k]; [exact (Hw (AtProc q))|]. cbn. rewrite Ho; [exact (Hw (AtSem r' k))|].
    right. intros w ->. by destruct H1.
  - split; [done|]. intros [q|r k]; [exact (Hw (AtProc q))|]. cbn.
    rewrite (sem_reset_queues _ _ set key); [|done|right; exists value; cbn; by rewrite lookup_insert_eq|
      intros k' Hk'; cbn; by rewrite lookup_insert_ne].
    destruct (decide _); [apply not_elem_of_nil|exact (Hw (AtSem r k))].
  - split; [done|]. intros [q|r k]; [exact (Hw (AtProc q))|]. cbn.
    rewrite (sem_reset_queues _ _ set key); [|done|left; cbn; by rewrite lookup_delete_eq|
      intros k' Hk'; cbn; by rewrite lookup_delete_ne].
    destruct (decide _); [apply not_elem_of_nil|exact (Hw (AtSem r k))].
  - split; cbn [a_status]; [rewrite lookup_insert_ne; [done|auto]|].
    intros [q|r' k]; [exact (Hw (AtProc q))|]. cbn. unfold sem_queue.
    destruct (decide (r' = r)) as [->|Hne].
    + rewrite lookup_insert_eq. unfold SemSet.new. rewrite lookup_empty. apply not_elem_of_nil.
    + rewrite lookup_insert_ne by done. exact (Hw (AtSem r' k)).
  - split; [apply Hset|exact Hw].
  - by split.
Qed.

Section stranded.
Context {M D Q : Type} {L : Log} {X : X86} {MM : Machine M} {PF : Platform M} {BD : BlockDevice D}
  {C : Chrono} {BF : Bitflags} {UT : UnicodeTable} {AQ : ArrayQueue Q} {SE : Selectors}
  {EP : ElfParser}.
Abbreviation Kern := (Kernel M D Q).

Lemma run_stranded (k : Kern) tr p :
  reachable k -> run k tr -> stranded (abs k) p ->
  Forall (fun x => status <$> processes x.2 !! p = Some Blocked) tr.
Proof.
  intros Hk Hrun. revert Hk. induction Hrun as [k|k e u k1 tr Ha E Hrun IH]; intros Hk Hs; [constructor|].
  pose proof (reachable_sched_inv k Hk) as Hi.
  destruct (enter_step _ _ _ _ E (inv_current _ Hi)) as (ev & Hev & Hstep).
  pose proof (step_stranded _ _ _ _ Hi (entry_event_allowed _ _ _ Hev Ha) Hstep Hs) as Hs1.
  constructor; [|apply IH; [by eapply reach_enter|done]].
  destruct Hs1 as [Hb _]. cbn in Hb. by rewrite lookup_fmap in Hb.
Qed.

(** C37: recreating a semaphore strands its waiters.  When a program creates a
    semaphore under a key on which processes are blocked (or removes that key), the
    queue is discarded: in every later state of every run, those processes are still
    blocked. *)
Theorem new_sem_strands_waiters key value (k : Kern) p d (remove : bool) x k1 w tr :
  reachable k -> reachable k1 ->
  processes k !! processor_pid (sys k) = Some p -> proc_data p = Some d ->
  (if remove then Proc.remove_sem key k else Proc.new_sem key value k) = Ret (x, k1) ->
  w ∈ sem_queue (sem_sets k) (semaphores_ref d) key -> run k1 tr ->
  Forall (fun y => status <$> processes y.2 !! w = Some Blocked) tr.
Proof.
  intros Hk Hk1 Hp Hd H Hw Hrun. pose proof (reachable_sched_inv k Hk) as Hi.
  eapply run_stranded; [done|done|].
  pose proof (core_wait_blocked _ (inv_core _ Hi) (AtSem (semaphores_ref d) key) w Hw) as Hb.
  pose proof (core_wait_once _ (inv_core _ Hi)) as Honce.
  assert (Hset : exists set set' : SemSet.t, sem_sets k !! semaphores_ref d = Some set /\
    (set' !! key = None \/ exists v, set' !! key = Some (Sem.new v)) /\
    (forall k', k' <> key -> set' !! k' = set !! k') /\
    k1 = set_sem_sets (<[semaphores_ref d := set']> (sem_sets k)) k).
  { destruct remove; [unfold Proc.remove_sem, Data.remove_sem in H|unfold Proc.new_sem, Data.new_sem in H];
      apply st_bind_inv in H as (r & k2 & E & H); st_inv H.
    - apply (sem_op_inv (SemSet.remove key)) in E as (p' & d' & set & Hp' & Hd' & Hs & _ & ->).
      assert (p' = p) as -> by congruence. assert (d' = d) as -> by congruence.
      eexists set, _. split; [done|]. split; [left|split; [|done]]; cbn; [apply lookup_delete_eq|].
      intros k' Hk'. by rewrite lookup_delete_ne.
    - apply (sem_op_inv (SemSet.insert key value)) in E as (p' & d' & set & Hp' & Hd' & Hs & _ & ->).
      assert (p' = p) as -> by congruence. assert (d' = d) as -> by congruence.
      eexists set, _. split; [done|]. split; [right; exists value|split; [|done]]; cbn; [apply lookup_insert_eq|].
      intros k' Hk'. by rewrite lookup_insert_ne. }
  destruct Hset as (set & set' & Hs & Hr & Ho & ->). split; [exact Hb|]. intros l Hl.
  assert (Hl0 : w ∈ waits (abs k) l /\ l <> AtSem (semaphores_ref d) key).
  { destruct l as [q|r key']; cbn in Hl |- *; [done|].
    rewrite (sem_reset_queues _ _ set key set') in Hl by done.
    destruct (decide _) as [|Hne]; [by apply elem_of_nil in Hl|]. split; [done|]. intros [= -> ->]. tauto. }
  destruct Hl0 as [Hl0 Hne]. apply Hne. by eapply Honce.
Qed.
End stranded.

(** ** Witnesses *)

#[local] Existing Instances demo_log demo_x86 demo_x86_laws demo_uefi demo_selectors demo_elf_parser
  demo_platform demo_ArrayQueue demo_chrono demo_bitflags demo_unicode.

Lemma syscall_roundtrip_witness : Syscall_from 61 = WaitPid /\ 61 = syscall_number WaitPid.
Proof.
  destruct (syscall_roundtrip WaitPid 61) as [H1 H2]. split; [exact H1|].
  apply H2; [reflexivity|discriminate].
Defined.

Lemma exit_code_delivered_witness :
  exists x k1 p, Proc.exit 42 demo_ctx demo_joining = Ret (x, k1) /\
    processes k1 !! 2 = Some p /\ rax (regs (context p)) = 42.
Proof.
  destruct (Proc.exit 42 demo_ctx demo_joining) as [[x k1]| |] eqn:E; [|vm_compute in E; discriminate..].
  destruct (exit_code_delivered 42 demo_ctx demo_joining x k1) as [Hw _];
    [apply demo_joining_reachable|lia|vm_compute; reflexivity|exact E|].
  destruct (processes demo_joining !! 2) as [p|] eqn:Ep; [|vm_compute in Ep; discriminate].
  destruct (Hw 2 p) as (p1 & Hp1 & _ & Hc); [vm_compute; left|exact Ep|].
  exists x, k1, p1. split; [reflexivity|]. split; [exact Hp1|]. rewrite Hc. reflexivity.
Defined.

Lemma fork_copies_witness :
  exists x k1 c, Proc.fork (call_ctx 58 0 0 0) demo_running = Ret (x, k1) /\
    processes k1 !! 3 = Some c /\ rax (regs (context c)) = 0.
Proof.
  destruct (Proc.fork (call_ctx 58 0 0 0) demo_running) as [[x k1]| |] eqn:E;
    [|vm_compute in E; discriminate..].
  destruct (processes demo_running !! processor_pid (sys demo_running)) as [p|] eqn:Ep;
    [|vm_compute in Ep; discriminate].
  destruct (proc_vm p) as [v|] eqn:Ev;
    [|vm_compute in Ep; injection Ep as <-; vm_compute in Ev; discriminate].
  pose proof Ep as Ep'. vm_compute in Ep'. injection Ep' as Hp.
  pose proof Ev as Ev'. rewrite <- Hp in Ev'. vm_compute in Ev'. injection Ev' as Hv.
  destruct (fork_copies (call_ctx 58 0 0 0) demo_running x k1 p v)
    as (pp & c & cv & j & _ & Hc & _ & _ & _ & _ & Hctx & _).
  - apply demo_running_reachable.
  - vm_compute. reflexivity.
  - exact Ep.
  - rewrite <- Hp. reflexivity.
  - exact Ev.
  - rewrite <- Hp. vm_compute. reflexivity.
  - rewrite <- Hv. vm_compute. split; [discriminate|reflexivity].
  - rewrite <- Hv. vm_compute. reflexivity.
  - vm_compute. split; [discriminate|reflexivity].
  - rewrite <- Hv. vm_compute. reflexivity.
  - exact E.
  - exists x, k1, c. split; [reflexivity|]. split; [exact Hc|]. rewrite Hctx. reflexivity.
Defined.

Lemma unhandled_fault_restarts_witness :
  Service.page_fault_handler 0x1000 false demo_running = Ret (tt, demo_running).
Proof.
  destruct (processes demo_running !! processor_pid (sys demo_running)) as [p|] eqn:Ep;
    [|vm_compute in Ep; discriminate].
  destruct (proc_vm p) as [v|] eqn:Ev;
    [|vm_compute in Ep; injection Ep as <-; vm_compute in Ev; discriminate].
  pose proof Ep as Ep'. vm_compute in Ep'. injection Ep' as Hp.
  pose proof Ev as Ev'. rewrite <- Hp in Ev'. vm_compute in Ev'. injection Ev' as Hv.
  apply (unhandled_fault_restarts 0x1000 demo_running p v).
  - apply demo_running_reachable.
  - exact Ep.
  - rewrite <- Hp. discriminate.
  - exact Ev.
  - rewrite <- Hv. vm_compute. reflexivity.
Defined.

Lemma user_can_panic_kernel_witness :
  Service.dispatcher 4 64 (call_ctx 12 (2 ^ 47) 0 0) demo_running = Panic /\
  Service.dispatcher 4 64 (call_ctx 61 77 0 0) demo_running = Panic.
Proof.
  split.
  - destruct (user_can_panic_kernel 4 64 (call_ctx 12 (2 ^ 47) 0 0) demo_running) as (H & _).
    apply H; [reflexivity|]. vm_compute. split; [discriminate|reflexivity].
  - destruct (user_can_panic_kernel 4 64 (call_ctx 61 77 0 0) demo_running) as (_ & H & _).
    apply H; vm_compute; reflexivity.
Defined.

(** What the current process of a demo state refers to. *)
Definition current_data (k : demo_kernel) : option (ProcessInner * ProcessData) :=
  p ← processes k !! processor_pid (sys k); d ← proc_data p; Some (p, d).

Lemma close_result_inverted_witness :
  exists x k1, Service.dispatcher 4 64 (call_ctx 3 1 0 0) demo_running = Ret (x, k1) /\
    User.sys_close_file (rax (regs x)) = false.
Proof.
  destruct (current_data demo_running) as [[p d]|] eqn:E; [|vm_compute in E; discriminate].
  destruct (res_sets demo_running !! resources_ref d) as [s|] eqn:Es;
    [|vm_compute in E; injection E as <- <-; vm_compute in Es; discriminate].
  pose proof E as E'. vm_compute in E'. injection E' as Hp Hd.
  pose proof Es as Es'. rewrite <- Hd in Es'. vm_compute in Es'. injection Es' as Hs.
  destruct (close_result_inverted 4 64 (call_ctx 3 1 0 0) demo_running p d s) as (x & k1 & Ex & _ & Hx).
  - apply demo_running_reachable.
  - rewrite <- Hp. vm_compute. reflexivity.
  - rewrite <- Hp, <- Hd. reflexivity.
  - exact Es.
  - reflexivity.
  - exists x, k1. split; [exact Ex|]. rewrite Hx, <- Hs. vm_compute. reflexivity.
Defined.

Lemma blocking_sem_reports_failure_witness :
  exists x k1 p1, Service.dispatcher 4 64 (call_ctx 64 3 7 0) demo_sem = Ret (x, k1) /\
    processes k1 !! 2 = Some p1 /\ User.sys_sem_wait (rax (regs (context p1))) = false.
Proof.
  destruct (current_data demo_sem) as [[p d]|] eqn:E; [|vm_compute in E; discriminate].
  destruct (sem_sets demo_sem !! semaphores_ref d) as [s|] eqn:Es;
    [|vm_compute in E; injection E as <- <-; vm_compute in Es; discriminate].
  pose proof E as E'. vm_compute in E'. injection E' as Hp Hd.
  pose proof Es as Es'. rewrite <- Hd in Es'. vm_compute in Es'. injection Es' as Hs.
  destruct (Service.dispatcher 4 64 (call_ctx 64 3 7 0) demo_sem) as [[x k1]| |] eqn:Ex;
    [|vm_compute in Ex; discriminate..].
  destruct (blocking_sem_reports_failure 4 64 (call_ctx 64 3 7 0) demo_sem x k1 p d s) as [Hw _].
  - apply demo_sem_reachable.
  - rewrite <- Hp. vm_compute. reflexivity.
  - rewrite <- Hp. reflexivity.
  - rewrite <- Hp, <- Hd. reflexivity.
  - exact Es.
  - reflexivity.
  - exact Ex.
  - destruct Hw as (p1 & Hp1 & _ & _ & Hf); [reflexivity|exists 2; rewrite <- Hs; vm_compute; reflexivity|].
    exists x, k1, p1. split; [reflexivity|]. split; [exact Hp1|exact Hf].
Defined.

Lemma new_sem_strands_waiters_witness :
  Forall (fun y => status <$> processes y.2 !! 2 = Some Blocked) [(Timer demo_ctx, demo_later)].
Proof.
  destruct (current_data demo_other) as [[p d]|] eqn:E; [|vm_compute in E; discriminate].
  pose proof E as E'. vm_compute in E'. injection E' as Hp Hd.
  apply (new_sem_strands_waiters 7 1 demo_other p d false 1 demo_again 2).
  - apply demo_other_reachable.
  - apply demo_again_reachable.
  - rewrite <- Hp. vm_compute. reflexivity.
  - rewrite <- Hp, <- Hd. reflexivity.
  - vm_compute. reflexivity.
  - rewrite <- Hd. vm_compute. left.
  - eapply (run_cons _ _ tt); [exact I|vm_compute; reflexivity|constructor].
Defined.
